(** * Evidence browser: parsers, entity resolution, discovery engine

    A shallow embedding of the ingestion / resolution / ranking core of the
    evidence browser ([data_loader.py], [network_builder.py],
    [discovery_engine.py], [db.py]) together with the properties stated about
    it.

    Python [str] values are modelled as lists of characters ([list ascii]);
    a character is a code point in the range 0..255 (the Latin-1 block of
    Unicode) and the character classes used by [str.strip], [str.lower] and
    the [re] module ([\s], [\w], [\d]) are the Unicode ones restricted to that
    range. *)

From Stdlib Require Import Ascii String DecimalString.
From Stdlib Require Import Bool Arith NArith ZArith Lia List Permutation Sorted.
From Stdlib Require DecimalNat.
Import ListNotations.

(* ------------------------------------------------------------------ *)
(** ** Text primitives *)

Module Text.

(** A Python string. *)
Definition str := list ascii.

(** String literals. *)
Definition py (s : string) : str := list_ascii_of_string s.

Definition code (c : ascii) : N := N_of_ascii c.

Definition in_range (lo hi : N) (c : ascii) : bool :=
  ((lo <=? code c) && (code c <=? hi))%N.

Definition is_code (n : N) (c : ascii) : bool := (code c =? n)%N.

(** [str.isspace] for one character, which is also [\s] of [re] on [str]
    patterns: TAB..CR, FS..US, space, NEL and NBSP. *)
Definition isspace (c : ascii) : bool :=
  in_range 9 13 c || in_range 28 32 c || is_code 133 c || is_code 160 c.

(** [\d] of [re]: decimal digits (category Nd). *)
Definition isdigit (c : ascii) : bool := in_range 48 57 c.

(** [\w] of [re] on [str] patterns: alphanumeric characters
    ([str.isalnum]) and the underscore. *)
Definition isword (c : ascii) : bool :=
  in_range 48 57 c || in_range 65 90 c || is_code 95 c || in_range 97 122 c
  || is_code 170 c || in_range 178 179 c || is_code 181 c
  || in_range 185 186 c || in_range 188 190 c
  || in_range 192 214 c || in_range 216 246 c || in_range 248 255 c.

(** [str.lower] on one character. *)
Definition lower_char (c : ascii) : ascii :=
  if in_range 65 90 c || in_range 192 214 c || in_range 216 222 c
  then ascii_of_N (code c + 32) else c.

(** [s.lower()] *)
Definition lower (s : str) : str := map lower_char s.

(** [s.lstrip()] *)
Fixpoint lstrip (s : str) : str :=
  match s with
  | [] => []
  | c :: t => if isspace c then lstrip t else s
  end.

(** [s.rstrip()] *)
Fixpoint rstrip (s : str) : str :=
  match s with
  | [] => []
  | c :: t =>
      match rstrip t with
      | [] => if isspace c then [] else [c]
      | r => c :: r
      end
  end.

(** [s.strip()] *)
Definition strip (s : str) : str := rstrip (lstrip s).

Definition eqb (a b : str) : bool :=
  if list_eq_dec ascii_dec a b then true else false.

(** [s.startswith(p)] *)
Fixpoint startswith (p s : str) : bool :=
  match p, s with
  | [], _ => true
  | _ :: _, [] => false
  | a :: p', b :: s' => Ascii.eqb a b && startswith p' s'
  end.

(** [p in s] for strings. *)
Fixpoint contains (p s : str) : bool :=
  startswith p s ||
  match s with
  | [] => false
  | _ :: t => contains p t
  end.

(** [s[:n]] for a non-negative [n]. *)
Definition prefix (n : nat) (s : str) : str := firstn n s.

(** [sep.join(l)] *)
Fixpoint join (sep : str) (l : list str) : str :=
  match l with
  | [] => []
  | [x] => x
  | x :: t => x ++ sep ++ join sep t
  end.

(** [s.split()]: the maximal runs of non-whitespace characters. *)
Fixpoint split_ws_aux (cur : str) (s : str) : list str :=
  match s with
  | [] => match cur with [] => [] | _ => [rev cur] end
  | c :: t =>
      if isspace c
      then match cur with
           | [] => split_ws_aux [] t
           | _ => rev cur :: split_ws_aux [] t
           end
      else split_ws_aux (c :: cur) t
  end.

Definition split_ws (s : str) : list str := split_ws_aux [] s.

(** [str(n)] and [f"{n}"] for a non-negative integer. *)
Definition of_nat (n : nat) : str := py (NilEmpty.string_of_uint (Nat.to_uint n)).

(** Lexicographic comparison of strings by code point: [a <= b]. *)
Fixpoint leb (a b : str) : bool :=
  match a, b with
  | [], _ => true
  | _ :: _, [] => false
  | x :: a', y :: b' =>
      if (code x <? code y)%N then true
      else if (code y <? code x)%N then false
      else leb a' b'
  end.

End Text.

Import Text.

(* ------------------------------------------------------------------ *)
(** ** Name normalisation ([network_builder.py]) *)

(** [re.sub(r'[^\w\s]', '', name)] *)
Definition drop_punct (s : str) : str :=
  filter (fun c => isword c || isspace c) s.

(** [re.sub(r'\s+', ' ', name)]: every maximal run of whitespace becomes one
    space.  [in_run] tells that the previous character was whitespace. *)
Fixpoint squeeze_ws (in_run : bool) (s : str) : str :=
  match s with
  | [] => []
  | c :: t =>
      if isspace c
      then (if in_run then squeeze_ws true t else " "%char :: squeeze_ws true t)
      else c :: squeeze_ws false t
  end.

Definition normalize_name (name : str) : str :=
  match name with
  | [] => []
  | _ => strip (squeeze_ws false (drop_punct (lower (strip name))))
  end.

(* ------------------------------------------------------------------ *)
(** ** Entity resolution ([network_builder.py]) *)

Module Person.
Record person_info := { devices : list str; role : str }.
End Person.

(** [PRIMARY_PEOPLE], in the insertion order of the dictionary. *)
Definition PRIMARY_PEOPLE : list (str * Person.person_info) :=
  [ (py "Tina Peters",
      {| Person.devices := [py "iPhone 11"; py "iPhone SE Black"; py "iPhone 7"];
         Person.role := py "defendant" |});
    (py "Gerald Wood",
      {| Person.devices := [py "iPhone"]; Person.role := py "associate" |});
    (py "Wendi Woods",
      {| Person.devices := [py "iPhone"; py "HP Desktop"; py "MSI Laptop"];
         Person.role := py "associate" |});
    (py "Sherronna Bishop",
      {| Person.devices := [py "HP Laptop"]; Person.role := py "associate" |});
    (py "Sandra Brown",
      {| Person.devices := [py "Samsung"; py "Motorola"];
         Person.role := py "associate" |});
    (py "Belinda Knisley",
      {| Person.devices := [py "Phone"]; Person.role := py "colleague" |});
    (py "Joy Quinn",
      {| Person.devices := [py "iPhone XR"]; Person.role := py "family" |});
    (py "Zachary Quinn",
      {| Person.devices := [py "Phone"]; Person.role := py "family" |});
    (py "Conan Hayes",
      {| Person.devices := [py "T-Mobile records"; py "Bank records"];
         Person.role := py "associate" |}) ].

(** [NAME_ALIASES] *)
Definition NAME_ALIASES : list (str * list str) :=
  [ (py "tina peters", [py "tina"; py "mom"; py "tina p"]);
    (py "wendi woods",
      [py "wendi"; py "wendi wood"; py "wendy woods"; py "wendy wood"]);
    (py "joy quinn", [py "joy"]);
    (py "zachary quinn", [py "zachary"; py "zach"; py "zach quinn"]);
    (py "belinda knisley", [py "belinda"]);
    (py "sherronna bishop", [py "sherronna"]);
    (py "sandra brown", [py "sandra"; py "sandye brown"; py "sandye"]);
    (py "gerald wood", [py "gerald"; py "jerry wood"]);
    (py "conan hayes", [py "conan"]) ].

(** [DEVICE_PREFIXES] *)
Definition DEVICE_PREFIXES : list (str * str) :=
  [ (py "belinda-knisley", py "Belinda Knisley");
    (py "joy-quinn", py "Joy Quinn");
    (py "wendi-woods", py "Wendi Woods");
    (py "zachary-quinn", py "Zachary Quinn") ].

Definition primary_names : list str := map fst PRIMARY_PEOPLE.

(** The first primary whose normalised name is [n]. *)
Definition primary_by_norm (n : str) : option str :=
  find (fun p => eqb (normalize_name p) n) primary_names.

(** The alias loop for one entry of [NAME_ALIASES]. *)
Fixpoint alias_scan (norm primary : str) (aliases : list str) : option str :=
  match aliases with
  | [] => None
  | alias :: rest =>
      if eqb norm alias || eqb norm (normalize_name alias)
      then match primary_by_norm primary with
           | Some p => Some p
           | None => alias_scan norm primary rest
           end
      else alias_scan norm primary rest
  end.

Fixpoint alias_match (norm : str) (table : list (str * list str)) : option str :=
  match table with
  | [] => None
  | (primary, aliases) :: rest =>
      match alias_scan norm primary aliases with
      | Some p => Some p
      | None => alias_match norm rest
      end
  end.

(** The partial-match loop: last-name-only inputs are skipped, otherwise
    every token of the primary's normalised name has to occur in [norm]. *)
Fixpoint partial_match (norm : str) (people : list str) : option str :=
  match people with
  | [] => None
  | primary :: rest =>
      let parts := split_ws (normalize_name primary) in
      if 2 <=? length parts then
        if eqb norm (last parts []) && (3 <? length (last parts []))
        then partial_match norm rest
        else if forallb (fun p => contains p norm) parts
             then Some primary
             else partial_match norm rest
      else partial_match norm rest
  end.

(** [match_primary] after the normalisation of its argument. *)
Definition match_norm (norm : str) : option str :=
  if (length norm <? 3) then None
  else match primary_by_norm norm with
       | Some p => Some p
       | None =>
           match alias_match norm NAME_ALIASES with
           | Some p => Some p
           | None => partial_match norm primary_names
           end
       end.

Definition match_primary (name : str) : option str :=
  match_norm (normalize_name name).

(* ------------------------------------------------------------------ *)
(** ** Chat parsers ([data_loader.py]) *)

Module Regex.

(** A literal: the rest of [s] after the prefix [p]. *)
Fixpoint lit (p s : str) : option str :=
  match p with
  | [] => Some s
  | a :: p' =>
      match s with
      | [] => None
      | b :: s' => if Ascii.eqb a b then lit p' s' else None
      end
  end.

(** The longest prefix of characters in a class, and the rest. *)
Fixpoint span (f : ascii -> bool) (s : str) : str * str :=
  match s with
  | [] => ([], [])
  | c :: t =>
      if f c then let (a, b) := span f t in (c :: a, b) else ([], s)
  end.

(** [\d{n}] *)
Fixpoint digits (n : nat) (s : str) : option (str * str) :=
  match n with
  | 0 => Some ([], s)
  | S n' =>
      match s with
      | c :: t =>
          if isdigit c
          then match digits n' t with
               | Some (d, r) => Some (c :: d, r)
               | None => None
               end
          else None
      | [] => None
      end
  end.

Definition is_char (a : ascii) (c : ascii) : bool := Ascii.eqb a c.
Definition not_char (a : ascii) (c : ascii) : bool := negb (Ascii.eqb a c).

(** The newline character, the only one [.] does not match. *)
Definition nl : ascii := ascii_of_nat 10.

(** [(.+)] at the end of a pattern: the longest run without a newline, which
    must not be empty. *)
Definition dot_plus (s : str) : option str :=
  match fst (span (not_char nl) s) with
  | [] => None
  | g => Some g
  end.

End Regex.

Import Regex.

Definition bind {A B} (o : option A) (f : A -> option B) : option B :=
  match o with
  | Some a => f a
  | None => None
  end.

Notation "'do' x <- o ; k" := (bind o (fun x => k))
  (at level 10, x pattern, o at level 100, k at level 200).

(** [pat.match(line)] for the message pattern of [parse_chats] and
    [parse_chat_threads]; the result is the three groups.  The pattern reads,
    piece by piece: the literal dash, space and opening bracket; group 1, a
    date [\d{4}-\d{2}-\d{2}], the letter T and one or more characters other
    than a closing bracket; the literal closing bracket, space and two stars;
    group 2, any number of characters other than a star; the literal two
    stars, colon and space; group 3, [.+].  A run of non-brackets that is
    followed by a bracket is the maximal one, and so is a run of non-stars
    followed by a star, so the backtracking of the engine never finds another
    match than the greedy one. *)
Definition match_msg (line : str) : option (str * str * str) :=
  do s1 <- lit (py "- [") line;
  do (y, s2) <- digits 4 s1;
  do s3 <- lit (py "-") s2;
  do (m, s4) <- digits 2 s3;
  do s5 <- lit (py "-") s4;
  do (d, s6) <- digits 2 s5;
  do s7 <- lit (py "T") s6;
  let (t, s8) := span (not_char "]") s7 in
  match t with
  | [] => None
  | _ =>
      do s9 <- lit (py "] **") s8;
      let (sender, s10) := span (not_char "*") s9 in
      do s11 <- lit (py "**: ") s10;
      do body <- dot_plus s11;
      Some (y ++ py "-" ++ m ++ py "-" ++ d ++ py "T" ++ t, sender, body)
  end.

(** The header pattern: the literal [### Chat: ] and the group [.+]. *)
Definition match_header (line : str) : option str :=
  do s <- lit (py "### Chat: ") line; dot_plus s.

(** The pattern of the started line: the literal [**Started:** ] and the
    group [.+]. *)
Definition match_started (line : str) : option str :=
  do s <- lit (py "**Started:** ") line; dot_plus s.

(** [s.rfind(ch)]; [None] stands for -1. *)
Fixpoint rfind (ch : ascii) (s : str) : option nat :=
  match s with
  | [] => None
  | c :: t =>
      match rfind ch t with
      | Some i => Some (S i)
      | None => if Ascii.eqb c ch then Some 0 else None
      end
  end.

(** [s.endswith(ch)] for a one-character [ch]. *)
Definition endswith_char (ch : ascii) (s : str) : bool :=
  match rev s with
  | c :: _ => Ascii.eqb c ch
  | [] => false
  end.

Record chat_msg := {
  timestamp : str;
  sender : str;
  body : str;
  source : str
}.

(** The shared post-processing of a matched line: the body is stripped and a
    trailing parenthesised suffix becomes the source; [body[idx+1:-1]] is
    [skipn (idx+1) (removelast body)]. *)
Definition split_source (g3 : str) : str * str :=
  let body := strip g3 in
  match rfind "(" body with
  | Some (S i) =>
      if endswith_char ")" body
      then (strip (firstn (S i) body), skipn (S (S i)) (removelast body))
      else (body, [])
  | _ => (body, [])
  end.

Definition parse_chat_line (line : str) : option chat_msg :=
  do (ts, snd_, g3) <- match_msg line;
  let (b, src) := split_source g3 in
  Some {| timestamp := ts; sender := snd_; body := b; source := src |}.

(** [parse_chats]: the file is the list of its lines, as iterating over the
    open file gives them. *)
Fixpoint parse_chats (lines : list str) : list chat_msg :=
  match lines with
  | [] => []
  | line :: rest =>
      match parse_chat_line line with
      | Some m => m :: parse_chats rest
      | None => parse_chats rest
      end
  end.

(** The line [- [timestamp] **sender**: body (source)] of a record. *)
Definition serialize_chat (r : chat_msg) : str :=
  py "- [" ++ timestamp r ++ py "] **" ++ sender r ++ py "**: "
  ++ body r ++ py " (" ++ source r ++ py ")".

Record thread := {
  thread_id : nat;
  t_source : str;
  started : str;
  messages : list chat_msg;
  participants : list str
}.

(** [set.add]: participants are kept in order of first appearance (the order
    in which Python lists a set is not specified). *)
Definition set_add (x : str) (l : list str) : list str :=
  if existsb (eqb x) l then l else l ++ [x].

Record thread_state := {
  threads : list thread;
  current_thread : option thread;
  next_id : nat
}.

Definition flush (st : thread_state) : list thread :=
  match current_thread st with
  | Some t => match messages t with [] => threads st | _ => threads st ++ [t] end
  | None => threads st
  end.

Definition add_message (t : thread) (m : chat_msg) : thread :=
  {| thread_id := thread_id t; t_source := t_source t; started := started t;
     messages := messages t ++ [m];
     participants := match sender m with
                     | [] => participants t
                     | _ => set_add (sender m) (participants t)
                     end |}.

(** One iteration of the loop of [parse_chat_threads]. *)
Definition thread_step (st : thread_state) (line : str) : thread_state :=
  match match_header line with
  | Some g =>
      {| threads := flush st;
         current_thread :=
           Some {| thread_id := S (next_id st); t_source := strip g;
                   started := []; messages := []; participants := [] |};
         next_id := S (next_id st) |}
  | None =>
      match current_thread st, match_started line with
      | Some t, Some g =>
          {| threads := threads st;
             current_thread :=
               Some {| thread_id := thread_id t; t_source := t_source t;
                       started := strip g; messages := messages t;
                       participants := participants t |};
             next_id := next_id st |}
      | _, _ =>
          match parse_chat_line line with
          | Some m =>
              match current_thread st with
              | Some t =>
                  {| threads := threads st;
                     current_thread := Some (add_message t m);
                     next_id := next_id st |}
              | None =>
                  let t :=
                    {| thread_id := S (next_id st);
                       t_source := match source m with
                                   | [] => py "Unknown"
                                   | s => s
                                   end;
                       started := timestamp m; messages := [];
                       participants := [] |} in
                  {| threads := threads st;
                     current_thread := Some (add_message t m);
                     next_id := S (next_id st) |}
              end
          | None => st
          end
      end
  end.

Record thread_summary := {
  s_thread_id : nat;
  s_source : str;
  s_participants : list str;
  message_count : nat;
  first_date : str;
  last_date : str;
  last_message_preview : str
}.

Definition summarize (t : thread) : thread_summary :=
  let msgs := messages t in
  let first := match msgs with
               | m :: _ => timestamp m
               | [] => started t
               end in
  {| s_thread_id := thread_id t;
     s_source := t_source t;
     s_participants := match participants t with
                       | [] => [py "Unknown"]
                       | l => l
                       end;
     message_count := length msgs;
     first_date := first;
     last_date := match rev msgs with
                  | m :: _ => timestamp m
                  | [] => first
                  end;
     last_message_preview := match rev msgs with
                             | m :: _ => prefix 150 (body m)
                             | [] => []
                             end |}.

(** The threads collected by the loop and the final flush. *)
Definition collect_threads (lines : list str) : list thread :=
  flush (fold_left thread_step lines
           {| threads := []; current_thread := None; next_id := 0 |}).

(** [parse_chat_threads]: the summaries, and the messages by thread id (a
    dictionary, here in insertion order). *)
Definition parse_chat_threads (lines : list str)
  : list thread_summary * list (nat * list chat_msg) :=
  let ts := collect_threads lines in
  (map summarize ts, map (fun t => (thread_id t, messages t)) ts).

(* ------------------------------------------------------------------ *)
(** ** Python containers and slices *)

Module Py.

(** [l[a:b]] with Python's treatment of negative and out-of-range bounds. *)
Definition clamp (n i : Z) : Z :=
  if (i <? 0)%Z then Z.max (i + n) 0 else Z.min i n.

Definition slice {A} (l : list A) (a b : Z) : list A :=
  let n := Z.of_nat (length l) in
  let a' := clamp n a in
  let b' := clamp n b in
  firstn (Z.to_nat (b' - a')) (skipn (Z.to_nat a') l).

(** Dictionaries keep insertion order; they are association lists with at
    most one entry for a key. *)
Fixpoint lookup {V} (k : str) (d : list (str * V)) : option V :=
  match d with
  | [] => None
  | (k', v) :: t => if eqb k k' then Some v else lookup k t
  end.

(** [d[k] = v]: an existing entry is replaced in place, a new one goes to
    the end. *)
Fixpoint dict_set {V} (k : str) (v : V) (d : list (str * V)) : list (str * V) :=
  match d with
  | [] => [(k, v)]
  | (k', v') :: t => if eqb k k' then (k, v) :: t else (k', v') :: dict_set k v t
  end.

(** [x in l] *)
Definition mem (x : str) (l : list str) : bool := existsb (eqb x) l.

(** [list(set(l))] and [set.add]: sets are listed in order of first
    appearance (Python does not specify the order). *)
Definition set_add (x : str) (l : list str) : list str :=
  if mem x l then l else l ++ [x].

Definition set_of (l : list str) : list str :=
  fold_left (fun acc x => set_add x acc) l [].

(** Stable insertion sort: [sorted], [list.sort] and an [ORDER BY] clause;
    [le x y] tells that [x] may stand before [y]. *)
Fixpoint insert_by {A} (le : A -> A -> bool) (x : A) (l : list A) : list A :=
  match l with
  | [] => [x]
  | y :: t => if le x y then x :: l else y :: insert_by le x t
  end.

Definition sort_by {A} (le : A -> A -> bool) (l : list A) : list A :=
  fold_right (insert_by le) [] l.

End Py.

(* ------------------------------------------------------------------ *)
(** ** MD5 ([hashlib.md5]), after RFC 1321 *)

Module MD5.

Local Open Scope Z_scope.

Definition w32 (x : Z) : Z := x mod 4294967296.

Definition rotl (x : Z) (s : Z) : Z :=
  w32 (Z.lor (Z.shiftl x s) (Z.shiftr x (32 - s))).

Definition lnot32 (x : Z) : Z := Z.lxor x 4294967295.

Definition K : list Z :=
  [ 3614090360; 3905402710; 606105819; 3250441966;
    4118548399; 1200080426; 2821735955; 4249261313;
    1770035416; 2336552879; 4294925233; 2304563134;
    1804603682; 4254626195; 2792965006; 1236535329;
    4129170786; 3225465664; 643717713; 3921069994;
    3593408605; 38016083; 3634488961; 3889429448;
    568446438; 3275163606; 4107603335; 1163531501;
    2850285829; 4243563512; 1735328473; 2368359562;
    4294588738; 2272392833; 1839030562; 4259657740;
    2763975236; 1272893353; 4139469664; 3200236656;
    681279174; 3936430074; 3572445317; 76029189;
    3654602809; 3873151461; 530742520; 3299628645;
    4096336452; 1126891415; 2878612391; 4237533241;
    1700485571; 2399980690; 4293915773; 2240044497;
    1873313359; 4264355552; 2734768916; 1309151649;
    4149444226; 3174756917; 718787259; 3951481745 ].

Definition S : list Z :=
  [ 7; 12; 17; 22; 7; 12; 17; 22; 7; 12; 17; 22; 7; 12; 17; 22;
    5; 9; 14; 20; 5; 9; 14; 20; 5; 9; 14; 20; 5; 9; 14; 20;
    4; 11; 16; 23; 4; 11; 16; 23; 4; 11; 16; 23; 4; 11; 16; 23;
    6; 10; 15; 21; 6; 10; 15; 21; 6; 10; 15; 21; 6; 10; 15; 21 ].

Definition state := (Z * Z * Z * Z)%type.

Definition init : state := (1732584193, 4023233417, 2562383102, 271733878).

(** One of the 64 operations of a block, on the words [M] of the block. *)
Definition round (M : list Z) (st : state) (i : nat) : state :=
  let '(a, b, c, d) := st in
  let iz := Z.of_nat i in
  let '(f, g) :=
    if iz <? 16 then (Z.lor (Z.land b c) (Z.land (lnot32 b) d), iz)
    else if iz <? 32 then
      (Z.lor (Z.land d b) (Z.land (lnot32 d) c), (5 * iz + 1) mod 16)
    else if iz <? 48 then (Z.lxor b (Z.lxor c d), (3 * iz + 5) mod 16)
    else (Z.lxor c (Z.lor b (lnot32 d)), (7 * iz) mod 16) in
  let f' := w32 (f + a + nth i K 0 + nth (Z.to_nat g) M 0) in
  (d, w32 (b + rotl f' (nth i S 0)), b, c).

(** A little-endian 32-bit word from four bytes. *)
Definition word_of (bs : list Z) : Z :=
  nth 0 bs 0 + 256 * nth 1 bs 0 + 65536 * nth 2 bs 0 + 16777216 * nth 3 bs 0.

Fixpoint chunks {A} (n : nat) (count : nat) (l : list A) : list (list A) :=
  match count with
  | O => []
  | Datatypes.S c => firstn n l :: chunks n c (skipn n l)
  end.

Definition block (st : state) (bytes : list Z) : state :=
  let M := map word_of (chunks 4 16 bytes) in
  let '(a, b, c, d) := st in
  let '(a', b', c', d') := fold_left (round M) (seq 0 64) st in
  (w32 (a + a'), w32 (b + b'), w32 (c + c'), w32 (d + d')).

(** The eight bytes of a 64-bit length, least significant first. *)
Definition length_bytes (bits : Z) : list Z :=
  map (fun i => (Z.shiftr bits (8 * Z.of_nat i)) mod 256) (seq 0 8).

Definition pad (msg : list Z) : list Z :=
  let n := Z.of_nat (length msg) in
  let zeros := Z.to_nat ((55 - n) mod 64) in
  msg ++ [128] ++ repeat 0 zeros ++ length_bytes ((8 * n) mod 18446744073709551616).

Definition digest_words (msg : list Z) : state :=
  let p := pad msg in
  fold_left block (chunks 64 (length p / 64) p) init.

Definition hex_digit (n : Z) : ascii :=
  nth (Z.to_nat n) (py "0123456789abcdef") "0"%char.

Definition hex_byte (b : Z) : str := [hex_digit (b / 16); hex_digit (b mod 16)].

Definition word_bytes (w : Z) : list Z :=
  [w mod 256; (w / 256) mod 256; (w / 65536) mod 256; (w / 16777216) mod 256].

(** [hashlib.md5(bytes).hexdigest()] *)
Definition hexdigest (msg : list Z) : str :=
  let '(a, b, c, d) := digest_words msg in
  flat_map hex_byte (word_bytes a ++ word_bytes b ++ word_bytes c ++ word_bytes d).

(** [s.encode()]: UTF-8, for code points below 256. *)
Definition encode (s : str) : list Z :=
  flat_map (fun c =>
              let n := Z.of_N (code c) in
              if n <? 128 then [n] else [192 + n / 64; 128 + n mod 64]) s.

End MD5.

(* ------------------------------------------------------------------ *)
(** ** Relationship graph ([network_builder.py]) *)

Module Network.

(** [make_id] *)
Definition make_id (name : str) : str :=
  prefix 12 (MD5.hexdigest (MD5.encode (normalize_name name))).

(** What the four parsers of the module return for the files of one device
    (the owner is attached by [build_network]). *)
Record contact := { c_name : str; c_source : str }.

Record call := {
  call_timestamp : str; direction : str; status : str;
  duration : str; number : str; call_source : str
}.

Record chat_thread := {
  platform : str;
  participants : list str;
  t_message_count : nat;
  started : option str
}.

Record email := { e_from : str; e_to : str }.

Record export := {
  contacts : list contact;
  calls : list call;
  chats : list chat_thread;
  emails : list email
}.

(** An entry of the legal-corpus mention index. *)
Record case_file := { filename : str; case : str; mentions : nat }.

Record node := {
  id : str;
  name : str;
  type : str;
  role : str;
  devices : list str;
  contact_count : nat;
  call_count : nat;
  message_count : nat;
  email_count : nat;
  appears_on : list str;
  case_files : list case_file;
  case_file_count : nat;
  total_mentions : nat
}.

(** A contribution record of an edge (an entry of its [types] list). *)
Inductive contribution :=
| shared_contact (count : nat) (appears_on_devices : list str)
| chat (platform : str) (message_count : nat) (date_range : option str).

Record edge_data := { types : list contribution; weight : nat }.

Record edge := {
  source : str;
  target : str;
  e_types : list contribution;
  e_weight : nat
}.

Record network := { nodes : list node; edges : list edge }.

(** The accumulator of unmatched contacts, [contact_by_name]. *)
Record contact_info := {
  ci_devices : list str;
  ci_sources : list str;
  display_name : str
}.

Definition key := (str * str)%type.

Definition key_eqb (a b : key) : bool :=
  eqb (fst a) (fst b) && eqb (snd a) (snd b).

(** [tuple(sorted([a, b]))] *)
Definition edge_key (a b : str) : key := if leb a b then (a, b) else (b, a).

Record graph := {
  g_nodes : list (str * node);
  g_edges : list (key * edge_data)
}.

(** [nodes[nid] = f(nodes[nid])] *)
Fixpoint update_node (nid : str) (f : node -> node) (ns : list (str * node))
  : list (str * node) :=
  match ns with
  | [] => []
  | (k, n) :: t =>
      if eqb nid k then (k, f n) :: t else (k, n) :: update_node nid f t
  end.

(** [edges[k] = f(edges[k])] on the [defaultdict]: a missing entry starts
    as an edge without contributions and of weight 0. *)
Fixpoint update_edge (k : key) (f : edge_data -> edge_data)
  (es : list (key * edge_data)) : list (key * edge_data) :=
  match es with
  | [] => [(k, f {| types := []; weight := 0 |})]
  | (k', e) :: t =>
      if key_eqb k k' then (k', f e) :: t else (k', e) :: update_edge k f t
  end.

Definition is_shared (t : contribution) : bool :=
  match t with shared_contact _ _ => true | _ => false end.

Definition is_chat (t : contribution) : bool :=
  match t with chat _ _ _ => true | _ => false end.

Definition is_chat_on (p : str) (t : contribution) : bool :=
  match t with chat q _ _ => eqb q p | _ => false end.

(** The first element of [[t for t in types if sel(t)]] is changed in
    place. *)
Fixpoint update_first (sel : contribution -> bool)
  (f : contribution -> contribution) (ts : list contribution)
  : list contribution :=
  match ts with
  | [] => []
  | t :: rest => if sel t then f t :: rest else t :: update_first sel f rest
  end.

Definition add_weight (w : nat) (e : edge_data) : edge_data :=
  {| types := types e; weight := weight e + w |}.

Definition set_types (f : list contribution -> list contribution)
  (e : edge_data) : edge_data :=
  {| types := f (types e); weight := weight e |}.

Definition bump_shared (owner : str) (t : contribution) : contribution :=
  match t with
  | shared_contact n ds =>
      shared_contact (n + 1) (if Py.mem owner ds then ds else ds ++ [owner])
  | _ => t
  end.

Definition bump_count (t : contribution) : contribution :=
  match t with
  | shared_contact n ds => shared_contact (n + 1) ds
  | _ => t
  end.

Definition bump_chat (mc : nat) (t : contribution) : contribution :=
  match t with
  | chat p n d => chat p (n + mc) d
  | _ => t
  end.

Definition with_node (f : node -> node) (nid : str) (g : graph) : graph :=
  {| g_nodes := update_node nid f (g_nodes g); g_edges := g_edges g |}.

Definition with_edge (f : edge_data -> edge_data) (k : key) (g : graph) : graph :=
  {| g_nodes := g_nodes g; g_edges := update_edge k f (g_edges g) |}.

Definition has_node (nid : str) (g : graph) : bool :=
  existsb (fun kn => eqb nid (fst kn)) (g_nodes g).

(** [nodes[nid] = n] *)
Definition put_node (nid : str) (n : node) (g : graph) : graph :=
  {| g_nodes := Py.dict_set nid n (g_nodes g); g_edges := g_edges g |}.

(** Step 1: the primary nodes. *)
Definition primary_node (p : str * Person.person_info) : str * node :=
  let nid := make_id (fst p) in
  (nid, {| id := nid; name := fst p; type := py "primary";
           role := Person.role (snd p); devices := Person.devices (snd p);
           contact_count := 0; call_count := 0; message_count := 0;
           email_count := 0; appears_on := []; case_files := [];
           case_file_count := 0; total_mentions := 0 |}).

Definition add_primary (g : graph) (p : str * Person.person_info) : graph :=
  put_node (fst (primary_node p)) (snd (primary_node p)) g.

(** Step 2, one contact [c] found on the device of [owner]. *)
Definition note_contact (n : node) (owner : str) : node :=
  {| id := id n; name := name n; type := type n; role := role n;
     devices := devices n; contact_count := contact_count n + 1;
     call_count := call_count n; message_count := message_count n;
     email_count := email_count n; appears_on := appears_on n ++ [owner];
     case_files := case_files n; case_file_count := case_file_count n;
     total_mentions := total_mentions n |}.

Definition track (norm : str) (c : contact) (owner : str)
  (cb : list (str * contact_info)) : list (str * contact_info) :=
  let old := match Py.lookup norm cb with
             | Some i => i
             | None => {| ci_devices := []; ci_sources := []; display_name := [] |}
             end in
  Py.dict_set norm
    {| ci_devices := Py.set_add owner (ci_devices old);
       ci_sources := Py.set_add (c_source c) (ci_sources old);
       display_name := c_name c |} cb.

Definition contact_step (st : graph * list (str * contact_info))
  (oc : str * contact) : graph * list (str * contact_info) :=
  let '(g, cb) := st in
  let '(owner, c) := oc in
  let norm := normalize_name (c_name c) in
  if length norm <? 2 then st
  else
    match match_primary (c_name c) with
    | Some primary =>
        let nid := make_id primary in
        let g1 := with_node (fun n => note_contact n owner) nid g in
        match match_primary owner with
        | Some owner_primary =>
            if eqb owner_primary primary then (g1, cb)
            else
              let k := edge_key (make_id owner_primary) nid in
              let g2 := with_edge (add_weight 1) k g1 in
              let g3 :=
                with_edge
                  (set_types (fun ts =>
                     if existsb is_shared ts
                     then update_first is_shared (bump_shared owner) ts
                     else ts ++ [shared_contact 1 [owner]])) k g2 in
              (g3, cb)
        | None => (g1, cb)
        end
    | None => (g, track norm c owner cb)
    end.

(** Step 3, one entry of [contact_by_name]. *)
Definition secondary_contact_node (nid nm : str) (ds : list str) : node :=
  {| id := nid; name := nm; type := py "secondary"; role := py "contact";
     devices := []; contact_count := length ds; call_count := 0;
     message_count := 0; email_count := 0; appears_on := ds;
     case_files := []; case_file_count := 0; total_mentions := 0 |}.

Definition owner_edge_step (nid : str) (ds : list str) (g : graph)
  (device_owner : str) : graph :=
  match match_primary device_owner with
  | Some owner_primary =>
      let k := edge_key (make_id owner_primary) nid in
      let g1 := with_edge (add_weight 1) k g in
      with_edge
        (set_types (fun ts =>
           if existsb is_shared ts then ts
           else ts ++ [shared_contact 1 ds])) k g1
  | None => g
  end.

Definition promote_step (g : graph) (entry : str * contact_info) : graph :=
  let info := snd entry in
  if 2 <=? length (ci_devices info) then
    let nm := display_name info in
    let nid := make_id nm in
    let g1 := if has_node nid g then g
              else put_node nid (secondary_contact_node nid nm (ci_devices info)) g in
    fold_left (owner_edge_step nid (ci_devices info)) (ci_devices info) g1
  else g.

(** Step 4, one call. *)
Definition note_call (n : node) : node :=
  {| id := id n; name := name n; type := type n; role := role n;
     devices := devices n; contact_count := contact_count n;
     call_count := call_count n + 1; message_count := message_count n;
     email_count := email_count n; appears_on := appears_on n;
     case_files := case_files n; case_file_count := case_file_count n;
     total_mentions := total_mentions n |}.

Definition call_step (g : graph) (oc : str * call) : graph :=
  match match_primary (fst oc) with
  | Some owner_primary => with_node note_call (make_id owner_primary) g
  | None => g
  end.

(** Step 5, one participant of one thread. *)
Definition note_messages (mc : nat) (n : node) : node :=
  {| id := id n; name := name n; type := type n; role := role n;
     devices := devices n; contact_count := contact_count n;
     call_count := call_count n; message_count := message_count n + mc;
     email_count := email_count n; appears_on := appears_on n;
     case_files := case_files n; case_file_count := case_file_count n;
     total_mentions := total_mentions n |}.

Definition chat_contact_node (nid nm owner : str) (mc : nat) : node :=
  {| id := nid; name := nm; type := py "secondary"; role := py "chat_contact";
     devices := []; contact_count := 0; call_count := 0;
     message_count := mc; email_count := 0; appears_on := [owner];
     case_files := []; case_file_count := 0; total_mentions := 0 |}.

Definition participant_step (owner owner_primary : str) (th : chat_thread)
  (g : graph) (participant : str) : graph :=
  let mc := t_message_count th in
  let owner_id := make_id owner_primary in
  if eqb participant [] || eqb participant (py "****") then g
  else
    let as_secondary :=
      let target_id := make_id participant in
      let k := edge_key owner_id target_id in
      if has_node target_id g then
        let g1 := with_node (note_messages mc) target_id g in
        let g2 := with_edge (add_weight mc) k g1 in
        with_edge
          (set_types (fun ts =>
             if existsb is_chat ts
             then update_first is_chat (bump_chat mc) ts
             else ts ++ [chat (platform th) mc None])) k g2
      else if 5 <=? mc then
        let g1 := put_node target_id
                    (chat_contact_node target_id participant owner mc) g in
        let g2 := with_edge (add_weight mc) k g1 in
        with_edge (set_types (fun ts => ts ++ [chat (platform th) mc None])) k g2
      else g in
    match match_primary participant with
    | Some primary =>
        if eqb primary owner_primary then as_secondary
        else
          let target_id := make_id primary in
          let k := edge_key owner_id target_id in
          let g1 := with_node (note_messages mc) target_id g in
          let g2 := with_edge (add_weight mc) k g1 in
          with_edge
            (set_types (fun ts =>
               if existsb (is_chat_on (platform th)) ts
               then update_first (is_chat_on (platform th)) (bump_chat mc) ts
               else ts ++ [chat (platform th) mc (started th)])) k g2
    | None => as_secondary
    end.

Definition thread_step (g : graph) (ot : str * chat_thread) : graph :=
  let '(owner, th) := ot in
  match match_primary owner with
  | Some owner_primary =>
      fold_left (participant_step owner owner_primary th) (participants th) g
  | None => g
  end.

(** Step 6: the pairs [(i, j)] with [i < j] of the owners of one entry. *)
Fixpoint pairs {A} (l : list A) : list (A * A) :=
  match l with
  | [] => []
  | x :: t => map (fun y => (x, y)) t ++ pairs t
  end.

Definition pair_step (device_owners : list str) (g : graph) (p : str * str)
  : graph :=
  match match_primary (fst p), match_primary (snd p) with
  | Some owner_a, Some owner_b =>
      if eqb owner_a owner_b then g
      else
        let k := edge_key (make_id owner_a) (make_id owner_b) in
        with_edge
          (fun e =>
             if existsb is_shared (types e)
             then set_types (update_first is_shared bump_count) e
             else add_weight 1
                    (set_types
                       (fun ts => ts ++ [shared_contact 1 device_owners]) e))
          k g
  | _, _ => g
  end.

Definition cross_step (g : graph) (entry : str * contact_info) : graph :=
  let device_owners := ci_devices (snd entry) in
  if 2 <=? length device_owners
  then fold_left (pair_step device_owners) (pairs device_owners) g
  else g.

(** Steps 7 and 8 on one node. *)
Definition finish_node (person_files : list (str * list case_file)) (n : node)
  : node :=
  let cf := match Py.lookup (name n) person_files with
            | Some l => l
            | None => []
            end in
  {| id := id n; name := name n; type := type n; role := role n;
     devices := devices n; contact_count := contact_count n;
     call_count := call_count n; message_count := message_count n;
     email_count := email_count n; appears_on := Py.set_of (appears_on n);
     case_files := firstn 50 cf; case_file_count := length cf;
     total_mentions := list_sum (map mentions cf) |}.

Definition to_edge (ke : key * edge_data) : edge :=
  {| source := fst (fst ke); target := snd (fst ke);
     e_types := types (snd ke); e_weight := weight (snd ke) |}.

(** [all_contacts] and the like: the records of every device, tagged with
    the owner, in the order of [DEVICE_PREFIXES]. *)
Definition gather {A} (files : str -> export) (field : export -> list A)
  : list (str * A) :=
  flat_map (fun po => map (fun x => (snd po, x)) (field (files (fst po))))
    DEVICE_PREFIXES.

(** [build_network]; [files] gives the parsed export files of a device
    prefix and [person_files] is the mention index of the legal scanner. *)
Definition build_graph (files : str -> export) : graph :=
  let g1 := fold_left add_primary PRIMARY_PEOPLE {| g_nodes := []; g_edges := [] |} in
  let '(g2, cb) := fold_left contact_step (gather files contacts) (g1, []) in
  let g3 := fold_left promote_step cb g2 in
  let g4 := fold_left call_step (gather files calls) g3 in
  let g5 := fold_left thread_step (gather files chats) g4 in
  fold_left cross_step cb g5.

Definition build_network (files : str -> export)
  (person_files : list (str * list case_file)) : network :=
  let g := build_graph files in
  {| nodes := map (fun kn => finish_node person_files (snd kn)) (g_nodes g);
     edges := Py.sort_by (fun a b => e_weight b <=? e_weight a)
                (map to_edge (filter (fun ke => 0 <? weight (snd ke)) (g_edges g))) |}.

(** [get_person_details] *)
Record connection := { person : node; conn_edge : edge }.

Record details := {
  d_person : node;
  connections : list connection;
  total_connections : nat
}.

Definition find_node (pid : str) (net : network) : option node :=
  find (fun n => eqb (id n) pid) (nodes net).

Definition connection_of (pid : str) (net : network) (e : edge)
  : list connection :=
  if eqb (source e) pid || eqb (target e) pid then
    let other_id := if eqb (source e) pid then target e else source e in
    match find_node other_id net with
    | Some other => [{| person := other; conn_edge := e |}]
    | None => []
    end
  else [].

Definition get_person_details (person_id : str) (network_data : network)
  : option details :=
  match find_node person_id network_data with
  | None => None
  | Some n =>
      let cs := Py.sort_by
                  (fun a b => e_weight (conn_edge b) <=? e_weight (conn_edge a))
                  (flat_map (connection_of person_id network_data)
                     (edges network_data)) in
      Some {| d_person := n; connections := cs; total_connections := length cs |}
  end.

(** The sum of the counts of the contributions of an edge. *)
Definition contribution_count (t : contribution) : nat :=
  match t with
  | shared_contact n _ => n
  | chat _ n _ => n
  end.

Definition contributions_total (ts : list contribution) : nat :=
  list_sum (map contribution_count ts).

End Network.

(* ------------------------------------------------------------------ *)
(** ** The in-memory record store ([data_loader.py], class [DataStore]) *)

Module Store.

(** What a parser produces for a line is a dictionary with string values,
    a [row].  The records of an answer are dictionaries whose values are
    strings or integers (the counts of a category summary). *)
Definition row := list (str * str).

Inductive value := VStr (s : str) | VInt (n : Z).

Definition record := list (str * value).

Definition of_row (r : row) : record := map (fun kv => (fst kv, VStr (snd kv))) r.

(** [r.get(k, d)] *)
Definition get (k d : str) (r : row) : str :=
  match Py.lookup k r with
  | Some s => s
  | None => d
  end.

(** [r.get(k) or ''] *)
Definition get_str (k : str) (r : row) : str := get k [] r.

Record result := {
  records : list record;
  total : nat;
  page : Z;
  per_page : Z
}.

Record DataStore := {
  cellebrite_data : list (str * list (str * list row));
  axiom_index : list (str * list (str * nat))
}.

(** An optional argument that is neither [None] nor empty. *)
Definition given (o : option str) : option str :=
  match o with
  | Some (c :: s) => Some (c :: s)
  | _ => None
  end.

(** [records[start:start+per_page]] and the envelope of every answer. *)
Definition paginate (recs : list record) (page per_page : Z) : result :=
  let start := ((page - 1) * per_page)%Z in
  {| records := Py.slice recs start (start + per_page);
     total := length recs; page := page; per_page := per_page |}.

Definition filter_if {A} (o : option str) (keep : str -> A -> bool)
  (l : list A) : list A :=
  match given o with
  | Some x => filter (keep x) l
  | None => l
  end.

Definition summary_record (kv : str * nat) : record :=
  [ (py "_category", VStr (fst kv));
    (py "record_count", VInt (Z.of_nat (snd kv))) ].

Section Queries.

(** [str(r)], [json.dumps(r, default=str)] and the content of the JSON file
    of a bulk-export category (empty when the file is missing or broken). *)
Variable repr : row -> str.
Variable dumps : record -> str.
Variable load_axiom_file : str -> str -> list record.

Definition get_device_data (self : DataStore) (device_id : str)
  (category : option str) (page per_page : Z)
  (query date_from date_to : option str) : result :=
  match Py.lookup device_id (cellebrite_data self) with
  | Some data =>
      let records0 :=
        match given category with
        | Some c => match Py.lookup c data with Some l => l | None => [] end
        | None =>
            flat_map
              (fun cr => map (Py.dict_set (py "_category") (fst cr)) (snd cr))
              data
        end in
      let records1 :=
        filter_if date_from
          (fun d r => leb d (get_str (py "timestamp") r)) records0 in
      let records2 :=
        filter_if date_to
          (fun d r => leb (get_str (py "timestamp") r) (d ++ py "T23:59:59"))
          records1 in
      let records3 :=
        filter_if query
          (fun q r => contains (lower q) (lower (repr r))) records2 in
      paginate (map of_row records3) page per_page
  | None =>
      match Py.lookup device_id (axiom_index self) with
      | Some index =>
          match given category with
          | Some c =>
              paginate
                (filter_if query
                   (fun q r => contains (lower q) (lower (dumps r)))
                   (load_axiom_file device_id c))
                page per_page
          | None =>
              paginate
                (map summary_record
                   (filter (fun kv => 0 <? snd kv)
                      (Py.sort_by (fun a b => leb (fst a) (fst b)) index)))
                page per_page
          end
      | None =>
          {| records := []; total := 0; page := page; per_page := per_page |}
      end
  end.

End Queries.

End Store.

(* ------------------------------------------------------------------ *)
(** ** The relational record store ([db.py], class [EvidenceDB]) *)

Module Db.

Import Store.

(** The rows of the tables the query reads. *)
Record device_row := {
  device_id : str;
  name : str;
  type : str;
  owner : str;
  source : str
}.

Record record_row := {
  r_device_id : str;
  category : str;
  timestamp : str;
  data : row;
  searchable : str
}.

Record count_row := { c_device_id : str; c_category : str; count : nat }.

Record EvidenceDB := {
  devices : list device_row;
  records_table : list record_row;
  device_category_counts : list count_row;
  _merged_device_map : list (str * list str)
}.

(** A call returns or raises. *)
Inductive outcome (A : Type) :=
| Returns (a : A)
| Raises (what : str).

Arguments Returns {A} a.
Arguments Raises {A} what.

(** [_resolve_device_ids] *)
Definition _resolve_device_ids (self : EvidenceDB) (device_id : str) : list str :=
  match Py.lookup device_id (_merged_device_map self) with
  | Some ids => ids
  | None => [device_id]
  end.

Section Queries.

(** The collation order of the text columns ([a <= b]), the [ILIKE]
    operator ([ilike text pattern]), [json.dumps] and the JSON file of a
    bulk-export category ([None] when the file does not exist). *)
Variable collate_le : str -> str -> bool.
Variable ilike : str -> str -> bool.
Variable dumps : record -> str.
Variable axiom_file : str -> str -> option (list record).

(** [SELECT ... FROM records WHERE ...] of [get_device_data] *)
Definition where_clause (sub_ids : list str) (category query date_from date_to : option str)
  (r : record_row) : bool :=
  Py.mem (r_device_id r) sub_ids
  && match given category with
     | Some c => eqb (Db.category r) c
     | None => true
     end
  && match given date_from with
     | Some d => collate_le d (timestamp r)
     | None => true
     end
  && match given date_to with
     | Some d => collate_le (timestamp r) (d ++ py "T23:59:59")
     | None => true
     end
  && match given query with
     | Some q => ilike (searchable r) (py "%" ++ q ++ py "%")
     | None => true
     end.

(** [ORDER BY timestamp DESC]; PostgreSQL leaves the order of rows with
    equal timestamps open, the model keeps them in table order. *)
Definition order_by_timestamp_desc (rows : list record_row) : list record_row :=
  Py.sort_by (fun a b => collate_le (timestamp b) (timestamp a)) rows.

(** [LIMIT n OFFSET k]; a negative bound is an error of the database. *)
Definition limit_offset {A} (n k : Z) (rows : list A) : outcome (list A) :=
  if (n <? 0)%Z then Raises (py "LIMIT must not be negative")
  else if (k <? 0)%Z then Raises (py "OFFSET must not be negative")
  else Returns (firstn (Z.to_nat n) (skipn (Z.to_nat k) rows)).

Definition row_record (r : record_row) : record :=
  of_row (Py.dict_set (py "_category") (Db.category r) (data r)).

Definition count_summary (device : str) (rows : list count_row) : list (str * nat) :=
  map (fun r => (c_category r, count r))
    (filter (fun r => eqb (c_device_id r) device && (0 <? count r)) rows).

(** [_get_axiom_data] *)
Definition _get_axiom_data (self : EvidenceDB) (device_id : str)
  (category : option str) (page per_page : Z) (query : option str) : result :=
  match given category with
  | None =>
      let recs :=
        map summary_record
          (Py.sort_by (fun a b => collate_le (fst a) (fst b))
             (count_summary device_id (device_category_counts self))) in
      {| records := recs; total := length recs; page := 1;
         per_page := Z.of_nat (length recs) |}
  | Some c =>
      match axiom_file device_id c with
      | None => {| records := []; total := 0; page := page; per_page := per_page |}
      | Some file =>
          paginate
            (filter_if query (fun q r => contains (lower q) (lower (dumps r)))
               file)
            page per_page
      end
  end.

(** [cat_totals[k] += v] *)
Definition add_total (acc : list (str * nat)) (kv : str * nat) : list (str * nat) :=
  Py.dict_set (fst kv)
    (match Py.lookup (fst kv) acc with Some n => n | None => 0 end + snd kv) acc.

(** [_get_axiom_data_merged] *)
Definition _get_axiom_data_merged (self : EvidenceDB) (sub_ids : list str)
  (category : option str) (page per_page : Z) (query : option str) : result :=
  match given category with
  | None =>
      let totals :=
        fold_left add_total
          (flat_map (fun sid => count_summary sid (device_category_counts self))
             sub_ids) [] in
      let recs :=
        map summary_record (Py.sort_by (fun a b => leb (fst a) (fst b)) totals) in
      {| records := recs; total := length recs; page := 1;
         per_page := Z.of_nat (length recs) |}
  | Some c =>
      let all_data :=
        flat_map
          (fun sid =>
             match axiom_file sid c with
             | Some file => map (Py.dict_set (py "_extraction") (VStr sid)) file
             | None => []
             end) sub_ids in
      paginate
        (filter_if query (fun q r => contains (lower q) (lower (dumps r)))
           all_data)
        page per_page
  end.

(** [get_device_data] *)
Definition get_device_data (self : EvidenceDB) (device_id : str)
  (category : option str) (page per_page : Z)
  (query date_from date_to : option str) : outcome result :=
  match _resolve_device_ids self device_id with
  | [] => Raises (py "IndexError")
  | first :: rest =>
      let sub_ids := first :: rest in
      match find (fun d => eqb (Db.device_id d) first) (devices self) with
      | None =>
          Returns {| records := []; total := 0; page := page; per_page := per_page |}
      | Some dev =>
          if eqb (source dev) (py "axiom") then
            match rest with
            | [] => Returns (_get_axiom_data self first category page per_page query)
            | _ => Returns (_get_axiom_data_merged self sub_ids category page
                              per_page query)
            end
          else
            let matching :=
              filter (where_clause sub_ids category query date_from date_to)
                (records_table self) in
            match limit_offset per_page ((page - 1) * per_page)
                    (order_by_timestamp_desc matching) with
            | Raises e => Raises e
            | Returns rows =>
                Returns {| records := map row_record rows;
                           total := length matching;
                           page := page; per_page := per_page |}
            end
      end
  end.

End Queries.

End Db.

(* ------------------------------------------------------------------ *)
(** ** The discovery engine ([discovery_engine.py]) *)

Module Discovery.

Import Store.

(** Two characters of the message templates lie outside the modelled range:
    the em dash and the bullet.  They are represented by the code points 151
    and 149, which are like them neither whitespace nor word characters and
    are left alone by [lower]. *)
Definition em_dash : ascii := ascii_of_nat 151.
Definition bullet : ascii := ascii_of_nat 149.

Definition KEY_TERMS : list (str * nat) :=
  [ (py "trusted build", 3); (py "Gold Hill", 3); (py "adjudication", 3);
    (py "Conan", 3); (py "Hayes", 3); (py "Griswold", 3);
    (py "ballot image", 3);
    (py "Dominion", 2); (py "MCUA", 2); (py "M.C.U.A", 2);
    (py "forensic image", 2); (py "election fraud", 2);
    (py "voting system", 2); (py "Secretary of State", 2);
    (py "Dominion Voting", 2); (py "election security", 2);
    (py "ballot", 1); (py "audit", 1); (py "tabulator", 1);
    (py "Mike Lindell", 1); (py "MyPillow", 1); (py "cyber symposium", 1);
    (py "Jessi Romero", 1); (py "Judd Choate", 1) ].

Definition CRITICAL_DATES : list (str * (str * nat)) :=
  [ (py "2021-05-23", (py "Trusted Build Weekend", 3));
    (py "2021-05-24", (py "Trusted Build Weekend", 3));
    (py "2021-05-25", (py "Trusted Build Day", 3));
    (py "2021-05-26", (py "Post Trusted Build", 3));
    (py "2021-08-10", (py "Second Scan / SOS Investigation Announced", 3));
    (py "2021-08-11", (py "Second Scan Day", 3));
    (py "2021-08-09", (py "SOS Investigation Announced", 3));
    (py "2021-08-12", (py "Post Second Scan", 2));
    (py "2021-07-29", (py "Mesa County Forensic Image Timing", 2));
    (py "2021-07-30", (py "Mesa County Forensic Image Timing", 2)) ].

Definition KEY_PEOPLE : list str :=
  [ py "Tina Peters"; py "Tina"; py "Wendi"; py "Woods"; py "Gerald Wood";
    py "Sherronna"; py "Bishop"; py "Sandra Brown"; py "Sandye"; py "Belinda";
    py "Knisley"; py "Joy Quinn"; py "Zachary" ].

Record discovery := {
  id : str;
  title : str;
  category : str;
  flames : nat;
  device_id : option str;
  owner : str;
  content : str;
  timestamp : option str;
  verified : bool;
  tags : list str;
  data_type : option str;
  source_app : option str
}.

Definition curated (i ttl cat : str) (fl : nat) (dev : option str)
  (own cont : str) (ts : option str) (tgs : list str) : discovery :=
  {| id := i; title := ttl; category := cat; flames := fl; device_id := dev;
     owner := own; content := cont; timestamp := ts; verified := true;
     tags := tgs; data_type := None; source_app := None |}.

Definition VERIFIED_DISCOVERIES : list discovery :=
  [ curated (py "verified-1")
      (py "DHS Confirmed Posting 'Does Not Heighten Risk' " ++ [em_dash]
       ++ py " Defense Gold")
      (py "Cross-Device") 3 None (py "Multiple")
      (py "DHS confirmed that the posting of Mesa County election data 'does not heighten risk' to election security. This is a critical defense finding that undermines the prosecution's claims about the severity of the alleged breach.")
      None [py "defense"; py "DHS"; py "risk assessment"];
    curated (py "verified-2")
      (py "Signal Group 'M.C.U.A' " ++ [em_dash]
       ++ py " Tina, Wendi Woods & Others")
      (py "Communications") 3 (Some (py "wendi-woods")) (py "Wendi Woods")
      (py "Signal messaging group named 'MCUA' included Tina Peters, Wendi Woods, and other associates. The group was used for secure communications. A friend added Wendi to the MCUA Signal group. References found in Wendi Woods' Facebook Messenger conversations discussing the group.")
      (Some (py "2021-08-06T21:07:24+00:00"))
      [py "Signal"; py "MCUA"; py "encrypted"];
    curated (py "verified-3")
      (py "80 Dominion Mentions in Tina's Emails, 29 Trusted Build Mentions")
      (py "Communications") 2 None (py "Tina Peters")
      (py "Tina Peters' email correspondence contains approximately 80 references to Dominion Voting Systems and 29 references to the trusted build process, indicating extensive documentation and communication about the election system and its management.")
      None [py "Dominion"; py "trusted build"; py "email"];
    curated (py "verified-4")
      (py "43 Dominion Mentions in Belinda Knisley's Emails")
      (py "Communications") 2 (Some (py "belinda-knisley"))
      (py "Belinda Knisley")
      (py "Belinda Knisley's email correspondence contains 43 references to Dominion Voting Systems, showing her involvement in election system communications as a Mesa County Clerk & Recorder staff member.")
      None [py "Dominion"; py "email"; py "Belinda Knisley"];
    curated (py "verified-5")
      (py "Tina Peters iPhone FBI GrayKey Extraction " ++ [em_dash]
       ++ py " Signal, Telegram, iMessages")
      (py "Cross-Device") 3 None (py "Tina Peters")
      (py "The FBI extracted data from Tina Peters' iPhone 11 using GrayKey forensic tool. The extraction captured Signal messages, Telegram conversations, and iMessages from the June-August 2021 critical period. This is the most direct evidence of Tina's personal communications.")
      None [py "FBI"; py "GrayKey"; py "Signal"; py "Telegram"];
    curated (py "verified-6")
      (py "Joy Quinn Phone " ++ [em_dash]
       ++ py " Date Filter March 1 to August 11, 2021")
      (py "Cross-Device") 2 (Some (py "joy-quinn")) (py "Joy Quinn")
      (py "Joy Quinn's phone data was specifically filtered for the March 1 to August 11, 2021 timeframe, covering the entire period from pre-trusted-build planning through the second scan event and SOS investigation announcement.")
      None [py "Joy Quinn"; py "date filter"; py "critical period"] ].

(** The list of discoveries built so far and the counter [disc_id]. *)
Definition acc := (list discovery * nat)%type.

(** [disc_id += 1; discoveries.append(...)] *)
Definition emit (mk : nat -> discovery) (a : acc) : acc :=
  (fst a ++ [mk (S (snd a))], S (snd a)).

(** The terms of [KEY_TERMS] found in a lower-cased text, with their tier,
    in the order of the table. *)
Definition key_matches (text_lower : str) : list (str * nat) :=
  filter (fun tf => contains (lower (fst tf)) text_lower) KEY_TERMS.

(** The same for a chat body, where an application name in a short body is
    passed over. *)
Definition chat_matches (body : str) : list (str * nat) :=
  filter
    (fun tf =>
       let tl := lower (fst tf) in
       contains tl (lower body)
       && negb ((eqb tl (py "signal") || eqb tl (py "telegram"))
                && (length body <? 30)))
    KEY_TERMS.

Definition max_flames (matched : list (str * nat)) : nat :=
  fold_left (fun m tf => Nat.max m (snd tf)) matched 0.

Definition ident (kind device : str) (n : nat) : str :=
  kind ++ py "-" ++ device ++ py "-" ++ of_nat n.

Definition nl : str := [Regex.nl].

Section Device.

Variable dev : str.
Variable own : str.

Definition found (i ttl cat : str) (fl : nat) (cont : str) (ts : option str)
  (tgs : list str) (dt : str) (app : option str) : discovery :=
  {| id := i; title := ttl; category := cat; flames := fl;
     device_id := Some dev; owner := own; content := cont; timestamp := ts;
     verified := false; tags := tgs; data_type := Some dt;
     source_app := app |}.

Definition chat_discovery (msg : row) (matched : list (str * nat)) (n : nat)
  : discovery :=
  found (ident (py "chat") dev n)
    (own ++ py ": Message mentioning "
     ++ join (py ", ") (firstn 3 (map fst matched)))
    (py "Communications") (max_flames matched)
    (prefix 500 (get (py "body") [] msg))
    (Some (get (py "timestamp") [] msg))
    (firstn 5 (map fst matched)) (py "chats")
    (Some (get (py "source") [] msg)).

Definition date_discovery (msg : row) (date : str * (str * nat)) (n : nat)
  : discovery :=
  found (ident (py "date") dev n)
    (own ++ py ": Message on " ++ fst (snd date) ++ py " (" ++ fst date ++ py ")")
    (py "Communications") (snd (snd date))
    (prefix 500 (get (py "body") [] msg))
    (Some (get (py "timestamp") [] msg))
    [fst (snd date); fst date] (py "chats")
    (Some (get (py "source") [] msg)).

(** [ts and ts.startswith(date_str)] *)
Definition on_date (ts : str) (date : str * (str * nat)) : bool :=
  negb (eqb ts []) && startswith (fst date) ts.

(** The key-term part of the loop body for a chat message. *)
Definition chat_keyword (msg : row) (a : acc) : acc :=
  let matched := chat_matches (get (py "body") [] msg) in
  match matched with
  | [] => a
  | _ => if 2 <=? max_flames matched then emit (chat_discovery msg matched) a
         else a
  end.

Definition chat_dates (msg : row) (a : acc) : acc :=
  fold_left
    (fun a' date =>
       if on_date (get (py "timestamp") [] msg) date
       then emit (date_discovery msg date) a' else a')
    CRITICAL_DATES a.

Definition chat_step (a : acc) (msg : row) : acc :=
  let body := get (py "body") [] msg in
  if length body <? 5 then a
  else chat_dates msg (chat_keyword msg a).

Definition email_text (email : row) : str :=
  lower (get (py "subject") [] email ++ py " " ++ get (py "preview") [] email).

Definition email_discovery (email : row) (matched : list (str * nat)) (n : nat)
  : discovery :=
  found (ident (py "email") dev n)
    (own ++ py ": Email " ++ [em_dash] ++ py " "
     ++ prefix 80 (get (py "subject") [] email))
    (py "Communications") (max_flames matched)
    (py "Subject: " ++ get (py "subject") [] email ++ nl
     ++ prefix 400 (get (py "preview") [] email))
    (Some (get (py "timestamp") [] email))
    (firstn 5 (map fst matched)) (py "emails") None.

Definition email_step (a : acc) (email : row) : acc :=
  let matched := key_matches (email_text email) in
  match matched with
  | [] => a
  | _ => if 2 <=? max_flames matched then emit (email_discovery email matched) a
         else a
  end.

(** [\b]: exactly one of the two neighbours is a word character; the ends
    of the string count as non-word. *)
Definition boundary (before after : option ascii) : bool :=
  xorb (match before with Some c => isword c | None => false end)
       (match after with Some c => isword c | None => false end).

(** [re.search(r'\b' + re.escape(w) + r'\b', s)]; [before] is the character
    in front of [s]. *)
Fixpoint search_word_from (w : str) (before : option ascii) (s : str) : bool :=
  (startswith w s
   && boundary before (hd_error (w ++ s))
   && boundary (hd_error (rev w ++ match before with
                                   | Some c => [c]
                                   | None => []
                                   end))
               (hd_error (skipn (length w) s)))
  || match s with
     | [] => false
     | c :: t => search_word_from w (Some c) t
     end.

Definition search_word (w s : str) : bool := search_word_from w None s.

Definition suspicious_phrases : list str :=
  [ py "how to delete"; py "clear history"; py "delete messages";
    py "factory reset" ].

Definition suspicious_words : list str :=
  [ py "wipe"; py "erase"; py "remove evidence" ].

(** The suspicious phrases and words found in a lower-cased query. *)
Definition suspicious_in (q_lower : str) : list str :=
  filter (fun s => contains s q_lower) suspicious_phrases
  ++ filter (fun s => search_word s q_lower) suspicious_words.

(** [matched] and [max_flames] of the loop body for a search query. *)
Definition search_matched (query : str) : list str :=
  map fst (key_matches (lower query)) ++ suspicious_in (lower query).

Definition search_flames (query : str) : nat :=
  match suspicious_in (lower query) with
  | [] => max_flames (key_matches (lower query))
  | _ => Nat.max (max_flames (key_matches (lower query))) 3
  end.

Definition search_discovery (s : row) (n : nat) : discovery :=
  let query := get (py "query") [] s in
  let ts := get (py "timestamp") [] s in
  found (ident (py "search") dev n)
    (own ++ py ": Searched '" ++ prefix 60 query ++ py "'")
    (py "Searches") (search_flames query)
    (py "Search query: " ++ query ++ nl ++ py "Source: "
     ++ get (py "source") [] s ++ nl ++ py "Time: " ++ ts)
    (Some ts) (firstn 5 (search_matched query)) (py "searches") None.

Definition search_step (a : acc) (s : row) : acc :=
  match search_matched (get (py "query") [] s) with
  | [] => a
  | _ => emit (search_discovery s) a
  end.

Definition password_sample (p : row) : str :=
  prefix 80 (get (py "content") (get (py "service") [] p) p).

Definition passwords_discovery (passwords : list row) (n : nat) : discovery :=
  found (ident (py "passwords") dev n)
    (own ++ py ": " ++ of_nat (length passwords) ++ py " Stored Passwords Found")
    (py "Passwords") 2
    (py "Found " ++ of_nat (length passwords)
     ++ py " stored passwords/credentials." ++ nl ++ py "Samples:" ++ nl
     ++ join nl
          (map (fun s => py "  " ++ [bullet] ++ py " " ++ s)
             (map password_sample (firstn 10 passwords))))
    None [py "passwords"; py "credentials"] (py "passwords") None.

Definition passwords_step (a : acc) (passwords : list row) : acc :=
  match passwords with
  | [] => a
  | _ => emit (passwords_discovery passwords) a
  end.

Definition location_discovery (loc : row) (date : str * (str * nat)) (n : nat)
  : discovery :=
  let ts := get (py "timestamp") [] loc in
  let address := get (py "address") [] loc in
  found (ident (py "loc") dev n)
    (own ++ py ": Location on " ++ fst (snd date) ++ py " (" ++ fst date
     ++ py ")")
    (py "Locations") (snd (snd date))
    (py "Location: "
     ++ match address with
        | [] => get (py "coords") (py "Unknown") loc
        | _ => address
        end
     ++ nl ++ py "Source: " ++ get (py "source") [] loc ++ nl
     ++ py "Time: " ++ ts)
    (Some ts) [fst (snd date); py "location"] (py "locations") None.

(** The date loops of locations and calls stop at the first hit. *)
Definition location_step (a : acc) (loc : row) : acc :=
  match find (on_date (get (py "timestamp") [] loc)) CRITICAL_DATES with
  | Some date => emit (location_discovery loc date) a
  | None => a
  end.

Definition call_discovery (call : row) (date : str * (str * nat)) (n : nat)
  : discovery :=
  let ts := get (py "timestamp") [] call in
  let direction := get (py "direction") [] call in
  found (ident (py "call") dev n)
    (own ++ py ": " ++ direction ++ py " call on " ++ fst (snd date))
    (py "Communications") (snd (snd date))
    (py "Direction: " ++ direction ++ nl
     ++ py "Status: " ++ get (py "status") [] call ++ nl
     ++ py "Duration: " ++ get (py "duration") [] call ++ nl
     ++ py "Details: " ++ get (py "details") [] call ++ nl
     ++ py "Time: " ++ ts)
    (Some ts) [fst (snd date); py "call"; direction] (py "calls") None.

Definition call_step (a : acc) (call : row) : acc :=
  match find (on_date (get (py "timestamp") [] call)) CRITICAL_DATES with
  | Some date => emit (call_discovery call date) a
  | None => a
  end.

Definition browsing_text (b : row) : str :=
  lower (get (py "title") [] b ++ py " " ++ get (py "url") [] b).

Definition browsing_discovery (b : row) (matched : list (str * nat)) (n : nat)
  : discovery :=
  let ts := get (py "timestamp") [] b in
  found (ident (py "browse") dev n)
    (own ++ py ": Visited '" ++ prefix 60 (get (py "title") [] b) ++ py "'")
    (py "Searches") (max_flames matched)
    (py "Title: " ++ get (py "title") [] b ++ nl
     ++ py "URL: " ++ get (py "url") [] b ++ nl
     ++ py "Browser: " ++ get (py "browser") [] b ++ nl
     ++ py "Time: " ++ ts)
    (Some ts) (firstn 5 (map fst matched)) (py "browsing") None.

Definition browsing_step (a : acc) (b : row) : acc :=
  let matched := key_matches (browsing_text b) in
  match matched with
  | [] => a
  | _ => if 2 <=? max_flames matched then emit (browsing_discovery b matched) a
         else a
  end.

(** [categories.get(cat, [])] *)
Definition cat (c : str) (categories : list (str * list row)) : list row :=
  match Py.lookup c categories with
  | Some l => l
  | None => []
  end.

(** The body of the loop over the devices. *)
Definition scan_device (categories : list (str * list row)) (a : acc) : acc :=
  let a1 := fold_left chat_step (cat (py "chats") categories) a in
  let a2 := fold_left email_step (cat (py "emails") categories) a1 in
  let a3 := fold_left search_step (cat (py "searches") categories) a2 in
  let a4 := passwords_step a3 (cat (py "passwords") categories) in
  let a5 := fold_left location_step (cat (py "locations") categories) a4 in
  let a6 := fold_left call_step (cat (py "calls") categories) a5 in
  fold_left browsing_step (cat (py "browsing") categories) a6.

End Device.

(** [dev_info.get("owner", device_id)] *)
Definition owner_of (device_map : list (str * row)) (device : str) : str :=
  match Py.lookup device device_map with
  | Some info => get (py "owner") device info
  | None => device
  end.

Definition device_step (device_map : list (str * row)) (a : acc)
  (entry : str * list (str * list row)) : acc :=
  scan_device (fst entry) (owner_of device_map (fst entry)) (snd entry) a.

(** [all_contacts]: the devices on which a contact name is listed, with
    repetitions. *)
Definition note_contact (device : str) (all : list (str * list str)) (c : row)
  : list (str * list str) :=
  let name := strip (get (py "name") [] c) in
  match name with
  | [] => all
  | _ =>
      Py.dict_set name
        (match Py.lookup name all with Some l => l | None => [] end ++ [device])
        all
  end.

Definition collect_contacts (cellebrite_data : list (str * list (str * list row)))
  : list (str * list str) :=
  fold_left
    (fun all entry =>
       fold_left (note_contact (fst entry)) (cat (py "contacts") (snd entry)) all)
    cellebrite_data [].

Definition cross_discovery (name : str) (unique_devices : list str)
  (fl : nat) (n : nat) : discovery :=
  {| id := py "cross-" ++ of_nat n;
     title := py "Cross-Device: '" ++ name ++ py "' appears on "
              ++ of_nat (length unique_devices) ++ py " devices";
     category := py "Cross-Device"; flames := fl; device_id := None;
     owner := py "Multiple";
     content := py "Contact '" ++ name ++ py "' found on: "
                ++ join (py ", ") unique_devices;
     timestamp := None; verified := false;
     tags := [py "cross-device"; py "shared contact"; name];
     data_type := Some (py "contacts"); source_app := None |}.

Definition cross_step (a : acc) (entry : str * list str) : acc :=
  let name := fst entry in
  let unique_devices := Py.set_of (snd entry) in
  if 1 <? length unique_devices then
    let is_key := existsb (fun kp => contains (lower kp) (lower name)) KEY_PEOPLE in
    let fl := if is_key then 3 else 1 in
    if (2 <=? fl) || (3 <=? length unique_devices)
    then emit (cross_discovery name unique_devices fl) a
    else a
  else a.

(** Everything [scan_discoveries] collects before the deduplication. *)
Definition generate (cellebrite_data : list (str * list (str * list row)))
  (device_map : list (str * row)) : list discovery :=
  let a := fold_left (device_step device_map) cellebrite_data
             (VERIFIED_DISCOVERIES, 100) in
  fst (fold_left cross_step (collect_contacts cellebrite_data) a).

(** [d.get("timestamp")] when it is neither [None] nor empty. *)
Definition dated (d : discovery) : option str :=
  match timestamp d with
  | Some (c :: s) => Some (c :: s)
  | _ => None
  end.

(** [f"{d['device_id']}"] *)
Definition device_text (d : discovery) : str :=
  match device_id d with
  | Some s => s
  | None => py "None"
  end.

(** [sorted(tags)] *)
Definition sorted (l : list str) : list str := Py.sort_by leb l.

(** The key under which [_deduplicate] remembers a discovery, if any. *)
Definition dedup_key (d : discovery) : option str :=
  match dated d, data_type d with
  | Some ts, Some dt =>
      if eqb dt (py "chats") then
        Some (device_text d ++ py ":" ++ prefix 10 ts ++ py ":"
              ++ join (py ",") (sorted (tags d)))
      else if eqb dt (py "locations") then
        Some (py "loc:" ++ device_text d ++ py ":" ++ prefix 10 ts)
      else None
  | _, _ => None
  end.

(** The loop of [_deduplicate], with the set [seen]. *)
Fixpoint dedup_from (seen : list str) (discoveries : list discovery)
  : list discovery :=
  match discoveries with
  | [] => []
  | d :: rest =>
      if verified d then d :: dedup_from seen rest
      else
        match dedup_key d with
        | Some k =>
            if Py.mem k seen then dedup_from seen rest
            else d :: dedup_from (k :: seen) rest
        | None => d :: dedup_from seen rest
        end
  end.

Definition _deduplicate (discoveries : list discovery) : list discovery :=
  dedup_from [] discoveries.

Definition scan_discoveries (cellebrite_data : list (str * list (str * list row)))
  (device_map : list (str * row)) : list discovery :=
  _deduplicate (generate cellebrite_data device_map).

End Discovery.

(* ------------------------------------------------------------------ *)
(** ** The scan of the in-memory store ([DataStore.scan_discoveries]) *)

Module StoreScan.

Import Store.

Definition DEVICE_MAP : list (str * row) :=
  [ (py "belinda-knisley",
      [ (py "id", py "belinda-knisley"); (py "name", py "Belinda Knisley Phone");
        (py "type", py "Phone"); (py "owner", py "Belinda Knisley");
        (py "source", py "cellebrite") ]);
    (py "joy-quinn",
      [ (py "id", py "joy-quinn"); (py "name", py "Joy Quinn iPhone");
        (py "type", py "iPhone"); (py "owner", py "Joy Quinn");
        (py "source", py "cellebrite") ]);
    (py "wendi-woods",
      [ (py "id", py "wendi-woods"); (py "name", py "Wendi Woods iPhone");
        (py "type", py "iPhone"); (py "owner", py "Wendi Woods");
        (py "source", py "cellebrite") ]);
    (py "zachary-quinn",
      [ (py "id", py "zachary-quinn"); (py "name", py "Zachary Quinn Phone");
        (py "type", py "Phone"); (py "owner", py "Zachary Quinn");
        (py "source", py "cellebrite") ]) ].

Definition keywords_3 : list str :=
  [ py "trusted build"; py "delete signal"; py "erase"; py "password";
    py "backup image"; py "gold hill" ].

Definition keywords_2 : list str :=
  [ py "dominion"; py "griswold"; py "ballot"; py "adjudication"; py "mcua";
    py "conan"; py "hayes"; py "backup" ].

Definition all_keywords : list str :=
  keywords_3 ++ keywords_2
  ++ [ py "delete"; py "image"; py "dominion"; py "ballot"; py "password" ].

Definition flames_for (text : str) : nat :=
  let tl := lower text in
  if existsb (fun kw => contains kw tl) keywords_3 then 3
  else if existsb (fun kw => contains kw tl) keywords_2 then 2
  else 1.

Definition person_label (device_id : str) : str :=
  match Py.lookup device_id DEVICE_MAP with
  | Some info => get (py "owner") device_id info
  | None => device_id
  end.

Record discovery := {
  id : str;
  flames : nat;
  title : str;
  category : str;
  person : str;
  person_name : str;
  content : str;
  timestamp : str;
  source_file : str;
  sender : option str
}.

Definition acc := (list discovery * nat)%type.

Definition emit (mk : nat -> discovery) (a : acc) : acc :=
  (fst a ++ [mk (S (snd a))], S (snd a)).

(** [f"disc-{disc_id:04d}"] *)
Definition disc_name (n : nat) : str :=
  py "disc-" ++ repeat "0"%char (4 - length (of_nat n)) ++ of_nat n.

Definition dq : str := [ascii_of_nat 34].

Definition mentions_keyword (text_lower : str) : bool :=
  existsb (fun kw => contains kw text_lower) all_keywords.

Section Device.

Variable device_id : str.

Definition owner : str := person_label device_id.

Definition chat_step (a : acc) (msg : row) : acc :=
  let body := get (py "body") [] msg in
  if mentions_keyword (lower body) then
    emit (fun n =>
            {| id := disc_name n; flames := flames_for body;
               title := owner ++ py ": " ++ dq ++ prefix 80 body ++ dq;
               category := py "chats"; person := device_id;
               person_name := owner; content := body;
               timestamp := get (py "timestamp") [] msg;
               source_file := device_id ++ py "_chats.md";
               sender := Some (get (py "sender") [] msg) |}) a
  else a.

Definition search_step (a : acc) (s : row) : acc :=
  let query := get (py "query") [] s in
  if mentions_keyword (lower query) then
    emit (fun n =>
            {| id := disc_name n; flames := flames_for query;
               title := owner ++ py " searched: " ++ dq ++ prefix 80 query ++ dq;
               category := py "searches"; person := device_id;
               person_name := owner; content := query;
               timestamp := get (py "timestamp") [] s;
               source_file := device_id ++ py "_searches.md";
               sender := None |}) a
  else a.

(** Every stored password is a discovery of its own. *)
Definition password_step (a : acc) (p : row) : acc :=
  let content := get (py "content") [] p in
  emit (fun n =>
          {| id := disc_name n; flames := 2;
             title := owner ++ py " stored password: " ++ prefix 60 content;
             category := py "passwords"; person := device_id;
             person_name := owner; content := content;
             timestamp := [];
             source_file := device_id ++ py "_passwords.md";
             sender := None |}) a.

Definition email_step (a : acc) (e : row) : acc :=
  let subject := get (py "subject") [] e in
  let preview := get (py "preview") [] e in
  let text := subject ++ py " " ++ preview in
  if mentions_keyword (lower text) then
    emit (fun n =>
            {| id := disc_name n; flames := flames_for text;
               title := owner ++ py " email: " ++ dq ++ prefix 80 subject ++ dq;
               category := py "emails"; person := device_id;
               person_name := owner;
               content := py "Subject: " ++ subject ++ Discovery.nl
                          ++ py "From: " ++ get (py "from") [] e ++ Discovery.nl
                          ++ py "To: " ++ get (py "to") [] e ++ Discovery.nl
                          ++ preview;
               timestamp := get (py "timestamp") [] e;
               source_file := device_id ++ py "_emails.md";
               sender := None |}) a
  else a.

Definition scan_device (cats : list (str * list row)) (a : acc) : acc :=
  let a1 := fold_left chat_step (Discovery.cat (py "chats") cats) a in
  let a2 := fold_left search_step (Discovery.cat (py "searches") cats) a1 in
  let a3 := fold_left password_step (Discovery.cat (py "passwords") cats) a2 in
  fold_left email_step (Discovery.cat (py "emails") cats) a3.

End Device.

(** The two sorts at the end: by descending flames and then timestamp, and
    once more by descending flames. *)
Definition by_flames_then_time (a b : discovery) : bool :=
  (flames b <? flames a)
  || ((flames a =? flames b) && leb (timestamp a) (timestamp b)).

Definition by_flames (a b : discovery) : bool := flames b <=? flames a.

Definition scan_discoveries (self : DataStore) : list discovery :=
  let found :=
    fst (fold_left (fun a entry => scan_device (fst entry) (snd entry) a)
           (cellebrite_data self) ([], 0)) in
  Py.sort_by by_flames (Py.sort_by by_flames_then_time found).

End StoreScan.

(* ------------------------------------------------------------------ *)
(** ** Sample data *)

Module Samples.

Definition chat_row (ts snd_ b src : string) : Store.row :=
  [ (py "timestamp", py ts); (py "sender", py snd_); (py "body", py b);
    (py "source", py src) ].

Definition first_msg : Store.row :=
  chat_row "2021-08-01T10:00:00+00:00" "Joy" "first" "SMS".

Definition second_msg : Store.row :=
  chat_row "2021-08-02T10:00:00+00:00" "Joy" "second" "SMS".

(** An in-memory store with one device and two chat records in file order. *)
Definition store : Store.DataStore :=
  {| Store.cellebrite_data :=
       [(py "joy-quinn", [(py "chats", [first_msg; second_msg])])];
     Store.axiom_index := [(py "RMR034376_HPDesktop", [(py "chats", 3)])] |}.

Definition db_row (r : Store.row) : Db.record_row :=
  {| Db.r_device_id := py "joy-quinn"; Db.category := py "chats";
     Db.timestamp := Store.get (py "timestamp") [] r; Db.data := r;
     Db.searchable := join (py " ") (map snd r) |}.

(** The same records in the tables of the relational store. *)
Definition db : Db.EvidenceDB :=
  {| Db.devices :=
       [{| Db.device_id := py "joy-quinn"; Db.name := py "Joy Quinn iPhone";
           Db.type := py "iPhone"; Db.owner := py "Joy Quinn";
           Db.source := py "cellebrite" |}];
     Db.records_table := [db_row first_msg; db_row second_msg];
     Db.device_category_counts :=
       [{| Db.c_device_id := py "joy-quinn"; Db.c_category := py "chats";
           Db.count := 2 |}];
     Db._merged_device_map := [(py "joy-quinn", [py "joy-quinn"])] |}.

Definition no_repr : Store.row -> str := fun _ => [].
Definition no_dumps : Store.record -> str := fun _ => [].
Definition no_files : str -> str -> list Store.record := fun _ _ => [].
Definition no_json : str -> str -> option (list Store.record) := fun _ _ => None.
Definition no_ilike : str -> str -> bool := fun _ _ => false.

Definition empty_export : Network.export :=
  {| Network.contacts := []; Network.calls := []; Network.chats := [];
     Network.emails := [] |}.

(** Two devices whose contact files both list the same two names. *)
Definition two_contacts : list Network.contact :=
  [ {| Network.c_name := py "John Smith"; Network.c_source := py "Phone" |};
    {| Network.c_name := py "Jane Doe"; Network.c_source := py "Phone" |} ].

Definition shared_contacts_files (prefix : str) : Network.export :=
  if eqb prefix (py "wendi-woods") || eqb prefix (py "joy-quinn")
  then {| Network.contacts := two_contacts; Network.calls := [];
          Network.chats := []; Network.emails := [] |}
  else empty_export.

(** A device whose credential file has three entries. *)
Definition password_row (entry : string) : Store.row := [(py "content", py entry)].

Definition credentials_data : list (str * list (str * list Store.row)) :=
  [ (py "joy-quinn",
      [ (py "passwords",
          [ password_row "mail: a"; password_row "bank: b";
            password_row "shop: c" ]) ]) ].

(** A device with the same chat message twice and two locations on one
    critical date. *)
Definition location_row (ts coords address src : string) : Store.row :=
  [ (py "timestamp", py ts); (py "coords", py coords);
    (py "address", py address); (py "source", py src) ].

Definition repeated_data : list (str * list (str * list Store.row)) :=
  [ (py "wendi-woods",
      [ (py "chats",
          [ chat_row "2021-08-06T21:07:24+00:00" "Wendi" "Added to MCUA group"
              "Signal";
            chat_row "2021-08-06T21:09:00+00:00" "Tina" "the MCUA group is up"
              "Signal" ]);
        (py "locations",
          [ location_row "2021-05-25T08:00:00+00:00" "39.06,-108.55"
              "544 Rood Ave" "Maps";
            location_row "2021-05-25T17:30:00+00:00" "39.07,-108.56" ""
              "Maps" ]) ]) ].

End Samples.

(* ------------------------------------------------------------------ *)
(** ** The other line parsers ([data_loader.py]) *)

Module Loader.

Import Store.

(** [s.strip(chars)] *)
Definition in_chars (chars : str) (c : ascii) : bool :=
  existsb (Ascii.eqb c) chars.

Fixpoint lstrip_chars (chars s : str) : str :=
  match s with
  | [] => []
  | c :: t => if in_chars chars c then lstrip_chars chars t else s
  end.

Fixpoint rstrip_chars (chars s : str) : str :=
  match s with
  | [] => []
  | c :: t =>
      match rstrip_chars chars t with
      | [] => if in_chars chars c then [] else [c]
      | r => c :: r
      end
  end.

Definition strip_chars (chars s : str) : str :=
  rstrip_chars chars (lstrip_chars chars s).

(** [s.split(sep)] for a separator of one character: the pieces between
    the separators, at least one. *)
Fixpoint split_on (sep : ascii) (s : str) : list str :=
  match s with
  | [] => [[]]
  | c :: t =>
      if Ascii.eqb c sep then [] :: split_on sep t
      else match split_on sep t with
           | p :: ps => (c :: p) :: ps
           | [] => [[c]]
           end
  end.

(** [s.split(sep, 1)]: the text before the first separator and, if there is
    one, the text after it. *)
Fixpoint split_once (sep : ascii) (s : str) : str * option str :=
  match s with
  | [] => ([], None)
  | c :: t =>
      if Ascii.eqb c sep then ([], Some t)
      else let (a, b) := split_once sep t in (c :: a, b)
  end.

(** [s.replace(old, '')]: the occurrences of [old] are taken out from left
    to right; [skip] counts the characters of an occurrence still to drop. *)
Fixpoint remove_from (old : str) (skip : nat) (s : str) : str :=
  match s with
  | [] => []
  | c :: t =>
      match skip with
      | S k => remove_from old k t
      | O =>
          if startswith old s then remove_from old (length old - 1) t
          else c :: remove_from old 0 t
      end
  end.

Definition remove (old s : str) : str :=
  match old with
  | [] => s
  | _ => remove_from old 0 s
  end.

(** [re.sub(r'<[^>]+>', '', s)]: an opening angle bracket, the longest run
    of other characters than the closing one, which must not be empty, and
    the closing bracket are dropped. *)
Fixpoint sub_tags_from (skip : nat) (s : str) : str :=
  match s with
  | [] => []
  | c :: t =>
      match skip with
      | S k => sub_tags_from k t
      | O =>
          if Ascii.eqb c "<" then
            match span (not_char ">") t with
            | ((_ :: _) as inner, _ :: _) => sub_tags_from (S (length inner)) t
            | _ => c :: sub_tags_from 0 t
            end
          else c :: sub_tags_from 0 t
      end
  end.

Definition sub_tags (s : str) : str := sub_tags_from 0 s.

(** The group [(\d{4}-\d{2}-\d{2}T[^*]+)] and what follows it. *)
Definition match_stamp (s : str) : option (str * str) :=
  do (y, s2) <- digits 4 s;
  do s3 <- lit (py "-") s2;
  do (m, s4) <- digits 2 s3;
  do s5 <- lit (py "-") s4;
  do (d, s6) <- digits 2 s5;
  do s7 <- lit (py "T") s6;
  let (t, s8) := span (not_char "*") s7 in
  match t with
  | [] => None
  | _ => Some (y ++ py "-" ++ m ++ py "-" ++ d ++ py "T" ++ t, s8)
  end.

(** A group [(\w+)] and what follows it. *)
Definition match_word (s : str) : option (str * str) :=
  match span isword s with
  | ([], _) => None
  | (w, r) => Some (w, r)
  end.

(** The class of the duration group: anything but a space and a bar. *)
Definition duration_char (c : ascii) : bool :=
  negb (Ascii.eqb c " " || Ascii.eqb c "|").

(** [.*] at the end of a pattern. *)
Definition dot_star (s : str) : str := fst (span (not_char nl) s).

(** The pattern of [parse_calls]: the stamp between stars, two words, the
    duration and the rest of the line; the groups 1 to 5. *)
Definition match_call (line : str) : option (str * str * str * str * str) :=
  do s1 <- lit (py "- **") line;
  do (ts, s2) <- match_stamp s1;
  do s3 <- lit (py "** | ") s2;
  do (direction, s4) <- match_word s3;
  do s5 <- lit (py " | ") s4;
  do (status, s6) <- match_word s5;
  do s7 <- lit (py " | Duration: ") s6;
  match span duration_char s7 with
  | ([], _) => None
  | (duration, s8) => Some (ts, direction, status, duration, dot_star s8)
  end.

Definition call_record (g : str * str * str * str * str) : row :=
  let '(ts, direction, status, duration, rest) := g in
  [ (py "timestamp", ts); (py "direction", direction); (py "status", status);
    (py "duration", duration); (py "details", strip_chars (py " |") rest) ].

(** The loop of a line parser: the records of the lines that match. *)
Definition by_line (parse_line : str -> option row) (lines : list str)
  : list row :=
  flat_map (fun line => match parse_line line with
                        | Some r => [r]
                        | None => []
                        end) lines.

Definition parse_call_line (line : str) : option row :=
  do g <- match_call line; Some (call_record g).

Definition parse_calls (lines : list str) : list row :=
  by_line parse_call_line lines.

(** The pattern of [parse_contacts]. *)
Definition match_contact (line : str) : option (str * str) :=
  do s1 <- lit (py "- **") line;
  match span (not_char "*") s1 with
  | ([], _) => None
  | (name, s2) =>
      do s3 <- lit (py "** | Source: ") s2;
      do g <- dot_plus s3;
      Some (name, g)
  end.

Definition parse_contact_line (line : str) : option row :=
  do (name, g) <- match_contact line;
  Some [ (py "name", name); (py "source", strip g) ].

Definition parse_contacts (lines : list str) : list row :=
  by_line parse_contact_line lines.

(** The pattern of [parse_browsing]: stamp, title in square brackets, link
    in round ones, browser. *)
Definition match_browsing (line : str) : option (str * str * str * str) :=
  do s1 <- lit (py "- **") line;
  do (ts, s2) <- match_stamp s1;
  do s3 <- lit (py "** | [") s2;
  let (title, s4) := span (not_char "]") s3 in
  do s5 <- lit (py "](") s4;
  let (url, s6) := span (not_char ")") s5 in
  do s7 <- lit (py ") | ") s6;
  do g <- dot_plus s7;
  Some (ts, title, url, g).

Definition parse_browsing_line (line : str) : option row :=
  do (ts, title, url, g) <- match_browsing line;
  Some [ (py "timestamp", ts); (py "title", title); (py "url", url);
         (py "browser", strip g) ].

Definition parse_browsing (lines : list str) : list row :=
  by_line parse_browsing_line lines.

(** [(.+?) \| (.+)] at the end of the pattern of [parse_searches]: the
    shortest non-empty run without a newline after which a space, a bar, a
    space and a non-empty rest follow; the groups 2 and 3. *)
Fixpoint lazy_field (s : str) : option (str * str) :=
  match s with
  | [] => None
  | c :: t =>
      if Ascii.eqb c nl then None
      else
        match (do r <- lit (py " | ") t; dot_plus r) with
        | Some g => Some ([c], g)
        | None =>
            match lazy_field t with
            | Some (q, g) => Some (c :: q, g)
            | None => None
            end
        end
  end.

Definition match_search (line : str) : option (str * str * str) :=
  do s1 <- lit (py "- **") line;
  let (ts, s2) := span (not_char "*") s1 in
  do s3 <- lit (py "** | ") s2;
  do (q, g) <- lazy_field s3;
  Some (ts, q, g).

Definition parse_search_line (line : str) : option row :=
  do (ts, q, g) <- match_search line;
  Some [ (py "timestamp", ts); (py "query", q); (py "source", strip g) ].

Definition parse_searches (lines : list str) : list row :=
  by_line parse_search_line lines.

(** The pattern of [parse_locations]. *)
Definition match_location (line : str) : option (str * str * str) :=
  do s1 <- lit (py "- **") line;
  let (ts, s2) := span (not_char "*") s1 in
  do s3 <- lit (py "** | ") s2;
  let (coords, s4) := span (not_char "|") s3 in
  do s5 <- lit (py "|") s4;
  do g <- dot_plus s5;
  Some (ts, coords, g).

Definition parse_location_line (line : str) : option row :=
  do (ts, coords, g) <- match_location line;
  let rest := strip g in
  let parts := split_on "|" rest in
  if 2 <=? length parts then
    Some [ (py "timestamp", ts); (py "coords", strip coords);
           (py "address", strip (nth 0 parts [])); (py "source", strip (nth 1 parts [])) ]
  else
    Some [ (py "timestamp", ts); (py "coords", strip coords);
           (py "address", []); (py "source", rest) ].

Definition parse_locations (lines : list str) : list row :=
  by_line parse_location_line lines.

(** [parse_generic] *)
Definition parse_generic_line (line : str) : option row :=
  let line := strip line in
  if startswith (py "- ") line
  then Some [ (py "content", prefix 500 (skipn 2 line)) ]
  else None.

Definition parse_generic (lines : list str) : list row :=
  by_line parse_generic_line lines.

(** *** E-mails *)

(** The arrow between the two addresses lies outside the modelled range,
    like the em dash; it is represented by the code point 155. *)
Definition arrow : ascii := ascii_of_nat 155.

(** The tail of the address pattern from the arrow on: white space, the
    arrow, white space, the literal [**To:**], white space and the rest of
    the line as the last group. *)
Definition match_to (s : str) : option str :=
  do s1 <- lit [arrow] (snd (span isspace s));
  do s2 <- lit (py "**To:**") (snd (span isspace s1));
  Some (dot_star (snd (span isspace s2))).

(** [(.*?)] in front of that tail: the shortest run without a newline after
    which the tail matches. *)
Fixpoint lazy_from (s : str) : option (str * str) :=
  match match_to s with
  | Some g => Some ([], g)
  | None =>
      match s with
      | [] => None
      | c :: t =>
          if Ascii.eqb c nl then None
          else match lazy_from t with
               | Some (f, g) => Some (c :: f, g)
               | None => None
               end
      end
  end.

(** [re.match] of the address pattern; the groups 1 and 2. *)
Definition match_from_to (line : str) : option (str * str) :=
  do s1 <- lit (py "**From:**") line;
  lazy_from (snd (span isspace s1)).

Definition is_header (line : str) : bool :=
  startswith (py "### ") line && existsb (Ascii.eqb Discovery.em_dash) line.

(** The loop that collects the preview; it stops in front of a rule or a
    heading and gives the lines left. *)
Fixpoint preview_loop (preview : str) (lines : list str) : str * list str :=
  match lines with
  | [] => (preview, [])
  | line :: rest =>
      if startswith (py "---") line || startswith (py "### ") line
      then (preview, lines)
      else
        let clean := strip (sub_tags line) in
        preview_loop
          (match clean with
           | [] => preview
           | _ => if length preview <? 300 then preview ++ clean ++ py " "
                  else preview
           end) rest
  end.

(** The lines after a header: the addresses, if there is a line for them
    (otherwise the two variables keep what they held), the source and the
    lines left. *)
Definition read_addresses (held : option (str * str)) (rest : list str)
  : option (str * str) * str * list str :=
  match rest with
  | [] => (held, [], [])
  | ft_line :: rest1 =>
      let addresses :=
        match match_from_to ft_line with
        | Some (f, t) => Some (strip f, strip t)
        | None => Some ([], [])
        end in
      match rest1 with
      | src_line :: rest2 =>
          if startswith (py "**Source:**") src_line
          then (addresses, strip (remove (py "**Source:**") src_line), rest2)
          else (addresses, [], rest1)
      | [] => (addresses, [], [])
      end
  end.

(** The loop of [parse_emails]; [held] is the value of the variables
    [from_addr] and [to_addr], unbound before the first assignment, and
    every iteration uses up at least one line. *)
Fixpoint emails_loop (fuel : nat) (held : option (str * str))
  (lines : list str) : Db.outcome (list row) :=
  match fuel with
  | O => Db.Returns []
  | S fuel' =>
      match lines with
      | [] => Db.Returns []
      | line :: rest =>
          if is_header line then
            let parts := split_once Discovery.em_dash (skipn 4 line) in
            let ts := strip (fst parts) in
            let subject := match snd parts with
                           | Some s => strip s
                           | None => []
                           end in
            let '(addresses, source, rest2) := read_addresses held rest in
            let (preview, rest3) := preview_loop [] rest2 in
            match addresses with
            | None => Db.Raises (py "UnboundLocalError")
            | Some (from_addr, to_addr) =>
                match emails_loop fuel' addresses rest3 with
                | Db.Returns more =>
                    Db.Returns
                      ([ (py "timestamp", ts); (py "subject", subject);
                         (py "from", from_addr); (py "to", to_addr);
                         (py "source", source);
                         (py "preview", strip (prefix 300 preview)) ] :: more)
                | Db.Raises e => Db.Raises e
                end
            end
          else emails_loop fuel' held rest
      end
  end.

Definition parse_emails (lines : list str) : Db.outcome (list row) :=
  emails_loop (length lines) None lines.

(** *** Loading *)

Definition CATEGORIES : list str :=
  [ py "browsing"; py "calls"; py "chats"; py "contacts"; py "emails";
    py "locations"; py "notes"; py "passwords"; py "searches";
    py "voicemails" ].

(** A chat message as the dictionary [parse_chats] builds. *)
Definition chat_row (m : chat_msg) : row :=
  [ (py "timestamp", timestamp m); (py "sender", sender m);
    (py "body", body m); (py "source", source m) ].

(** [PARSERS.get(cat, parse_generic)], applied to the lines of the file. *)
Definition parser_for (cat : str) (lines : list str) : Db.outcome (list row) :=
  if eqb cat (py "chats") then Db.Returns (map chat_row (parse_chats lines))
  else if eqb cat (py "calls") then Db.Returns (parse_calls lines)
  else if eqb cat (py "contacts") then Db.Returns (parse_contacts lines)
  else if eqb cat (py "browsing") then Db.Returns (parse_browsing lines)
  else if eqb cat (py "searches") then Db.Returns (parse_searches lines)
  else if eqb cat (py "emails") then parse_emails lines
  else if eqb cat (py "locations") then Db.Returns (parse_locations lines)
  else Db.Returns (parse_generic lines).

(** The class [DataStore] with all its attributes; [_discoveries] is unset
    until the first scan. *)
Record device := {
  dev_id : str;
  dev_name : str;
  dev_type : str;
  dev_owner : str;
  dev_source : str;
  categories : list (str * nat);
  total_records : nat
}.

Record statistics := {
  total_devices : nat;
  cellebrite_devices : nat;
  axiom_devices : nat;
  stat_categories : list (str * nat)
}.

Record DataStore := {
  cellebrite_data : list (str * list (str * list row));
  chat_threads : list (str * list thread_summary);
  chat_thread_msgs : list (str * list (nat * list chat_msg));
  axiom_index : list (str * list (str * nat));
  devices : list device;
  stats : option statistics;
  _discoveries : option (list StoreScan.discovery)
}.

(** [__init__] *)
Definition init : DataStore :=
  {| cellebrite_data := []; chat_threads := []; chat_thread_msgs := [];
     axiom_index := []; devices := []; stats := None; _discoveries := None |}.

(** The two attributes that [get_device_data] reads. *)
Definition as_store (self : DataStore) : Store.DataStore :=
  {| Store.cellebrite_data := cellebrite_data self;
     Store.axiom_index := axiom_index self |}.

Definition file_name (person_id cat : str) : str :=
  person_id ++ py "_" ++ cat ++ py ".md".

Section Files.

(** The lines of an export file, by its name; [None] when there is no such
    file. *)
Variable files : str -> option (list str).

(** The body of the loop over the categories of one device. *)
Definition load_category (person_id : str) (self : DataStore) (cat : str)
  : DataStore :=
  match files (file_name person_id cat) with
  | None => self
  | Some lines =>
      let records := match parser_for cat lines with
                     | Db.Returns rs => rs
                     | Db.Raises _ => []
                     end in
      let data := match Py.lookup person_id (cellebrite_data self) with
                  | Some d => d
                  | None => []
                  end in
      let self1 :=
        {| cellebrite_data :=
             Py.dict_set person_id (Py.dict_set cat records data)
               (cellebrite_data self);
           chat_threads := chat_threads self;
           chat_thread_msgs := chat_thread_msgs self;
           axiom_index := axiom_index self; devices := devices self;
           stats := stats self; _discoveries := _discoveries self |} in
      if eqb cat (py "chats") then
        let (thread_summaries, thread_messages) := parse_chat_threads lines in
        {| cellebrite_data := cellebrite_data self1;
           chat_threads :=
             Py.dict_set person_id thread_summaries (chat_threads self1);
           chat_thread_msgs :=
             Py.dict_set person_id thread_messages (chat_thread_msgs self1);
           axiom_index := axiom_index self1; devices := devices self1;
           stats := stats self1; _discoveries := _discoveries self1 |}
      else self1
  end.

Definition load_device (self : DataStore) (person_id : str) : DataStore :=
  let self0 :=
    {| cellebrite_data := Py.dict_set person_id [] (cellebrite_data self);
       chat_threads := chat_threads self;
       chat_thread_msgs := chat_thread_msgs self;
       axiom_index := axiom_index self; devices := devices self;
       stats := stats self; _discoveries := _discoveries self |} in
  fold_left (load_category person_id) CATEGORIES self0.

(** [_load_cellebrite] *)
Definition _load_cellebrite (self : DataStore) : DataStore :=
  fold_left load_device (map fst StoreScan.DEVICE_MAP) self.

End Files.

(** [_index_axiom]: [listing] gives the directories of the bulk exports,
    each with the stems and sizes of its JSON files in the order of the
    sorted glob, or [None] when the folder of the exports does not exist;
    the estimate of a file is [max(1, size // 500)]. *)
Definition estimate (fsize : Z) : nat := Z.to_nat (Z.max 1 (fsize / 500)).

Definition index_files (json_files : list (str * Z)) : list (str * nat) :=
  fold_left (fun file_index jf => Py.dict_set (fst jf) (estimate (snd jf)) file_index)
    json_files [].

Definition _index_axiom (listing : option (list (str * list (str * Z))))
  (self : DataStore) : DataStore :=
  match listing with
  | None => self
  | Some dirs =>
      {| cellebrite_data := cellebrite_data self;
         chat_threads := chat_threads self;
         chat_thread_msgs := chat_thread_msgs self;
         axiom_index :=
           fold_left (fun index entry =>
                        Py.dict_set (fst entry) (index_files (snd entry)) index)
             (Py.sort_by (fun a b => leb (fst a) (fst b)) dirs)
             (axiom_index self);
         devices := devices self; stats := stats self;
         _discoveries := _discoveries self |}
  end.

(** [AXIOM_DEVICE_MAP]: owner and type of the known bulk exports. *)
Definition AXIOM_DEVICE_MAP : list (str * (str * str)) :=
  [ (py "RMR034359_White iPhone SE", (py "Tina Peters", py "White iPhone SE"));
    (py "RMR034359_White iPhone SE_TaintClear",
      (py "Tina Peters", py "White iPhone SE (TaintClear)"));
    (py "RMR034364_BlackiPhoneSE_TaintClear",
      (py "Unknown", py "Black iPhone SE (TaintClear)"));
    (py "RMR034365_1stiPhone7_nonPriv", (py "Tina Peters", py "iPhone 7"));
    (py "RMR034366_2ndiPhone7_nonPriv", (py "Unknown", py "2nd iPhone 7"));
    (py "RMR034367_CompaqLaptop_TaintClear",
      (py "Tina Peters", py "Compaq Laptop"));
    (py "RMR034371_Samsung_nonPriv", (py "Sandra Brown", py "Samsung"));
    (py "RMR034371_Samsung_TaintClear",
      (py "Sandra Brown", py "Samsung (TaintClear)"));
    (py "RMR034372 Motorola", (py "Sandra Brown", py "Motorola"));
    (py "RMR034372_Motorola_TaintClear",
      (py "Sandra Brown", py "Motorola (TaintClear)"));
    (py "RMR034373_LGTablet_NonPriv", (py "Unknown", py "LG Tablet"));
    (py "RMR034374_HPLaptop_NonPriv", (py "Unknown", py "HP Laptop (374)"));
    (py "RMR034375_ASUSLaptop_Non-Priv", (py "Unknown", py "ASUS Laptop (375)"));
    (py "RMR034376_HPDesktop", (py "Unknown", py "HP Desktop"));
    (py "RMR034376_HPDesktop_nonPriv", (py "Unknown", py "HP Desktop (nonPriv)"));
    (py "RMR034378_iPhone_nonPriv", (py "Gerald Wood", py "iPhone"));
    (py "RMR034378_iPhoneTaintClear",
      (py "Gerald Wood", py "iPhone (TaintClear)"));
    (py "RMR034379_BluPhone_nonPriv", (py "Unknown", py "Blu Phone"));
    (py "RMR034381_ASUSLaptop_nonPriv", (py "Unknown", py "ASUS Laptop (381)"));
    (py "RMR034382_MSILaptop_nonPriv", (py "Unknown", py "MSI Laptop"));
    (py "RMR034704_HPLaptop", (py "Sherronna Bishop", py "HP Laptop"));
    (py "RMR034704_HPLaptop_nonPriv",
      (py "Sherronna Bishop", py "HP Laptop (nonPriv)"));
    (py "RMR034705_LenovoAllinOne_nonPriv",
      (py "Unknown", py "Lenovo All-in-One"));
    (py "RMR035374_HPLaptop_TaintClear",
      (py "Unknown", py "HP Laptop (TaintClear)"));
    (py "RMR035375_ASUSLaptop_TaintClear",
      (py "Unknown", py "ASUS Laptop (TaintClear)")) ].

(** [total_stats[k] += v] *)
Definition add_stat (k : str) (v : nat) (total_stats : list (str * nat))
  : list (str * nat) :=
  Py.dict_set k
    (match Py.lookup k total_stats with Some n => n | None => 0 end + v)
    total_stats.

(** The first loop of [_compute_stats], for one entry of [DEVICE_MAP]. *)
Definition count_category (st : list (str * nat) * list (str * nat))
  (entry : str * list row) : list (str * nat) * list (str * nat) :=
  let (dev_categories, total_stats) := st in
  (Py.dict_set (fst entry) (length (snd entry)) dev_categories,
   add_stat (fst entry) (length (snd entry)) total_stats).

Definition cellebrite_device (self : DataStore)
  (st : list device * list (str * nat)) (entry : str * row)
  : list device * list (str * nat) :=
  let (devs, total_stats) := st in
  let (person_id, device_info) := entry in
  let cats := match Py.lookup person_id (cellebrite_data self) with
              | Some d => d
              | None => []
              end in
  let (dev_categories, total_stats') :=
    fold_left count_category cats ([], total_stats) in
  (devs ++ [{| dev_id := get (py "id") [] device_info;
               dev_name := get (py "name") [] device_info;
               dev_type := get (py "type") [] device_info;
               dev_owner := get (py "owner") [] device_info;
               dev_source := get (py "source") [] device_info;
               categories := dev_categories;
               total_records := list_sum (map snd dev_categories) |}],
   total_stats').

(** The second loop, for one indexed bulk export. *)
Definition axiom_device (st : list device * list (str * nat))
  (entry : str * list (str * nat)) : list device * list (str * nat) :=
  let (devs, total_stats) := st in
  let (dirname, file_index) := entry in
  let info := match Py.lookup dirname AXIOM_DEVICE_MAP with
              | Some i => i
              | None => (py "Unknown", dirname)
              end in
  let total := list_sum (map snd file_index) in
  (devs ++ [{| dev_id := dirname; dev_name := dirname; dev_type := snd info;
               dev_owner := fst info; dev_source := py "axiom";
               categories := file_index; total_records := total |}],
   add_stat (py "axiom_records") total total_stats).

(** [_compute_stats] *)
Definition _compute_stats (self : DataStore) : DataStore :=
  let st1 := fold_left (cellebrite_device self) StoreScan.DEVICE_MAP ([], []) in
  let (devs, total_stats) := fold_left axiom_device (axiom_index self) st1 in
  {| cellebrite_data := cellebrite_data self;
     chat_threads := chat_threads self;
     chat_thread_msgs := chat_thread_msgs self;
     axiom_index := axiom_index self;
     devices := devs;
     stats := Some {| total_devices := length devs;
                      cellebrite_devices := length StoreScan.DEVICE_MAP;
                      axiom_devices := length (axiom_index self);
                      stat_categories := total_stats |};
     _discoveries := _discoveries self |}.

(** [load_all] *)
Definition load_all (files : str -> option (list str))
  (listing : option (list (str * list (str * Z)))) (self : DataStore)
  : DataStore :=
  _compute_stats (_index_axiom listing (_load_cellebrite files self)).

(** [scan_discoveries] keeps its result in [_discoveries]. *)
Definition scan_discoveries (self : DataStore)
  : list StoreScan.discovery * DataStore :=
  let discoveries := StoreScan.scan_discoveries (as_store self) in
  (discoveries,
   {| cellebrite_data := cellebrite_data self;
      chat_threads := chat_threads self;
      chat_thread_msgs := chat_thread_msgs self;
      axiom_index := axiom_index self; devices := devices self;
      stats := stats self; _discoveries := Some discoveries |}).

(** [get_discoveries]; [min_flames] is given as a number. *)
Definition get_discoveries (self : DataStore) (category person : option str)
  (min_flames : option nat) : list StoreScan.discovery :=
  let discs := match _discoveries self with
               | Some l => l
               | None => []
               end in
  let discs1 :=
    match given category with
    | Some c => if eqb c (py "all") then discs
                else filter (fun d => eqb (StoreScan.category d) c) discs
    | None => discs
    end in
  let discs2 :=
    match given person with
    | Some p => if eqb p (py "all") then discs1
                else filter (fun d => eqb (StoreScan.person d) p) discs1
    | None => discs1
    end in
  match min_flames with
  | Some (S n) => filter (fun d => S n <=? StoreScan.flames d) discs2
  | _ => discs2
  end.

(** The answers of the thread queries and of the search. *)
Record thread_page := {
  tp_threads : list thread_summary;
  tp_total : nat;
  tp_page : Z;
  tp_per_page : Z
}.

Record thread_messages := { tm_messages : list chat_msg; tm_total : nat }.

Record hit := {
  hit_device_id : str;
  hit_device_name : str;
  hit_owner : str;
  hit_category : str;
  hit_source : str;
  hit_record : row
}.

Record hit_page := {
  hp_results : list hit;
  hp_total : nat;
  hp_page : Z;
  hp_per_page : Z
}.

(** [get_thread_messages]; the thread identifiers are the keys of the inner
    dictionary. *)
Definition get_thread_messages (self : DataStore) (device_id : str)
  (thread_id : Z) : thread_messages :=
  let by_thread := match Py.lookup device_id (chat_thread_msgs self) with
                   | Some d => d
                   | None => []
                   end in
  let msgs := match find (fun e => (Z.of_nat (fst e) =? thread_id)%Z) by_thread with
              | Some e => snd e
              | None => []
              end in
  {| tm_messages := msgs; tm_total := length msgs |}.

Section Queries.

(** [str(l)] for a list of strings and [str(r)] for a record. *)
Variable repr_list : list str -> str.
Variable repr : row -> str.

(** [get_chat_threads] *)
Definition get_chat_threads (self : DataStore) (device_id : str)
  (page per_page : Z) (search date_from date_to : option str) : thread_page :=
  let threads0 := match Py.lookup device_id (chat_threads self) with
                  | Some l => l
                  | None => []
                  end in
  let threads1 :=
    filter_if date_from (fun d t => leb d (last_date t)) threads0 in
  let threads2 :=
    filter_if date_to
      (fun d t => leb (first_date t) (d ++ py "T23:59:59")) threads1 in
  let threads3 :=
    filter_if search
      (fun s t =>
         contains (lower s) (lower (repr_list (s_participants t)))
         || contains (lower s) (lower (last_message_preview t))
         || contains (lower s) (lower (s_source t))) threads2 in
  let start := ((page - 1) * per_page)%Z in
  {| tp_threads := Py.slice threads3 start (start + per_page);
     tp_total := length threads3; tp_page := page; tp_per_page := per_page |}.

(** The innermost loop of [search_all]: it stops once the results have
    reached 500. *)
Fixpoint search_records (mk : row -> hit) (ql : str) (results : list hit)
  (records : list row) : list hit :=
  match records with
  | [] => results
  | r :: rest =>
      if contains ql (lower (repr r)) then
        let results' := results ++ [mk r] in
        if 500 <=? length results' then results'
        else search_records mk ql results' rest
      else search_records mk ql results rest
  end.

Definition search_category (ql device_id : str) (category_filter : option str)
  (results : list hit) (entry : str * list row) : list hit :=
  let (cat, records) := entry in
  let skipped := match given category_filter with
                 | Some c => negb (eqb cat c)
                 | None => false
                 end in
  if skipped then results
  else
    let device_info := match Py.lookup device_id StoreScan.DEVICE_MAP with
                       | Some i => i
                       | None => []
                       end in
    search_records
      (fun r => {| hit_device_id := device_id;
                   hit_device_name := get (py "name") device_id device_info;
                   hit_owner := get (py "owner") (py "Unknown") device_info;
                   hit_category := cat; hit_source := py "cellebrite";
                   hit_record := r |})
      ql results records.

Definition search_device (ql : str) (device_filter category_filter : option str)
  (results : list hit) (entry : str * list (str * list row)) : list hit :=
  let (device_id, cats) := entry in
  let skipped := match given device_filter with
                 | Some d => negb (eqb device_id d)
                 | None => false
                 end in
  if skipped then results
  else fold_left (search_category ql device_id category_filter) cats results.

(** [search_all] *)
Definition search_all (self : DataStore) (query : str)
  (device_filter category_filter : option str) (page per_page : Z) : hit_page :=
  let results :=
    fold_left (search_device (lower query) device_filter category_filter)
      (cellebrite_data self) [] in
  let start := ((page - 1) * per_page)%Z in
  {| hp_results := Py.slice results start (start + per_page);
     hp_total := length results; hp_page := page; hp_per_page := per_page |}.

End Queries.

End Loader.

(* ------------------------------------------------------------------ *)
(** ** The parsers and device names of the relational store ([db.py]) *)

Module DbLoader.

Import Store.

(** The post-processing of a matched chat line in [_parse_chats]: the
    parenthesised suffix is taken off the body only when the text between
    the parentheses is not empty. *)
Definition split_source_app (g3 : str) : str * str :=
  let body := strip g3 in
  let source :=
    match rfind "(" body with
    | Some (S i) =>
        if endswith_char ")" body then skipn (S (S i)) (removelast body)
        else []
    | _ => []
    end in
  match source, rfind "(" body with
  | _ :: _, Some idx => (strip (firstn idx body), source)
  | _, _ => (body, source)
  end.

Definition _parse_chat_line (line : str) : option row :=
  do (ts, snd_, g3) <- match_msg line;
  let (b, src) := split_source_app g3 in
  Some [ (py "timestamp", ts); (py "sender", snd_); (py "body", b);
         (py "source_app", src) ].

(** [_parse_chats]: the records the generator yields, in order. *)
Definition _parse_chats (lines : list str) : list row :=
  Loader.by_line _parse_chat_line lines.

(** The suffixes that tell the extractions of one device apart. *)
Definition SUFFIXES : list str :=
  [ py "TaintClear"; py "taintclear"; py "nonPriv"; py "NonPriv";
    py "Non-Priv"; py "non-priv" ].

(** The end of the string, for the dollar of a pattern: the very end or the
    place in front of a final newline. *)
Definition at_end (s : str) : bool :=
  match s with
  | [] => true
  | [c] => Ascii.eqb c nl
  | _ => false
  end.

(** The alternation of the suffixes, followed by the end. *)
Definition match_alt (s : str) : option str :=
  find (fun alt => match lit alt s with
                   | Some r => at_end r
                   | None => false
                   end) SUFFIXES.

(** The suffix pattern at the start of [s]: an optional underscore, a
    suffix, the end. *)
Definition match_suffix_at (s : str) : option str :=
  match s with
  | "_"%char :: t =>
      match match_alt t with
      | Some a => Some a
      | None => match_alt s
      end
  | _ => match_alt s
  end.

(** [re.search] of the suffix pattern: the leftmost position where it
    matches, and the suffix found there. *)
Fixpoint search_suffix (i : nat) (s : str) : option (nat * str) :=
  match match_suffix_at s with
  | Some a => Some (i, a)
  | None =>
      match s with
      | [] => None
      | _ :: t => search_suffix (S i) t
      end
  end.

(** [_extract_rmr_base] *)
Definition _extract_rmr_base (device_id : str) : option (str * str * str) :=
  do s <- lit (py "RMR") device_id;
  match span isdigit s with
  | ([], _) => None
  | (ds, after) =>
      let rmr := py "RMR" ++ ds in
      let rest := Loader.lstrip_chars (py "_") after in
      match search_suffix 0 rest with
      | Some (start, suffix) =>
          Some (rmr, Loader.rstrip_chars (py "_") (firstn start rest), suffix)
      | None => Some (rmr, rest, [])
      end
  end.

End DbLoader.

(* ------------------------------------------------------------------ *)
(** ** Filtered and sorted discoveries ([discovery_engine.py]) *)

Module Ranking.

Import Store Discovery.

(** [d.get("timestamp") or default]: the default stands in for a missing
    timestamp and for an empty one. *)
Definition timestamp_or (default : str) (d : discovery) : str :=
  match dated d with
  | Some (c :: ts) => c :: ts
  | _ => default
  end.

(** The order of the sort keys [(-flames, -verified, timestamp or "")]:
    [by_importance a b] tells that the key of [a] is not above the one of
    [b]. *)
Definition by_importance (a b : discovery) : bool :=
  (flames b <? flames a)
  || ((flames a =? flames b)
      && ((verified a && negb (verified b))
          || (Bool.eqb (verified a) (verified b)
              && leb (timestamp_or [] a) (timestamp_or [] b)))).

(** The key [timestamp or "9999"], descending ([reverse=True] keeps equal
    elements in their order) and ascending. *)
Definition by_date_desc (a b : discovery) : bool :=
  leb (timestamp_or (py "9999") b) (timestamp_or (py "9999") a).

Definition by_date_asc (a b : discovery) : bool :=
  leb (timestamp_or (py "9999") a) (timestamp_or (py "9999") b).

(** [get_discoveries] *)
Definition get_discoveries
  (cellebrite_data : list (str * list (str * list row)))
  (device_map : list (str * row)) (category person sort : str)
  : list discovery :=
  let all_disc := scan_discoveries cellebrite_data device_map in
  let all_disc1 :=
    if eqb category (py "all") then all_disc
    else filter (fun d => eqb (lower (Discovery.category d)) (lower category))
           all_disc in
  let all_disc2 :=
    if eqb person (py "all") then all_disc1
    else filter (fun d => contains (lower person)
                            (lower (owner d ++ join (py " ") (tags d))))
           all_disc1 in
  if eqb sort (py "importance") then Py.sort_by by_importance all_disc2
  else if eqb sort (py "date") then Py.sort_by by_date_desc all_disc2
  else if eqb sort (py "date_asc") then Py.sort_by by_date_asc all_disc2
  else all_disc2.

End Ranking.

(* ================================================================== *)
(** * Properties *)

(** ** Text primitives *)

Module TextFacts.

Ltac by_cases_on_char c :=
  destruct c as [[] [] [] [] [] [] [] []]; vm_compute; try reflexivity; auto.

Lemma lower_char_idem (c : ascii) : lower_char (lower_char c) = lower_char c.
Proof. by_cases_on_char c. Qed.

Lemma eqb_refl (a : str) : eqb a a = true.
Proof. unfold eqb. destruct (list_eq_dec ascii_dec a a); congruence. Qed.

Lemma eqb_eq (a b : str) : eqb a b = true <-> a = b.
Proof.
  unfold eqb. destruct (list_eq_dec ascii_dec a b); split; congruence.
Qed.

Lemma eqb_neq (a b : str) : eqb a b = false <-> a <> b.
Proof.
  unfold eqb. destruct (list_eq_dec ascii_dec a b); split; congruence.
Qed.

Lemma lstrip_length (s : str) : length (lstrip s) <= length s.
Proof.
  induction s as [|c t IH]; simpl; [lia|].
  destruct (isspace c); simpl; lia.
Qed.

(** A string is fixed by [lstrip] exactly when it does not begin with
    whitespace. *)
Definition head_ok (s : str) : Prop :=
  match s with
  | [] => True
  | c :: _ => isspace c = false
  end.

Lemma lstrip_fixed (s : str) : head_ok s -> lstrip s = s.
Proof. destruct s as [|c t]; simpl; [reflexivity|]. now intros ->. Qed.

Lemma lstrip_head_ok (s : str) : head_ok (lstrip s).
Proof.
  induction s as [|c t IH]; simpl; [exact I|].
  destruct (isspace c) eqn:E; [assumption|]. simpl. exact E.
Qed.

Lemma rstrip_head_ok (s : str) : head_ok s -> head_ok (rstrip s).
Proof.
  destruct s as [|c t]; simpl; [auto|]. intros H.
  destruct (rstrip t); [rewrite H|]; simpl; assumption.
Qed.

Lemma rstrip_idem (s : str) : rstrip (rstrip s) = rstrip s.
Proof.
  induction s as [|c t IH]; simpl; [reflexivity|].
  destruct (rstrip t) as [|d r] eqn:E.
  - destruct (isspace c) eqn:Ec; simpl; [reflexivity|]. now rewrite Ec.
  - change (rstrip (c :: d :: r)) with
      (match rstrip (d :: r) with
       | [] => if isspace c then [] else [c]
       | x => c :: x
       end).
    now rewrite IH.
Qed.

Lemma strip_fixed (s : str) : head_ok s -> rstrip s = s -> strip s = s.
Proof. intros H1 H2. unfold strip. now rewrite (lstrip_fixed _ H1). Qed.

Lemma strip_head_ok (s : str) : head_ok (strip s).
Proof. apply rstrip_head_ok, lstrip_head_ok. Qed.

Lemma strip_rstrip (s : str) : rstrip (strip s) = strip s.
Proof. apply rstrip_idem. Qed.

Lemma strip_idem (s : str) : strip (strip s) = strip s.
Proof. apply strip_fixed; [apply strip_head_ok | apply strip_rstrip]. Qed.

Lemma Forall_lstrip (P : ascii -> Prop) (s : str) :
  Forall P s -> Forall P (lstrip s).
Proof.
  induction 1 as [|c t Hc Ht IH]; simpl; [constructor|].
  destruct (isspace c); [assumption | now constructor].
Qed.

Lemma Forall_rstrip (P : ascii -> Prop) (s : str) :
  Forall P s -> Forall P (rstrip s).
Proof.
  induction 1 as [|c t Hc Ht IH]; simpl; [constructor|].
  destruct (rstrip t).
  - destruct (isspace c); constructor; auto.
  - now constructor.
Qed.

Lemma Forall_strip (P : ascii -> Prop) (s : str) :
  Forall P s -> Forall P (strip s).
Proof. intros. now apply Forall_rstrip, Forall_lstrip. Qed.

(** [rstrip] in terms of the end of the string. *)
Lemma rstrip_app_nonspace (s : str) (c : ascii) :
  isspace c = false -> rstrip (s ++ [c]) = s ++ [c].
Proof.
  intros Hc. induction s as [|d t IH]; simpl.
  - now rewrite Hc.
  - rewrite IH. destruct (t ++ [c]) eqn:E; [|reflexivity].
    now destruct t.
Qed.

Lemma rstrip_app_space (s : str) (c : ascii) :
  isspace c = true -> rstrip (s ++ [c]) = rstrip s.
Proof.
  intros Hc. induction s as [|d t IH]; simpl.
  - now rewrite Hc.
  - now rewrite IH.
Qed.

Lemma rstrip_nil_iff (s : str) : rstrip s = [] <-> forallb isspace s = true.
Proof.
  induction s as [|c t IH]; simpl; [tauto|].
  destruct (rstrip t) eqn:E.
  - destruct (isspace c); simpl; [tauto|]. split; discriminate.
  - split; [discriminate|]. rewrite andb_true_iff. intros [_ H].
    apply IH in H. discriminate.
Qed.

End TextFacts.

Import TextFacts.

(** ** Name normalisation *)

Module NormalizeFacts.

Definition keep (c : ascii) : bool := isword c || isspace c.

(** Whitespace inside a squeezed string is a single space, never doubled;
    [prev] tells that the character before was whitespace. *)
Fixpoint tidy (prev : bool) (s : str) : Prop :=
  match s with
  | [] => True
  | c :: t =>
      if isspace c then c = " "%char /\ prev = false /\ tidy true t
      else tidy false t
  end.

Lemma tidy_weaken (s : str) : tidy true s -> tidy false s.
Proof.
  destruct s as [|c t]; simpl; [auto|].
  destruct (isspace c); [|auto]. intros (_ & H & _). discriminate.
Qed.

Lemma squeeze_tidy (s : str) (b : bool) : tidy b (squeeze_ws b s).
Proof.
  revert b. induction s as [|c t IH]; intros b; simpl; [exact I|].
  destruct (isspace c) eqn:E.
  - destruct b.
    + specialize (IH true).
      destruct (squeeze_ws true t) as [|d r] eqn:Er; [exact I|].
      simpl in *. destruct (isspace d); [|assumption].
      destruct IH as (_ & H & _). discriminate.
    + simpl. auto.
  - simpl. rewrite E. apply IH.
Qed.

Lemma tidy_fixed (s : str) (b : bool) : tidy b s -> squeeze_ws b s = s.
Proof.
  revert b. induction s as [|c t IH]; intros b; simpl; [reflexivity|].
  destruct (isspace c).
  - intros (-> & -> & H). now rewrite (IH true H).
  - intros H. now rewrite (IH false H).
Qed.

Lemma tidy_lstrip (s : str) (b : bool) : tidy b s -> tidy false (lstrip s).
Proof.
  revert b. induction s as [|c t IH]; intros b; simpl; [auto|].
  destruct (isspace c) eqn:E.
  - intros (_ & _ & H). now apply (IH true).
  - intros H. simpl. now rewrite E.
Qed.

Lemma tidy_rstrip (s : str) (b : bool) : tidy b s -> tidy b (rstrip s).
Proof.
  revert b. induction s as [|c t IH]; intros b; simpl; [auto|].
  destruct (isspace c) eqn:E.
  - intros (Hc & Hb & H). specialize (IH true H).
    destruct (rstrip t); [exact I|]. simpl (tidy b (c :: _)). rewrite E. auto.
  - intros H. specialize (IH false H).
    destruct (rstrip t); simpl; rewrite E; auto.
Qed.

Lemma lower_fixed (s : str) :
  Forall (fun c => lower_char c = c) s -> lower s = s.
Proof.
  induction 1 as [|c t Hc Ht IH]; simpl; [reflexivity|]. now rewrite Hc, IH.
Qed.

Lemma drop_punct_fixed (s : str) :
  Forall (fun c => keep c = true) s -> drop_punct s = s.
Proof.
  induction 1 as [|c t Hc Ht IH]; simpl; [reflexivity|].
  unfold keep in Hc. rewrite Hc. f_equal. exact IH.
Qed.

Lemma Forall_squeeze (P : ascii -> Prop) (s : str) (b : bool) :
  P " "%char -> Forall P s -> Forall P (squeeze_ws b s).
Proof.
  intros Hsp H. revert b. induction H as [|c t Hc Ht IH]; intros b; simpl.
  - constructor.
  - destruct (isspace c); [destruct b|]; try constructor; auto.
Qed.

Lemma Forall_drop_punct (P : ascii -> Prop) (s : str) :
  Forall P s -> Forall P (drop_punct s).
Proof.
  unfold drop_punct. rewrite !Forall_forall. intros H c Hc.
  apply filter_In in Hc. apply H, Hc.
Qed.

(** The shape of every normalised name. *)
Record normal (s : str) : Prop := {
  normal_head : head_ok s;
  normal_tail : rstrip s = s;
  normal_lower : Forall (fun c => lower_char c = c) s;
  normal_keep : Forall (fun c => keep c = true) s;
  normal_tidy : tidy false s
}.

Lemma normalize_normal (x : str) : normal (normalize_name x).
Proof.
  destruct x as [|a x']; [now repeat constructor|].
  unfold normalize_name. set (s := strip (a :: x')).
  constructor.
  - apply strip_head_ok.
  - apply strip_rstrip.
  - apply Forall_strip, Forall_squeeze; [reflexivity|].
    apply Forall_drop_punct. unfold lower. apply Forall_forall.
    intros c Hc. apply in_map_iff in Hc. destruct Hc as (d & <- & _).
    apply lower_char_idem.
  - apply Forall_strip, Forall_squeeze; [reflexivity|].
    unfold drop_punct. apply Forall_forall. intros c Hc.
    apply filter_In in Hc. apply Hc.
  - unfold strip. apply tidy_rstrip, (tidy_lstrip _ false), squeeze_tidy.
Qed.

Lemma normal_fixed (s : str) : normal s -> normalize_name s = s.
Proof.
  intros [H1 H2 H3 H4 H5]. destruct s as [|a t]; [reflexivity|].
  unfold normalize_name.
  rewrite (strip_fixed _ H1 H2), (lower_fixed _ H3), (drop_punct_fixed _ H4),
    (tidy_fixed _ _ H5).
  now apply strip_fixed.
Qed.

End NormalizeFacts.

(** C8: normalising a name twice gives the same result as normalising it
    once, for every input string. *)
Theorem normalize_name_idempotent (x : str) :
  normalize_name (normalize_name x) = normalize_name x.
Proof. apply NormalizeFacts.normal_fixed, NormalizeFacts.normalize_normal. Qed.

(** ** Entity resolution *)

(** The tokens of a primary participant's normalised name. *)
Definition name_tokens (primary : str) : list str :=
  split_ws (normalize_name primary).

(** [name] is an exact primary name, after normalisation. *)
Definition is_primary_name (name : str) : Prop :=
  exists p, In p primary_names /\ normalize_name p = normalize_name name.

(** [name] is a curated alias of a participant, as the alias loop tests it. *)
Definition is_alias (name : str) : Prop :=
  exists p aliases a,
    In (p, aliases) NAME_ALIASES /\ In a aliases /\
    (normalize_name name = a \/ normalize_name name = normalize_name a).

(** C7: an input whose normalised form is exactly the last token of a
    primary participant's multi-token normalised name, and which is neither an
    exact primary name nor a curated alias, is matched to nobody:
    [match_primary] returns [None]. *)
Theorem last_name_only_rejected (name primary : str) :
  In primary primary_names ->
  2 <= length (name_tokens primary) ->
  normalize_name name = last (name_tokens primary) [] ->
  ~ is_primary_name name ->
  ~ is_alias name ->
  match_primary name = None.
Proof.
  intros Hin _ Hlast _ _. unfold match_primary. rewrite Hlast. clear Hlast.
  unfold primary_names in Hin. simpl in Hin.
  repeat (destruct Hin as [<- | Hin]; [vm_compute; reflexivity|]).
  contradiction.
Qed.

Lemma last_name_only_rejected_witness :
  match_primary (py " Woods. ") = None.
Proof.
  apply (last_name_only_rejected (py " Woods. ") (py "Wendi Woods")).
  - vm_compute. tauto.
  - vm_compute. lia.
  - vm_compute. reflexivity.
  - intros (p & Hin & Heq). vm_compute in Hin.
    repeat (destruct Hin as [<- | Hin];
            [vm_compute in Heq; discriminate Heq|]).
    exact Hin.
  - intros (p & aliases & a & Hin & Ha & Heq). vm_compute in Hin.
    repeat (destruct Hin as [Hp | Hin];
      [ injection Hp as <- <-; vm_compute in Ha;
        repeat (destruct Ha as [<- | Ha];
                [vm_compute in Heq; destruct Heq; discriminate|]);
        exact Ha |]).
    exact Hin.
Defined.

(** ** Chat parsers *)

Module RegexFacts.

Lemma lit_app (p s : str) : lit p (p ++ s) = Some s.
Proof.
  induction p as [|a p IH]; simpl; [reflexivity|].
  now rewrite Ascii.eqb_refl.
Qed.

Lemma lit_inv (p s r : str) : lit p s = Some r -> s = p ++ r.
Proof.
  revert s. induction p as [|a p IH]; intros s; simpl.
  - now intros [= ->].
  - destruct s as [|b s]; [discriminate|].
    destruct (Ascii.eqb a b) eqn:E; [|discriminate].
    apply Ascii.eqb_eq in E. subst b. intros H. f_equal. now apply IH.
Qed.

Lemma digits_inv (n : nat) (s d r : str) :
  digits n s = Some (d, r) ->
  s = d ++ r /\ length d = n /\ forallb isdigit d = true.
Proof.
  revert s d r. induction n as [|n IH]; intros s d r; simpl.
  - intros [= <- <-]. auto.
  - destruct s as [|c t]; [discriminate|].
    destruct (isdigit c) eqn:E; [|discriminate].
    destruct (digits n t) as [[d' r']|] eqn:Ed; [|discriminate].
    intros [= <- <-]. destruct (IH _ _ _ Ed) as (-> & <- & Hd).
    simpl. rewrite E. auto.
Qed.

Lemma digits_app (d s : str) :
  forallb isdigit d = true -> digits (length d) (d ++ s) = Some (d, s).
Proof.
  induction d as [|c d IH]; simpl; [reflexivity|].
  rewrite andb_true_iff. intros [-> H]. now rewrite (IH H).
Qed.

Lemma span_inv (f : ascii -> bool) (s a b : str) :
  span f s = (a, b) ->
  s = a ++ b /\ forallb f a = true /\
  match b with [] => True | c :: _ => f c = false end.
Proof.
  revert a b. induction s as [|c t IH]; intros a b; simpl.
  - intros [= <- <-]. auto.
  - destruct (f c) eqn:E.
    + destruct (span f t) as [a' b'] eqn:Es. intros [= <- <-].
      destruct (IH _ _ eq_refl) as (-> & Ha & Hb). simpl. rewrite E. auto.
    + intros [= <- <-]. simpl. auto.
Qed.

Lemma span_app (f : ascii -> bool) (a b : str) :
  forallb f a = true ->
  match b with [] => True | c :: _ => f c = false end ->
  span f (a ++ b) = (a, b).
Proof.
  intros Ha Hb. induction a as [|c a IH]; simpl in *.
  - destruct b as [|c b]; [reflexivity|]. simpl. now rewrite Hb.
  - apply andb_true_iff in Ha. destruct Ha as [-> Ha]. now rewrite (IH Ha).
Qed.

Lemma dot_plus_inv (s g : str) :
  dot_plus s = Some g -> g <> [] /\ forallb (not_char nl) g = true.
Proof.
  unfold dot_plus. destruct (span (not_char nl) s) as [a b] eqn:E.
  apply span_inv in E. destruct E as (_ & Ha & _). simpl.
  destruct a; [discriminate|]. intros [= <-]. split; [discriminate|assumption].
Qed.

Lemma dot_plus_all (g : str) :
  g <> [] -> forallb (not_char nl) g = true -> dot_plus g = Some g.
Proof.
  intros Hne Hg. unfold dot_plus.
  rewrite <- (app_nil_r g) at 1. rewrite (span_app _ g [] Hg I). simpl.
  destruct g; [congruence | reflexivity].
Qed.

(** The shape of a group 1: a date, the letter T, and a non-empty rest
    without closing bracket. *)
Record stamp (y m d t : str) : Prop := {
  stamp_y : length y = 4 /\ forallb isdigit y = true;
  stamp_m : length m = 2 /\ forallb isdigit m = true;
  stamp_d : length d = 2 /\ forallb isdigit d = true;
  stamp_t : t <> [] /\ forallb (not_char "]") t = true
}.

Definition stamp_text (y m d t : str) : str :=
  y ++ py "-" ++ m ++ py "-" ++ d ++ py "T" ++ t.

Lemma match_msg_inv (line ts snd_ g3 : str) :
  match_msg line = Some (ts, snd_, g3) ->
  (exists y m d t, stamp y m d t /\ ts = stamp_text y m d t) /\
  forallb (not_char "*") snd_ = true /\
  g3 <> [] /\ forallb (not_char nl) g3 = true.
Proof.
  unfold match_msg, bind.
  destruct (lit (py "- [") line) as [s1|]; [|discriminate].
  destruct (digits 4 s1) as [[y s2]|] eqn:E1; [|discriminate].
  destruct (lit (py "-") s2) as [s3|]; [|discriminate].
  destruct (digits 2 s3) as [[m s4]|] eqn:E2; [|discriminate].
  destruct (lit (py "-") s4) as [s5|]; [|discriminate].
  destruct (digits 2 s5) as [[d s6]|] eqn:E3; [|discriminate].
  destruct (lit (py "T") s6) as [s7|]; [|discriminate].
  destruct (span (not_char "]") s7) as [t s8] eqn:E4.
  destruct t as [|t0 t']; [discriminate|].
  destruct (lit (py "] **") s8) as [s9|]; [|discriminate].
  destruct (span (not_char "*") s9) as [sender s10] eqn:E5.
  destruct (lit (py "**: ") s10) as [s11|]; [|discriminate].
  destruct (dot_plus s11) as [b|] eqn:E6; [|discriminate].
  intros [= <- <- <-].
  apply digits_inv in E1, E2, E3. apply span_inv in E4, E5.
  apply dot_plus_inv in E6.
  destruct E1 as (_ & ? & ?), E2 as (_ & ? & ?), E3 as (_ & ? & ?).
  destruct E4 as (_ & ? & _), E5 as (_ & ? & _), E6 as [? ?].
  repeat split; auto.
  exists y, m, d, (t0 :: t'). split; [|reflexivity].
  constructor; auto. split; [discriminate | assumption].
Qed.

Lemma match_msg_build (y m d t snd_ g3 : str) :
  stamp y m d t ->
  forallb (not_char "*") snd_ = true ->
  g3 <> [] -> forallb (not_char nl) g3 = true ->
  match_msg (py "- [" ++ stamp_text y m d t ++ py "] **" ++ snd_
             ++ py "**: " ++ g3)
  = Some (stamp_text y m d t, snd_, g3).
Proof.
  intros [[Ly Hy] [Lm Hm] [Ld Hd] [Ht Ht']] Hs Hg Hg'.
  unfold match_msg, stamp_text, bind.
  rewrite lit_app. rewrite <- !app_assoc.
  rewrite <- Ly at 1. rewrite (digits_app _ _ Hy), lit_app.
  rewrite <- Lm at 1. rewrite (digits_app _ _ Hm), lit_app.
  rewrite <- Ld at 1. rewrite (digits_app _ _ Hd), lit_app.
  rewrite (span_app (not_char "]") t
             (py "] **" ++ snd_ ++ py "**: " ++ g3) Ht' eq_refl).
  destruct t as [|t0 t']; [congruence|].
  rewrite lit_app.
  rewrite (span_app (not_char "*") snd_ (py "**: " ++ g3) Hs eq_refl), lit_app.
  now rewrite (dot_plus_all _ Hg Hg').
Qed.

End RegexFacts.

Import RegexFacts.

Module ChatFacts.

Lemma forallb_strip (f : ascii -> bool) (s : str) :
  forallb f s = true -> forallb f (strip s) = true.
Proof.
  rewrite !forallb_forall, <- !Forall_forall. apply Forall_strip.
Qed.

Lemma rfind_none_iff (ch : ascii) (s : str) :
  rfind ch s = None <-> forallb (not_char ch) s = true.
Proof.
  induction s as [|c t IH]; simpl; [tauto|].
  unfold not_char at 1. rewrite (Ascii.eqb_sym ch c).
  destruct (rfind ch t).
  - split; [discriminate|]. rewrite andb_true_iff. intros [_ H].
    apply IH in H. discriminate.
  - destruct (Ascii.eqb c ch); simpl; [split; discriminate|]. tauto.
Qed.

Lemma rfind_some (ch : ascii) (s : str) (i : nat) :
  rfind ch s = Some i ->
  exists a b, s = a ++ ch :: b /\ length a = i /\ rfind ch b = None.
Proof.
  revert i. induction s as [|c t IH]; intros i; simpl; [discriminate|].
  destruct (rfind ch t) as [j|] eqn:E.
  - intros [= <-]. destruct (IH _ eq_refl) as (a & b & -> & <- & Hb).
    exists (c :: a), b. auto.
  - destruct (Ascii.eqb c ch) eqn:Ec; [|discriminate].
    apply Ascii.eqb_eq in Ec. subst c. intros [= <-].
    exists [], t. auto.
Qed.

Lemma rfind_app (ch : ascii) (a b : str) :
  rfind ch b = None -> rfind ch (a ++ ch :: b) = Some (length a).
Proof.
  intros Hb. induction a as [|c a IH]; simpl.
  - now rewrite Hb, Ascii.eqb_refl.
  - now rewrite IH.
Qed.

Lemma endswith_char_inv (ch : ascii) (s : str) :
  endswith_char ch s = true -> exists p, s = p ++ [ch].
Proof.
  unfold endswith_char. destruct (rev s) as [|c r] eqn:E; [discriminate|].
  intros H. apply Ascii.eqb_eq in H. subst c. exists (rev r).
  rewrite <- (rev_involutive s), E. reflexivity.
Qed.

Lemma endswith_char_app (ch : ascii) (p : str) :
  endswith_char ch (p ++ [ch]) = true.
Proof.
  unfold endswith_char. rewrite rev_app_distr. simpl. apply Ascii.eqb_refl.
Qed.

(** What a successful extraction of a non-empty source says about the
    stripped group 3. *)
Lemma split_source_inv (g3 b src : str) :
  split_source g3 = (b, src) -> src <> [] ->
  exists a, strip g3 = a ++ py "(" ++ src ++ py ")" /\
            a <> [] /\ b = strip a /\ rfind "(" src = None.
Proof.
  unfold split_source. intros H Hsrc.
  destruct (rfind "(" (strip g3)) as [[|i]|] eqn:Er;
    try (injection H as _ <-; congruence).
  destruct (endswith_char ")" (strip g3)) eqn:Ee;
    [|injection H as _ <-; congruence].
  apply pair_equal_spec in H. destruct H as [<- <-].
  apply rfind_some in Er. destruct Er as (a & b0 & Ea & La & Hb0).
  apply endswith_char_inv in Ee. destruct Ee as (p & Ep).
  assert (Hb : exists b1, b0 = b1 ++ [")"%char]).
  { destruct (exists_last (l := b0)) as (b1 & c & ->).
    - intros ->. rewrite Ea in Ep.
      change (a ++ ["("%char]) with (a ++ ["("%char]) in Ep.
      apply app_inj_tail in Ep. destruct Ep as [_ Ep]. discriminate.
    - exists b1. rewrite Ea in Ep.
      change (a ++ "("%char :: b1 ++ [c]) with (a ++ ("("%char :: b1) ++ [c]) in Ep.
      rewrite app_assoc in Ep. apply app_inj_tail in Ep.
      destruct Ep as [_ ->]. reflexivity. }
  destruct Hb as (b1 & ->). exists a.
  assert (Hfirst : firstn (S i) (strip g3) = a).
  { rewrite Ea, <- La. rewrite firstn_app, firstn_all, Nat.sub_diag. simpl.
    apply app_nil_r. }
  assert (Hskip : skipn (S (S i)) (removelast (strip g3)) = b1).
  { rewrite Ea.
    change (a ++ "("%char :: b1 ++ [")"%char])
      with (a ++ ("("%char :: b1) ++ [")"%char]).
    rewrite app_assoc, removelast_last.
    change (S (S i)) with (1 + S i). rewrite <- La, <- skipn_skipn.
    rewrite skipn_app, skipn_all, Nat.sub_diag. reflexivity. }
  rewrite Hfirst, Hskip. repeat split.
  - exact Ea.
  - destruct a; [discriminate La | discriminate].
  - apply rfind_none_iff in Hb0. apply rfind_none_iff.
    rewrite forallb_app in Hb0. apply andb_true_iff in Hb0. apply Hb0.
Qed.

Lemma split_source_build (b src : str) :
  b <> [] -> head_ok b -> rstrip b = b -> rfind "(" src = None ->
  split_source (b ++ py " (" ++ src ++ py ")") = (b, src).
Proof.
  intros Hne Hh Hr Hs. unfold split_source.
  set (g := b ++ py " (" ++ src ++ py ")").
  assert (Eg : g = (b ++ [" "%char]) ++ "("%char :: (src ++ [")"%char])).
  { unfold g. rewrite <- app_assoc. reflexivity. }
  assert (Eg' : g = (b ++ py " (" ++ src) ++ [")"%char]).
  { unfold g. rewrite <- !app_assoc. reflexivity. }
  assert (Hstrip : strip g = g).
  { apply strip_fixed.
    - unfold g. destruct b; [congruence | exact Hh].
    - rewrite Eg'. now apply rstrip_app_nonspace. }
  rewrite Hstrip.
  assert (Hrf : rfind "(" g = Some (S (length b))).
  { rewrite Eg, rfind_app.
    - f_equal. rewrite length_app. simpl. lia.
    - apply rfind_none_iff. rewrite forallb_app. apply andb_true_iff.
      split; [now apply rfind_none_iff | reflexivity]. }
  rewrite Hrf.
  assert (He : endswith_char ")" g = true).
  { rewrite Eg'. apply endswith_char_app. }
  rewrite He. f_equal.
  - rewrite Eg.
    replace (S (length b)) with (length (b ++ [" "%char]))
      by (rewrite length_app; simpl; lia).
    rewrite firstn_app, firstn_all, Nat.sub_diag. simpl. rewrite app_nil_r.
    unfold strip.
    rewrite lstrip_fixed by (destruct b; [congruence | exact Hh]).
    now rewrite rstrip_app_space.
  - rewrite Eg', removelast_last.
    replace (b ++ py " (" ++ src) with ((b ++ py " (") ++ src)
      by (now rewrite <- app_assoc).
    replace (S (S (length b))) with (length (b ++ py " ("))
      by (rewrite length_app; simpl; lia).
    rewrite skipn_app, skipn_all, Nat.sub_diag. reflexivity.
Qed.

End ChatFacts.

(** C6: a line that the chat parser accepts with a non-empty source, written
    back as [- [timestamp] **sender**: body (source)] and parsed again, gives
    the same timestamp, sender, body and source. *)
Theorem chat_roundtrip (line : str) (r : chat_msg) :
  parse_chat_line line = Some r ->
  source r <> [] ->
  parse_chat_line (serialize_chat r) = Some r.
Proof.
  unfold parse_chat_line, bind.
  destruct (match_msg line) as [[[ts snd_] g3]|] eqn:Em; [|discriminate].
  destruct (split_source g3) as [b src] eqn:Es. intros [= <-]. simpl.
  intros Hsrc. unfold serialize_chat. simpl timestamp. simpl sender.
  simpl body. simpl source.
  apply match_msg_inv in Em.
  destruct Em as ((y & m & d & t & Hst & ->) & Hsnd & Hg & Hnl).
  destruct (ChatFacts.split_source_inv _ _ _ Es Hsrc) as (a & Ea & Ha & -> & Hrf).
  assert (Hall : forallb (not_char nl) (strip g3) = true)
    by now apply ChatFacts.forallb_strip.
  rewrite Ea, !forallb_app in Hall.
  repeat (apply andb_true_iff in Hall; destruct Hall as [? Hall]).
  assert (Hb : strip a <> []).
  { assert (Hh : head_ok (strip g3)) by apply strip_head_ok.
    rewrite Ea in Hh. destruct a as [|c a']; [congruence|]. simpl in Hh.
    unfold strip. simpl lstrip. rewrite Hh. simpl rstrip.
    destruct (rstrip a'); [rewrite Hh|]; discriminate. }
  rewrite (match_msg_build _ _ _ _ _ _ Hst Hsnd).
  - rewrite ChatFacts.split_source_build; auto.
    + apply strip_head_ok.
    + apply strip_rstrip.
  - destruct (strip a); [congruence | discriminate].
  - rewrite !forallb_app, ChatFacts.forallb_strip by assumption.
    simpl. repeat (apply andb_true_iff; split); auto.
Qed.

Lemma chat_roundtrip_witness :
  let line := py "- [2021-08-06T21:07:24+00:00] **Wendi**: Added to MCUA group (Signal)" in
  let r := {| timestamp := py "2021-08-06T21:07:24+00:00"; sender := py "Wendi";
              body := py "Added to MCUA group"; source := py "Signal" |} in
  parse_chat_line line = Some r /\ parse_chat_line (serialize_chat r) = Some r.
Proof.
  split; [reflexivity|].
  apply (chat_roundtrip
           (py "- [2021-08-06T21:07:24+00:00] **Wendi**: Added to MCUA group (Signal)"));
    [reflexivity | discriminate].
Defined.

(** ** The flat parser and the thread parser *)

Module ThreadFacts.

(** Every message seen so far: those of the closed threads, then those of
    the open one. *)
Definition all_msgs (st : thread_state) : list chat_msg :=
  concat (map messages (threads st)) ++
  match current_thread st with
  | Some t => messages t
  | None => []
  end.

(** What a line contributes to the flat parser. *)
Definition line_msgs (line : str) : list chat_msg :=
  match parse_chat_line line with
  | Some m => [m]
  | None => []
  end.

Lemma parse_chats_flat (lines : list str) :
  parse_chats lines = flat_map line_msgs lines.
Proof.
  induction lines as [|l rest IH]; simpl; [reflexivity|].
  unfold line_msgs at 1. destruct (parse_chat_line l); simpl; now rewrite IH.
Qed.

Lemma header_not_msg (line g : str) :
  match_header line = Some g -> parse_chat_line line = None.
Proof.
  unfold match_header, parse_chat_line, match_msg, bind.
  destruct (lit (py "### Chat: ") line) as [s|] eqn:E; [|discriminate].
  apply lit_inv in E. subst line. reflexivity.
Qed.

Lemma started_not_msg (line g : str) :
  match_started line = Some g -> parse_chat_line line = None.
Proof.
  unfold match_started, parse_chat_line, match_msg, bind.
  destruct (lit (py "**Started:** ") line) as [s|] eqn:E; [|discriminate].
  apply lit_inv in E. subst line. reflexivity.
Qed.

Lemma flush_msgs (st : thread_state) :
  concat (map messages (flush st)) = all_msgs st.
Proof.
  unfold flush, all_msgs. destruct (current_thread st) as [t|].
  - destruct (messages t) eqn:E.
    + now rewrite app_nil_r.
    + rewrite map_app, concat_app. simpl. now rewrite app_nil_r, E.
  - now rewrite app_nil_r.
Qed.

Lemma thread_step_msgs (st : thread_state) (line : str) :
  all_msgs (thread_step st line) = all_msgs st ++ line_msgs line.
Proof.
  unfold thread_step, line_msgs.
  destruct (match_header line) as [g|] eqn:Eh.
  - rewrite (header_not_msg _ _ Eh). unfold all_msgs at 1. simpl.
    now rewrite flush_msgs, !app_nil_r.
  - destruct (current_thread st) as [t|] eqn:Ec.
    + destruct (match_started line) as [g|] eqn:Es.
      * rewrite (started_not_msg _ _ Es). unfold all_msgs. simpl.
        now rewrite Ec, app_nil_r.
      * destruct (parse_chat_line line) as [m|].
        -- unfold all_msgs. simpl. now rewrite Ec, app_assoc.
        -- now rewrite app_nil_r.
    + destruct (parse_chat_line line) as [m|].
      * unfold all_msgs. simpl. now rewrite Ec, app_nil_r.
      * now rewrite app_nil_r.
Qed.

Lemma fold_msgs (lines : list str) (st : thread_state) :
  all_msgs (fold_left thread_step lines st) = all_msgs st ++ parse_chats lines.
Proof.
  revert st. induction lines as [|l rest IH]; intros st; simpl.
  - now rewrite app_nil_r.
  - rewrite IH, thread_step_msgs, <- app_assoc. f_equal.
    unfold line_msgs. now destruct (parse_chat_line l).
Qed.

Lemma collect_threads_msgs (lines : list str) :
  concat (map messages (collect_threads lines)) = parse_chats lines.
Proof. unfold collect_threads. now rewrite flush_msgs, fold_msgs. Qed.

Lemma length_concat_sum {A} (l : list (list A)) :
  length (concat l) = list_sum (map (@length A) l).
Proof.
  induction l as [|x l IH]; simpl; [reflexivity|].
  now rewrite length_app, IH.
Qed.

End ThreadFacts.

(** C10: on every chat export file the flat parser and the thread parser
    agree: the records of [parse_chats] are the per-thread message lists of
    [parse_chat_threads] put together in thread order, and the
    [message_count] values of the thread summaries add up to the number of
    records of [parse_chats]. *)
Theorem parse_chats_threads_agree (lines : list str) :
  parse_chats lines = concat (map snd (snd (parse_chat_threads lines))) /\
  list_sum (map message_count (fst (parse_chat_threads lines)))
  = length (parse_chats lines).
Proof.
  unfold parse_chat_threads. simpl. rewrite !map_map. simpl. split.
  - symmetry. apply ThreadFacts.collect_threads_msgs.
  - rewrite <- ThreadFacts.collect_threads_msgs, ThreadFacts.length_concat_sum.
    now rewrite map_map.
Qed.

(** ** Python containers *)

Module PyFacts.

Lemma lookup_none {V} (k : str) (d : list (str * V)) :
  ~ In k (map fst d) -> Py.lookup k d = None.
Proof.
  induction d as [|[k' v] t IH]; simpl; [reflexivity|]. intros H.
  destruct (eqb k k') eqn:E.
  - apply eqb_eq in E. subst. tauto.
  - apply IH. tauto.
Qed.

Lemma lookup_dict_set_other {V} (k k' : str) (v : V) (d : list (str * V)) :
  k <> k' -> Py.lookup k (Py.dict_set k' v d) = Py.lookup k d.
Proof.
  intros Hne. induction d as [|[k0 v0] t IH]; simpl.
  - destruct (eqb k k') eqn:E; [apply eqb_eq in E; congruence | reflexivity].
  - destruct (eqb k' k0) eqn:E0; simpl.
    + apply eqb_eq in E0. subst k0.
      destruct (eqb k k') eqn:E; [apply eqb_eq in E; congruence | reflexivity].
    + destruct (eqb k k0); [reflexivity | exact IH].
Qed.

(** An order-preserving selection of the elements of a list. *)
Inductive subseq {A} : list A -> list A -> Prop :=
| subseq_nil : subseq [] []
| subseq_skip x l l' : subseq l l' -> subseq l (x :: l')
| subseq_take x l l' : subseq l l' -> subseq (x :: l) (x :: l').

Lemma subseq_refl {A} (l : list A) : subseq l l.
Proof. induction l; [apply subseq_nil | now apply subseq_take]. Qed.

Lemma subseq_nil_l {A} (l : list A) : subseq [] l.
Proof. induction l; [apply subseq_nil | now apply subseq_skip]. Qed.

Lemma subseq_trans {A} (a b c : list A) :
  subseq a b -> subseq b c -> subseq a c.
Proof.
  intros Hab Hbc. revert a Hab.
  induction Hbc as [|x b c Hbc IH|x b c Hbc IH]; intros a Hab.
  - exact Hab.
  - apply subseq_skip. now apply IH.
  - inversion Hab; subst.
    + apply subseq_skip. now apply IH.
    + apply subseq_take. now apply IH.
Qed.

Lemma subseq_filter {A} (f : A -> bool) (l : list A) : subseq (filter f l) l.
Proof.
  induction l as [|x l IH]; simpl; [constructor|].
  destruct (f x); [apply subseq_take | apply subseq_skip]; exact IH.
Qed.

Lemma subseq_firstn {A} (n : nat) (l : list A) : subseq (firstn n l) l.
Proof.
  revert n. induction l as [|x l IH]; intros [|n]; simpl.
  - apply subseq_nil.
  - apply subseq_nil.
  - apply subseq_nil_l.
  - apply subseq_take, IH.
Qed.

Lemma subseq_skipn {A} (n : nat) (l : list A) : subseq (skipn n l) l.
Proof.
  revert n. induction l as [|x l IH]; intros [|n]; simpl.
  - apply subseq_nil.
  - apply subseq_nil.
  - apply subseq_refl.
  - apply subseq_skip, IH.
Qed.

Lemma subseq_slice {A} (l : list A) (a b : Z) : subseq (Py.slice l a b) l.
Proof.
  unfold Py.slice.
  eapply subseq_trans; [apply subseq_firstn | apply subseq_skipn].
Qed.

Lemma subseq_map {A B} (f : A -> B) (l l' : list A) :
  subseq l l' -> subseq (map f l) (map f l').
Proof.
  induction 1; simpl;
    [apply subseq_nil | now apply subseq_skip | now apply subseq_take].
Qed.

Lemma subseq_in {A} (l l' : list A) (x : A) :
  subseq l l' -> In x l -> In x l'.
Proof.
  induction 1 as [|y l l' H IH|y l l' H IH]; simpl; [auto | auto |].
  intros [->|Hx]; auto.
Qed.

Lemma sort_by_in {A} (le : A -> A -> bool) (l : list A) (x : A) :
  In x (Py.sort_by le l) -> In x l.
Proof.
  induction l as [|y l IH]; simpl; [auto|]. intros H.
  assert (Hi : forall z m, In z (Py.insert_by le y m) -> z = y \/ In z m).
  { intros z m. induction m as [|w m IHm]; simpl.
    - intros [<-|[]]. auto.
    - destruct (le y w); simpl; intros [<-|Hz]; auto.
      destruct (IHm Hz); auto. }
  apply Hi in H. destruct H as [->|H]; auto.
Qed.

Lemma subseq_sorted {A} (R : A -> A -> Prop) (l l' : list A) :
  subseq l l' -> StronglySorted R l' -> StronglySorted R l.
Proof.
  induction 1 as [|x l l' H IH|x l l' H IH]; intros Hs.
  - constructor.
  - inversion Hs; subst. auto.
  - inversion Hs as [|? ? Hs' Hall]; subst. constructor; [auto|].
    clear - H Hall. revert Hall.
    induction H; intros Hall; inversion Hall; subst; auto.
Qed.

Section Sorting.

Context {A : Type} (le : A -> A -> bool).
Hypothesis le_total : forall a b, le a b = true \/ le b a = true.
Hypothesis le_trans : forall a b c, le a b = true -> le b c = true -> le a c = true.

Let R (a b : A) : Prop := le a b = true.

Lemma insert_by_in (x y : A) (l : list A) :
  In y (Py.insert_by le x l) -> y = x \/ In y l.
Proof.
  induction l as [|z l IH]; simpl.
  - intros [<-|[]]. auto.
  - destruct (le x z); simpl.
    + intros [<-|H]; auto.
    + intros [<-|H]; auto. destruct (IH H); auto.
Qed.

Lemma insert_by_sorted (x : A) (l : list A) :
  StronglySorted R l -> StronglySorted R (Py.insert_by le x l).
Proof.
  induction 1 as [|z l Hs IH Hall]; simpl.
  - repeat constructor.
  - destruct (le x z) eqn:E.
    + constructor; [now constructor|]. constructor; [exact E|].
      rewrite Forall_forall in *. intros y Hy. eapply le_trans; [exact E|].
      now apply Hall.
    + constructor; [exact IH|]. rewrite Forall_forall in *. intros y Hy.
      apply insert_by_in in Hy. destruct Hy as [->|Hy]; [|now apply Hall].
      destruct (le_total x z) as [H|H]; [congruence | exact H].
Qed.

Lemma sort_by_sorted (l : list A) : StronglySorted R (Py.sort_by le l).
Proof.
  induction l as [|x l IH]; simpl; [constructor|].
  now apply insert_by_sorted.
Qed.

End Sorting.

Lemma leb_refl (a : str) : leb a a = true.
Proof.
  induction a as [|x a IH]; simpl; [reflexivity|].
  now rewrite N.ltb_irrefl.
Qed.

Lemma code_inj (x y : ascii) : code x = code y -> x = y.
Proof.
  unfold code. intros H.
  rewrite <- (ascii_N_embedding x), <- (ascii_N_embedding y). now rewrite H.
Qed.

Lemma leb_total (a b : str) : leb a b = true \/ leb b a = true.
Proof.
  revert b. induction a as [|x a IH]; intros [|y b]; simpl; auto.
  destruct (N.ltb_spec (code x) (code y)); [auto|].
  destruct (N.ltb_spec (code y) (code x)); [auto|]. apply IH.
Qed.

Lemma leb_trans (a b c : str) :
  leb a b = true -> leb b c = true -> leb a c = true.
Proof.
  revert b c. induction a as [|x a IH]; intros [|y b] [|z c]; simpl;
    try congruence.
  destruct (N.ltb_spec (code x) (code y)), (N.ltb_spec (code y) (code z)),
    (N.ltb_spec (code x) (code z)), (N.ltb_spec (code y) (code x)),
    (N.ltb_spec (code z) (code y)), (N.ltb_spec (code z) (code x));
    try congruence; try lia.
  apply IH.
Qed.

Lemma leb_antisym (a b : str) : leb a b = true -> leb b a = true -> a = b.
Proof.
  revert b. induction a as [|x a IH]; intros [|y b]; simpl; try congruence.
  destruct (N.ltb_spec (code x) (code y)), (N.ltb_spec (code y) (code x));
    try congruence; try lia.
  intros H1 H2. f_equal; [apply code_inj; lia | now apply IH].
Qed.

End PyFacts.

(** ** Queries for unknown identifiers *)

(** C9: a device identifier that the store does not know gets the empty
    answer (no records, total 0) from [get_device_data], and a person
    identifier that no node of the graph carries gets [None] from
    [get_person_details]; neither call raises. *)
Theorem unknown_identifiers
  (repr : Store.row -> str) (dumps : Store.record -> str)
  (load_axiom_file : str -> str -> list Store.record)
  (self : Store.DataStore) (device_id : str) (category : option str)
  (page per_page : Z) (query date_from date_to : option str)
  (network_data : Network.network) (person_id : str) :
  ~ In device_id (map fst (Store.cellebrite_data self)) ->
  ~ In device_id (map fst (Store.axiom_index self)) ->
  ~ In person_id (map Network.id (Network.nodes network_data)) ->
  Store.get_device_data repr dumps load_axiom_file self device_id category
    page per_page query date_from date_to
  = {| Store.records := []; Store.total := 0;
       Store.page := page; Store.per_page := per_page |}
  /\ Network.get_person_details person_id network_data = None.
Proof.
  intros Hc Ha Hp. split.
  - unfold Store.get_device_data.
    now rewrite (PyFacts.lookup_none _ _ Hc), (PyFacts.lookup_none _ _ Ha).
  - unfold Network.get_person_details, Network.find_node.
    destruct (find _ _) as [n|] eqn:E; [|reflexivity].
    apply find_some in E. destruct E as [Hin E]. apply eqb_eq in E.
    exfalso. apply Hp. rewrite <- E. now apply in_map.
Qed.

Lemma unknown_identifiers_witness :
  let self := {| Store.cellebrite_data := [(py "joy-quinn", [])];
                 Store.axiom_index := [(py "RMR034376_HPDesktop", [])] |} in
  let net := Network.build_network
               (fun _ => {| Network.contacts := []; Network.calls := [];
                            Network.chats := []; Network.emails := [] |}) [] in
  Store.get_device_data (fun _ => []) (fun _ => []) (fun _ _ => []) self
    (py "no-such-device") (Some (py "chats")) 1 100 None None None
  = {| Store.records := []; Store.total := 0;
       Store.page := 1; Store.per_page := 100 |}
  /\ Network.get_person_details (py "000000000000") net = None.
Proof.
  apply unknown_identifiers.
  - vm_compute. intros [H|[]]. discriminate H.
  - vm_compute. intros [H|[]]. discriminate H.
  - vm_compute. intuition discriminate.
Defined.

(** The relational store answers in the same way for a device that is in
    neither the merge map nor the device table. *)
Lemma db_unknown_device
  (collate_le ilike : str -> str -> bool) (dumps : Store.record -> str)
  (axiom_file : str -> str -> option (list Store.record))
  (self : Db.EvidenceDB) (device_id : str) (category : option str)
  (page per_page : Z) (query date_from date_to : option str) :
  ~ In device_id (map fst (Db._merged_device_map self)) ->
  ~ In device_id (map Db.device_id (Db.devices self)) ->
  Db.get_device_data collate_le ilike dumps axiom_file self device_id category
    page per_page query date_from date_to
  = Db.Returns {| Store.records := []; Store.total := 0;
                  Store.page := page; Store.per_page := per_page |}.
Proof.
  intros Hm Hd. unfold Db.get_device_data, Db._resolve_device_ids.
  rewrite (PyFacts.lookup_none _ _ Hm).
  destruct (find _ _) as [d|] eqn:E; [|reflexivity].
  apply find_some in E. destruct E as [Hin E]. apply eqb_eq in E.
  exfalso. apply Hd. rewrite <- E. now apply in_map.
Qed.

(** ** The order of the records of an answer *)

Module OrderFacts.

Import Store.

(** The timestamp of a record of an answer. *)
Definition record_timestamp (r : record) : str :=
  match Py.lookup (py "timestamp") r with
  | Some (VStr s) => s
  | _ => []
  end.

(** Ordered by timestamp, latest first, for the order [le] on text. *)
Definition descending (le : str -> str -> bool) (l : list record) : Prop :=
  StronglySorted
    (fun a b => le (record_timestamp b) (record_timestamp a) = true) l.

Lemma lookup_of_row (k : str) (r : row) :
  Py.lookup k (of_row r) = option_map VStr (Py.lookup k r).
Proof.
  induction r as [|[k' v] t IH]; simpl; [reflexivity|].
  destruct (eqb k k'); [reflexivity | exact IH].
Qed.

Lemma row_record_timestamp (r : Db.record_row) :
  record_timestamp (Db.row_record r) = get (py "timestamp") [] (Db.data r).
Proof.
  unfold record_timestamp, Db.row_record, get.
  rewrite lookup_of_row, PyFacts.lookup_dict_set_other by discriminate.
  now destruct (Py.lookup (py "timestamp") (Db.data r)).
Qed.

Lemma sorted_map {A B} (R : A -> A -> Prop) (Q : B -> B -> Prop) (f : A -> B)
  (l : list A) :
  (forall a b, In a l -> In b l -> R a b -> Q (f a) (f b)) ->
  StronglySorted R l -> StronglySorted Q (map f l).
Proof.
  intros H Hs. induction Hs as [|x l Hs IH Hall]; simpl; constructor.
  - apply IH. intros a b Ha Hb. apply H; now right.
  - rewrite Forall_forall in *. intros y Hy. apply in_map_iff in Hy.
    destruct Hy as (z & <- & Hz). apply H; [now left | now right | auto].
Qed.

(** The rows are as [_index_cellebrite] writes them: the [timestamp] column
    repeats the field of the record. *)
Definition indexed (self : Db.EvidenceDB) : Prop :=
  forall r, In r (Db.records_table self) ->
            Db.timestamp r = get (py "timestamp") [] (Db.data r).

(** The records of a category as the in-memory store holds them. *)
Definition stored (self : DataStore) (device_id category : str) : list record :=
  match Py.lookup device_id (cellebrite_data self) with
  | Some data =>
      match Py.lookup category data with
      | Some l => map of_row l
      | None => []
      end
  | None => []
  end.

Lemma filter_if_subseq {A} (o : option str) (keep : str -> A -> bool)
  (l : list A) : PyFacts.subseq (filter_if o keep l) l.
Proof.
  unfold filter_if. destruct (given o);
    [apply PyFacts.subseq_filter | apply PyFacts.subseq_refl].
Qed.

End OrderFacts.

(** C5, as the claim states it, fails on the in-memory store: two chat
    records stored in file order, the earlier one first, come back in that
    order and not latest first. *)
Lemma in_memory_page_not_descending :
  let answer :=
    Store.get_device_data Samples.no_repr Samples.no_dumps Samples.no_files
      Samples.store (py "joy-quinn") (Some (py "chats")) 1 100 None None None in
  Store.records answer
  = [Store.of_row Samples.first_msg; Store.of_row Samples.second_msg]
  /\ ~ OrderFacts.descending leb (Store.records answer).
Proof.
  cbv zeta.
  assert (E : Store.records
                (Store.get_device_data Samples.no_repr Samples.no_dumps
                   Samples.no_files Samples.store (py "joy-quinn")
                   (Some (py "chats")) 1 100 None None None)
              = [Store.of_row Samples.first_msg; Store.of_row Samples.second_msg])
    by (vm_compute; reflexivity).
  rewrite E. split; [reflexivity|]. intros H.
  apply StronglySorted_inv in H. destruct H as [_ H].
  apply Forall_inv in H. vm_compute in H. discriminate H.
Qed.

(** C5, amended: on a line-oriented device the relational store returns a
    page ordered by timestamp, latest first, in the collation order of the
    database; the in-memory store returns the records of the category that
    pass the filters in the order in which they are stored. *)
Theorem device_data_order
  (collate_le ilike : str -> str -> bool)
  (repr : Store.row -> str) (dumps : Store.record -> str)
  (axiom_file : str -> str -> option (list Store.record))
  (load_axiom_file : str -> str -> list Store.record)
  (db : Db.EvidenceDB) (store : Store.DataStore)
  (device_id first : str) (rest : list str) (dev : Db.device_row)
  (category : str) (any_category : option str)
  (page per_page : Z) (query date_from date_to : option str) :
  (forall a b, collate_le a b = true \/ collate_le b a = true) ->
  (forall a b c, collate_le a b = true -> collate_le b c = true ->
                 collate_le a c = true) ->
  OrderFacts.indexed db ->
  Db._resolve_device_ids db device_id = first :: rest ->
  find (fun d => eqb (Db.device_id d) first) (Db.devices db) = Some dev ->
  Db.source dev <> py "axiom" ->
  (1 <= page)%Z -> (0 <= per_page)%Z ->
  In device_id (map fst (Store.cellebrite_data store)) ->
  category <> [] ->
  (exists answer,
      Db.get_device_data collate_le ilike dumps axiom_file db device_id
        any_category page per_page query date_from date_to
      = Db.Returns answer
      /\ OrderFacts.descending collate_le (Store.records answer))
  /\ PyFacts.subseq
       (Store.records
          (Store.get_device_data repr dumps load_axiom_file store device_id
             (Some category) page per_page query date_from date_to))
       (OrderFacts.stored store device_id category).
Proof.
  intros Htot Htrans Hidx Hres Hdev Hsrc Hpage Hper Hin Hcat. split.
  - unfold Db.get_device_data. rewrite Hres, Hdev.
    destruct (eqb (Db.source dev) (py "axiom")) eqn:E;
      [apply eqb_eq in E; contradiction|].
    unfold Db.limit_offset.
    destruct (Z.ltb_spec per_page 0); [lia|].
    destruct (Z.ltb_spec ((page - 1) * per_page) 0); [nia|].
    eexists. split; [reflexivity|]. simpl.
    set (rows := filter _ (Db.records_table db)).
    set (shown := firstn _ _).
    assert (Hsub : PyFacts.subseq shown
                     (Db.order_by_timestamp_desc collate_le rows)).
    { eapply PyFacts.subseq_trans;
        [apply PyFacts.subseq_firstn | apply PyFacts.subseq_skipn]. }
    assert (Htab : forall x, In x shown -> In x (Db.records_table db)).
    { intros x Hx. apply (PyFacts.subseq_in _ _ _ Hsub) in Hx.
      apply PyFacts.sort_by_in in Hx. apply filter_In in Hx. apply Hx. }
    apply OrderFacts.sorted_map with
      (R := fun a b => collate_le (Db.timestamp b) (Db.timestamp a) = true).
    + intros a b Ha Hb Hab.
      rewrite !OrderFacts.row_record_timestamp, <- !Hidx by auto. exact Hab.
    + apply (PyFacts.subseq_sorted _ _ _ Hsub).
      unfold Db.order_by_timestamp_desc.
      apply (PyFacts.sort_by_sorted
               (fun a b => collate_le (Db.timestamp b) (Db.timestamp a))).
      * intros a b. destruct (Htot (Db.timestamp a) (Db.timestamp b)); auto.
      * intros a b c Hab Hbc. eapply Htrans; eauto.
  - unfold Store.get_device_data, OrderFacts.stored.
    destruct (Py.lookup device_id (Store.cellebrite_data store)) as [data|] eqn:El.
    + assert (Hg : Store.given (Some category) = Some category)
        by (destruct category; [congruence | reflexivity]).
      rewrite Hg. unfold Store.paginate. simpl.
      eapply PyFacts.subseq_trans; [apply PyFacts.subseq_slice|].
      destruct (Py.lookup category data) as [l|];
        [|change (@nil Store.record) with (map Store.of_row [])];
        apply PyFacts.subseq_map;
        repeat (eapply PyFacts.subseq_trans;
                [apply OrderFacts.filter_if_subseq|]);
        apply PyFacts.subseq_refl.
    + exfalso. clear - Hin El. induction (Store.cellebrite_data store) as [|[k v] t IH];
        simpl in *; [auto|].
      destruct (eqb device_id k) eqn:E; [discriminate|].
      destruct Hin as [->|Hin]; [|auto]. now rewrite eqb_refl in E.
Qed.

Lemma device_data_order_witness :
  (exists answer,
      Db.get_device_data leb Samples.no_ilike Samples.no_dumps Samples.no_json
        Samples.db (py "joy-quinn") None 1 100 None None None
      = Db.Returns answer
      /\ OrderFacts.descending leb (Store.records answer))
  /\ PyFacts.subseq
       (Store.records
          (Store.get_device_data Samples.no_repr Samples.no_dumps
             Samples.no_files Samples.store (py "joy-quinn")
             (Some (py "chats")) 1 100 None None None))
       (OrderFacts.stored Samples.store (py "joy-quinn") (py "chats")).
Proof.
  apply (device_data_order leb Samples.no_ilike Samples.no_repr Samples.no_dumps
           Samples.no_json Samples.no_files Samples.db Samples.store
           (py "joy-quinn") (py "joy-quinn") []
           {| Db.device_id := py "joy-quinn"; Db.name := py "Joy Quinn iPhone";
              Db.type := py "iPhone"; Db.owner := py "Joy Quinn";
              Db.source := py "cellebrite" |}).
  - exact PyFacts.leb_total.
  - exact PyFacts.leb_trans.
  - intros r [<-|[<-|[]]]; reflexivity.
  - reflexivity.
  - reflexivity.
  - discriminate.
  - lia.
  - lia.
  - simpl. auto.
  - discriminate.
Defined.

(** ** The weight of an edge and the counts of its contributions *)

(** C1 asks that the weight of every edge of a built graph equals the sum
    of the counts of its contributions.  On two devices whose contact files
    list the same two unmatched names, the edge between the two owners comes
    out with weight 1 while its [shared_contact] contribution counts 2: the
    second shared name raises the count of the contribution and leaves the
    weight alone. *)
Theorem shared_contact_count_outruns_weight :
  let net := Network.build_network Samples.shared_contacts_files [] in
  let wendi := Network.make_id (py "Wendi Woods") in
  let joy := Network.make_id (py "Joy Quinn") in
  In {| Network.source := joy; Network.target := wendi;
        Network.e_types :=
          [Network.shared_contact 2 [py "Joy Quinn"; py "Wendi Woods"]];
        Network.e_weight := 1 |}
     (Network.edges net)
  /\ exists e, In e (Network.edges net)
               /\ Network.e_weight e
                  <> Network.contributions_total (Network.e_types e).
Proof.
  vm_compute. split.
  - do 4 right. left. reflexivity.
  - eexists. split; [do 4 right; left; reflexivity|]. simpl. discriminate.
Qed.

(** ** The discovery for stored credentials *)

Module ScanFacts.

Import Discovery.

(** The passwords discoveries of a device. *)
Definition is_passwords_for (target : str) (d : discovery) : bool :=
  match data_type d, device_id d with
  | Some dt, Some dev => eqb dt (py "passwords") && eqb dev target
  | _, _ => false
  end.

Section Counting.

Variable p : discovery -> bool.

Lemma emit_filter (mk : nat -> discovery) (a : acc) :
  filter p (fst (emit mk a))
  = filter p (fst a) ++ (if p (mk (S (snd a))) then [mk (S (snd a))] else []).
Proof. unfold emit. simpl. now rewrite filter_app. Qed.

Lemma emit_silent (mk : nat -> discovery) (a : acc) :
  (forall n, p (mk n) = false) ->
  filter p (fst (emit mk a)) = filter p (fst a).
Proof. intros H. now rewrite emit_filter, H, app_nil_r. Qed.

Lemma fold_silent {X} (f : acc -> X -> acc) (l : list X) (a : acc) :
  (forall a x, filter p (fst (f a x)) = filter p (fst a)) ->
  filter p (fst (fold_left f l a)) = filter p (fst a).
Proof.
  intros H. revert a. induction l as [|x l IH]; intros a; simpl; [reflexivity|].
  now rewrite IH, H.
Qed.

End Counting.

Section Passwords.

Variable target : str.

Let p := is_passwords_for target.

Lemma found_other (dev own i ttl c : str) (fl : nat) (cont : str)
  (ts : option str) (tgs : list str) (dt : str) (app : option str) :
  eqb dt (py "passwords") = false ->
  p (found dev own i ttl c fl cont ts tgs dt app) = false.
Proof.
  intros H. unfold p, is_passwords_for, found. cbn [data_type device_id].
  now rewrite H.
Qed.

Lemma chat_step_silent (dev own : str) (a : acc) (msg : Store.row) :
  filter p (fst (chat_step dev own a msg)) = filter p (fst a).
Proof.
  unfold chat_step. destruct (_ <? 5); [reflexivity|].
  unfold chat_dates. rewrite fold_silent.
  - unfold chat_keyword. destruct (chat_matches _); [reflexivity|].
    destruct (2 <=? _); [|reflexivity].
    apply emit_silent. intros n. now apply found_other.
  - intros a' date. destruct (on_date _ date); [|reflexivity].
    apply emit_silent. intros n. now apply found_other.
Qed.

Lemma email_step_silent (dev own : str) (a : acc) (e : Store.row) :
  filter p (fst (email_step dev own a e)) = filter p (fst a).
Proof.
  unfold email_step. destruct (key_matches _); [reflexivity|].
  destruct (2 <=? _); [|reflexivity].
  apply emit_silent. intros n. now apply found_other.
Qed.

Lemma search_step_silent (dev own : str) (a : acc) (s : Store.row) :
  filter p (fst (search_step dev own a s)) = filter p (fst a).
Proof.
  unfold search_step. destruct (search_matched _); [reflexivity|].
  apply emit_silent. intros n. now apply found_other.
Qed.

Lemma location_step_silent (dev own : str) (a : acc) (l : Store.row) :
  filter p (fst (location_step dev own a l)) = filter p (fst a).
Proof.
  unfold location_step. destruct (find _ _); [|reflexivity].
  apply emit_silent. intros n. now apply found_other.
Qed.

Lemma call_step_silent (dev own : str) (a : acc) (c : Store.row) :
  filter p (fst (call_step dev own a c)) = filter p (fst a).
Proof.
  unfold call_step. destruct (find _ _); [|reflexivity].
  apply emit_silent. intros n. now apply found_other.
Qed.

Lemma browsing_step_silent (dev own : str) (a : acc) (b : Store.row) :
  filter p (fst (browsing_step dev own a b)) = filter p (fst a).
Proof.
  unfold browsing_step. destruct (key_matches _); [reflexivity|].
  destruct (2 <=? _); [|reflexivity].
  apply emit_silent. intros n. now apply found_other.
Qed.

Lemma cross_step_silent (a : acc) (entry : str * list str) :
  filter p (fst (cross_step a entry)) = filter p (fst a).
Proof.
  unfold cross_step. destruct (1 <? _); [|reflexivity].
  destruct (_ || _); [|reflexivity].
  apply emit_silent. reflexivity.
Qed.

(** What one device adds: its passwords discovery, if it is the device
    looked for and has stored credentials. *)
Definition added (dev own : str) (categories : list (str * list Store.row)) (n : nat)
  : list discovery :=
  match cat (py "passwords") categories with
  | [] => []
  | pws => if eqb dev target then [passwords_discovery dev own pws n] else []
  end.

Lemma scan_device_adds (dev own : str) (categories : list (str * list Store.row))
  (a : acc) :
  exists n,
    filter p (fst (scan_device dev own categories a))
    = filter p (fst a) ++ added dev own categories n.
Proof.
  unfold scan_device.
  rewrite (fold_silent p), (fold_silent p), (fold_silent p)
    by auto using browsing_step_silent, call_step_silent, location_step_silent.
  set (a3 := fold_left (search_step dev own) _ _).
  assert (E3 : filter p (fst a3) = filter p (fst a)).
  { unfold a3.
    now rewrite (fold_silent p), (fold_silent p), (fold_silent p)
      by auto using search_step_silent, email_step_silent, chat_step_silent. }
  exists (S (snd a3)). unfold passwords_step, added.
  destruct (cat (py "passwords") categories) as [|pw pws].
  - now rewrite app_nil_r.
  - rewrite emit_filter, E3. f_equal.
Qed.

Lemma devices_without (device_map : list (str * Store.row))
  (cd : list (str * list (str * list Store.row))) (a : acc) :
  ~ In target (map fst cd) ->
  filter p (fst (fold_left (device_step device_map) cd a)) = filter p (fst a).
Proof.
  revert a. induction cd as [|[dev cats] cd IH]; intros a H; simpl;
    [reflexivity|].
  simpl in H. rewrite IH by tauto. unfold device_step. simpl.
  destruct (scan_device_adds dev (owner_of device_map dev) cats a) as [n ->].
  unfold added. destruct (cat _ cats); [apply app_nil_r|].
  destruct (eqb dev target) eqn:E; [|apply app_nil_r].
  apply eqb_eq in E. tauto.
Qed.

Lemma devices_with (device_map : list (str * Store.row))
  (cd : list (str * list (str * list Store.row))) (cats : list (str * list Store.row))
  (a : acc) :
  NoDup (map fst cd) -> In (target, cats) cd ->
  exists n,
    filter p (fst (fold_left (device_step device_map) cd a))
    = filter p (fst a) ++ added target (owner_of device_map target) cats n.
Proof.
  revert a. induction cd as [|[dev cats'] cd IH]; intros a Hnd Hin;
    [destruct Hin|].
  simpl in Hnd. inversion Hnd as [|? ? Hnot Hnd']; subst.
  simpl. unfold device_step at 2. simpl.
  destruct (scan_device_adds dev (owner_of device_map dev) cats' a) as [n En].
  destruct Hin as [Heq|Hin].
  - injection Heq as -> ->. exists n.
    now rewrite devices_without, En by assumption.
  - destruct (IH (scan_device dev (owner_of device_map dev) cats' a) Hnd' Hin)
      as [m Em].
    exists m. rewrite Em, En. unfold added at 1.
    assert (Hne : eqb dev target = false).
    { apply eqb_neq. intros ->. apply Hnot.
      change target with (fst (target, cats)). now apply in_map. }
    rewrite Hne. destruct (cat _ cats'); now rewrite app_nil_r.
Qed.

Lemma dedup_keeps (seen : list str) (l : list discovery) :
  filter p (dedup_from seen l) = filter p l.
Proof.
  revert seen. induction l as [|d l IH]; intros seen; simpl; [reflexivity|].
  destruct (verified d); [simpl; now rewrite IH|].
  destruct (dedup_key d) as [k|] eqn:Ek; [|simpl; now rewrite IH].
  assert (Hp : p d = false).
  { unfold p, is_passwords_for. unfold dedup_key in Ek.
    destruct (dated d); [|discriminate].
    destruct (data_type d) as [dt|]; [|reflexivity].
    destruct (device_id d); [|reflexivity].
    destruct (eqb dt (py "passwords")) eqn:E; [|reflexivity].
    apply eqb_eq in E. subst dt. discriminate Ek. }
  rewrite Hp. destruct (Py.mem k seen); simpl; rewrite ?Hp; apply IH.
Qed.

End Passwords.

(** The scan of the in-memory store. *)
Definition is_stored_password_for (target : str) (d : StoreScan.discovery)
  : bool :=
  eqb (StoreScan.category d) (py "passwords") && eqb (StoreScan.person d) target.

Section Stored.

Variable target : str.

Let q := is_stored_password_for target.

(** The number of password discoveries of the device and their tier. *)
Definition tally (l : list StoreScan.discovery) : nat := length (filter q l).

Definition tier2 (l : list StoreScan.discovery) : Prop :=
  Forall (fun d => q d = true -> StoreScan.flames d = 2) l.

Lemma stored_emit (mk : nat -> StoreScan.discovery) (a : StoreScan.acc) :
  tally (fst (StoreScan.emit mk a))
  = tally (fst a) + (if q (mk (S (snd a))) then 1 else 0).
Proof.
  unfold tally, StoreScan.emit. simpl. rewrite filter_app, length_app. simpl.
  now destruct (q _).
Qed.

Lemma stored_emit_tier (mk : nat -> StoreScan.discovery) (a : StoreScan.acc) :
  (forall n, q (mk n) = true -> StoreScan.flames (mk n) = 2) ->
  tier2 (fst a) -> tier2 (fst (StoreScan.emit mk a)).
Proof.
  intros H Ha. unfold tier2, StoreScan.emit. simpl. apply Forall_app.
  split; [exact Ha|]. constructor; [apply H | constructor].
Qed.

Lemma stored_fold_silent {X} (f : StoreScan.acc -> X -> StoreScan.acc)
  (l : list X) (a : StoreScan.acc) :
  (forall a x, tally (fst (f a x)) = tally (fst a)
               /\ (tier2 (fst a) -> tier2 (fst (f a x)))) ->
  tally (fst (fold_left f l a)) = tally (fst a)
  /\ (tier2 (fst a) -> tier2 (fst (fold_left f l a))).
Proof.
  intros H. revert a. induction l as [|x l IH]; intros a; simpl; [auto|].
  destruct (IH (f a x)) as [E T]. destruct (H a x) as [E' T'].
  split; [congruence | auto].
Qed.

Ltac quiet_emit :=
  split;
  [ rewrite stored_emit; unfold q, is_stored_password_for; simpl; lia
  | apply stored_emit_tier; intros n; unfold q, is_stored_password_for; simpl;
    discriminate ].

Lemma stored_chat_silent (dev : str) (a : StoreScan.acc) (msg : Store.row) :
  tally (fst (StoreScan.chat_step dev a msg)) = tally (fst a)
  /\ (tier2 (fst a) -> tier2 (fst (StoreScan.chat_step dev a msg))).
Proof.
  unfold StoreScan.chat_step. destruct (StoreScan.mentions_keyword _);
    [quiet_emit | auto].
Qed.

Lemma stored_search_silent (dev : str) (a : StoreScan.acc) (s : Store.row) :
  tally (fst (StoreScan.search_step dev a s)) = tally (fst a)
  /\ (tier2 (fst a) -> tier2 (fst (StoreScan.search_step dev a s))).
Proof.
  unfold StoreScan.search_step. destruct (StoreScan.mentions_keyword _);
    [quiet_emit | auto].
Qed.

Lemma stored_email_silent (dev : str) (a : StoreScan.acc) (e : Store.row) :
  tally (fst (StoreScan.email_step dev a e)) = tally (fst a)
  /\ (tier2 (fst a) -> tier2 (fst (StoreScan.email_step dev a e))).
Proof.
  unfold StoreScan.email_step. destruct (StoreScan.mentions_keyword _);
    [quiet_emit | auto].
Qed.

Lemma stored_passwords (dev : str) (pws : list Store.row) (a : StoreScan.acc) :
  tally (fst (fold_left (StoreScan.password_step dev) pws a))
  = tally (fst a) + (if eqb dev target then length pws else 0)
  /\ (tier2 (fst a) ->
      tier2 (fst (fold_left (StoreScan.password_step dev) pws a))).
Proof.
  revert a. induction pws as [|pw pws IH]; intros a; simpl.
  - split; [destruct (eqb dev target); lia | auto].
  - destruct (IH (StoreScan.password_step dev a pw)) as [E T]. split.
    + rewrite E. unfold StoreScan.password_step. rewrite stored_emit.
      unfold q, is_stored_password_for. simpl.
      destruct (eqb dev target); lia.
    + intros Ha. apply T. unfold StoreScan.password_step.
      now apply stored_emit_tier.
Qed.

Lemma stored_device (dev : str) (cats : list (str * list Store.row))
  (a : StoreScan.acc) :
  tally (fst (StoreScan.scan_device dev cats a))
  = tally (fst a)
    + (if eqb dev target then length (cat (py "passwords") cats) else 0)
  /\ (tier2 (fst a) -> tier2 (fst (StoreScan.scan_device dev cats a))).
Proof.
  unfold StoreScan.scan_device.
  set (a1 := fold_left (StoreScan.chat_step dev) _ a).
  set (a2 := fold_left (StoreScan.search_step dev) _ a1).
  set (a3 := fold_left (StoreScan.password_step dev) _ a2).
  destruct (stored_fold_silent (StoreScan.chat_step dev)
              (cat (py "chats") cats) a (stored_chat_silent dev)) as [E1 T1].
  destruct (stored_fold_silent (StoreScan.search_step dev)
              (cat (py "searches") cats) a1 (stored_search_silent dev))
    as [E2 T2].
  destruct (stored_passwords dev (cat (py "passwords") cats) a2) as [E3 T3].
  destruct (stored_fold_silent (StoreScan.email_step dev)
              (cat (py "emails") cats) a3 (stored_email_silent dev))
    as [E4 T4].
  fold a1 in E1, T1. fold a2 in E2, T2. fold a3 in E3, T3.
  split; [congruence | auto].
Qed.

Lemma stored_devices (cd : list (str * list (str * list Store.row)))
  (a : StoreScan.acc) :
  let found := fold_left
                 (fun a entry => StoreScan.scan_device (fst entry) (snd entry) a)
                 cd a in
  (~ In target (map fst cd) -> tally (fst found) = tally (fst a))
  /\ (forall cats, NoDup (map fst cd) -> In (target, cats) cd ->
        tally (fst found)
        = tally (fst a) + length (cat (py "passwords") cats))
  /\ (tier2 (fst a) -> tier2 (fst found)).
Proof.
  revert a. induction cd as [|[dev cats'] cd IH]; intros a; simpl.
  - split; [auto|]. split; [intros ? _ []|auto].
  - destruct (IH (StoreScan.scan_device dev cats' a)) as (I1 & I2 & I3).
    destruct (stored_device dev cats' a) as [E T].
    split; [|split].
    + intros H. rewrite I1 by tauto. rewrite E.
      destruct (eqb dev target) eqn:Ed; [|lia].
      apply eqb_eq in Ed. tauto.
    + intros cats Hnd Hin. inversion Hnd as [|? ? Hnot Hnd']; subst.
      destruct Hin as [Heq|Hin].
      * injection Heq as -> ->. rewrite I1 by assumption.
        now rewrite E, eqb_refl.
      * rewrite (I2 cats Hnd' Hin), E.
        assert (Hne : eqb dev target = false).
        { apply eqb_neq. intros ->. apply Hnot.
          change target with (fst (target, cats)). now apply in_map. }
        rewrite Hne. simpl. lia.
    + auto.
Qed.

Lemma insert_by_perm {A} (le : A -> A -> bool) (x : A) (l : list A) :
  Permutation (Py.insert_by le x l) (x :: l).
Proof.
  induction l as [|y l IH]; simpl; [reflexivity|].
  destruct (le x y); [reflexivity|].
  rewrite IH. apply perm_swap.
Qed.

Lemma sort_by_perm {A} (le : A -> A -> bool) (l : list A) :
  Permutation (Py.sort_by le l) l.
Proof.
  induction l as [|x l IH]; simpl; [reflexivity|].
  rewrite insert_by_perm. now constructor.
Qed.

Lemma tally_perm (l l' : list StoreScan.discovery) :
  Permutation l l' -> tally l = tally l'.
Proof.
  unfold tally. induction 1; simpl; try congruence.
  - destruct (q x); simpl; congruence.
  - destruct (q x), (q y); reflexivity.
Qed.

End Stored.

End ScanFacts.

(** C3, as the claim states it, fails on the scan of the in-memory store,
    which makes every stored credential a discovery of its own: three
    entries give three discoveries, and their content is the entry, not the
    count. *)
Lemma store_scan_one_per_password :
  map StoreScan.content
    (filter (ScanFacts.is_stored_password_for (py "joy-quinn"))
       (StoreScan.scan_discoveries
          {| Store.cellebrite_data := Samples.credentials_data;
             Store.axiom_index := [] |}))
  = [py "mail: a"; py "bank: b"; py "shop: c"].
Proof. vm_compute. reflexivity. Qed.

(** C3, amended: for a device whose passwords category holds [n >= 1]
    records, the scan of the discovery engine emits exactly one passwords
    discovery for the device, of tier 2, whose content begins with the count:
    [Found n stored passwords/credentials.].  The scan of the in-memory
    store emits [n] passwords discoveries for the device, each of tier 2. *)
Theorem credentials_discovery
  (cellebrite_data : list (str * list (str * list Store.row)))
  (device_map : list (str * Store.row))
  (axiom_index : list (str * list (str * nat)))
  (device : str) (categories : list (str * list Store.row)) (n : nat) :
  NoDup (map fst cellebrite_data) ->
  In (device, categories) cellebrite_data ->
  length (Discovery.cat (py "passwords") categories) = n ->
  1 <= n ->
  (exists d rest,
      filter (ScanFacts.is_passwords_for device)
        (Discovery.scan_discoveries cellebrite_data device_map) = [d]
      /\ Discovery.flames d = 2
      /\ Discovery.content d
         = py "Found " ++ of_nat n ++ py " stored passwords/credentials."
           ++ rest)
  /\ (let found :=
        filter (ScanFacts.is_stored_password_for device)
          (StoreScan.scan_discoveries
             {| Store.cellebrite_data := cellebrite_data;
                Store.axiom_index := axiom_index |}) in
      length found = n
      /\ Forall (fun d => StoreScan.flames d = 2) found).
Proof.
  intros Hnd Hin <- Hn. split.
  - unfold Discovery.scan_discoveries, Discovery._deduplicate, Discovery.generate.
    rewrite ScanFacts.dedup_keeps.
    rewrite (ScanFacts.fold_silent _ _ _ _ (ScanFacts.cross_step_silent device)).
    destruct (ScanFacts.devices_with device device_map cellebrite_data categories
                (Discovery.VERIFIED_DISCOVERIES, 100) Hnd Hin) as [m Em].
    rewrite Em. unfold ScanFacts.added. rewrite eqb_refl.
    destruct (Discovery.cat (py "passwords") categories) as [|pw pws] eqn:Ec;
      [simpl in Hn; lia|].
    eexists. eexists. split; [reflexivity|]. split; reflexivity.
  - cbv zeta. unfold StoreScan.scan_discoveries. simpl Store.cellebrite_data.
    match goal with
    | |- context [Py.sort_by _ (Py.sort_by _ ?f)] => set (found := f)
    end.
    set (out := Py.sort_by _ (Py.sort_by _ found)).
    assert (Hperm : Permutation out found).
    { unfold out. now rewrite !ScanFacts.sort_by_perm. }
    destruct (ScanFacts.stored_devices device cellebrite_data ([], 0))
      as (_ & Hcount & Htier).
    fold found in Hcount, Htier. split.
    + change (ScanFacts.tally device out
              = length (Discovery.cat (py "passwords") categories)).
      rewrite (ScanFacts.tally_perm device _ _ Hperm).
      rewrite (Hcount categories Hnd Hin). unfold ScanFacts.tally. simpl. lia.
    + assert (Ht : ScanFacts.tier2 device out).
      { unfold ScanFacts.tier2.
        eapply Permutation_Forall; [symmetry; exact Hperm|].
        apply Htier. constructor. }
      unfold ScanFacts.tier2 in Ht. rewrite Forall_forall in *.
      intros d Hd. apply filter_In in Hd. destruct Hd as [Hd Hq].
      now apply Ht.
Qed.

Lemma credentials_discovery_witness :
  (exists d rest,
      filter (ScanFacts.is_passwords_for (py "joy-quinn"))
        (Discovery.scan_discoveries Samples.credentials_data
           StoreScan.DEVICE_MAP) = [d]
      /\ Discovery.flames d = 2
      /\ Discovery.content d
         = py "Found " ++ py "3" ++ py " stored passwords/credentials." ++ rest)
  /\ (let found :=
        filter (ScanFacts.is_stored_password_for (py "joy-quinn"))
          (StoreScan.scan_discoveries
             {| Store.cellebrite_data := Samples.credentials_data;
                Store.axiom_index := [] |}) in
      length found = 3
      /\ Forall (fun d => StoreScan.flames d = 2) found).
Proof.
  apply (credentials_discovery Samples.credentials_data StoreScan.DEVICE_MAP []
           (py "joy-quinn") (snd (hd (py "", []) Samples.credentials_data)) 3).
  - repeat constructor. simpl. tauto.
  - left. reflexivity.
  - reflexivity.
  - lia.
Defined.

(** ** Key-term discoveries *)

Module KeywordFacts.

Import Discovery.

(** A term of the table occurs in a text, case-insensitively. *)
Definition term_in (text term : str) : Prop :=
  contains (lower term) (lower text) = true.

(** The matched terms of a text, in the order of the table. *)
Definition matched_terms (text : str) : list str :=
  map fst (key_matches (lower text)).

(** Some term of the table matches the text. *)
Definition some_match (text : str) : Prop :=
  exists term tier, In (term, tier) KEY_TERMS /\ term_in text term.

(** The highest tier among the matched terms is at least 2. *)
Definition reaches_tier2 (text : str) : Prop :=
  exists term tier, In (term, tier) KEY_TERMS /\ term_in text term /\ 2 <= tier.

(** What a step has added to the list of discoveries. *)
Definition emitted (a a' : acc) : list discovery :=
  skipn (length (fst a)) (fst a').

(** The discoveries of a chat message that are not the date-based ones. *)
Definition date_based (d : discovery) : bool := startswith (py "date-") (id d).

Definition keyword_found (a a' : acc) : list discovery :=
  filter (fun d => negb (date_based d)) (emitted a a').

Lemma search_matched_eq (query : str) :
  search_matched query = matched_terms query ++ suspicious_in (lower query).
Proof. unfold search_matched, matched_terms. reflexivity. Qed.

Lemma emitted_same (a : acc) : emitted a a = [].
Proof. unfold emitted. apply skipn_all. Qed.

Lemma emitted_emit (mk : nat -> discovery) (a : acc) :
  emitted a (emit mk a) = [mk (S (snd a))].
Proof.
  unfold emitted, emit. simpl.
  now rewrite skipn_app, skipn_all, Nat.sub_diag.
Qed.

Lemma max_from (l : list (str * nat)) (m k : nat) :
  k <= fold_left (fun m tf => Nat.max m (snd tf)) l m
  <-> k <= m \/ exists tf, In tf l /\ k <= snd tf.
Proof.
  revert m. induction l as [|x l IH]; intros m; simpl.
  - split; [auto|]. intros [H|(tf & [] & _)]. exact H.
  - rewrite IH. split.
    + intros [H|(tf & Hin & H)].
      * destruct (Nat.max_spec m (snd x)) as [[_ E]|[_ E]]; rewrite E in H;
          [right; exists x|]; auto.
      * right. exists tf. auto.
    + intros [H|(tf & [<-|Hin] & H)].
      * left. lia.
      * left. lia.
      * right. exists tf. auto.
Qed.

Lemma key_matches_in (text term : str) (tier : nat) :
  In (term, tier) (key_matches (lower text))
  <-> In (term, tier) KEY_TERMS /\ term_in text term.
Proof. unfold key_matches, term_in. rewrite filter_In. reflexivity. Qed.

Lemma reaches_iff (text : str) :
  reaches_tier2 text
  <-> key_matches (lower text) <> []
      /\ (2 <=? max_flames (key_matches (lower text))) = true.
Proof.
  unfold reaches_tier2, max_flames. rewrite Nat.leb_le, max_from. split.
  - intros (t & f & Hin & Hm & Hf).
    assert (H : In (t, f) (key_matches (lower text)))
      by now apply key_matches_in.
    split; [intros E; now rewrite E in H|].
    right. exists (t, f). auto.
  - intros [_ [H|((t, f) & Hin & Hf)]]; [lia|].
    apply key_matches_in in Hin. exists t, f. tauto.
Qed.

(** No term of the table is an application name, so the exemption in the
    chat loop never applies. *)
Lemma chat_matches_key (body : str) :
  chat_matches body = key_matches (lower body).
Proof.
  unfold chat_matches, key_matches. apply filter_ext_in. intros tf Hin.
  assert (H : forallb (fun tf => negb (eqb (lower (fst tf)) (py "signal")
                                      || eqb (lower (fst tf)) (py "telegram")))
                KEY_TERMS = true) by (vm_compute; reflexivity).
  rewrite forallb_forall in H. specialize (H tf Hin).
  apply negb_true_iff in H. cbv zeta. rewrite H. simpl. apply andb_true_r.
Qed.

Lemma chat_dates_adds (dev own : str) (msg : Store.row) (a : acc) :
  exists ds, fst (chat_dates dev own msg a) = fst a ++ ds
             /\ forallb date_based ds = true.
Proof.
  unfold chat_dates. generalize CRITICAL_DATES as dates. intros dates.
  revert a. induction dates as [|date dates IH]; intros a; cbn [fold_left].
  - exists []. now rewrite app_nil_r.
  - destruct (on_date _ date).
    + destruct (IH (emit (date_discovery dev own msg date) a)) as (ds & E & H).
      exists (date_discovery dev own msg date (S (snd a)) :: ds).
      rewrite E. unfold emit. simpl fst. rewrite <- app_assoc. split; [reflexivity|].
      simpl. exact H.
    + apply IH.
Qed.

Lemma keyword_found_app (a : acc) (kw ds : list discovery) (n : nat) :
  forallb date_based ds = true ->
  keyword_found a (fst a ++ kw ++ ds, n) = filter (fun d => negb (date_based d)) kw.
Proof.
  intros H. unfold keyword_found, emitted. cbn [fst].
  rewrite skipn_app, skipn_all, Nat.sub_diag. cbn [skipn app].
  rewrite filter_app.
  replace (filter _ ds) with (@nil discovery); [apply app_nil_r|].
  symmetry. induction ds as [|d ds IH]; cbn [filter forallb] in *;
    [reflexivity|].
  apply andb_true_iff in H. destruct H as [Hd H].
  rewrite Hd. cbn [negb]. now apply IH.
Qed.

Lemma chat_step_keyword (dev own : str) (a : acc) (msg : Store.row) :
  5 <= length (Store.get (py "body") [] msg) ->
  keyword_found a (chat_step dev own a msg)
  = emitted a (chat_keyword dev own msg a).
Proof.
  intros Hlen. unfold chat_step.
  destruct (Nat.ltb_spec (length (Store.get (py "body") [] msg)) 5); [lia|].
  destruct (chat_dates_adds dev own msg (chat_keyword dev own msg a))
    as (ds & E & Hds).
  rewrite (surjective_pairing (chat_dates dev own msg _)), E.
  unfold chat_keyword. destruct (chat_matches _) eqn:Em.
  - rewrite <- (app_nil_l ds) at 1. rewrite keyword_found_app by assumption.
    now rewrite emitted_same.
  - destruct (2 <=? _).
    + rewrite emitted_emit. unfold emit at 1. simpl fst. rewrite <- app_assoc.
      rewrite keyword_found_app by assumption. reflexivity.
    + rewrite <- (app_nil_l ds) at 1. rewrite keyword_found_app by assumption.
      now rewrite emitted_same.
Qed.

End KeywordFacts.

(** C2, as the claim states it, fails in two places.  A chat message whose
    whole body is the tier-2 term MCUA matches a term of tier 2 and yet gives
    no discovery, because bodies of fewer than five characters are passed
    over; and a search query that only matches the tier-1 term ballot does
    give a discovery. *)
Lemma keyword_rule_exceptions :
  let a := ([], 100) in
  let msg := Samples.chat_row "2021-08-06T21:07:24+00:00" "Wendi" "MCUA" "Signal" in
  let s := [ (py "timestamp", py "2021-08-06T21:07:24+00:00");
             (py "query", py "ballot box"); (py "source", py "Safari") ] in
  (KeywordFacts.reaches_tier2 (py "MCUA")
   /\ Discovery.chat_step (py "wendi-woods") (py "Wendi Woods") a msg = a)
  /\ (~ KeywordFacts.reaches_tier2 (py "ballot box")
      /\ KeywordFacts.emitted a
           (Discovery.search_step (py "wendi-woods") (py "Wendi Woods") a s)
         <> []).
Proof.
  cbv zeta. split; [split | split].
  - exists (py "MCUA"), 2. split; [|split; [vm_compute; reflexivity | lia]].
    vm_compute. tauto.
  - vm_compute. reflexivity.
  - intros (t & f & Hin & Hm & Hf). unfold KeywordFacts.term_in in Hm.
    unfold Discovery.KEY_TERMS in Hin. simpl in Hin.
    repeat (destruct Hin as [E|Hin];
            [injection E as <- <-; try (vm_compute in Hm; discriminate Hm);
             try lia|]).
    exact Hin.
  - vm_compute. discriminate.
Qed.

(** C2, amended.  For an email record and a browsing entry a key-term
    discovery is emitted exactly when some matched term has tier 2 or more,
    and for a chat message whose body has at least five characters likewise;
    a chat message with a shorter body gives no discovery at all.  A search
    query gives a discovery whenever some matched term has tier 2 or more.
    The emitted discovery carries the first five matched terms as its
    tags. *)
Theorem keyword_discoveries (dev own : str) (a : Discovery.acc) :
  (forall msg,
      let body := Store.get (py "body") [] msg in
      (length body < 5 -> Discovery.chat_step dev own a msg = a)
      /\ (5 <= length body -> KeywordFacts.reaches_tier2 body ->
          exists d,
            KeywordFacts.keyword_found a (Discovery.chat_step dev own a msg) = [d]
            /\ Discovery.tags d = firstn 5 (KeywordFacts.matched_terms body)
            /\ 2 <= Discovery.flames d)
      /\ (5 <= length body -> ~ KeywordFacts.reaches_tier2 body ->
          KeywordFacts.keyword_found a (Discovery.chat_step dev own a msg) = []))
  /\ (forall email,
        let text := Store.get (py "subject") [] email ++ py " "
                    ++ Store.get (py "preview") [] email in
        (KeywordFacts.reaches_tier2 text ->
         exists d,
           KeywordFacts.emitted a (Discovery.email_step dev own a email) = [d]
           /\ Discovery.tags d = firstn 5 (KeywordFacts.matched_terms text)
           /\ 2 <= Discovery.flames d)
        /\ (~ KeywordFacts.reaches_tier2 text ->
            Discovery.email_step dev own a email = a))
  /\ (forall b,
        let text := Store.get (py "title") [] b ++ py " "
                    ++ Store.get (py "url") [] b in
        (KeywordFacts.reaches_tier2 text ->
         exists d,
           KeywordFacts.emitted a (Discovery.browsing_step dev own a b) = [d]
           /\ Discovery.tags d = firstn 5 (KeywordFacts.matched_terms text)
           /\ 2 <= Discovery.flames d)
        /\ (~ KeywordFacts.reaches_tier2 text ->
            Discovery.browsing_step dev own a b = a))
  /\ (forall s,
        let query := Store.get (py "query") [] s in
        KeywordFacts.reaches_tier2 query ->
        exists d,
          KeywordFacts.emitted a (Discovery.search_step dev own a s) = [d]
          /\ Discovery.tags d
             = firstn 5 (KeywordFacts.matched_terms query
                         ++ Discovery.suspicious_in (lower query))
          /\ 2 <= Discovery.flames d).
Proof.
  split; [|split; [|split]].
  - intros msg body. split; [|split].
    + intros Hlen. unfold Discovery.chat_step. fold body.
      destruct (Nat.ltb_spec (length body) 5); [reflexivity | lia].
    + intros Hlen Hr. rewrite KeywordFacts.chat_step_keyword by assumption.
      unfold Discovery.chat_keyword. fold body.
      rewrite KeywordFacts.chat_matches_key.
      apply KeywordFacts.reaches_iff in Hr. destruct Hr as [Hne Hmax].
      unfold KeywordFacts.matched_terms.
      destruct (Discovery.key_matches (lower body)) as [|m ms] eqn:Em;
        [congruence|].
      rewrite Hmax, KeywordFacts.emitted_emit. eexists. split; [reflexivity|].
      split; [reflexivity|]. now apply Nat.leb_le.
    + intros Hlen Hr. rewrite KeywordFacts.chat_step_keyword by assumption.
      unfold Discovery.chat_keyword. fold body.
      rewrite KeywordFacts.chat_matches_key.
      destruct (Discovery.key_matches (lower body)) as [|m ms] eqn:Em;
        [apply KeywordFacts.emitted_same|].
      destruct (2 <=? _) eqn:Emax; [|apply KeywordFacts.emitted_same].
      exfalso. apply Hr, KeywordFacts.reaches_iff. rewrite Em.
      split; [discriminate | exact Emax].
  - intros email text. split.
    + intros Hr. unfold Discovery.email_step, Discovery.email_text.
      apply KeywordFacts.reaches_iff in Hr. destruct Hr as [Hne Hmax].
      fold text.
      unfold KeywordFacts.matched_terms.
      destruct (Discovery.key_matches (lower text)) as [|m ms] eqn:Em;
        [congruence|].
      rewrite Hmax, KeywordFacts.emitted_emit. eexists. split; [reflexivity|].
      split; [reflexivity|]. now apply Nat.leb_le.
    + intros Hr. unfold Discovery.email_step, Discovery.email_text. fold text.
      destruct (Discovery.key_matches (lower text)) as [|m ms] eqn:Em;
        [reflexivity|].
      destruct (2 <=? _) eqn:Emax; [|reflexivity].
      exfalso. apply Hr, KeywordFacts.reaches_iff. rewrite Em.
      split; [discriminate | exact Emax].
  - intros b text. split.
    + intros Hr. unfold Discovery.browsing_step, Discovery.browsing_text.
      apply KeywordFacts.reaches_iff in Hr. destruct Hr as [Hne Hmax].
      fold text.
      unfold KeywordFacts.matched_terms.
      destruct (Discovery.key_matches (lower text)) as [|m ms] eqn:Em;
        [congruence|].
      rewrite Hmax, KeywordFacts.emitted_emit. eexists. split; [reflexivity|].
      split; [reflexivity|]. now apply Nat.leb_le.
    + intros Hr. unfold Discovery.browsing_step, Discovery.browsing_text.
      fold text.
      destruct (Discovery.key_matches (lower text)) as [|m ms] eqn:Em;
        [reflexivity|].
      destruct (2 <=? _) eqn:Emax; [|reflexivity].
      exfalso. apply Hr, KeywordFacts.reaches_iff. rewrite Em.
      split; [discriminate | exact Emax].
  - intros s query Hr. apply KeywordFacts.reaches_iff in Hr.
    destruct Hr as [Hne Hmax]. unfold Discovery.search_step. fold query.
    assert (Hm : Discovery.search_matched query <> []).
    { unfold Discovery.search_matched.
      destruct (Discovery.key_matches (lower query)); [congruence|].
      discriminate. }
    destruct (Discovery.search_matched query) eqn:Es; [congruence|].
    rewrite KeywordFacts.emitted_emit.
    eexists. split; [reflexivity|]. split.
    + unfold Discovery.search_discovery, Discovery.found.
      cbn [Discovery.tags]. fold query.
      now rewrite <- KeywordFacts.search_matched_eq, Es.
    + unfold Discovery.search_discovery, Discovery.found.
      cbn [Discovery.flames]. fold query. unfold Discovery.search_flames.
      apply Nat.leb_le in Hmax.
      destruct (Discovery.suspicious_in (lower query)); lia.
Qed.

Lemma keyword_discoveries_witness :
  let a := ([], 100) in
  let msg := Samples.chat_row "2021-08-06T21:07:24+00:00" "Wendi"
               "Added to MCUA group" "Signal" in
  exists d,
    KeywordFacts.keyword_found a
      (Discovery.chat_step (py "wendi-woods") (py "Wendi Woods") a msg) = [d]
    /\ Discovery.tags d = [py "MCUA"]
    /\ 2 <= Discovery.flames d.
Proof.
  cbv zeta.
  destruct (keyword_discoveries (py "wendi-woods") (py "Wendi Woods") ([], 100))
    as [Hchat _].
  destruct (Hchat (Samples.chat_row "2021-08-06T21:07:24+00:00" "Wendi"
                     "Added to MCUA group" "Signal")) as (_ & H & _).
  destruct H as (d & E & T & F).
  - vm_compute. lia.
  - exists (py "MCUA"), 2. split; [|split; [vm_compute; reflexivity | lia]].
    vm_compute. tauto.
  - exists d. split; [exact E|]. split; [|exact F]. rewrite T.
    vm_compute. reflexivity.
Defined.

(** ** Deduplication *)

Module DedupFacts.

Import Discovery.

Definition free_of (c : ascii) (s : str) : bool := forallb (Regex.not_char c) s.

(** The categories that are deduplicated. *)
Definition kind (d : discovery) : option str :=
  match data_type d with
  | Some dt =>
      if eqb dt (py "chats") || eqb dt (py "locations") then Some dt else None
  | None => None
  end.

(** The calendar date of a discovery that has a timestamp. *)
Definition calendar_date (d : discovery) : option str :=
  match dated d with
  | Some ts => Some (prefix 10 ts)
  | None => None
  end.

(** Two lists of tags are the same set. *)
Definition same_set (a b : list str) : bool :=
  forallb (fun x => Py.mem x b) a && forallb (fun x => Py.mem x a) b.

Definition same_device (e d : discovery) : bool :=
  match device_id e, device_id d with
  | Some a, Some b => eqb a b
  | None, None => true
  | _, _ => false
  end.

(** Two discoveries of the chat category, or two of the location category,
    with the same device, calendar date and tag set. *)
Definition duplicates (e d : discovery) : bool :=
  match kind e, kind d, calendar_date e, calendar_date d with
  | Some k1, Some k2, Some c1, Some c2 =>
      eqb k1 k2 && same_device e d && eqb c1 c2 && same_set (tags e) (tags d)
  | _, _, _, _ => false
  end.

(** Deduplication in the words of the specification: verified discoveries
    stay; an unverified discovery goes exactly when some unverified discovery
    before it in the list is a duplicate of it, so that of each group only
    the first encountered is kept.  [earlier] holds the discoveries already
    passed. *)
Fixpoint collapse (earlier : list discovery) (ds : list discovery)
  : list discovery :=
  match ds with
  | [] => []
  | d :: rest =>
      if verified d then d :: collapse (d :: earlier) rest
      else if existsb (fun e => negb (verified e) && duplicates e d) earlier
           then collapse (d :: earlier) rest
           else d :: collapse (d :: earlier) rest
  end.

Fixpoint nodupb (l : list str) : bool :=
  match l with
  | [] => true
  | x :: t => negb (Py.mem x t) && nodupb t
  end.

(** The shape of a generated discovery, as far as the deduplication depends
    on it: a chat or location discovery with a timestamp has a device, whose
    identifier has no colon; for a chat discovery the identifier is not the
    word loc, the date has no colon and the tags are distinct, non-empty and
    free of commas. *)
Definition shaped (d : discovery) : bool :=
  verified d
  || match kind d, dated d with
     | Some k, Some ts =>
         match device_id d with
         | Some dev =>
             free_of ":" dev
             && (if eqb k (py "chats")
                 then negb (eqb dev (py "loc"))
                      && free_of ":" (prefix 10 ts)
                      && nodupb (tags d)
                      && forallb (fun t => negb (eqb t []) && free_of "," t)
                           (tags d)
                 else true)
         | None => false
         end
     | _, _ => true
     end.

(** Two location discoveries of a device on the same date carry the same
    tags (the label of the date). *)
Definition loc_consistent (e d : discovery) : bool :=
  verified e || verified d
  || match kind e, kind d, calendar_date e, calendar_date d with
     | Some k1, Some k2, Some c1, Some c2 =>
         if eqb k1 (py "locations") && eqb k2 (py "locations")
            && same_device e d && eqb c1 c2
         then same_set (tags e) (tags d)
         else true
     | _, _, _, _ => true
     end.

Definition well_formed (ds : list discovery) : bool :=
  forallb shaped ds
  && forallb (fun e => forallb (loc_consistent e) ds) ds.

(** *** Strings with separators *)

Lemma free_of_in (c : ascii) (s : str) :
  free_of c s = true -> ~ In c s.
Proof.
  unfold free_of. rewrite forallb_forall. intros H Hin.
  specialize (H c Hin). unfold Regex.not_char in H.
  now rewrite Ascii.eqb_refl in H.
Qed.

Lemma split_first (c : ascii) (a b x y : str) :
  free_of c a = true -> free_of c b = true ->
  a ++ c :: x = b ++ c :: y -> a = b /\ x = y.
Proof.
  revert b. induction a as [|p a IH]; intros [|q b] Ha Hb E; simpl in *.
  - injection E as ->. auto.
  - injection E as <- _. unfold Regex.not_char in Hb.
    now rewrite Ascii.eqb_refl in Hb.
  - injection E as -> _. unfold Regex.not_char in Ha.
    now rewrite Ascii.eqb_refl in Ha.
  - injection E as -> E. apply andb_true_iff in Ha, Hb.
    destruct (IH b (proj2 Ha) (proj2 Hb) E) as [-> ->]. auto.
Qed.

Definition plain (t : str) : bool := negb (eqb t []) && free_of "," t.

Lemma join_cons2 (sep x y : str) (l : list str) :
  join sep (x :: y :: l) = x ++ sep ++ join sep (y :: l).
Proof. reflexivity. Qed.

Lemma join_inj (l1 l2 : list str) :
  forallb plain l1 = true -> forallb plain l2 = true ->
  join (py ",") l1 = join (py ",") l2 -> l1 = l2.
Proof.
  revert l2. induction l1 as [|x l1 IH]; intros l2 H1 H2 E.
  - destruct l2 as [|y l2]; [reflexivity|]. exfalso.
    cbn [forallb] in H2. apply andb_true_iff in H2. destruct H2 as [Hy _].
    unfold plain in Hy. apply andb_true_iff in Hy. destruct Hy as [Hy _].
    apply negb_true_iff, eqb_neq in Hy.
    destruct l2 as [|z l2]; [|rewrite join_cons2 in E]; simpl in E;
      destruct y; try congruence; discriminate E.
  - destruct l2 as [|y l2].
    + exfalso. cbn [forallb] in H1. apply andb_true_iff in H1.
      destruct H1 as [Hx _]. unfold plain in Hx. apply andb_true_iff in Hx.
      destruct Hx as [Hx _]. apply negb_true_iff, eqb_neq in Hx.
      destruct l1 as [|z l1]; [|rewrite join_cons2 in E]; simpl in E;
        destruct x; try congruence; discriminate E.
    + cbn [forallb] in H1, H2. apply andb_true_iff in H1, H2.
      destruct H1 as [Hx H1], H2 as [Hy H2].
      assert (Fx : free_of "," x = true)
        by (unfold plain in Hx; apply andb_true_iff in Hx; apply Hx).
      assert (Fy : free_of "," y = true)
        by (unfold plain in Hy; apply andb_true_iff in Hy; apply Hy).
      destruct l1 as [|x' l1], l2 as [|y' l2].
      * simpl in E. now subst.
      * exfalso. rewrite join_cons2 in E. cbn [join] in E.
        apply (free_of_in _ _ Fx). rewrite E. apply in_or_app. right.
        now left.
      * exfalso. rewrite join_cons2 in E. cbn [join] in E.
        apply (free_of_in _ _ Fy). rewrite <- E. apply in_or_app. right.
        now left.
      * rewrite !join_cons2 in E.
        apply (split_first "," x y _ _ Fx Fy) in E. destruct E as [-> E].
        f_equal. now apply IH.
Qed.

(** *** Sorted tag lists *)

Lemma mem_in (x : str) (l : list str) : Py.mem x l = true <-> In x l.
Proof.
  unfold Py.mem. rewrite existsb_exists. split.
  - intros (y & Hy & E). apply eqb_eq in E. now subst.
  - intros H. exists x. split; [exact H | apply eqb_refl].
Qed.

Lemma nodupb_nodup (l : list str) : nodupb l = true -> NoDup l.
Proof.
  induction l as [|x l IH]; simpl; [constructor|].
  rewrite andb_true_iff, negb_true_iff. intros [Hx Hl].
  constructor; [|auto]. rewrite <- mem_in. congruence.
Qed.

Lemma same_set_iff (a b : list str) :
  same_set a b = true <-> (forall x, In x a <-> In x b).
Proof.
  unfold same_set. rewrite andb_true_iff, !forallb_forall. split.
  - intros [H1 H2] x. split; intros H; [apply H1 in H | apply H2 in H];
      now apply mem_in.
  - intros H. split; intros x Hx; apply mem_in, H, Hx.
Qed.

Lemma sorted_perm (l : list str) : Permutation (sorted l) l.
Proof. apply ScanFacts.sort_by_perm. Qed.

Lemma sorted_ordered (l : list str) :
  StronglySorted (fun a b => leb a b = true) (sorted l).
Proof.
  apply (PyFacts.sort_by_sorted leb PyFacts.leb_total PyFacts.leb_trans).
Qed.

Lemma ordered_unique (a b : list str) :
  StronglySorted (fun x y => leb x y = true) a ->
  StronglySorted (fun x y => leb x y = true) b ->
  Permutation a b -> a = b.
Proof.
  revert b. induction a as [|x a IH]; intros b Ha Hb Hp.
  - apply Permutation_nil in Hp. now subst.
  - destruct b as [|y b];
      [apply Permutation_sym, Permutation_nil in Hp; discriminate|].
    inversion Ha as [|? ? Ha' Hax]; subst.
    inversion Hb as [|? ? Hb' Hby]; subst.
    rewrite Forall_forall in Hax, Hby.
    assert (Hxy : x = y).
    { assert (Hx : In x (y :: b))
        by (apply (Permutation_in _ Hp); now left).
      assert (Hy : In y (x :: a))
        by (apply (Permutation_in _ (Permutation_sym Hp)); now left).
      destruct Hx as [->|Hx]; [reflexivity|].
      destruct Hy as [->|Hy]; [reflexivity|].
      apply PyFacts.leb_antisym; auto. }
    subst y. f_equal. apply IH; auto.
    now apply Permutation_cons_inv in Hp.
Qed.

Lemma sorted_of_perm (l1 l2 : list str) :
  Permutation l1 l2 -> sorted l1 = sorted l2.
Proof.
  intros H. apply ordered_unique; try apply sorted_ordered.
  now rewrite !sorted_perm.
Qed.

Lemma sorted_same_set (l1 l2 : list str) :
  sorted l1 = sorted l2 -> same_set l1 l2 = true.
Proof.
  intros E. apply same_set_iff. intros x.
  rewrite <- (Permutation_in' eq_refl (sorted_perm l1)).
  rewrite <- (Permutation_in' eq_refl (sorted_perm l2)).
  now rewrite E.
Qed.

Lemma sorted_plain (l : list str) :
  forallb plain l = true -> forallb plain (sorted l) = true.
Proof.
  rewrite !forallb_forall. intros H x Hx. apply H.
  now apply (Permutation_in _ (sorted_perm l)).
Qed.

Lemma tags_key_iff (t1 t2 : list str) :
  nodupb t1 = true -> nodupb t2 = true ->
  forallb plain t1 = true -> forallb plain t2 = true ->
  join (py ",") (sorted t1) = join (py ",") (sorted t2)
  <-> same_set t1 t2 = true.
Proof.
  intros N1 N2 P1 P2. split.
  - intros E. apply sorted_same_set, join_inj; auto using sorted_plain.
  - intros H. f_equal. apply sorted_of_perm.
    apply NoDup_Permutation; auto using nodupb_nodup.
    now apply same_set_iff.
Qed.

(** *** The key and the group *)

(** A chat or location discovery that gets a key, with its timestamp and
    device. *)
Definition keyed (dt : str) (d : discovery) (ts dev : str) : Prop :=
  data_type d = Some dt /\ dated d = Some ts /\ device_id d = Some dev.

Lemma chat_facts (d : discovery) (ts dev : str) :
  keyed (py "chats") d ts dev ->
  dedup_key d
  = Some (dev ++ py ":" ++ prefix 10 ts ++ py ":"
          ++ join (py ",") (sorted (tags d)))
  /\ kind d = Some (py "chats") /\ calendar_date d = Some (prefix 10 ts).
Proof.
  intros (H1 & H2 & H3).
  unfold dedup_key, kind, calendar_date, device_text.
  rewrite H1, H2, H3. repeat split.
Qed.

Lemma loc_facts (d : discovery) (ts dev : str) :
  keyed (py "locations") d ts dev ->
  dedup_key d = Some (py "loc:" ++ dev ++ py ":" ++ prefix 10 ts)
  /\ kind d = Some (py "locations")
  /\ calendar_date d = Some (prefix 10 ts).
Proof.
  intros (H1 & H2 & H3).
  unfold dedup_key, kind, calendar_date, device_text.
  rewrite H1, H2, H3. repeat split.
Qed.

(** The three cases of an unverified discovery of the expected shape. *)
Inductive classified (d : discovery) : Prop :=
| a_chat ts dev :
    keyed (py "chats") d ts dev ->
    free_of ":" dev = true -> dev <> py "loc" ->
    free_of ":" (prefix 10 ts) = true ->
    nodupb (tags d) = true -> forallb plain (tags d) = true ->
    classified d
| a_location ts dev :
    keyed (py "locations") d ts dev -> free_of ":" dev = true ->
    classified d
| unkeyed :
    dedup_key d = None -> (forall e, duplicates e d = false) ->
    (forall e, duplicates d e = false) ->
    classified d.

Lemma no_kind (d : discovery) :
  kind d = None ->
  (forall e, duplicates e d = false) /\ (forall e, duplicates d e = false).
Proof.
  intros H. split; intros e; unfold duplicates; rewrite H;
    [destruct (kind e)|]; reflexivity.
Qed.

Lemma no_date (d : discovery) :
  calendar_date d = None ->
  (forall e, duplicates e d = false) /\ (forall e, duplicates d e = false).
Proof.
  intros H. split; intros e; unfold duplicates; rewrite H.
  - destruct (kind e), (kind d), (calendar_date e); reflexivity.
  - destruct (kind d), (kind e); reflexivity.
Qed.

Lemma undated (d : discovery) :
  dated d = None -> dedup_key d = None /\ calendar_date d = None.
Proof. intros H. unfold dedup_key, calendar_date. now rewrite H. Qed.

Lemma classify (d : discovery) :
  verified d = false -> shaped d = true -> classified d.
Proof.
  intros Hv Hs. unfold shaped in Hs. rewrite Hv in Hs. cbn [orb] in Hs.
  destruct (dated d) as [ts|] eqn:Ets.
  2:{ destruct (undated d Ets) as [Hk Hc]. destruct (no_date d Hc).
      now apply unkeyed. }
  destruct (kind d) as [k|] eqn:Ek.
  2:{ destruct (no_kind d Ek). apply unkeyed; auto.
      unfold kind in Ek. unfold dedup_key. rewrite Ets.
      destruct (data_type d) as [dt|]; [|reflexivity].
      destruct (eqb dt (py "chats")); [discriminate|].
      destruct (eqb dt (py "locations")); [discriminate | reflexivity]. }
  destruct (device_id d) as [dev|] eqn:Edev; [|discriminate].
  apply andb_true_iff in Hs. destruct Hs as [Hfree Hs].
  unfold kind in Ek. destruct (data_type d) as [dt|] eqn:Edt; [|discriminate].
  destruct (eqb dt (py "chats")) eqn:Ec.
  - injection Ek as <-. rewrite Ec in Hs. apply eqb_eq in Ec. subst dt.
    apply andb_true_iff in Hs. destruct Hs as [Hs Hplain].
    apply andb_true_iff in Hs. destruct Hs as [Hs Hnodup].
    apply andb_true_iff in Hs. destruct Hs as [Hloc Hdate].
    apply (a_chat d ts dev); auto.
    + repeat split; assumption.
    + apply eqb_neq. now apply negb_true_iff in Hloc.
  - destruct (eqb dt (py "locations")) eqn:El; [|discriminate].
    apply eqb_eq in El. subst dt.
    apply (a_location d ts dev); auto. repeat split; assumption.
Qed.

Lemma some_inj (a b : str) : Some a = Some b -> a = b.
Proof. now intros [= ->]. Qed.

Lemma same_key (a b : option str) :
  (exists k, a = Some k /\ b = Some k) <-> (a = b /\ a <> None).
Proof.
  split.
  - intros (k & -> & ->). split; [reflexivity | discriminate].
  - intros [<- H]. destruct a as [k|]; [|congruence]. now exists k.
Qed.

Lemma chat_keys_equal (dev1 date1 j1 dev2 date2 j2 : str) :
  free_of ":" dev1 = true -> free_of ":" dev2 = true ->
  free_of ":" date1 = true -> free_of ":" date2 = true ->
  dev1 ++ py ":" ++ date1 ++ py ":" ++ j1
  = dev2 ++ py ":" ++ date2 ++ py ":" ++ j2
  <-> dev1 = dev2 /\ date1 = date2 /\ j1 = j2.
Proof.
  intros F1 F2 G1 G2. split.
  - intros E.
    apply (split_first ":" dev1 dev2 _ _ F1 F2) in E. destruct E as [-> E].
    apply (split_first ":" date1 date2 _ _ G1 G2) in E.
    destruct E as [-> ->]. auto.
  - intros (-> & -> & ->). reflexivity.
Qed.

Lemma loc_keys_equal (dev1 date1 dev2 date2 : str) :
  free_of ":" dev1 = true -> free_of ":" dev2 = true ->
  py "loc:" ++ dev1 ++ py ":" ++ date1 = py "loc:" ++ dev2 ++ py ":" ++ date2
  <-> dev1 = dev2 /\ date1 = date2.
Proof.
  intros F1 F2. split.
  - intros E. apply app_inv_head in E.
    now apply (split_first ":" dev1 dev2 _ _ F1 F2) in E.
  - intros (-> & ->). reflexivity.
Qed.

Lemma chat_loc_keys_differ (dev1 rest1 rest2 : str) :
  free_of ":" dev1 = true -> dev1 <> py "loc" ->
  dev1 ++ py ":" ++ rest1 <> py "loc:" ++ rest2.
Proof.
  intros F N E.
  apply (split_first ":" dev1 (py "loc") rest1 rest2 F eq_refl) in E. tauto.
Qed.

(** Under the expected shape, two unverified discoveries are duplicates
    exactly when [_deduplicate] gives them the same key. *)
Lemma key_agrees (e d : discovery) :
  verified e = false -> verified d = false ->
  shaped e = true -> shaped d = true -> loc_consistent e d = true ->
  duplicates e d = true
  <-> exists k, dedup_key e = Some k /\ dedup_key d = Some k.
Proof.
  intros Ve Vd Se Sd Hc.
  unfold loc_consistent in Hc. rewrite Ve, Vd in Hc. cbn [orb] in Hc.
  rewrite same_key.
  destruct (classify e Ve Se)
    as [ts1 dev1 K1 F1 N1 G1 D1 P1 | ts1 dev1 K1 F1 | U1 A1 B1];
    [| |rewrite B1, U1; split; [discriminate | intros [_ N]; congruence]];
  (destruct (classify d Vd Sd)
    as [ts2 dev2 K2 F2 N2 G2 D2 P2 | ts2 dev2 K2 F2 | U2 A2 B2];
    [| |rewrite A2, U2; split; [discriminate | intros [E N]; congruence]]).
  - destruct (chat_facts e ts1 dev1 K1) as (Ke & Kk & Kc).
    destruct (chat_facts d ts2 dev2 K2) as (Kd & Kk' & Kc').
    unfold duplicates, same_device. rewrite Ke, Kd, Kk, Kk', Kc, Kc'.
    destruct K1 as (_ & _ & ->), K2 as (_ & _ & ->).
    rewrite eqb_refl. cbn [andb]. rewrite !andb_true_iff, !eqb_eq.
    rewrite <- (tags_key_iff _ _ D1 D2 P1 P2).
    split.
    + intros [[-> ->] ->]. split; [reflexivity | discriminate].
    + intros [E _]. apply some_inj in E.
      apply chat_keys_equal in E; tauto.
  - destruct (chat_facts e ts1 dev1 K1) as (Ke & Kk & Kc).
    destruct (loc_facts d ts2 dev2 K2) as (Kd & Kk' & Kc').
    unfold duplicates. rewrite Ke, Kd, Kk, Kk', Kc, Kc'.
    change (eqb (py "chats") (py "locations")) with false. cbn [andb].
    split; [discriminate|]. intros [E _]. apply some_inj in E.
    now apply chat_loc_keys_differ in E.
  - destruct (loc_facts e ts1 dev1 K1) as (Ke & Kk & Kc).
    destruct (chat_facts d ts2 dev2 K2) as (Kd & Kk' & Kc').
    unfold duplicates. rewrite Ke, Kd, Kk, Kk', Kc, Kc'.
    change (eqb (py "locations") (py "chats")) with false. cbn [andb].
    split; [discriminate|]. intros [E _]. apply some_inj in E. symmetry in E.
    now apply chat_loc_keys_differ in E.
  - destruct (loc_facts e ts1 dev1 K1) as (Ke & Kk & Kc).
    destruct (loc_facts d ts2 dev2 K2) as (Kd & Kk' & Kc').
    rewrite Kk, Kk', Kc, Kc' in Hc.
    unfold duplicates. rewrite Ke, Kd, Kk, Kk', Kc, Kc'.
    rewrite !eqb_refl in *. cbn [andb] in *.
    split.
    + rewrite !andb_true_iff, eqb_eq. unfold same_device.
      destruct K1 as (_ & _ & ->), K2 as (_ & _ & ->). rewrite eqb_eq.
      intros [[-> ->] _]. split; [reflexivity | discriminate].
    + intros [E _]. apply some_inj in E. apply loc_keys_equal in E; auto.
      destruct E as [-> E]. rewrite E in *.
      assert (Hd : same_device e d = true).
      { unfold same_device. destruct K1 as (_ & _ & ->), K2 as (_ & _ & ->).
        apply eqb_refl. }
      rewrite Hd, eqb_refl in *. cbn [andb] in *. exact Hc.
Qed.

(** *** The loop and the specification *)

Lemma well_formed_in (all : list discovery) :
  well_formed all = true ->
  (forall d, In d all -> shaped d = true)
  /\ (forall e d, In e all -> In d all -> loc_consistent e d = true).
Proof.
  unfold well_formed. rewrite andb_true_iff, !forallb_forall.
  intros [H1 H2]. split; [exact H1|]. intros e d He Hd.
  specialize (H2 e He). rewrite forallb_forall in H2. now apply H2.
Qed.

Lemma earlier_duplicate (earlier : list discovery) (d : discovery) :
  existsb (fun e => negb (verified e) && duplicates e d) earlier = true
  <-> exists e, In e earlier /\ verified e = false /\ duplicates e d = true.
Proof.
  rewrite existsb_exists. split; intros (e & He & H); exists e.
  - apply andb_true_iff in H. rewrite negb_true_iff in H. tauto.
  - rewrite andb_true_iff, negb_true_iff. tauto.
Qed.

Lemma dedup_collapse (all : list discovery) :
  well_formed all = true ->
  forall ds earlier seen,
    incl ds all -> incl earlier all ->
    (forall k, In k seen
               <-> exists e, In e earlier /\ verified e = false
                             /\ dedup_key e = Some k) ->
    dedup_from seen ds = collapse earlier ds.
Proof.
  intros Hwf. destruct (well_formed_in all Hwf) as [Hshape Hloc].
  induction ds as [|d ds IH]; intros earlier seen Hds Hearlier Hseen;
    [reflexivity|].
  assert (Hd : In d all) by (apply Hds; now left).
  assert (Hds' : incl ds all) by (intros x Hx; apply Hds; now right).
  assert (Hearlier' : incl (d :: earlier) all)
    by (intros x [<-|Hx]; auto).
  cbn [dedup_from collapse]. destruct (verified d) eqn:Vd.
  - f_equal. apply IH; auto. intros k. rewrite Hseen. split.
    + intros (e & He & H). exists e. split; [now right | exact H].
    + intros (e & [<-|He] & Ve & H); [congruence|]. now exists e.
  - assert (Hmem : forall k, dedup_key d = Some k ->
              (existsb (fun e => negb (verified e) && duplicates e d) earlier
               = Py.mem k seen)).
    { intros k Hk. apply eq_true_iff_eq.
      rewrite earlier_duplicate, mem_in, Hseen. split.
      - intros (e & He & Ve & Hdup). exists e. split; [exact He|].
        split; [exact Ve|].
        apply (key_agrees e d) in Hdup; auto.
        destruct Hdup as (k' & E1 & E2). congruence.
      - intros (e & He & Ve & Hk'). exists e. split; [exact He|].
        split; [exact Ve|].
        apply (key_agrees e d); auto. now exists k. }
    destruct (dedup_key d) as [k|] eqn:Ek.
    + rewrite (Hmem k eq_refl). destruct (Py.mem k seen) eqn:Em.
      * apply IH; auto. intros k'. rewrite Hseen. split.
        -- intros (e & He & H). exists e. split; [now right | exact H].
        -- intros (e & [<-|He] & Ve & H).
           ++ apply mem_in in Em. apply Hseen in Em.
              rewrite Ek in H. injection H as <-. exact Em.
           ++ now exists e.
      * f_equal. apply IH; auto. intros k'. split.
        -- intros [<-|Hk'].
           ++ exists d. split; [now left | auto].
           ++ apply Hseen in Hk'. destruct Hk' as (e & He & H).
              exists e. split; [now right | exact H].
        -- intros (e & [<-|He] & Ve & H).
           ++ left. congruence.
           ++ right. apply Hseen. now exists e.
    + assert (Hno : existsb (fun e => negb (verified e) && duplicates e d)
                      earlier = false).
      { apply not_true_is_false. intros H. apply earlier_duplicate in H.
        destruct H as (e & He & Ve & Hdup).
        apply (key_agrees e d) in Hdup; auto.
        destruct Hdup as (k' & _ & E2). congruence. }
      rewrite Hno. f_equal. apply IH; auto. intros k'. rewrite Hseen. split.
      * intros (e & He & H). exists e. split; [now right | exact H].
      * intros (e & [<-|He] & Ve & H); [congruence|]. now exists e.
Qed.

Lemma dedup_verified (seen : list str) (l : list discovery) :
  filter verified (dedup_from seen l) = filter verified l.
Proof.
  revert seen. induction l as [|d l IH]; intros seen; [reflexivity|].
  cbn [dedup_from filter]. destruct (verified d) eqn:Vd.
  - cbn [filter]. rewrite Vd. f_equal. apply IH.
  - destruct (dedup_key d) as [k|]; [destruct (Py.mem k seen)|];
      cbn [filter]; rewrite ?Vd; apply IH.
Qed.

End DedupFacts.

(** C4: on a list of generated discoveries, [_deduplicate] keeps every
    verified discovery, and of the unverified discoveries of the chat
    category and of the location category that share device, calendar date
    and tag set it keeps the first encountered and removes the later ones. *)
Theorem deduplicate_collapses (discoveries : list Discovery.discovery) :
  DedupFacts.well_formed discoveries = true ->
  Discovery._deduplicate discoveries = DedupFacts.collapse [] discoveries
  /\ filter Discovery.verified (Discovery._deduplicate discoveries)
     = filter Discovery.verified discoveries.
Proof.
  intros Hwf. split.
  - unfold Discovery._deduplicate.
    apply (DedupFacts.dedup_collapse discoveries Hwf).
    + apply incl_refl.
    + intros x [].
    + intros k. split; [intros [] | intros (e & [] & _)].
  - apply DedupFacts.dedup_verified.
Qed.

(** ** Generated lists have the shape that deduplication expects *)

Module GenerateFacts.

Import Discovery DedupFacts.

(** The tags of a location discovery are the label of its date. *)
Definition loc_tagged (d : discovery) : Prop :=
  verified d = false -> data_type d = Some (py "locations") ->
  forall ts, dated d = Some ts ->
  exists label fl,
    In (prefix 10 ts, (label, fl)) CRITICAL_DATES
    /\ tags d = [label; py "location"].

Definition generated (d : discovery) : Prop :=
  shaped d = true /\ loc_tagged d.

Lemma emit_all (Q : discovery -> Prop) (mk : nat -> discovery) (a : acc) :
  (forall n, Q (mk n)) -> Forall Q (fst a) -> Forall Q (fst (emit mk a)).
Proof.
  intros H Ha. unfold emit. cbn [fst]. apply Forall_app. split; [exact Ha|].
  constructor; [apply H | constructor].
Qed.

Lemma fold_all (Q : discovery -> Prop) {X} (f : acc -> X -> acc)
  (l : list X) (a : acc) :
  (forall a x, In x l -> Forall Q (fst a) -> Forall Q (fst (f a x))) ->
  Forall Q (fst a) -> Forall Q (fst (fold_left f l a)).
Proof.
  revert a. induction l as [|x l IH]; intros a H Ha; cbn [fold_left];
    [exact Ha|].
  apply IH.
  - intros a' y Hy. apply H. now right.
  - apply H; [now left | exact Ha].
Qed.

(** Discoveries of the other categories are left alone by the
    deduplication. *)
Lemma other_generated (dev own i ttl c : str) (fl : nat) (cont : str)
  (ts : option str) (tgs : list str) (dt : str) (app : option str) :
  eqb dt (py "chats") = false -> eqb dt (py "locations") = false ->
  generated (found dev own i ttl c fl cont ts tgs dt app).
Proof.
  intros Hc Hl. split.
  - unfold shaped, kind, found. cbn [verified data_type orb].
    rewrite Hc, Hl. reflexivity.
  - intros _ Hdt. unfold found in Hdt. cbn [data_type] in Hdt.
    injection Hdt as ->. discriminate Hl.
Qed.

Lemma verified_generated (d : discovery) : verified d = true -> generated d.
Proof.
  intros H. split; [unfold shaped; now rewrite H|].
  intros H'. congruence.
Qed.

(** *** Tags taken from the tables *)

Lemma subseq_nodupb (l l' : list str) :
  PyFacts.subseq l l' -> nodupb l' = true -> nodupb l = true.
Proof.
  induction 1 as [|x l l' H IH|x l l' H IH]; cbn [nodupb]; [auto| |].
  - rewrite andb_true_iff. intros [_ H']. auto.
  - rewrite !andb_true_iff, !negb_true_iff. intros [Hx H']. split; [|auto].
    destruct (Py.mem x l) eqn:E; [|reflexivity].
    apply mem_in in E. apply (PyFacts.subseq_in _ _ _ H), mem_in in E.
    congruence.
Qed.

Lemma subseq_forallb (f : str -> bool) (l l' : list str) :
  PyFacts.subseq l l' -> forallb f l' = true -> forallb f l = true.
Proof.
  rewrite !forallb_forall. intros H H' x Hx. apply H'.
  now apply (PyFacts.subseq_in _ _ _ H).
Qed.

Lemma term_tags (f : str * nat -> bool) :
  let tgs := firstn 5 (map fst (filter f KEY_TERMS)) in
  nodupb tgs = true /\ forallb plain tgs = true.
Proof.
  cbv zeta.
  assert (H : PyFacts.subseq (firstn 5 (map fst (filter f KEY_TERMS)))
                (map fst KEY_TERMS)).
  { eapply PyFacts.subseq_trans; [apply PyFacts.subseq_firstn|].
    apply PyFacts.subseq_map, PyFacts.subseq_filter. }
  split.
  - apply (subseq_nodupb _ _ H). vm_compute. reflexivity.
  - apply (subseq_forallb _ _ _ H). vm_compute. reflexivity.
Qed.

(** What is checked of the table of critical dates: a date has ten
    characters and no colon, its label is not the date, and both are
    non-empty and free of commas. *)
Definition date_ok (date : str * (str * nat)) : bool :=
  (length (fst date) =? 10) && free_of ":" (fst date)
  && nodupb [fst (snd date); fst date]
  && forallb plain [fst (snd date); fst date].

Lemma dates_ok (date : str * (str * nat)) :
  In date CRITICAL_DATES -> date_ok date = true.
Proof.
  assert (H : forallb date_ok CRITICAL_DATES = true)
    by (vm_compute; reflexivity).
  rewrite forallb_forall in H. apply H.
Qed.

Lemma startswith_firstn (p s : str) :
  startswith p s = true -> firstn (length p) s = p.
Proof.
  revert s. induction p as [|a p IH]; intros [|b s]; cbn [startswith];
    try reflexivity; try discriminate.
  rewrite andb_true_iff. intros [E H]. apply Ascii.eqb_eq in E. subst b.
  cbn [length firstn]. f_equal. now apply IH.
Qed.

Lemma on_date_prefix (ts : str) (date : str * (str * nat)) :
  In date CRITICAL_DATES -> on_date ts date = true ->
  ts <> [] /\ prefix 10 ts = fst date.
Proof.
  intros Hin H. unfold on_date in H. apply andb_true_iff in H.
  destruct H as [Hne Hs]. apply negb_true_iff, eqb_neq in Hne.
  split; [exact Hne|].
  pose proof (dates_ok date Hin) as Hok. unfold date_ok in Hok.
  repeat (apply andb_true_iff in Hok; destruct Hok as [Hok _]).
  apply Nat.eqb_eq in Hok. unfold prefix. rewrite <- Hok.
  now apply startswith_firstn.
Qed.

Lemma dates_unique (c l1 l2 : str) (f1 f2 : nat) :
  In (c, (l1, f1)) CRITICAL_DATES -> In (c, (l2, f2)) CRITICAL_DATES ->
  l1 = l2.
Proof.
  assert (Hnd : NoDup (map fst CRITICAL_DATES)).
  { apply (NoDup_map_inv (fun s => s)). rewrite map_id.
    apply nodupb_nodup. vm_compute. reflexivity. }
  revert Hnd. generalize CRITICAL_DATES as tbl.
  induction tbl as [|[c' v] tbl IH]; intros Hnd H1 H2; [destruct H1|].
  cbn [map] in Hnd. inversion Hnd as [|? ? Hnot Hnd']; subst.
  destruct H1 as [E1|H1], H2 as [E2|H2].
  - congruence.
  - injection E1 as -> _. exfalso. apply Hnot.
    change c with (fst (c, (l2, f2))). now apply in_map.
  - injection E2 as -> _. exfalso. apply Hnot.
    change c with (fst (c, (l1, f1))). now apply in_map.
  - now apply IH.
Qed.

(** *** The steps of the scan *)

Section Device.

Variables dev own : str.
Hypothesis dev_colon : free_of ":" dev = true.
Hypothesis dev_loc : dev <> py "loc".

Lemma chat_generated (msg : Store.row) (f : str * nat -> bool) (n : nat) :
  free_of ":" (prefix 10 (Store.get (py "timestamp") [] msg)) = true ->
  generated (chat_discovery dev own msg (filter f KEY_TERMS) n).
Proof.
  intros Hts. destruct (term_tags f) as [Hnd Hpl]. split.
  - unfold shaped, kind, dated, chat_discovery, found.
    cbn [verified data_type timestamp device_id tags orb].
    rewrite eqb_refl. cbn [orb].
    destruct (Store.get (py "timestamp") [] msg) as [|c s]; [reflexivity|].
    rewrite eqb_refl, dev_colon, Hts, Hnd. fold plain. rewrite Hpl.
    apply eqb_neq in dev_loc. now rewrite dev_loc.
  - intros _ H. discriminate H.
Qed.

Lemma date_generated (msg : Store.row) (date : str * (str * nat)) (n : nat) :
  In date CRITICAL_DATES ->
  on_date (Store.get (py "timestamp") [] msg) date = true ->
  generated (date_discovery dev own msg date n).
Proof.
  intros Hin Hon. destruct (on_date_prefix _ _ Hin Hon) as [Hne Hpre].
  pose proof (dates_ok date Hin) as Hok. unfold date_ok in Hok.
  apply andb_true_iff in Hok. destruct Hok as [Hok Hpl].
  apply andb_true_iff in Hok. destruct Hok as [Hok Hnd].
  apply andb_true_iff in Hok. destruct Hok as [_ Hfree].
  split.
  - unfold shaped, kind, dated, date_discovery, found.
    cbn [verified data_type timestamp device_id tags orb].
    rewrite eqb_refl. cbn [orb].
    destruct (Store.get (py "timestamp") [] msg) as [|c s]; [congruence|].
    rewrite eqb_refl, dev_colon, Hpre, Hfree, Hnd. fold plain. rewrite Hpl.
    apply eqb_neq in dev_loc. now rewrite dev_loc.
  - intros _ H. discriminate H.
Qed.

Lemma location_generated (loc : Store.row) (date : str * (str * nat))
  (n : nat) :
  In date CRITICAL_DATES ->
  on_date (Store.get (py "timestamp") [] loc) date = true ->
  generated (location_discovery dev own loc date n).
Proof.
  intros Hin Hon. destruct (on_date_prefix _ _ Hin Hon) as [Hne Hpre]. split.
  - unfold shaped, kind, dated, location_discovery, found.
    cbn [verified data_type timestamp device_id tags orb].
    change (eqb (py "locations") (py "chats")) with false.
    rewrite eqb_refl. cbn [orb].
    destruct (Store.get (py "timestamp") [] loc) as [|c s]; [reflexivity|].
    now rewrite dev_colon.
  - intros _ _ ts Hts. unfold dated, location_discovery, found in Hts.
    cbn [timestamp] in Hts.
    destruct (Store.get (py "timestamp") [] loc) as [|c s] eqn:E;
      [discriminate|].
    injection Hts as <-. destruct date as [ds [label fl]].
    exists label, fl. cbn [fst snd] in *. rewrite Hpre. split; [exact Hin|].
    reflexivity.
Qed.

Lemma chat_step_generated (a : acc) (msg : Store.row) :
  free_of ":" (prefix 10 (Store.get (py "timestamp") [] msg)) = true ->
  Forall generated (fst a) -> Forall generated (fst (chat_step dev own a msg)).
Proof.
  intros Hts Ha. unfold chat_step. destruct (_ <? 5); [exact Ha|].
  unfold chat_dates. apply fold_all.
  - intros a' date Hin Ha'.
    destruct (on_date _ date) eqn:Hon; [|exact Ha'].
    apply emit_all; [|exact Ha']. intros n. now apply date_generated.
  - unfold chat_keyword, chat_matches.
    match goal with
    | |- context [filter ?f KEY_TERMS] =>
        pose proof (fun n => chat_generated msg f n Hts) as Hg;
        destruct (filter f KEY_TERMS)
    end; [exact Ha|].
    destruct (2 <=? _); [|exact Ha]. now apply emit_all.
Qed.

Lemma location_step_generated (a : acc) (loc : Store.row) :
  Forall generated (fst a) ->
  Forall generated (fst (location_step dev own a loc)).
Proof.
  intros Ha. unfold location_step.
  destruct (find _ CRITICAL_DATES) as [date|] eqn:E; [|exact Ha].
  apply find_some in E. destruct E as [Hin Hon].
  apply emit_all; [|exact Ha]. intros n. now apply location_generated.
Qed.

Ltac other := apply emit_all; [intros n; now apply other_generated | assumption].

Lemma scan_device_generated (categories : list (str * list Store.row))
  (a : acc) :
  (forall msg, In msg (cat (py "chats") categories) ->
     free_of ":" (prefix 10 (Store.get (py "timestamp") [] msg)) = true) ->
  Forall generated (fst a) ->
  Forall generated (fst (scan_device dev own categories a)).
Proof.
  intros Hchats Ha. unfold scan_device.
  apply fold_all.
  { intros a' b _ Ha'. unfold browsing_step.
    destruct (key_matches _); [exact Ha'|].
    destruct (2 <=? _); [|exact Ha']. other. }
  apply fold_all.
  { intros a' c _ Ha'. unfold call_step.
    destruct (find _ _); [|exact Ha']. other. }
  apply fold_all.
  { intros a' l _ Ha'. now apply location_step_generated. }
  unfold passwords_step.
  match goal with
  | |- Forall _ (fst match ?p with [] => ?x | _ => _ end) =>
      assert (Hx : Forall generated (fst x)); [|destruct p; [exact Hx | other]]
  end.
  apply fold_all.
  { intros a' s _ Ha'. unfold search_step.
    destruct (search_matched _); [exact Ha' | other]. }
  apply fold_all.
  { intros a' e _ Ha'. unfold email_step.
    destruct (key_matches _); [exact Ha'|].
    destruct (2 <=? _); [|exact Ha']. other. }
  apply fold_all; [|exact Ha].
  intros a' msg Hin Ha'. apply chat_step_generated; auto.
Qed.

End Device.

(** The device identifiers have no colon and are not the word loc, and the
    date part of the chat timestamps has no colon (as in the timestamps the
    chat parser accepts). *)
Definition inputs_ok (cellebrite_data : list (str * list (str * list Store.row)))
  : Prop :=
  forall dev categories, In (dev, categories) cellebrite_data ->
    free_of ":" dev = true /\ dev <> py "loc"
    /\ forall msg, In msg (cat (py "chats") categories) ->
         free_of ":" (prefix 10 (Store.get (py "timestamp") [] msg)) = true.

Lemma generate_generated
  (cellebrite_data : list (str * list (str * list Store.row)))
  (device_map : list (str * Store.row)) :
  inputs_ok cellebrite_data ->
  Forall generated (generate cellebrite_data device_map).
Proof.
  intros Hin. unfold generate. apply fold_all.
  { intros a entry _ Ha. unfold cross_step.
    destruct (1 <? _); [|exact Ha]. destruct (_ || _); [|exact Ha].
    apply emit_all; [|exact Ha]. intros n. split.
    - reflexivity.
    - intros _ H. discriminate H. }
  apply fold_all.
  - intros a [dev categories] He Ha. unfold device_step. cbn [fst snd].
    destruct (Hin dev categories He) as (H1 & H2 & H3).
    now apply scan_device_generated.
  - cbn [fst]. apply Forall_forall. intros d Hd. apply verified_generated.
    unfold VERIFIED_DISCOVERIES in Hd. cbn [In] in Hd.
    repeat (destruct Hd as [<-|Hd]; [reflexivity|]). destruct Hd.
Qed.

Lemma generated_consistent (e d : discovery) :
  generated e -> generated d -> loc_consistent e d = true.
Proof.
  intros [_ He] [_ Hd]. unfold loc_consistent.
  destruct (verified e) eqn:Ve; [reflexivity|].
  destruct (verified d) eqn:Vd; [reflexivity|]. cbn [orb].
  destruct (kind e) as [k1|] eqn:K1; [|reflexivity].
  destruct (kind d) as [k2|] eqn:K2; [|reflexivity].
  destruct (calendar_date e) as [c1|] eqn:C1; [|reflexivity].
  destruct (calendar_date d) as [c2|] eqn:C2; [|reflexivity].
  destruct (eqb k1 (py "locations")) eqn:E1; [|reflexivity].
  destruct (eqb k2 (py "locations")) eqn:E2; [|reflexivity].
  destruct (same_device e d); [|reflexivity].
  destruct (eqb c1 c2) eqn:Ec; [|reflexivity]. cbn [andb].
  apply eqb_eq in E1, E2, Ec. subst k1 k2 c2.
  assert (Hk : forall x, kind x = Some (py "locations") ->
                         data_type x = Some (py "locations")).
  { intros x. unfold kind. destruct (data_type x) as [dt|]; [|discriminate].
    destruct (_ || _); [|discriminate]. congruence. }
  unfold calendar_date in C1, C2.
  destruct (dated e) as [ts1|] eqn:T1; [|discriminate].
  destruct (dated d) as [ts2|] eqn:T2; [|discriminate].
  apply some_inj in C1. apply some_inj in C2.
  destruct (He Ve (Hk e K1) ts1 T1) as (l1 & f1 & I1 & ->).
  destruct (Hd Vd (Hk d K2) ts2 T2) as (l2 & f2 & I2 & ->).
  rewrite C1 in I1. rewrite C2 in I2.
  rewrite (dates_unique _ _ _ _ _ I1 I2).
  apply same_set_iff. tauto.
Qed.

(** Every list that the scan generates is well formed. *)
Lemma generate_well_formed
  (cellebrite_data : list (str * list (str * list Store.row)))
  (device_map : list (str * Store.row)) :
  inputs_ok cellebrite_data ->
  well_formed (generate cellebrite_data device_map) = true.
Proof.
  intros Hin. pose proof (generate_generated _ device_map Hin) as Hg.
  rewrite Forall_forall in Hg.
  unfold well_formed. rewrite andb_true_iff, !forallb_forall. split.
  - intros d Hd. apply (Hg d Hd).
  - intros e He. rewrite forallb_forall. intros d Hd.
    apply generated_consistent; auto.
Qed.

End GenerateFacts.

(** The timestamps that the chat parser accepts begin with a date without
    colon. *)
Module ParsedFacts.

Lemma digit_not_colon (c : ascii) :
  isdigit c = true -> Regex.not_char ":" c = true.
Proof. TextFacts.by_cases_on_char c. Qed.

Lemma digits_free (s : str) :
  forallb isdigit s = true -> DedupFacts.free_of ":" s = true.
Proof.
  unfold DedupFacts.free_of. rewrite !forallb_forall. intros H c Hc.
  now apply digit_not_colon, H.
Qed.

Lemma parsed_timestamp_date (line : str) (r : chat_msg) :
  parse_chat_line line = Some r ->
  DedupFacts.free_of ":" (prefix 10 (timestamp r)) = true.
Proof.
  unfold parse_chat_line, bind.
  destruct (match_msg line) as [[[ts snd_] g3]|] eqn:Em; [|discriminate].
  destruct (split_source g3) as [b src]. intros [= <-]. cbn [timestamp].
  apply RegexFacts.match_msg_inv in Em.
  destruct Em as ((y & m & d & t & [[Ly Hy] [Lm Hm] [Ld Hd] _] & ->) & _).
  assert (E : prefix 10 (RegexFacts.stamp_text y m d t)
              = y ++ py "-" ++ m ++ py "-" ++ d).
  { unfold prefix, RegexFacts.stamp_text.
    replace 10 with (length (y ++ py "-" ++ m ++ py "-" ++ d) + 0)
      by (rewrite !length_app, Ly, Lm, Ld; reflexivity).
    replace (y ++ py "-" ++ m ++ py "-" ++ d ++ py "T" ++ t)
      with ((y ++ py "-" ++ m ++ py "-" ++ d) ++ py "T" ++ t)
      by (now rewrite <- !app_assoc).
    rewrite firstn_app_2. cbn [firstn]. apply app_nil_r. }
  rewrite E. unfold DedupFacts.free_of. rewrite !forallb_app.
  fold (DedupFacts.free_of ":" y). fold (DedupFacts.free_of ":" m). fold (DedupFacts.free_of ":" d).
  now rewrite !digits_free.
Qed.

End ParsedFacts.


Lemma deduplicate_collapses_witness :
  let ds := Discovery.generate Samples.repeated_data StoreScan.DEVICE_MAP in
  (Discovery._deduplicate ds = DedupFacts.collapse [] ds
   /\ filter Discovery.verified (Discovery._deduplicate ds)
      = filter Discovery.verified ds)
  /\ length ds = 10 /\ length (Discovery._deduplicate ds) = 8.
Proof.
  split.
  - apply deduplicate_collapses. vm_compute. reflexivity.
  - vm_compute. split; reflexivity.
Defined.

(** ** Dictionaries and sorting *)

Module DictFacts.

Lemma lookup_set_same {V} (k : str) (v : V) (d : list (str * V)) :
  Py.lookup k (Py.dict_set k v d) = Some v.
Proof.
  induction d as [|[k' v'] t IH]; cbn [Py.dict_set Py.lookup].
  - now rewrite eqb_refl.
  - destruct (eqb k k') eqn:E; cbn [Py.lookup].
    + now rewrite eqb_refl.
    + now rewrite E.
Qed.

Lemma lookup_set (k k' : str) {V} (v : V) (d : list (str * V)) :
  Py.lookup k (Py.dict_set k' v d)
  = if eqb k k' then Some v else Py.lookup k d.
Proof.
  destruct (eqb k k') eqn:E.
  - apply eqb_eq in E. subst. apply lookup_set_same.
  - apply eqb_neq in E. now apply PyFacts.lookup_dict_set_other.
Qed.

Lemma filter_if_in {A} (o : option str) (keep : str -> A -> bool)
  (l : list A) (x : A) : In x (Store.filter_if o keep l) -> In x l.
Proof.
  unfold Store.filter_if. destruct (Store.given o); [|auto].
  intros H. now apply filter_In in H.
Qed.

Lemma dict_set_fresh {V} (k : str) (v : V) (d : list (str * V)) :
  ~ In k (map fst d) -> Py.dict_set k v d = d ++ [(k, v)].
Proof.
  induction d as [|[k' v'] t IH]; cbn [Py.dict_set map fst In app];
    [reflexivity|].
  intros H. destruct (eqb k k') eqn:E.
  - apply eqb_eq in E. subst. tauto.
  - rewrite IH; [reflexivity | tauto].
Qed.

Lemma lookup_some_in {V} (k : str) (d : list (str * V)) (v : V) :
  Py.lookup k d = Some v -> In (k, v) d.
Proof.
  induction d as [|[k' v'] t IH]; cbn [Py.lookup In]; [discriminate|].
  destruct (eqb k k') eqn:E.
  - apply eqb_eq in E. subst. intros H. injection H as ->. auto.
  - auto.
Qed.

End DictFacts.

Module ListFacts.

Lemma subseq_nodup {A} (l l' : list A) :
  PyFacts.subseq l l' -> NoDup l' -> NoDup l.
Proof.
  induction 1 as [|x l l' H IH|x l l' H IH]; intros Hn.
  - constructor.
  - inversion Hn; subst. auto.
  - inversion Hn as [|? ? Hx Hl]; subst. constructor; [|auto].
    intros Hin. apply Hx. eapply PyFacts.subseq_in; eassumption.
Qed.

Lemma map_nodup {A B} (f : A -> B) (l : list A) :
  (forall a b, f a = f b -> a = b) -> NoDup l -> NoDup (map f l).
Proof.
  intros Hf. induction 1 as [|x l Hx Hl IH]; cbn [map]; constructor; [|exact IH].
  intros Hin. apply in_map_iff in Hin. destruct Hin as (y & Hy & Hin).
  apply Hf in Hy. now subst.
Qed.

End ListFacts.

Module SortFacts.

Lemma insert_perm {A} (le : A -> A -> bool) (x : A) (l : list A) :
  Permutation (Py.insert_by le x l) (x :: l).
Proof.
  induction l as [|y l IH]; cbn [Py.insert_by]; [reflexivity|].
  destruct (le x y); [reflexivity|].
  rewrite IH. apply perm_swap.
Qed.

Lemma sort_perm {A} (le : A -> A -> bool) (l : list A) :
  Permutation (Py.sort_by le l) l.
Proof.
  induction l as [|x l IH]; cbn [Py.sort_by fold_right]; [reflexivity|].
  fold (Py.sort_by le l). rewrite insert_perm. now constructor.
Qed.

(** A list that is in order already is left as it is. *)
Lemma sort_fixed {A} (le : A -> A -> bool) (l : list A) :
  StronglySorted (fun a b => le a b = true) l -> Py.sort_by le l = l.
Proof.
  induction 1 as [|x l Hs IH Hall]; [reflexivity|].
  cbn [Py.sort_by fold_right]. fold (Py.sort_by le l). rewrite IH.
  destruct l as [|y t]; [reflexivity|]. cbn [Py.insert_by].
  inversion Hall as [|? ? Hxy _]; subst. now rewrite Hxy.
Qed.

Lemma sorted_of_map {A B} (R : B -> B -> Prop) (f : A -> B) (l : list A) :
  StronglySorted R (map f l) -> StronglySorted (fun a b => R (f a) (f b)) l.
Proof.
  induction l as [|x l IH]; cbn [map]; intros H; [constructor|].
  inversion H as [|? ? Hs Hall]; subst. constructor; [auto|].
  rewrite Forall_forall in *. intros y Hy. apply Hall. now apply in_map.
Qed.

Lemma sorted_to_map {A B} (R : B -> B -> Prop) (f : A -> B) (l : list A) :
  StronglySorted (fun a b => R (f a) (f b)) l -> StronglySorted R (map f l).
Proof.
  induction 1 as [|x l Hs IH Hall]; cbn [map]; constructor; [exact IH|].
  rewrite Forall_forall in *. intros y Hy. apply in_map_iff in Hy.
  destruct Hy as (z & <- & Hz). now apply Hall.
Qed.

Lemma sorted_weaken {A} (R Q : A -> A -> Prop) (l : list A) :
  (forall a b, R a b -> Q a b) -> StronglySorted R l -> StronglySorted Q l.
Proof.
  intros H. induction 1 as [|x l Hs IH Hall]; constructor; [exact IH|].
  eapply Forall_impl; [|exact Hall]. intros a. apply H.
Qed.

Lemma map_sort {A B} (f : A -> B) (le : B -> B -> bool) (l : list A) :
  map f (Py.sort_by (fun a b => le (f a) (f b)) l) = Py.sort_by le (map f l).
Proof.
  induction l as [|x l IH]; cbn [Py.sort_by fold_right map]; [reflexivity|].
  fold (Py.sort_by (fun a b => le (f a) (f b)) l). fold (Py.sort_by le (map f l)).
  rewrite <- IH. generalize (Py.sort_by (fun a b => le (f a) (f b)) l).
  intros m. induction m as [|y m IHm]; cbn [Py.insert_by map]; [reflexivity|].
  destruct (le (f x) (f y)); cbn [map]; [reflexivity | now rewrite IHm].
Qed.

End SortFacts.

Module ResolveFacts.

Lemma partial_match_in (norm : str) (people : list str) (p : str) :
  partial_match norm people = Some p -> In p people.
Proof.
  induction people as [|q people IH]; cbn [partial_match]; [discriminate|].
  repeat match goal with
         | |- (if ?c then _ else _) = _ -> _ => destruct c
         end; cbn [In]; auto.
  intros H. injection H as <-. auto.
Qed.

Lemma primary_by_norm_in (n p : str) :
  primary_by_norm n = Some p -> In p primary_names.
Proof. unfold primary_by_norm. intros H. now apply find_some in H. Qed.

Lemma alias_scan_in (norm primary : str) (aliases : list str) (p : str) :
  alias_scan norm primary aliases = Some p -> In p primary_names.
Proof.
  induction aliases as [|a aliases IH]; simpl; [discriminate|].
  destruct (_ || _); [|exact IH].
  destruct (primary_by_norm primary) as [q|] eqn:E; [|exact IH].
  intros H. injection H as <-. now apply primary_by_norm_in in E.
Qed.

Lemma alias_match_in (norm : str) (table : list (str * list str)) (p : str) :
  alias_match norm table = Some p -> In p primary_names.
Proof.
  induction table as [|[primary aliases] table IH]; simpl; [discriminate|].
  destruct (alias_scan norm primary aliases) as [q|] eqn:E; [|exact IH].
  intros H. injection H as <-. now apply alias_scan_in in E.
Qed.

Lemma match_norm_in (norm p : str) :
  match_norm norm = Some p -> In p primary_names.
Proof.
  unfold match_norm. destruct (_ <? 3); [discriminate|].
  destruct (primary_by_norm norm) as [q|] eqn:E1.
  - intros H. injection H as <-. now apply primary_by_norm_in in E1.
  - destruct (alias_match norm NAME_ALIASES) as [q|] eqn:E2.
    + intros H. injection H as <-. now apply alias_match_in in E2.
    + apply partial_match_in.
Qed.

Lemma match_primary_in (name p : str) :
  match_primary name = Some p -> In p primary_names.
Proof. apply match_norm_in. Qed.

End ResolveFacts.

(** X1: whatever name [match_primary] is given, a match it returns is one of
    the nine keys of [PRIMARY_PEOPLE], never an alias, a normalised form or
    a part of the input. *)
Theorem match_primary_returns_primary (name p : str) :
  match_primary name = Some p -> In p (map fst PRIMARY_PEOPLE).
Proof. apply ResolveFacts.match_primary_in. Qed.

Lemma match_primary_returns_primary_witness :
  In (py "Wendi Woods") (map fst PRIMARY_PEOPLE).
Proof.
  apply (match_primary_returns_primary (py "  WENDY wood!")).
  vm_compute. reflexivity.
Defined.

Module CaseFacts.

Lemma isspace_lower (c : ascii) : isspace (lower_char c) = isspace c.
Proof. by_cases_on_char c. Qed.

Lemma lstrip_lower (s : str) : lstrip (lower s) = lower (lstrip s).
Proof.
  induction s as [|c t IH]; [reflexivity|].
  cbn [lower map lstrip]. rewrite isspace_lower.
  destruct (isspace c); [exact IH | reflexivity].
Qed.

Lemma rstrip_lower (s : str) : rstrip (lower s) = lower (rstrip s).
Proof.
  induction s as [|c t IH]; [reflexivity|].
  cbn [lower map rstrip]. fold (lower t). rewrite IH, isspace_lower.
  destruct (rstrip t) as [|d r]; cbn [lower map].
  - destruct (isspace c); reflexivity.
  - reflexivity.
Qed.

Lemma strip_lower (s : str) : strip (lower s) = lower (strip s).
Proof. unfold strip. now rewrite lstrip_lower, rstrip_lower. Qed.

Lemma lower_lower (s : str) : lower (lower s) = lower s.
Proof.
  unfold lower. rewrite map_map. apply map_ext. apply lower_char_idem.
Qed.

Lemma normalize_lower (name : str) :
  normalize_name (lower name) = normalize_name name.
Proof.
  destruct name as [|c t]; [reflexivity|].
  unfold normalize_name. cbn [lower map]. fold (lower (c :: t)).
  change (lower_char c :: map lower_char t) with (lower (c :: t)).
  now rewrite strip_lower, lower_lower.
Qed.

End CaseFacts.

(** X2: resolution and identifiers depend on a name only through its normal
    form, and the normal form does not depend on letter case: lower-casing
    the name, or normalising it beforehand, changes neither the person
    [match_primary] finds nor the identifier [make_id] gives. *)
Theorem resolution_ignores_case (name : str) :
  match_primary (lower name) = match_primary name
  /\ Network.make_id (lower name) = Network.make_id name
  /\ match_primary (normalize_name name) = match_primary name
  /\ Network.make_id (normalize_name name) = Network.make_id name.
Proof.
  unfold match_primary, Network.make_id.
  rewrite CaseFacts.normalize_lower.
  now rewrite (NormalizeFacts.normal_fixed _ (NormalizeFacts.normalize_normal name)).
Qed.

Module IdFacts.

Definition hex_digits : str := py "0123456789abcdef".

Lemma hex_digit_in (n : Z) : In (MD5.hex_digit n) hex_digits.
Proof.
  unfold MD5.hex_digit.
  destruct (nth_in_or_default (Z.to_nat n) (py "0123456789abcdef") "0"%char)
    as [H|H]; [exact H|].
  rewrite H. vm_compute. auto.
Qed.

Lemma hex_byte_in (b : Z) : Forall (fun c => In c hex_digits) (MD5.hex_byte b).
Proof.
  unfold MD5.hex_byte.
  constructor; [apply hex_digit_in|]. constructor; [apply hex_digit_in|].
  constructor.
Qed.

Lemma hexdigest_shape (msg : list Z) :
  length (MD5.hexdigest msg) = 32
  /\ Forall (fun c => In c hex_digits) (MD5.hexdigest msg).
Proof.
  unfold MD5.hexdigest. destruct (MD5.digest_words msg) as [[[a b] c] d].
  split.
  - reflexivity.
  - unfold MD5.word_bytes. cbn [app flat_map].
    repeat (apply Forall_app; split; [apply hex_byte_in|]). constructor.
Qed.

End IdFacts.

(** X3: [make_id] gives, for every name (the empty one included), a string of
    exactly twelve characters, each of them one of [0123456789abcdef]. *)
Theorem make_id_twelve_hex_digits (name : str) :
  length (Network.make_id name) = 12
  /\ Forall (fun c => In c (py "0123456789abcdef")) (Network.make_id name).
Proof.
  unfold Network.make_id, prefix.
  destruct (IdFacts.hexdigest_shape (MD5.encode (normalize_name name)))
    as [Hlen Hall].
  split.
  - rewrite length_firstn, Hlen. reflexivity.
  - rewrite Forall_forall in *. intros c Hc. apply Hall.
    eapply PyFacts.subseq_in; [apply PyFacts.subseq_firstn | exact Hc].
Qed.
Module GraphFacts.

Import Network.

Definition node_keys (g : graph) : list str := map fst (g_nodes g).
Definition edge_keys (g : graph) : list key := map fst (g_edges g).

(** A node is filed under its identifier, which is the hash of its name. *)
Definition filed (kn : str * node) : Prop :=
  id (snd kn) = fst kn /\ fst kn = make_id (name (snd kn)).

Definition is_primary_node (p : str) (n : node) : Prop :=
  name n = p /\ type n = py "primary".

(** The invariant of the two dictionaries of [build_network]. *)
Record graph_ok (g : graph) : Prop := {
  nodes_nodup : NoDup (node_keys g);
  nodes_filed : Forall filed (g_nodes g);
  primaries_in :
    forall p, In p primary_names ->
      exists n, In (make_id p, n) (g_nodes g) /\ is_primary_node p n;
  edges_nodup : NoDup (edge_keys g);
  edges_ordered : Forall (fun k => leb (fst k) (snd k) = true) (edge_keys g);
  edges_closed :
    Forall (fun k => In (fst k) (node_keys g) /\ In (snd k) (node_keys g))
      (edge_keys g)
}.

(** An update that leaves the identity of a node alone. *)
Definition keeps (f : node -> node) : Prop :=
  forall n, id (f n) = id n /\ name (f n) = name n /\ type (f n) = type n.

Lemma keeps_note_contact (owner : str) : keeps (fun n => note_contact n owner).
Proof. intros n. now cbn. Qed.

Lemma keeps_note_call : keeps note_call.
Proof. intros n. now cbn. Qed.

Lemma keeps_note_messages (mc : nat) : keeps (note_messages mc).
Proof. intros n. now cbn. Qed.

Lemma update_node_keys (nid : str) (f : node -> node) (ns : list (str * node)) :
  map fst (update_node nid f ns) = map fst ns.
Proof.
  induction ns as [|[k n] t IH]; cbn [update_node map fst]; [reflexivity|].
  destruct (eqb nid k); cbn [map fst]; [reflexivity | now rewrite IH].
Qed.

Lemma update_node_in (nid : str) (f : node -> node) (ns : list (str * node))
  (k : str) (n : node) :
  In (k, n) (update_node nid f ns) ->
  exists n0, In (k, n0) ns /\ (n = n0 \/ n = f n0).
Proof.
  induction ns as [|[k0 n0] t IH]; cbn [update_node]; [intros []|].
  destruct (eqb nid k0); cbn [In].
  - intros [H|H].
    + injection H as <- <-. exists n0. auto.
    + exists n. auto.
  - intros [H|H].
    + injection H as <- <-. exists n0. auto.
    + destruct (IH H) as (m & Hm & Hor). exists m. auto.
Qed.

Lemma update_node_keeps_in (nid : str) (f : node -> node)
  (ns : list (str * node)) (k : str) (n0 : node) :
  In (k, n0) ns ->
  exists n, In (k, n) (update_node nid f ns) /\ (n = n0 \/ n = f n0).
Proof.
  induction ns as [|[k1 n1] t IH]; cbn [update_node In]; [intros []|].
  destruct (eqb nid k1); cbn [In].
  - intros [H|H].
    + injection H as <- <-. exists (f n1). auto.
    + exists n0. auto.
  - intros [H|H].
    + injection H as <- <-. exists n1. auto.
    + destruct (IH H) as (m & Hm & Hor). exists m. auto.
Qed.

Lemma has_node_in (nid : str) (g : graph) :
  has_node nid g = true <-> In nid (node_keys g).
Proof.
  unfold has_node, node_keys. rewrite existsb_exists. split.
  - intros (kn & Hin & He). apply eqb_eq in He. subst.
    now apply in_map.
  - intros H. apply in_map_iff in H. destruct H as (kn & <- & Hin).
    exists kn. split; [exact Hin | apply eqb_refl].
Qed.

Lemma has_node_not_in (nid : str) (g : graph) :
  has_node nid g = false -> ~ In nid (node_keys g).
Proof. intros H Hin. apply has_node_in in Hin. congruence. Qed.

Lemma key_eqb_eq (a b : key) : key_eqb a b = true <-> a = b.
Proof.
  destruct a as [a1 a2], b as [b1 b2]. unfold key_eqb. cbn [fst snd].
  rewrite andb_true_iff, !eqb_eq. split.
  - intros [-> ->]. reflexivity.
  - intros H. injection H as -> ->. auto.
Qed.

Lemma update_edge_keys (k : key) (f : edge_data -> edge_data)
  (es : list (key * edge_data)) :
  map fst (update_edge k f es)
  = if existsb (key_eqb k) (map fst es) then map fst es else map fst es ++ [k].
Proof.
  induction es as [|[k' e] t IH]; cbn [update_edge map fst existsb app];
    [reflexivity|].
  destruct (key_eqb k k'); cbn [map fst orb]; [reflexivity|].
  rewrite IH. destruct (existsb _ _); reflexivity.
Qed.

Lemma update_edge_keys_cases (k : key) (f : edge_data -> edge_data)
  (es : list (key * edge_data)) :
  (In k (map fst es) /\ map fst (update_edge k f es) = map fst es)
  \/ (~ In k (map fst es) /\ map fst (update_edge k f es) = map fst es ++ [k]).
Proof.
  rewrite update_edge_keys. destruct (existsb _ _) eqn:E.
  - left. split; [|reflexivity]. apply existsb_exists in E.
    destruct E as (k' & Hin & He). apply key_eqb_eq in He. now subst.
  - right. split; [|reflexivity]. intros Hin.
    assert (existsb (key_eqb k) (map fst es) = true); [|congruence].
    apply existsb_exists. exists k. split; [exact Hin | now apply key_eqb_eq].
Qed.

Lemma edge_key_ordered (a b : str) :
  leb (fst (edge_key a b)) (snd (edge_key a b)) = true.
Proof.
  unfold edge_key. destruct (leb a b) eqn:E; cbn [fst snd]; [exact E|].
  destruct (PyFacts.leb_total a b); congruence.
Qed.

Lemma edge_key_ends (a b : str) :
  (fst (edge_key a b) = a /\ snd (edge_key a b) = b)
  \/ (fst (edge_key a b) = b /\ snd (edge_key a b) = a).
Proof. unfold edge_key. destruct (leb a b); cbn [fst snd]; auto. Qed.

(** The three ways in which the steps change the graph. *)
Lemma with_node_ok (f : node -> node) (nid : str) (g : graph) :
  keeps f -> graph_ok g -> graph_ok (with_node f nid g).
Proof.
  intros Hf [H1 H2 H3 H4 H5 H6].
  assert (Hk : node_keys (with_node f nid g) = node_keys g)
    by apply update_node_keys.
  constructor; rewrite ?Hk; try assumption.
  - apply Forall_forall. intros [k n] Hin. cbn [with_node g_nodes] in Hin.
    apply update_node_in in Hin. destruct Hin as (n0 & Hin & Hor).
    rewrite Forall_forall in H2. specialize (H2 _ Hin). unfold filed in *.
    cbn [fst snd] in *. destruct (Hf n0) as (Ha & Hb & _).
    destruct Hor as [->| ->]; [exact H2|]. now rewrite Ha, Hb.
  - intros p Hp. destruct (H3 p Hp) as (n0 & Hin & Hn & Ht).
    destruct (update_node_keeps_in nid f _ _ _ Hin) as (n & Hin' & Hor).
    exists n. split; [exact Hin'|]. destruct (Hf n0) as (_ & Hb & Hc).
    unfold is_primary_node. destruct Hor as [->| ->]; [auto|]. now rewrite Hb, Hc.
Qed.

Lemma put_node_ok (nid : str) (n : node) (g : graph) :
  ~ In nid (node_keys g) -> id n = nid -> nid = make_id (name n) ->
  graph_ok g -> graph_ok (put_node nid n g).
Proof.
  intros Hfresh Hid Hname [H1 H2 H3 H4 H5 H6].
  assert (Hn : g_nodes (put_node nid n g) = g_nodes g ++ [(nid, n)])
    by (apply DictFacts.dict_set_fresh; exact Hfresh).
  assert (Hk : node_keys (put_node nid n g) = node_keys g ++ [nid]).
  { unfold node_keys. rewrite Hn, map_app. reflexivity. }
  constructor; rewrite ?Hk; rewrite ?Hn; try assumption.
  - apply NoDup_app; [exact H1 | repeat constructor; intros [] |].
    intros x Hx [<-|[]]. contradiction.
  - apply Forall_app. split; [exact H2|]. constructor; [|constructor].
    split; assumption.
  - intros p Hp. destruct (H3 p Hp) as (n0 & Hin & Hn0).
    exists n0. split; [apply in_or_app; auto | exact Hn0].
  - eapply Forall_impl; [|exact H6]. cbv beta. intros k [Ha Hb].
    split; apply in_or_app; auto.
Qed.

Lemma with_edge_ok (f : edge_data -> edge_data) (a b : str) (g : graph) :
  In a (node_keys g) -> In b (node_keys g) ->
  graph_ok g -> graph_ok (with_edge f (edge_key a b) g).
Proof.
  intros Ha Hb [H1 H2 H3 H4 H5 H6].
  assert (Hgood : leb (fst (edge_key a b)) (snd (edge_key a b)) = true
                  /\ In (fst (edge_key a b)) (node_keys g)
                  /\ In (snd (edge_key a b)) (node_keys g)).
  { split; [apply edge_key_ordered|].
    destruct (edge_key_ends a b) as [[-> ->]|[-> ->]]; auto. }
  destruct Hgood as (Hord & Hfst & Hsnd).
  set (k := edge_key a b) in *.
  constructor; try assumption;
    unfold edge_keys; cbn [with_edge g_edges g_nodes];
    destruct (update_edge_keys_cases k f (g_edges g)) as [[Hin ->]|[Hnot ->]];
    try assumption.
  - apply NoDup_app; [exact H4 | repeat constructor; intros [] |].
    intros x Hx [<-|[]]. contradiction.
  - apply Forall_app. split; [exact H5|]. now repeat constructor.
  - apply Forall_app. split; [exact H6|]. now repeat constructor.
Qed.

Lemma primary_key (p : str) (g : graph) :
  graph_ok g -> In p primary_names -> In (make_id p) (node_keys g).
Proof.
  intros Hg Hp. destruct (primaries_in g Hg p Hp) as (n & Hin & _).
  unfold node_keys. change (make_id p) with (fst (make_id p, n)).
  now apply in_map.
Qed.

Lemma matched_key (x p : str) (g : graph) :
  graph_ok g -> match_primary x = Some p -> In (make_id p) (node_keys g).
Proof.
  intros Hg Hm. apply primary_key; [exact Hg|].
  now apply ResolveFacts.match_primary_in in Hm.
Qed.

Lemma with_node_keys (f : node -> node) (nid : str) (g : graph) :
  node_keys (with_node f nid g) = node_keys g.
Proof. apply update_node_keys. Qed.

Lemma with_edge_keys (f : edge_data -> edge_data) (k : key) (g : graph) :
  node_keys (with_edge f k g) = node_keys g.
Proof. reflexivity. Qed.

Lemma fold_ok {A} (step : graph -> A -> graph) (l : list A) (g : graph) :
  (forall g x, graph_ok g -> graph_ok (step g x)) ->
  graph_ok g -> graph_ok (fold_left step l g).
Proof.
  intros Hstep. revert g. induction l as [|x l IH]; cbn [fold_left]; auto.
Qed.

(** Step 1. *)
Definition primaries : graph :=
  fold_left add_primary PRIMARY_PEOPLE {| g_nodes := []; g_edges := [] |}.

Definition primary_filed (p : str) : bool :=
  match Py.lookup (make_id p) (g_nodes primaries) with
  | Some n => eqb (name n) p && eqb (type n) (py "primary")
  | None => false
  end.

Fixpoint distinct (l : list str) : bool :=
  match l with
  | [] => true
  | x :: t => negb (Py.mem x t) && distinct t
  end.

Lemma distinct_nodup (l : list str) : distinct l = true -> NoDup l.
Proof.
  induction l as [|x t IH]; cbn [distinct]; [constructor|].
  rewrite andb_true_iff, negb_true_iff. intros [Hx Ht].
  constructor; [|auto]. intros Hin.
  assert (Py.mem x t = true); [|congruence].
  apply existsb_exists. exists x. split; [exact Hin | apply eqb_refl].
Qed.

Lemma primaries_ok : graph_ok primaries.
Proof.
  constructor.
  - apply distinct_nodup. vm_compute. reflexivity.
  - apply Forall_forall. intros [k n] Hin.
    assert (Hb : forallb (fun kn => eqb (id (snd kn)) (fst kn)
                                    && eqb (fst kn) (make_id (name (snd kn))))
                   (g_nodes primaries) = true) by (vm_compute; reflexivity).
    rewrite forallb_forall in Hb. specialize (Hb _ Hin).
    apply andb_true_iff in Hb. destruct Hb as [Ha Hb].
    apply eqb_eq in Ha, Hb. split; assumption.
  - intros p Hp.
    assert (Hb : forallb primary_filed primary_names = true)
      by (vm_compute; reflexivity).
    rewrite forallb_forall in Hb. specialize (Hb _ Hp).
    unfold primary_filed in Hb.
    destruct (Py.lookup (make_id p) (g_nodes primaries)) as [n|] eqn:E;
      [|discriminate].
    apply andb_true_iff in Hb. destruct Hb as [Ha Hb].
    apply eqb_eq in Ha, Hb. exists n. split; [|split; assumption].
    now apply DictFacts.lookup_some_in.
  - constructor.
  - constructor.
  - constructor.
Qed.

(** Step 2. *)
Lemma contact_step_ok (st : graph * list (str * contact_info))
  (oc : str * contact) :
  graph_ok (fst st) -> graph_ok (fst (contact_step st oc)).
Proof.
  destruct st as [g cb], oc as [owner c]. cbn [fst]. intros Hg.
  unfold contact_step.
  destruct (_ <? 2); [exact Hg|].
  destruct (match_primary (c_name c)) as [primary|] eqn:Ep; [|exact Hg].
  assert (Hg1 : graph_ok (with_node (fun n => note_contact n owner)
                            (make_id primary) g))
    by (apply with_node_ok; [apply keeps_note_contact | exact Hg]).
  destruct (match_primary owner) as [owner_primary|] eqn:Eo; [|exact Hg1].
  destruct (eqb owner_primary primary); [exact Hg1|]. cbn [fst].
  assert (Ha : In (make_id owner_primary) (node_keys g))
    by (eapply matched_key; eassumption).
  assert (Hb : In (make_id primary) (node_keys g))
    by (eapply matched_key; eassumption).
  apply with_edge_ok; rewrite ?with_edge_keys, ?with_node_keys; try assumption.
  apply with_edge_ok; rewrite ?with_node_keys; assumption.
Qed.

Lemma contacts_ok (l : list (str * contact))
  (st : graph * list (str * contact_info)) :
  graph_ok (fst st) -> graph_ok (fst (fold_left contact_step l st)).
Proof.
  revert st. induction l as [|x l IH]; cbn [fold_left]; [auto|].
  intros st Hst. apply IH. now apply contact_step_ok.
Qed.

(** Step 3. *)
Lemma owner_edge_step_ok (nid : str) (ds : list str) (g : graph)
  (device_owner : str) :
  In nid (node_keys g) -> graph_ok g ->
  graph_ok (owner_edge_step nid ds g device_owner)
  /\ node_keys (owner_edge_step nid ds g device_owner) = node_keys g.
Proof.
  intros Hn Hg. unfold owner_edge_step.
  destruct (match_primary device_owner) as [owner_primary|] eqn:Eo;
    [|split; [exact Hg | reflexivity]].
  assert (Ha : In (make_id owner_primary) (node_keys g))
    by (eapply matched_key; eassumption).
  split; [|reflexivity].
  apply with_edge_ok; rewrite ?with_edge_keys; try assumption.
  apply with_edge_ok; assumption.
Qed.

Lemma owner_edges_ok (nid : str) (ds l : list str) (g : graph) :
  In nid (node_keys g) -> graph_ok g ->
  graph_ok (fold_left (owner_edge_step nid ds) l g).
Proof.
  revert g. induction l as [|x l IH]; cbn [fold_left]; [auto|].
  intros g Hn Hg.
  destruct (owner_edge_step_ok nid ds g x Hn Hg) as [Hg' Hk].
  apply IH; [rewrite Hk; exact Hn | exact Hg'].
Qed.

Lemma put_node_key (nid : str) (n : node) (g : graph) :
  ~ In nid (node_keys g) -> node_keys (put_node nid n g) = node_keys g ++ [nid].
Proof.
  intros H. unfold node_keys, put_node. cbn [g_nodes].
  rewrite DictFacts.dict_set_fresh by exact H. rewrite map_app. reflexivity.
Qed.

Lemma promote_step_ok (g : graph) (entry : str * contact_info) :
  graph_ok g -> graph_ok (promote_step g entry).
Proof.
  intros Hg. unfold promote_step.
  destruct (2 <=? _); [|exact Hg].
  set (nm := display_name (snd entry)). set (nid := make_id nm).
  set (ds := ci_devices (snd entry)).
  destruct (has_node nid g) eqn:Eh.
  - apply owner_edges_ok; [now apply has_node_in | exact Hg].
  - apply has_node_not_in in Eh. apply owner_edges_ok.
    + rewrite put_node_key by exact Eh. apply in_or_app. right. now left.
    + apply put_node_ok; [exact Eh | reflexivity | reflexivity | exact Hg].
Qed.

(** Step 4. *)
Lemma call_step_ok (g : graph) (oc : str * call) :
  graph_ok g -> graph_ok (call_step g oc).
Proof.
  intros Hg. unfold call_step.
  destruct (match_primary (fst oc)); [|exact Hg].
  apply with_node_ok; [apply keeps_note_call | exact Hg].
Qed.

(** Step 5. *)
Lemma participant_step_ok (owner owner_primary : str) (th : chat_thread)
  (g : graph) (participant : str) :
  In owner_primary primary_names ->
  graph_ok g -> graph_ok (participant_step owner owner_primary th g participant).
Proof.
  intros Ho Hg. unfold participant_step. cbv zeta.
  destruct (_ || _); [exact Hg|].
  assert (Ha : In (make_id owner_primary) (node_keys g))
    by (now apply primary_key).
  assert (Hsec :
    graph_ok
      (if has_node (make_id participant) g then
         with_edge
           (set_types (fun ts =>
              if existsb is_chat ts
              then update_first is_chat (bump_chat (t_message_count th)) ts
              else ts ++ [chat (platform th) (t_message_count th) None]))
           (edge_key (make_id owner_primary) (make_id participant))
           (with_edge (add_weight (t_message_count th))
              (edge_key (make_id owner_primary) (make_id participant))
              (with_node (note_messages (t_message_count th))
                 (make_id participant) g))
       else if 5 <=? t_message_count th then
         with_edge
           (set_types (fun ts =>
              ts ++ [chat (platform th) (t_message_count th) None]))
           (edge_key (make_id owner_primary) (make_id participant))
           (with_edge (add_weight (t_message_count th))
              (edge_key (make_id owner_primary) (make_id participant))
              (put_node (make_id participant)
                 (chat_contact_node (make_id participant) participant owner
                    (t_message_count th)) g))
       else g)).
  { destruct (has_node (make_id participant) g) eqn:Eh.
    - apply has_node_in in Eh.
      apply with_edge_ok;
        rewrite ?with_edge_keys, ?with_node_keys; try assumption.
      apply with_edge_ok; rewrite ?with_node_keys; try assumption.
      apply with_node_ok; [apply keeps_note_messages | exact Hg].
    - apply has_node_not_in in Eh.
      destruct (5 <=? _); [|exact Hg].
      assert (Hp : graph_ok (put_node (make_id participant)
                               (chat_contact_node (make_id participant)
                                  participant owner (t_message_count th)) g))
        by (apply put_node_ok; [exact Eh | reflexivity | reflexivity | exact Hg]).
      assert (Hk := put_node_key (make_id participant)
                      (chat_contact_node (make_id participant) participant
                         owner (t_message_count th)) g Eh).
      apply with_edge_ok; rewrite ?with_edge_keys, ?Hk;
        try (apply in_or_app; auto; right; now left).
      apply with_edge_ok; rewrite ?Hk;
        try (apply in_or_app; auto; right; now left).
      exact Hp. }
  destruct (match_primary participant) as [primary|] eqn:Ep; [|exact Hsec].
  destruct (eqb primary owner_primary); [exact Hsec|].
  assert (Hb : In (make_id primary) (node_keys g))
    by (eapply matched_key; eassumption).
  apply with_edge_ok; rewrite ?with_edge_keys, ?with_node_keys; try assumption.
  apply with_edge_ok; rewrite ?with_node_keys; try assumption.
  apply with_node_ok; [apply keeps_note_messages | exact Hg].
Qed.

Lemma thread_step_ok (g : graph) (ot : str * chat_thread) :
  graph_ok g -> graph_ok (Network.thread_step g ot).
Proof.
  intros Hg. destruct ot as [owner th]. unfold Network.thread_step.
  destruct (match_primary owner) as [owner_primary|] eqn:Eo; [|exact Hg].
  apply fold_ok; [|exact Hg]. intros g' x Hg'.
  apply participant_step_ok; [|exact Hg'].
  now apply ResolveFacts.match_primary_in in Eo.
Qed.

(** Step 6. *)
Lemma pair_step_ok (device_owners : list str) (g : graph) (p : str * str) :
  graph_ok g -> graph_ok (pair_step device_owners g p).
Proof.
  intros Hg. unfold pair_step.
  destruct (match_primary (fst p)) as [owner_a|] eqn:Ea; [|exact Hg].
  destruct (match_primary (snd p)) as [owner_b|] eqn:Eb; [|exact Hg].
  destruct (eqb owner_a owner_b); [exact Hg|].
  apply with_edge_ok; [eapply matched_key | eapply matched_key | ]; eassumption.
Qed.

Lemma cross_step_ok (g : graph) (entry : str * contact_info) :
  graph_ok g -> graph_ok (Network.cross_step g entry).
Proof.
  intros Hg. unfold Network.cross_step.
  destruct (2 <=? _); [|exact Hg].
  apply fold_ok; [|exact Hg]. intros g' x. apply pair_step_ok.
Qed.

Lemma build_graph_ok (files : str -> export) : graph_ok (build_graph files).
Proof.
  unfold build_graph.
  pose proof (contacts_ok (gather files contacts) (primaries, []) primaries_ok)
    as H2.
  fold primaries.
  destruct (fold_left contact_step (gather files contacts) (primaries, []))
    as [g2 cb]. cbn [fst] in H2.
  apply fold_ok; [apply cross_step_ok|].
  apply fold_ok; [apply thread_step_ok|].
  apply fold_ok; [apply call_step_ok|].
  apply fold_ok; [apply promote_step_ok|].
  exact H2.
Qed.

(** The finished nodes and edges. *)
Lemma finish_node_id (pf : list (str * list case_file)) (n : node) :
  id (finish_node pf n) = id n /\ name (finish_node pf n) = name n
  /\ type (finish_node pf n) = type n.
Proof. now cbn. Qed.

Lemma finished_ids (files : str -> export) (pf : list (str * list case_file)) :
  map id (nodes (build_network files pf)) = node_keys (build_graph files).
Proof.
  unfold build_network. cbn [nodes]. unfold node_keys.
  pose proof (nodes_filed _ (build_graph_ok files)) as H.
  induction (g_nodes (build_graph files)) as [|[k n] t IH]; cbn [map];
    [reflexivity|].
  inversion H as [|? ? Hx Ht]; subst. f_equal; [|now apply IH].
  destruct Hx as [Hx _]. exact Hx.
Qed.

Lemma finished_nodup (files : str -> export) (pf : list (str * list case_file)) :
  NoDup (map id (nodes (build_network files pf))).
Proof. rewrite finished_ids. apply nodes_nodup, build_graph_ok. Qed.

Lemma find_node_in (pid : str) (net : network) (n : node) :
  NoDup (map id (nodes net)) -> In n (nodes net) -> id n = pid ->
  find_node pid net = Some n.
Proof.
  unfold find_node. induction (nodes net) as [|m t IH]; cbn [find map In];
    [intros _ []|].
  intros Hnd Hin Hid. inversion Hnd as [|? ? Hm Ht]; subst.
  destruct (eqb (id m) (id n)) eqn:E.
  - destruct Hin as [->|Hin]; [reflexivity|].
    apply eqb_eq in E. exfalso. apply Hm. rewrite E. now apply in_map.
  - destruct Hin as [->|Hin]; [rewrite eqb_refl in E; discriminate|].
    now apply IH.
Qed.

Lemma find_node_some (pid : str) (net : network) :
  In pid (map id (nodes net)) -> exists n, find_node pid net = Some n.
Proof.
  unfold find_node. induction (nodes net) as [|m t IH]; cbn [find map In];
    [intros []|].
  destruct (eqb (id m) pid) eqn:E; [eauto|].
  intros [H|H]; [|auto]. subst. rewrite eqb_refl in E. discriminate.
Qed.

Lemma find_node_id (pid : str) (net : network) (n : node) :
  find_node pid net = Some n -> In n (nodes net) /\ id n = pid.
Proof.
  unfold find_node. intros H. apply find_some in H. destruct H as [Hin He].
  apply eqb_eq in He. auto.
Qed.

End GraphFacts.

(** X4: in the graph [build_network] returns, no two nodes share an
    identifier, and the identifier of every node is [make_id] of its name,
    whatever the export files and the mention index hold. *)
Theorem network_node_ids (files : str -> Network.export)
  (person_files : list (str * list Network.case_file)) :
  let net := Network.build_network files person_files in
  NoDup (map Network.id (Network.nodes net))
  /\ Forall (fun n => Network.id n = Network.make_id (Network.name n))
       (Network.nodes net).
Proof.
  cbv zeta. split.
  - apply GraphFacts.finished_nodup.
  - unfold Network.build_network. cbn [Network.nodes].
    pose proof (GraphFacts.nodes_filed _ (GraphFacts.build_graph_ok files)) as H.
    apply Forall_forall. intros n Hin. apply in_map_iff in Hin.
    destruct Hin as ([k m] & <- & Hin). rewrite Forall_forall in H.
    destruct (H _ Hin) as [Ha Hb]. cbn [fst snd] in *.
    cbn [Network.finish_node Network.id Network.name]. congruence.
Qed.

(** X5: every person of [PRIMARY_PEOPLE] has a node of type [primary] in
    the graph, under the identifier of the name, whatever the data: the
    lookup of [get_person_details] finds it. *)
Theorem network_has_primaries (files : str -> Network.export)
  (person_files : list (str * list Network.case_file)) (p : str) :
  In p (map fst PRIMARY_PEOPLE) ->
  exists d,
    Network.get_person_details (Network.make_id p)
      (Network.build_network files person_files) = Some d
    /\ Network.name (Network.d_person d) = p
    /\ Network.type (Network.d_person d) = py "primary".
Proof.
  intros Hp.
  destruct (GraphFacts.primaries_in _ (GraphFacts.build_graph_ok files) p Hp)
    as (n & Hin & Hname & Htype).
  pose proof (GraphFacts.nodes_filed _ (GraphFacts.build_graph_ok files)) as Hf.
  rewrite Forall_forall in Hf. destruct (Hf _ Hin) as [Hid _].
  cbn [fst snd] in Hid.
  set (net := Network.build_network files person_files).
  assert (Hfind : Network.find_node (Network.make_id p) net
                  = Some (Network.finish_node person_files n)).
  { apply GraphFacts.find_node_in.
    - apply GraphFacts.finished_nodup.
    - unfold net, Network.build_network. cbn [Network.nodes].
      apply in_map_iff. exists (Network.make_id p, n). auto.
    - exact Hid. }
  unfold Network.get_person_details. rewrite Hfind.
  eexists. split; [reflexivity|]. cbn [Network.d_person].
  split; [exact Hname | exact Htype].
Qed.
Lemma network_has_primaries_witness :
  exists d,
    Network.get_person_details (Network.make_id (py "Joy Quinn"))
      (Network.build_network (fun _ => Samples.empty_export) []) = Some d
    /\ Network.name (Network.d_person d) = py "Joy Quinn"
    /\ Network.type (Network.d_person d) = py "primary".
Proof.
  apply (network_has_primaries (fun _ => Samples.empty_export) []
           (py "Joy Quinn")).
  cbn. tauto.
Defined.

Module EdgeFacts.

Import Network.

Definition by_weight (a b : edge) : bool := e_weight b <=? e_weight a.

Lemma by_weight_total (a b : edge) : by_weight a b = true \/ by_weight b a = true.
Proof. unfold by_weight. rewrite !Nat.leb_le. lia. Qed.

Lemma by_weight_trans (a b c : edge) :
  by_weight a b = true -> by_weight b c = true -> by_weight a c = true.
Proof. unfold by_weight. rewrite !Nat.leb_le. lia. Qed.

(** The edges of the answer come from the entries of the dictionary. *)
Lemma edge_in (files : str -> export) (pf : list (str * list case_file))
  (e : edge) :
  In e (edges (build_network files pf)) ->
  exists ke, In ke (g_edges (build_graph files)) /\ e = to_edge ke
             /\ 0 < weight (snd ke).
Proof.
  unfold build_network. cbn [edges]. intros H.
  apply PyFacts.sort_by_in in H. apply in_map_iff in H.
  destruct H as (ke & <- & Hin). apply filter_In in Hin.
  destruct Hin as [Hin Hw]. apply Nat.ltb_lt in Hw. eauto.
Qed.

Lemma edges_sorted (files : str -> export) (pf : list (str * list case_file)) :
  StronglySorted (fun a b => by_weight a b = true)
    (edges (build_network files pf)).
Proof.
  unfold build_network. cbn [edges].
  apply (PyFacts.sort_by_sorted by_weight by_weight_total by_weight_trans).
Qed.

Definition ends (e : edge) : key := (source e, target e).

Lemma ends_to_edge (l : list (key * edge_data)) :
  map ends (map to_edge l) = map fst l.
Proof.
  induction l as [|[[a b] d] l IH]; cbn [map]; [reflexivity|].
  now rewrite IH.
Qed.

(** Dropping entries keeps the keys apart. *)
Lemma kept_keys_nodup {E K} (key : E -> K) (keep : E -> bool) (es : list E)
  (Hkeys : NoDup (map key es)) : NoDup (map key (filter keep es)).
Proof.
  eapply ListFacts.subseq_nodup; [|exact Hkeys].
  apply PyFacts.subseq_map, PyFacts.subseq_filter.
Qed.

Lemma edges_ends_nodup (files : str -> export)
  (pf : list (str * list case_file)) :
  NoDup (map ends (edges (build_network files pf))).
Proof.
  unfold build_network. cbn [edges].
  eapply Permutation_NoDup.
  - apply Permutation_map. symmetry. apply SortFacts.sort_perm.
  - rewrite ends_to_edge. apply kept_keys_nodup.
    apply (GraphFacts.edges_nodup _ (GraphFacts.build_graph_ok files)).
Qed.

Lemma edge_closed (files : str -> export) (pf : list (str * list case_file))
  (e : edge) :
  In e (edges (build_network files pf)) ->
  In (source e) (map id (nodes (build_network files pf)))
  /\ In (target e) (map id (nodes (build_network files pf))).
Proof.
  intros H. apply edge_in in H. destruct H as (ke & Hin & -> & _).
  rewrite GraphFacts.finished_ids.
  pose proof (GraphFacts.edges_closed _ (GraphFacts.build_graph_ok files)) as Hc.
  rewrite Forall_forall in Hc. apply (Hc (fst ke)).
  unfold GraphFacts.edge_keys. now apply in_map.
Qed.

End EdgeFacts.

(** X6: the edge list of [build_network] is in order of descending weight,
    every edge in it has a positive weight, its source is not above its
    target in the order of strings, and no two edges join the same pair of
    identifiers. *)
Theorem network_edges_ranked (files : str -> Network.export)
  (person_files : list (str * list Network.case_file)) :
  let es := Network.edges (Network.build_network files person_files) in
  StronglySorted (fun a b => Network.e_weight b <= Network.e_weight a) es
  /\ Forall (fun e => 0 < Network.e_weight e
                      /\ leb (Network.source e) (Network.target e) = true) es
  /\ NoDup (map (fun e => (Network.source e, Network.target e)) es).
Proof.
  cbv zeta. split; [|split].
  - eapply SortFacts.sorted_weaken; [|apply EdgeFacts.edges_sorted].
    intros a b H. now apply Nat.leb_le in H.
  - apply Forall_forall. intros e He. apply EdgeFacts.edge_in in He.
    destruct He as (ke & Hin & -> & Hw). split; [exact Hw|].
    pose proof (GraphFacts.edges_ordered _ (GraphFacts.build_graph_ok files))
      as Ho.
    rewrite Forall_forall in Ho. apply (Ho (fst ke)).
    unfold GraphFacts.edge_keys. now apply in_map.
  - apply EdgeFacts.edges_ends_nodup.
Qed.

(** X7: the graph has no dangling edge: the source and the target of every
    edge [build_network] returns are identifiers of nodes it returns. *)
Theorem network_edges_join_nodes (files : str -> Network.export)
  (person_files : list (str * list Network.case_file)) :
  let net := Network.build_network files person_files in
  Forall (fun e => In (Network.source e) (map Network.id (Network.nodes net))
                   /\ In (Network.target e) (map Network.id (Network.nodes net)))
    (Network.edges net).
Proof.
  cbv zeta. apply Forall_forall. intros e He. now apply EdgeFacts.edge_closed.
Qed.

Module DetailFacts.

Import Network.

(** An edge that touches the person. *)
Definition incident (pid : str) (e : edge) : bool :=
  eqb (source e) pid || eqb (target e) pid.

Definition other_end (pid : str) (e : edge) : str :=
  if eqb (source e) pid then target e else source e.

Definition by_edge_weight (a b : connection) : bool :=
  e_weight (conn_edge b) <=? e_weight (conn_edge a).

Lemma connection_of_inv (pid : str) (net : network) (e : edge) (c : connection) :
  In c (connection_of pid net e) ->
  conn_edge c = e /\ incident pid e = true
  /\ find_node (other_end pid e) net = Some (person c).
Proof.
  unfold connection_of, incident, other_end.
  destruct (_ || _); [|intros []].
  destruct (find_node _ net) as [other|]; [|intros []].
  intros [<-|[]]. cbn. auto.
Qed.

Lemma connections_edges (pid : str) (net : network) (es : list edge) :
  (forall e, In e es -> incident pid e = true ->
             exists n, find_node (other_end pid e) net = Some n) ->
  map conn_edge (flat_map (connection_of pid net) es) = filter (incident pid) es.
Proof.
  induction es as [|e es IH]; cbn [flat_map filter]; [reflexivity|].
  intros H. rewrite map_app, IH by (intros e' He'; apply H; now right).
  unfold connection_of at 1. fold (incident pid e). fold (other_end pid e).
  destruct (incident pid e) eqn:E; [|reflexivity].
  destruct (H e (or_introl eq_refl) E) as (n & ->). reflexivity.
Qed.

Lemma details_cover (net : network) (pid : str) (d : details) :
  StronglySorted (fun a b => EdgeFacts.by_weight a b = true) (edges net) ->
  (forall e, In e (edges net) ->
             In (source e) (map id (nodes net))
             /\ In (target e) (map id (nodes net))) ->
  get_person_details pid net = Some d ->
  map conn_edge (connections d) = filter (incident pid) (edges net).
Proof.
  intros Hsorted Hclosed. unfold get_person_details.
  destruct (find_node pid net) as [n|] eqn:En; [|discriminate].
  intros H. injection H as <-. cbn [connections].
  assert (Hmap : map conn_edge (flat_map (connection_of pid net) (edges net))
                 = filter (incident pid) (edges net)).
  { apply connections_edges. intros e He Hi. apply GraphFacts.find_node_some.
    destruct (Hclosed e He) as [Hs Ht].
    unfold other_end. now destruct (eqb (source e) pid). }
  change (fun a b : connection =>
            e_weight (conn_edge b) <=? e_weight (conn_edge a))
    with (fun a b : connection =>
            EdgeFacts.by_weight (conn_edge a) (conn_edge b)).
  rewrite SortFacts.sort_fixed; [exact Hmap|].
  apply (SortFacts.sorted_of_map (fun a b => EdgeFacts.by_weight a b = true)
           conn_edge).
  rewrite Hmap.
  eapply PyFacts.subseq_sorted; [apply PyFacts.subseq_filter | exact Hsorted].
Qed.

End DetailFacts.

(** X8: what [get_person_details] returns for a person of any node and edge
    lists: the node with the identifier asked for; connections in order of
    descending edge weight, counted by [total_connections]; and each
    connection pairs an edge of the list that touches the person with the
    node found for the other end of that edge. *)
Theorem person_details_connections (person_id : str) (net : Network.network)
  (d : Network.details) :
  Network.get_person_details person_id net = Some d ->
  Network.id (Network.d_person d) = person_id
  /\ Network.total_connections d = length (Network.connections d)
  /\ StronglySorted
       (fun a b => Network.e_weight (Network.conn_edge b)
                   <= Network.e_weight (Network.conn_edge a))
       (Network.connections d)
  /\ Forall
       (fun c =>
          In (Network.conn_edge c) (Network.edges net)
          /\ DetailFacts.incident person_id (Network.conn_edge c) = true
          /\ Network.find_node
               (DetailFacts.other_end person_id (Network.conn_edge c)) net
             = Some (Network.person c))
       (Network.connections d).
Proof.
  unfold Network.get_person_details.
  destruct (Network.find_node person_id net) as [n|] eqn:En; [|discriminate].
  intros H. injection H as <-.
  cbn [Network.d_person Network.total_connections Network.connections].
  split; [now apply GraphFacts.find_node_id in En|].
  split; [reflexivity|]. split.
  - eapply SortFacts.sorted_weaken;
      [|apply (PyFacts.sort_by_sorted DetailFacts.by_edge_weight)].
    + intros a b H. now apply Nat.leb_le in H.
    + intros a b. unfold DetailFacts.by_edge_weight. rewrite !Nat.leb_le. lia.
    + intros a b c. unfold DetailFacts.by_edge_weight. rewrite !Nat.leb_le. lia.
  - apply Forall_forall. intros c Hc. apply PyFacts.sort_by_in in Hc.
    apply in_flat_map in Hc. destruct Hc as (e & He & Hc).
    apply DetailFacts.connection_of_inv in Hc. destruct Hc as (<- & Hi & Hf) .
    auto.
Qed.

Lemma person_details_connections_witness :
  exists d,
    Network.get_person_details (Network.make_id (py "Joy Quinn"))
      (Network.build_network Samples.shared_contacts_files []) = Some d
    /\ Network.total_connections d = length (Network.connections d).
Proof.
  destruct (Network.get_person_details (Network.make_id (py "Joy Quinn"))
              (Network.build_network Samples.shared_contacts_files []))
    as [d|] eqn:E.
  - exists d. split; [reflexivity|].
    apply (person_details_connections _ _ d E).
  - vm_compute in E. discriminate E.
Defined.

(** X9: in the graph of [build_network], the connections
    [get_person_details] lists for a person are exactly the edges that touch
    the person, one connection for each and in the order of the edge list:
    no edge is dropped for want of the other node. *)
Theorem person_details_cover_edges (files : str -> Network.export)
  (person_files : list (str * list Network.case_file)) (person_id : str)
  (d : Network.details) :
  let net := Network.build_network files person_files in
  Network.get_person_details person_id net = Some d ->
  map Network.conn_edge (Network.connections d)
  = filter (DetailFacts.incident person_id) (Network.edges net).
Proof.
  cbv zeta. apply DetailFacts.details_cover.
  - apply EdgeFacts.edges_sorted.
  - apply EdgeFacts.edge_closed.
Qed.

Lemma person_details_cover_edges_witness :
  exists d,
    Network.get_person_details (Network.make_id (py "Joy Quinn"))
      (Network.build_network Samples.shared_contacts_files []) = Some d
    /\ map Network.conn_edge (Network.connections d)
       = filter (DetailFacts.incident (Network.make_id (py "Joy Quinn")))
           (Network.edges (Network.build_network Samples.shared_contacts_files [])).
Proof.
  destruct (Network.get_person_details (Network.make_id (py "Joy Quinn"))
              (Network.build_network Samples.shared_contacts_files []))
    as [d|] eqn:E.
  - exists d. split; [reflexivity|].
    apply (person_details_cover_edges Samples.shared_contacts_files []
             (Network.make_id (py "Joy Quinn")) d E).
  - vm_compute in E. discriminate E.
Defined.
(** ** The discovery engine: what every scan result has *)

Module NumberFacts.

(** The decimal numeral of a number has digits only, and tells the number. *)
Lemma uint_digits (d : Decimal.uint) :
  forallb isdigit (py (NilEmpty.string_of_uint d)) = true.
Proof. induction d; cbn; auto. Qed.

Lemma of_nat_digits (n : nat) : forallb isdigit (of_nat n) = true.
Proof. apply uint_digits. Qed.

Lemma py_inj (a b : string) : py a = py b -> a = b.
Proof.
  unfold py. intros H.
  rewrite <- (string_of_list_ascii_of_string a),
          <- (string_of_list_ascii_of_string b).
  now rewrite H.
Qed.

Lemma of_nat_inj (n m : nat) : of_nat n = of_nat m -> n = m.
Proof.
  unfold of_nat. intros H. apply py_inj in H.
  assert (Hu : Nat.to_uint n = Nat.to_uint m).
  { pose proof (NilEmpty.usu (Nat.to_uint n)) as H1.
    pose proof (NilEmpty.usu (Nat.to_uint m)) as H2.
    rewrite H in H1. congruence. }
  rewrite <- (DecimalNat.Unsigned.of_to n), <- (DecimalNat.Unsigned.of_to m).
  now rewrite Hu.
Qed.

Definition no_dash (s : str) : bool := forallb (not_char "-") s.

Lemma digit_no_dash (s : str) : forallb isdigit s = true -> no_dash s = true.
Proof.
  unfold no_dash. intros H. rewrite forallb_forall in *. intros c Hc.
  specialize (H c Hc). revert H. clear. by_cases_on_char c.
Qed.

(** The part of a string after its last dash. *)
Lemma after_last_dash (p q s t : str) :
  no_dash s = true -> no_dash t = true ->
  p ++ py "-" ++ s = q ++ py "-" ++ t -> s = t.
Proof.
  intros Hs Ht H. apply (f_equal (@rev ascii)) in H.
  rewrite !rev_app_distr in H. cbn [py list_ascii_of_string rev app] in H.
  rewrite <- !app_assoc in H. cbn [app] in H.
  assert (Hspan : forall u v, no_dash u = true ->
            span (not_char "-") (rev u ++ "-"%char :: rev v) = (rev u, "-"%char :: rev v)).
  { intros u v Hu. apply span_app; [|reflexivity].
    unfold no_dash in Hu. rewrite forallb_forall in *. intros c Hc.
    apply Hu. now apply in_rev. }
  pose proof (Hspan s p Hs) as H1. pose proof (Hspan t q Ht) as H2.
  rewrite H in H1. rewrite H1 in H2.
  apply (f_equal fst) in H2. cbn [fst] in H2.
  rewrite <- (rev_involutive s), <- (rev_involutive t). now rewrite H2.
Qed.

Lemma numbered_apart (p q : str) (n m : nat) :
  p ++ py "-" ++ of_nat n = q ++ py "-" ++ of_nat m -> n = m.
Proof.
  intros H. apply of_nat_inj.
  apply (after_last_dash p q); [| | exact H];
    apply digit_no_dash, of_nat_digits.
Qed.

End NumberFacts.

Module EngineFacts.

Import Store Discovery.

(** What the scan appends under the counter value [n]: an unverified
    discovery whose identifier ends in the numeral of [n], of one to three
    flames. *)
Definition numbered (n : nat) (d : discovery) : Prop :=
  verified d = false
  /\ (exists stem, id d = stem ++ py "-" ++ of_nat n)
  /\ 1 <= flames d <= 3.

(** The state of the scan: the curated discoveries, then the discoveries
    numbered from 101 on, and the counter at the last number used. *)
Definition scanned (a : acc) : Prop :=
  exists new,
    fst a = VERIFIED_DISCOVERIES ++ new
    /\ snd a = 100 + length new
    /\ Forall2 numbered (seq 101 (length new)) new.

Lemma emit_scanned (mk : nat -> discovery) (a : acc) :
  (forall n, numbered n (mk n)) -> scanned a -> scanned (emit mk a).
Proof.
  intros Hmk (new & Hf & Hs & Hn). exists (new ++ [mk (S (snd a))]).
  unfold emit. cbn [fst snd]. rewrite Hf, Hs, <- app_assoc, length_app.
  cbn [length]. split; [reflexivity|]. split; [lia|].
  rewrite seq_app. apply Forall2_app; [exact Hn|].
  cbn [seq]. constructor; [|constructor].
  replace (101 + length new) with (S (100 + length new)) by lia. apply Hmk.
Qed.

Lemma fold_scanned {X} (f : acc -> X -> acc) (l : list X) (a : acc) :
  (forall a x, In x l -> scanned a -> scanned (f a x)) ->
  scanned a -> scanned (fold_left f l a).
Proof.
  revert a. induction l as [|x l IH]; intros a H Ha; cbn [fold_left];
    [exact Ha|].
  apply IH.
  - intros a' y Hy. apply H. now right.
  - apply H; [now left | exact Ha].
Qed.

Lemma found_numbered (dev own kind ttl c : str) (fl : nat) (cont : str)
  (ts : option str) (tgs : list str) (dt : str) (app : option str) (n : nat) :
  1 <= fl <= 3 ->
  numbered n (found dev own (ident kind dev n) ttl c fl cont ts tgs dt app).
Proof.
  intros Hfl. unfold numbered, found. cbn [verified id flames].
  split; [reflexivity|]. split; [|exact Hfl].
  exists (kind ++ py "-" ++ dev). unfold ident. now rewrite <- !app_assoc.
Qed.

(** *** Tiers *)

Definition tier_ok (tf : str * nat) : Prop := 1 <= snd tf <= 3.

Lemma key_terms_tiers : Forall tier_ok KEY_TERMS.
Proof.
  apply Forall_forall. intros tf H.
  assert (Hb : forallb (fun tf => (1 <=? snd tf) && (snd tf <=? 3)) KEY_TERMS
               = true) by (vm_compute; reflexivity).
  rewrite forallb_forall in Hb. specialize (Hb tf H).
  apply andb_true_iff in Hb. destruct Hb as [H1 H2].
  apply Nat.leb_le in H1, H2. split; assumption.
Qed.

Lemma critical_dates_tiers :
  Forall (fun date => 1 <= snd (snd date) <= 3) CRITICAL_DATES.
Proof.
  apply Forall_forall. intros date H.
  assert (Hb : forallb (fun date => (1 <=? snd (snd date))
                                    && (snd (snd date) <=? 3)) CRITICAL_DATES
               = true) by (vm_compute; reflexivity).
  rewrite forallb_forall in Hb. specialize (Hb date H).
  apply andb_true_iff in Hb. destruct Hb as [H1 H2].
  apply Nat.leb_le in H1, H2. split; assumption.
Qed.

Lemma max_from_bounds (l : list (str * nat)) (m : nat) :
  Forall tier_ok l -> m <= 3 ->
  m <= fold_left (fun m tf => Nat.max m (snd tf)) l m <= 3
  /\ (l <> [] -> 1 <= fold_left (fun m tf => Nat.max m (snd tf)) l m).
Proof.
  intros Hl. revert m. induction Hl as [|tf l Htf Hl IH]; intros m Hm;
    cbn [fold_left].
  - split; [lia | congruence].
  - destruct Htf as [H1 H3].
    destruct (IH (Nat.max m (snd tf))) as [[Ha Hb] _]; [lia|].
    split; [lia|]. intros _. lia.
Qed.

Lemma max_flames_bounds (l : list (str * nat)) :
  Forall tier_ok l -> l <> [] -> 1 <= max_flames l <= 3.
Proof.
  intros Hl Hne. unfold max_flames.
  destruct (max_from_bounds l 0 Hl) as [[_ Hb] Hc]; [lia|].
  split; [now apply Hc | exact Hb].
Qed.

Lemma filter_tiers (f : str * nat -> bool) : Forall tier_ok (filter f KEY_TERMS).
Proof.
  apply Forall_forall. intros tf H. apply filter_In in H.
  pose proof key_terms_tiers as Hk. rewrite Forall_forall in Hk.
  apply Hk, H.
Qed.

Lemma key_matches_tiers (text : str) : Forall tier_ok (key_matches text).
Proof. apply filter_tiers. Qed.

Lemma chat_matches_tiers (body : str) : Forall tier_ok (chat_matches body).
Proof. apply filter_tiers. Qed.

(** *** The steps of the scan of one device *)

Section Device.

Variable dev own : str.

Lemma chat_keyword_scanned (msg : row) (a : acc) :
  scanned a -> scanned (chat_keyword dev own msg a).
Proof.
  intros Ha. unfold chat_keyword. cbv zeta.
  pose proof (chat_matches_tiers (get (py "body") [] msg)) as Ht.
  destruct (chat_matches (get (py "body") [] msg)) as [|tf l] eqn:E;
    [exact Ha|].
  destruct (2 <=? max_flames (tf :: l)); [|exact Ha].
  apply emit_scanned; [|exact Ha]. intros n. unfold chat_discovery.
  apply found_numbered. apply max_flames_bounds; [exact Ht | discriminate].
Qed.

Lemma chat_dates_scanned (msg : row) (a : acc) :
  scanned a -> scanned (chat_dates dev own msg a).
Proof.
  intros Ha. unfold chat_dates. apply fold_scanned; [|exact Ha].
  intros a' date Hd Ha'. destruct (on_date _ date); [|exact Ha'].
  apply emit_scanned; [|exact Ha']. intros n. unfold date_discovery.
  apply found_numbered.
  pose proof critical_dates_tiers as Hc. rewrite Forall_forall in Hc.
  now apply Hc.
Qed.

Lemma chat_step_scanned (a : acc) (msg : row) :
  scanned a -> scanned (chat_step dev own a msg).
Proof.
  intros Ha. unfold chat_step. cbv zeta. destruct (_ <? 5); [exact Ha|].
  now apply chat_dates_scanned, chat_keyword_scanned.
Qed.

Lemma email_step_scanned (a : acc) (email : row) :
  scanned a -> scanned (email_step dev own a email).
Proof.
  intros Ha. unfold email_step. cbv zeta.
  pose proof (key_matches_tiers (email_text email)) as Ht.
  destruct (key_matches (email_text email)) as [|tf l] eqn:E; [exact Ha|].
  destruct (2 <=? max_flames (tf :: l)); [|exact Ha].
  apply emit_scanned; [|exact Ha]. intros n. unfold email_discovery.
  apply found_numbered. apply max_flames_bounds; [exact Ht | discriminate].
Qed.

Lemma browsing_step_scanned (a : acc) (b : row) :
  scanned a -> scanned (browsing_step dev own a b).
Proof.
  intros Ha. unfold browsing_step. cbv zeta.
  pose proof (key_matches_tiers (browsing_text b)) as Ht.
  destruct (key_matches (browsing_text b)) as [|tf l] eqn:E; [exact Ha|].
  destruct (2 <=? max_flames (tf :: l)); [|exact Ha].
  apply emit_scanned; [|exact Ha]. intros n. unfold browsing_discovery.
  cbv zeta. apply found_numbered.
  apply max_flames_bounds; [exact Ht | discriminate].
Qed.

Lemma search_flames_bounds (query : str) :
  search_matched query <> [] -> 1 <= search_flames query <= 3.
Proof.
  unfold search_matched, search_flames. intros Hne.
  pose proof (key_matches_tiers (lower query)) as Ht.
  destruct (suspicious_in (lower query)) as [|s l].
  - rewrite app_nil_r in Hne. apply max_flames_bounds; [exact Ht|].
    intros E. rewrite E in Hne. now apply Hne.
  - unfold max_flames.
    destruct (max_from_bounds (key_matches (lower query)) 0 Ht) as [[_ Hb] _];
      lia.
Qed.

Lemma search_step_scanned (a : acc) (s : row) :
  scanned a -> scanned (search_step dev own a s).
Proof.
  intros Ha. unfold search_step.
  pose proof (search_flames_bounds (get (py "query") [] s)) as Hb.
  destruct (search_matched (get (py "query") [] s)) as [|t l]; [exact Ha|].
  apply emit_scanned; [|exact Ha]. intros n. unfold search_discovery.
  cbv zeta. apply found_numbered. apply Hb. discriminate.
Qed.

Lemma passwords_step_scanned (a : acc) (passwords : list row) :
  scanned a -> scanned (passwords_step dev own a passwords).
Proof.
  intros Ha. unfold passwords_step. destruct passwords as [|p l]; [exact Ha|].
  apply emit_scanned; [|exact Ha]. intros n. unfold passwords_discovery.
  apply found_numbered. lia.
Qed.

Lemma find_date (ts : str) (date : str * (str * nat)) :
  find (on_date ts) CRITICAL_DATES = Some date -> 1 <= snd (snd date) <= 3.
Proof.
  intros H. apply find_some in H. destruct H as [H _].
  pose proof critical_dates_tiers as Hc. rewrite Forall_forall in Hc.
  now apply Hc.
Qed.

Lemma location_step_scanned (a : acc) (loc : row) :
  scanned a -> scanned (location_step dev own a loc).
Proof.
  intros Ha. unfold location_step.
  destruct (find _ CRITICAL_DATES) as [date|] eqn:E; [|exact Ha].
  apply emit_scanned; [|exact Ha]. intros n. unfold location_discovery.
  cbv zeta. apply found_numbered. eapply find_date, E.
Qed.

Lemma call_step_scanned (a : acc) (call : row) :
  scanned a -> scanned (call_step dev own a call).
Proof.
  intros Ha. unfold call_step.
  destruct (find _ CRITICAL_DATES) as [date|] eqn:E; [|exact Ha].
  apply emit_scanned; [|exact Ha]. intros n. unfold call_discovery.
  cbv zeta. apply found_numbered. eapply find_date, E.
Qed.

Lemma scan_device_scanned (categories : list (str * list row)) (a : acc) :
  scanned a -> scanned (scan_device dev own categories a).
Proof.
  intros Ha. unfold scan_device. cbv zeta.
  apply fold_scanned; [intros; now apply browsing_step_scanned|].
  apply fold_scanned; [intros; now apply call_step_scanned|].
  apply fold_scanned; [intros; now apply location_step_scanned|].
  apply passwords_step_scanned.
  apply fold_scanned; [intros; now apply search_step_scanned|].
  apply fold_scanned; [intros; now apply email_step_scanned|].
  apply fold_scanned; [intros; now apply chat_step_scanned|].
  exact Ha.
Qed.

End Device.

Lemma cross_step_scanned (a : acc) (entry : str * list str) :
  scanned a -> scanned (cross_step a entry).
Proof.
  intros Ha. unfold cross_step. cbv zeta.
  destruct (1 <? _); [|exact Ha]. destruct (_ || _); [|exact Ha].
  apply emit_scanned; [|exact Ha]. intros n.
  unfold numbered, cross_discovery. cbn [verified id flames].
  split; [reflexivity|]. split.
  - exists (py "cross"). reflexivity.
  - destruct (existsb _ KEY_PEOPLE); lia.
Qed.

Lemma generate_scanned
  (cellebrite_data : list (str * list (str * list row)))
  (device_map : list (str * row)) :
  exists new,
    generate cellebrite_data device_map = VERIFIED_DISCOVERIES ++ new
    /\ Forall2 numbered (seq 101 (length new)) new.
Proof.
  assert (H : scanned
            (fold_left cross_step (collect_contacts cellebrite_data)
               (fold_left (device_step device_map) cellebrite_data
                  (VERIFIED_DISCOVERIES, 100)))).
  { apply fold_scanned; [intros; now apply cross_step_scanned|].
    apply fold_scanned.
    - intros a entry _ Ha. unfold device_step. now apply scan_device_scanned.
    - exists []. cbn [fst snd length seq]. rewrite app_nil_r.
      split; [reflexivity|]. split; [reflexivity | constructor]. }
  destruct H as (new & Hf & _ & Hn). exists new. split; assumption.
Qed.

(** *** The deduplication *)

Lemma dedup_subseq (seen : list str) (l : list discovery) :
  PyFacts.subseq (dedup_from seen l) l.
Proof.
  revert seen. induction l as [|d l IH]; intros seen; cbn [dedup_from].
  - apply PyFacts.subseq_nil.
  - destruct (verified d); [apply PyFacts.subseq_take, IH|].
    destruct (dedup_key d) as [k|]; [|apply PyFacts.subseq_take, IH].
    destruct (Py.mem k seen);
      [apply PyFacts.subseq_skip | apply PyFacts.subseq_take]; apply IH.
Qed.

Lemma dedup_curated (seen : list str) (v l : list discovery) :
  Forall (fun d => verified d = true) v ->
  dedup_from seen (v ++ l) = v ++ dedup_from seen l.
Proof.
  induction 1 as [|d v Hd Hv IH]; cbn [app dedup_from]; [reflexivity|].
  now rewrite Hd, IH.
Qed.

Lemma curated_verified : Forall (fun d => verified d = true) VERIFIED_DISCOVERIES.
Proof. unfold VERIFIED_DISCOVERIES. repeat constructor. Qed.

Lemma scan_shape
  (cellebrite_data : list (str * list (str * list row)))
  (device_map : list (str * row)) :
  exists new kept,
    generate cellebrite_data device_map = VERIFIED_DISCOVERIES ++ new
    /\ Forall2 numbered (seq 101 (length new)) new
    /\ PyFacts.subseq kept new
    /\ scan_discoveries cellebrite_data device_map
       = VERIFIED_DISCOVERIES ++ kept.
Proof.
  destruct (generate_scanned cellebrite_data device_map) as (new & Hg & Hn).
  exists new, (dedup_from [] new). split; [exact Hg|]. split; [exact Hn|].
  split; [apply dedup_subseq|].
  unfold scan_discoveries, _deduplicate. rewrite Hg.
  apply dedup_curated, curated_verified.
Qed.

Lemma numbered_in (lo : nat) (l : list discovery) (d : discovery) :
  Forall2 numbered (seq lo (length l)) l -> In d l ->
  exists n, lo <= n /\ numbered n d.
Proof.
  revert lo. induction l as [|x l IH]; intros lo H; cbn [In]; [intros []|].
  cbn [length seq] in H. inversion H as [|? ? ? ? Hx Hl]; subst.
  intros [<-|Hin]; [eauto|].
  destruct (IH (S lo) Hl Hin) as (n & Hn & Hd). exists n. split; [lia | exact Hd].
Qed.

Lemma numbered_nodup (lo : nat) (l : list discovery) :
  Forall2 numbered (seq lo (length l)) l -> NoDup (map id l).
Proof.
  revert lo. induction l as [|x l IH]; intros lo H; cbn [map]; [constructor|].
  cbn [length seq] in H. inversion H as [|? ? ? ? Hx Hl]; subst.
  constructor; [|now apply (IH (S lo))].
  intros Hin. apply in_map_iff in Hin. destruct Hin as (y & Hy & Hin).
  destruct (numbered_in (S lo) l y Hl Hin) as (n & Hn & _ & (q & Hq) & _).
  destruct Hx as (_ & (p & Hp) & _).
  rewrite Hp, Hq in Hy. apply NumberFacts.numbered_apart in Hy. lia.
Qed.

Lemma curated_ids :
  map id VERIFIED_DISCOVERIES
  = map (fun k => py "verified" ++ py "-" ++ of_nat k) (seq 1 6).
Proof. vm_compute. reflexivity. Qed.

End EngineFacts.

(** X10: whatever the records, the result of [scan_discoveries] begins
    with the six curated discoveries in their order, and nothing after
    them is marked verified. *)
Theorem scan_leads_with_curated
  (cellebrite_data : list (str * list (str * list Store.row)))
  (device_map : list (str * Store.row)) :
  exists rest,
    Discovery.scan_discoveries cellebrite_data device_map
    = Discovery.VERIFIED_DISCOVERIES ++ rest
    /\ Forall (fun d => Discovery.verified d = false) rest.
Proof.
  destruct (EngineFacts.scan_shape cellebrite_data device_map)
    as (new & kept & _ & Hn & Hsub & Hscan).
  exists kept. split; [exact Hscan|].
  apply Forall_forall. intros d Hd.
  pose proof (PyFacts.subseq_in _ _ d Hsub Hd) as Hin.
  destruct (EngineFacts.numbered_in 101 new d Hn Hin) as (n & _ & Hv & _).
  exact Hv.
Qed.

(** X11: the identifiers of the discoveries [scan_discoveries] returns are
    pairwise distinct. *)
Theorem scan_ids_distinct
  (cellebrite_data : list (str * list (str * list Store.row)))
  (device_map : list (str * Store.row)) :
  NoDup (map Discovery.id
           (Discovery.scan_discoveries cellebrite_data device_map)).
Proof.
  destruct (EngineFacts.scan_shape cellebrite_data device_map)
    as (new & kept & _ & Hn & Hsub & ->).
  eapply ListFacts.subseq_nodup.
  - apply PyFacts.subseq_map.
    assert (H : PyFacts.subseq (Discovery.VERIFIED_DISCOVERIES ++ kept)
                  (Discovery.VERIFIED_DISCOVERIES ++ new)).
    { induction Discovery.VERIFIED_DISCOVERIES as [|v l IH];
        [exact Hsub | now apply PyFacts.subseq_take]. }
    exact H.
  - rewrite map_app. apply NoDup_app.
    + rewrite EngineFacts.curated_ids. apply ListFacts.map_nodup.
      * intros a b H. now apply NumberFacts.numbered_apart in H.
      * apply seq_NoDup.
    + now apply (EngineFacts.numbered_nodup 101).
    + intros i Hv Hi. rewrite EngineFacts.curated_ids in Hv.
      apply in_map_iff in Hv. destruct Hv as (k & <- & Hk).
      apply in_seq in Hk. apply in_map_iff in Hi.
      destruct Hi as (d & Hd & Hin).
      destruct (EngineFacts.numbered_in 101 new d Hn Hin)
        as (n & Hle & _ & (p & Hp) & _).
      rewrite Hp in Hd. apply NumberFacts.numbered_apart in Hd. lia.
Qed.

(** X12: every discovery [scan_discoveries] returns has one, two or three
    flames. *)
Theorem scan_flames_in_range
  (cellebrite_data : list (str * list (str * list Store.row)))
  (device_map : list (str * Store.row)) :
  Forall (fun d => 1 <= Discovery.flames d <= 3)
    (Discovery.scan_discoveries cellebrite_data device_map).
Proof.
  destruct (EngineFacts.scan_shape cellebrite_data device_map)
    as (new & kept & _ & Hn & Hsub & ->).
  apply Forall_app. split.
  - apply Forall_forall. intros d Hd.
    assert (Hb : forallb (fun d => (1 <=? Discovery.flames d)
                                   && (Discovery.flames d <=? 3))
                   Discovery.VERIFIED_DISCOVERIES = true)
      by (vm_compute; reflexivity).
    rewrite forallb_forall in Hb. specialize (Hb d Hd).
    apply andb_true_iff in Hb. destruct Hb as [H1 H2].
    apply Nat.leb_le in H1, H2. split; assumption.
  - apply Forall_forall. intros d Hd.
    pose proof (PyFacts.subseq_in _ _ d Hsub Hd) as Hin.
    destruct (EngineFacts.numbered_in 101 new d Hn Hin) as (n & _ & _ & _ & Hf).
    exact Hf.
Qed.
(** ** The scan of the in-memory store: ranking *)

Module StoreScanFacts.

Import Store StoreScan.

(** The order of the result: more flames first, and among discoveries of
    equal flames the earlier timestamp first. *)
Definition ranked (a b : discovery) : Prop :=
  flames b < flames a
  \/ (flames a = flames b /\ leb (timestamp a) (timestamp b) = true).

Lemma ranked_spec (a b : discovery) :
  by_flames_then_time a b = true <-> ranked a b.
Proof.
  unfold by_flames_then_time, ranked.
  rewrite orb_true_iff, andb_true_iff, Nat.ltb_lt, Nat.eqb_eq. reflexivity.
Qed.

Lemma ranked_total (a b : discovery) :
  by_flames_then_time a b = true \/ by_flames_then_time b a = true.
Proof.
  rewrite !ranked_spec. unfold ranked.
  destruct (Nat.lt_trichotomy (flames a) (flames b)) as [H|[H|H]]; auto.
  destruct (PyFacts.leb_total (timestamp a) (timestamp b)); auto.
Qed.

Lemma ranked_trans (a b c : discovery) :
  by_flames_then_time a b = true -> by_flames_then_time b c = true ->
  by_flames_then_time a c = true.
Proof.
  rewrite !ranked_spec. unfold ranked.
  intros [H1|[H1 L1]] [H2|[H2 L2]]; try (left; lia).
  right. split; [congruence|]. eapply PyFacts.leb_trans; eassumption.
Qed.

Lemma ranked_by_flames (a b : discovery) :
  by_flames_then_time a b = true -> by_flames a b = true.
Proof.
  rewrite ranked_spec. unfold ranked, by_flames. rewrite Nat.leb_le. lia.
Qed.

(** The second sort finds the list in order and leaves it as it is. *)
Lemma second_sort_fixed (l : list discovery) :
  Py.sort_by by_flames (Py.sort_by by_flames_then_time l)
  = Py.sort_by by_flames_then_time l.
Proof.
  apply SortFacts.sort_fixed.
  eapply SortFacts.sorted_weaken; [apply ranked_by_flames|].
  apply (PyFacts.sort_by_sorted by_flames_then_time ranked_total ranked_trans).
Qed.

Lemma emit_keeps (Q : discovery -> Prop) (mk : nat -> discovery) (a : acc) :
  (forall n, Q (mk n)) -> Forall Q (fst a) -> Forall Q (fst (emit mk a)).
Proof.
  intros H Ha. unfold emit. cbn [fst]. apply Forall_app. split; [exact Ha|].
  constructor; [apply H | constructor].
Qed.

Lemma fold_keeps (Q : discovery -> Prop) {X} (f : acc -> X -> acc)
  (l : list X) (a : acc) :
  (forall a x, Forall Q (fst a) -> Forall Q (fst (f a x))) ->
  Forall Q (fst a) -> Forall Q (fst (fold_left f l a)).
Proof.
  intros H. revert a. induction l as [|x l IH]; intros a Ha; cbn [fold_left];
    [exact Ha|].
  apply IH, H, Ha.
Qed.

Definition tiered (d : discovery) : Prop := 1 <= flames d <= 3.

Lemma flames_for_range (text : str) : 1 <= flames_for text <= 3.
Proof.
  unfold flames_for. cbv zeta.
  destruct (existsb _ keywords_3); [lia|].
  destruct (existsb _ keywords_2); lia.
Qed.

Lemma scan_device_tiered (device_id : str) (cats : list (str * list row))
  (a : acc) :
  Forall tiered (fst a) -> Forall tiered (fst (scan_device device_id cats a)).
Proof.
  intros Ha. unfold scan_device. cbv zeta.
  apply fold_keeps.
  { intros a' e Ha'. unfold email_step. cbv zeta.
    destruct (mentions_keyword _); [|exact Ha'].
    apply emit_keeps; [|exact Ha']. intros n. apply flames_for_range. }
  apply fold_keeps.
  { intros a' p Ha'. unfold password_step. cbv zeta.
    apply emit_keeps; [|exact Ha']. intros n. unfold tiered. cbn [flames]. lia. }
  apply fold_keeps.
  { intros a' s Ha'. unfold search_step. cbv zeta.
    destruct (mentions_keyword _); [|exact Ha'].
    apply emit_keeps; [|exact Ha']. intros n. apply flames_for_range. }
  apply fold_keeps; [|exact Ha].
  intros a' msg Ha'. unfold chat_step. cbv zeta.
  destruct (mentions_keyword _); [|exact Ha'].
  apply emit_keeps; [|exact Ha']. intros n. apply flames_for_range.
Qed.

Lemma scan_tiered (self : DataStore) : Forall tiered (scan_discoveries self).
Proof.
  unfold scan_discoveries. cbv zeta. apply Forall_forall. intros d Hd.
  apply PyFacts.sort_by_in in Hd. apply PyFacts.sort_by_in in Hd.
  revert d Hd. apply Forall_forall.
  apply fold_keeps; [|constructor].
  intros a entry Ha. now apply scan_device_tiered.
Qed.

Lemma scan_sorted (self : DataStore) :
  StronglySorted ranked (scan_discoveries self).
Proof.
  unfold scan_discoveries. cbv zeta. rewrite second_sort_fixed.
  eapply SortFacts.sorted_weaken; [intros a b; apply ranked_spec|].
  apply (PyFacts.sort_by_sorted by_flames_then_time ranked_total ranked_trans).
Qed.

End StoreScanFacts.

(** X13: the discoveries [DataStore.scan_discoveries] returns are in
    order of descending flames and, among discoveries of equal flames, of
    ascending timestamp (the second sort of the method does not disturb the
    first); each has one, two or three flames. *)
Theorem store_scan_ranked (self : Store.DataStore) :
  StronglySorted
    (fun a b =>
       StoreScan.flames b < StoreScan.flames a
       \/ (StoreScan.flames a = StoreScan.flames b
           /\ leb (StoreScan.timestamp a) (StoreScan.timestamp b) = true))
    (StoreScan.scan_discoveries self)
  /\ Forall (fun d => 1 <= StoreScan.flames d <= 3)
       (StoreScan.scan_discoveries self).
Proof.
  split; [apply StoreScanFacts.scan_sorted | apply StoreScanFacts.scan_tiered].
Qed.
(** ** Loading and the thread queries *)

Module ThreadIdFacts.

(** The threads collected so far carry ascending identifiers below the one
    of the thread under construction, and each of them has messages. *)
Definition numbered (st : thread_state) : Prop :=
  StronglySorted (fun a b => thread_id a < thread_id b) (threads st)
  /\ Forall (fun t => messages t <> []) (threads st)
  /\ match current_thread st with
     | Some c => thread_id c = next_id st
                 /\ Forall (fun t => thread_id t < next_id st) (threads st)
     | None => threads st = []
     end.

Lemma sorted_snoc (l : list thread) (c : thread) :
  StronglySorted (fun a b => thread_id a < thread_id b) l ->
  Forall (fun t => thread_id t < thread_id c) l ->
  StronglySorted (fun a b => thread_id a < thread_id b) (l ++ [c]).
Proof.
  induction 1 as [|x l Hs IH Hall]; intros Hc; cbn [app].
  - repeat constructor.
  - inversion Hc as [|? ? Hx Hl]; subst. constructor; [now apply IH|].
    apply Forall_app. split; [exact Hall | now repeat constructor].
Qed.

Lemma flush_numbered (st : thread_state) :
  numbered st ->
  StronglySorted (fun a b => thread_id a < thread_id b) (flush st)
  /\ Forall (fun t => messages t <> []) (flush st)
  /\ Forall (fun t => thread_id t <= next_id st) (flush st).
Proof.
  intros (Hs & Hm & Hc). unfold flush.
  destruct (current_thread st) as [c|].
  - destruct Hc as [Hid Hlt].
    assert (Hle : Forall (fun t => thread_id t <= next_id st) (threads st))
      by (eapply Forall_impl; [|exact Hlt]; cbv beta; intros; lia).
    destruct (messages c) as [|m ms] eqn:E; [auto|].
    split; [|split].
    + apply sorted_snoc; [exact Hs|]. now rewrite Hid.
    + apply Forall_app. split; [exact Hm|]. constructor; [|constructor].
      rewrite E. discriminate.
    + apply Forall_app. split; [exact Hle|]. constructor; [lia | constructor].
  - rewrite Hc. repeat constructor.
Qed.

Lemma thread_step_numbered (st : thread_state) (line : str) :
  numbered st -> numbered (thread_step st line).
Proof.
  intros Hst. unfold thread_step.
  destruct (match_header line) as [g|].
  { destruct (flush_numbered st Hst) as (Hs & Hm & Hle).
    split; [exact Hs|]. split; [exact Hm|]. cbn [current_thread thread_id next_id threads].
    split; [reflexivity|]. eapply Forall_impl; [|exact Hle]. cbv beta. intros; lia. }
  destruct Hst as (Hs & Hm & Hc).
  destruct (current_thread st) as [c|] eqn:Ec.
  - destruct (match_started line) as [g|].
    + split; [exact Hs|]. split; [exact Hm|].
      cbn [current_thread thread_id next_id threads]. exact Hc.
    + destruct (parse_chat_line line) as [m|].
      * split; [exact Hs|]. split; [exact Hm|].
        cbn [current_thread next_id threads add_message thread_id]. exact Hc.
      * split; [exact Hs|]. split; [exact Hm|]. now rewrite Ec.
  - destruct (parse_chat_line line) as [m|].
    + split; [exact Hs|]. split; [exact Hm|].
      cbn [current_thread next_id threads add_message thread_id].
      split; [reflexivity|]. rewrite Hc. constructor.
    + split; [exact Hs|]. split; [exact Hm|]. now rewrite Ec.
Qed.

Lemma collect_numbered (lines : list str) :
  StronglySorted (fun a b => thread_id a < thread_id b) (collect_threads lines)
  /\ Forall (fun t => messages t <> []) (collect_threads lines).
Proof.
  unfold collect_threads.
  assert (H : forall l st, numbered st -> numbered (fold_left thread_step l st)).
  { induction l as [|x l IH]; cbn [fold_left]; [auto|].
    intros st Hst. apply IH. now apply thread_step_numbered. }
  destruct (flush_numbered _ (H lines {| threads := []; current_thread := None;
                                         next_id := 0 |}
                                (conj (SSorted_nil _) (conj (Forall_nil _) eq_refl))))
    as (Hs & Hm & _).
  split; assumption.
Qed.

(** The lookup of a thread by its identifier in the dictionary of the
    messages. *)
Lemma find_thread (ts : list thread) (t : thread) :
  StronglySorted (fun a b => thread_id a < thread_id b) ts -> In t ts ->
  find (fun e => (Z.of_nat (fst e) =? Z.of_nat (thread_id t))%Z)
    (map (fun t => (thread_id t, messages t)) ts)
  = Some (thread_id t, messages t).
Proof.
  induction 1 as [|x l Hs IH Hall]; cbn [In map find fst]; [intros []|].
  intros [->|Hin].
  - now rewrite Z.eqb_refl.
  - rewrite Forall_forall in Hall. specialize (Hall t Hin).
    destruct (Z.eqb_spec (Z.of_nat (thread_id x)) (Z.of_nat (thread_id t)));
      [lia | now apply IH].
Qed.

Lemma summary_dates (t : thread) :
  messages t <> [] ->
  message_count (summarize t) = length (messages t)
  /\ hd [] (map timestamp (messages t)) = first_date (summarize t)
  /\ last (map timestamp (messages t)) [] = last_date (summarize t).
Proof.
  intros Hne. unfold summarize. cbn [message_count first_date last_date].
  split; [reflexivity|]. destruct (messages t) as [|m ms] eqn:E; [congruence|].
  split; [reflexivity|].
  destruct (@exists_last _ (m :: ms)) as (front & z & Hz); [discriminate|].
  rewrite Hz, rev_app_distr, map_app. cbn [rev app map]. now rewrite last_last.
Qed.

End ThreadIdFacts.

Module LoadFacts.

Import Loader.

(** The two thread dictionaries of a store go together: what they hold for
    a device comes from one run of [parse_chat_threads]. *)
Definition paired (self : DataStore) : Prop :=
  forall device_id summaries,
    Py.lookup device_id (chat_threads self) = Some summaries ->
    exists lines,
      summaries = fst (parse_chat_threads lines)
      /\ Py.lookup device_id (chat_thread_msgs self)
         = Some (snd (parse_chat_threads lines)).

Lemma load_category_paired (files : str -> option (list str))
  (person_id : str) (self : DataStore) (cat : str) :
  paired self -> paired (load_category files person_id self cat).
Proof.
  intros Hp. unfold load_category.
  destruct (files (file_name person_id cat)) as [lines|]; [|exact Hp].
  cbv zeta. destruct (eqb cat (py "chats")); [|exact Hp].
  destruct (parse_chat_threads lines) as [summaries msgs] eqn:E.
  intros d s. cbn [chat_threads chat_thread_msgs].
  rewrite !DictFacts.lookup_set. destruct (eqb d person_id).
  - intros H. injection H as <-. exists lines. now rewrite E.
  - apply Hp.
Qed.

Lemma fold_paired {X} (f : DataStore -> X -> DataStore) (l : list X)
  (self : DataStore) :
  (forall s x, paired s -> paired (f s x)) ->
  paired self -> paired (fold_left f l self).
Proof.
  intros Hf. revert self. induction l as [|x l IH]; cbn [fold_left]; auto.
Qed.

Lemma load_device_paired (files : str -> option (list str))
  (self : DataStore) (person_id : str) :
  paired self -> paired (load_device files self person_id).
Proof.
  intros Hp. unfold load_device. cbv zeta.
  apply fold_paired; [|exact Hp].
  intros s c. apply load_category_paired.
Qed.

Lemma load_unfold (files : str -> option (list str)) (self : DataStore) :
  _load_cellebrite files self
  = fold_left (load_device files) (map fst StoreScan.DEVICE_MAP) self.
Proof. unfold _load_cellebrite. reflexivity. Qed.

Lemma load_paired (files : str -> option (list str)) (self : DataStore) :
  paired self -> paired (_load_cellebrite files self).
Proof.
  rewrite load_unfold. apply fold_paired.
  intros s d. apply load_device_paired.
Qed.

Lemma init_paired : paired init.
Proof. intros d s H. discriminate H. Qed.

(** What the queries give for a store whose dictionaries go together. *)
Lemma listed_thread (repr_list : list str -> str) (self : DataStore)
  (device_id : str) (page per_page : Z) (search date_from date_to : option str)
  (s : thread_summary) :
  paired self ->
  In s (tp_threads (get_chat_threads repr_list self device_id page per_page
                      search date_from date_to)) ->
  let r := get_thread_messages self device_id (Z.of_nat (s_thread_id s)) in
  tm_total r = message_count s /\ 0 < message_count s
  /\ hd [] (map timestamp (tm_messages r)) = first_date s
  /\ last (map timestamp (tm_messages r)) [] = last_date s.
Proof.
  intros Hp Hin. unfold get_chat_threads in Hin. cbv zeta in Hin.
  cbn [tp_threads] in Hin.
  apply (PyFacts.subseq_in _ _ _ (PyFacts.subseq_slice _ _ _)) in Hin.
  apply DictFacts.filter_if_in in Hin. apply DictFacts.filter_if_in in Hin.
  apply DictFacts.filter_if_in in Hin.
  destruct (Py.lookup device_id (chat_threads self)) as [summaries|] eqn:E;
    [|destruct Hin].
  destruct (Hp _ _ E) as (lines & -> & Hm).
  unfold get_thread_messages. cbv zeta. rewrite Hm.
  unfold parse_chat_threads in *. cbv zeta in *. cbn [fst snd] in *.
  apply in_map_iff in Hin. destruct Hin as (t & <- & Ht).
  destruct (ThreadIdFacts.collect_numbered lines) as [Hs Hne].
  rewrite Forall_forall in Hne. specialize (Hne t Ht).
  change (s_thread_id (summarize t)) with (thread_id t).
  rewrite (ThreadIdFacts.find_thread _ _ Hs Ht). cbn [snd tm_total tm_messages].
  destruct (ThreadIdFacts.summary_dates t Hne) as (Hc & Hf & Hl).
  split; [now rewrite Hc|]. split; [|split; assumption].
  rewrite Hc. destruct (messages t); [congruence | cbn; lia].
Qed.

End LoadFacts.

(** X14: after [_load_cellebrite], every thread that [get_chat_threads]
    lists for a device, under any filter and on any page, has its messages
    in [get_thread_messages]: as many as its [message_count], at least one,
    the first with the timestamp [first_date] and the last with
    [last_date]. *)
Theorem listed_threads_have_messages (files : str -> option (list str))
  (repr_list : list str -> str) (device_id : str) (page per_page : Z)
  (search date_from date_to : option str) :
  let self := Loader._load_cellebrite files Loader.init in
  Forall
    (fun s =>
       let r := Loader.get_thread_messages self device_id
                  (Z.of_nat (s_thread_id s)) in
       Loader.tm_total r = message_count s /\ 0 < message_count s
       /\ hd [] (map timestamp (Loader.tm_messages r)) = first_date s
       /\ last (map timestamp (Loader.tm_messages r)) [] = last_date s)
    (Loader.tp_threads
       (Loader.get_chat_threads repr_list self device_id page per_page
          search date_from date_to)).
Proof.
  cbv zeta. apply Forall_forall. intros s Hs.
  apply (LoadFacts.listed_thread repr_list _ device_id page per_page search
           date_from date_to s); [|exact Hs].
  apply LoadFacts.load_paired, LoadFacts.init_paired.
Qed.
(** ** The search over all devices *)

Module SearchFacts.

Import Store Loader.

Section Repr.

Variable repr : row -> str.

Lemma search_records_bound (mk : row -> hit) (ql : str) (records : list row)
  (results : list hit) :
  length (search_records repr mk ql results records)
  <= Nat.max 500 (S (length results)).
Proof.
  revert results. induction records as [|r rest IH]; intros results;
    cbn [search_records]; [lia|].
  destruct (contains ql (lower (repr r))); [|apply IH].
  cbv zeta. destruct (500 <=? length (results ++ [mk r])) eqn:E.
  - rewrite length_app. cbn [length]. lia.
  - apply Nat.leb_gt in E. specialize (IH (results ++ [mk r])).
    rewrite length_app in *. cbn [length] in *. lia.
Qed.

(** After [k] category lists the results number at most [499 + k], or what
    there was before plus [k]. *)
Definition within (n k : nat) (results : list hit) : Prop :=
  length results <= Nat.max (n + k) (499 + k).

Lemma search_category_bound (ql device_id : str) (category_filter : option str)
  (n k : nat) (results : list hit) (entry : str * list row) :
  within n k results ->
  within n (S k) (search_category repr ql device_id category_filter results entry).
Proof.
  unfold within, search_category. intros H. destruct entry as [cat records].
  cbv zeta. destruct (match given category_filter with
                      | Some c => negb (eqb cat c)
                      | None => false
                      end); [lia|].
  match goal with
  | |- length (search_records _ ?mk _ _ _) <= _ =>
      pose proof (search_records_bound mk ql records results)
  end. lia.
Qed.

Lemma search_categories_bound (ql device_id : str)
  (category_filter : option str) (cats : list (str * list row))
  (n k : nat) (results : list hit) :
  within n k results ->
  within n (k + length cats)
    (fold_left (search_category repr ql device_id category_filter) cats results).
Proof.
  revert k results. induction cats as [|e cats IH]; intros k results H;
    cbn [fold_left length].
  - now rewrite Nat.add_0_r.
  - replace (k + S (length cats)) with (S k + length cats) by lia.
    apply IH. now apply search_category_bound.
Qed.

(** The number of category lists of a store. *)
Definition lists (data : list (str * list (str * list row))) : nat :=
  list_sum (map (fun e => length (snd e)) data).

Lemma search_devices_bound (ql : str) (device_filter category_filter : option str)
  (data : list (str * list (str * list row))) (n k : nat) (results : list hit) :
  within n k results ->
  within n (k + lists data)
    (fold_left (search_device repr ql device_filter category_filter) data results).
Proof.
  revert k results. induction data as [|[device_id cats] data IH];
    intros k results H; cbn [fold_left].
  - unfold lists. cbn. now rewrite Nat.add_0_r.
  - replace (k + lists ((device_id, cats) :: data))
      with ((k + length cats) + lists data)
      by (unfold lists; simpl; lia).
    apply IH. unfold search_device.
    destruct (match given device_filter with
              | Some d => negb (eqb device_id d)
              | None => false
              end).
    + unfold within in *. lia.
    + now apply search_categories_bound.
Qed.

End Repr.

(** A device with two categories of 500 records each. *)
Definition two_full_lists : DataStore :=
  {| cellebrite_data :=
       [ (py "joy-quinn",
           [ (py "notes", repeat [(py "content", py "x")] 500);
             (py "passwords", repeat [(py "content", py "y")] 500) ]) ];
     chat_threads := []; chat_thread_msgs := []; axiom_index := [];
     devices := []; stats := None; _discoveries := None |}.

End SearchFacts.

(** X15: [search_all] collects at most 499 results plus one for every
    category list of the store: the limit of 500 ends the scan of one
    category list only, the next list adds a result again.  A store with two
    lists of 500 matching records gives 501. *)
Theorem search_all_limit (repr : Store.row -> str) (self : Loader.DataStore)
  (query : str) (device_filter category_filter : option str)
  (page per_page : Z) :
  Loader.hp_total
    (Loader.search_all repr self query device_filter category_filter page
       per_page)
  <= 499 + SearchFacts.lists (Loader.cellebrite_data self)
  /\ Loader.hp_total
       (Loader.search_all (fun _ => []) SearchFacts.two_full_lists [] None None
          1 50) = 501.
Proof.
  split.
  - unfold Loader.search_all. cbv zeta. cbn [Loader.hp_total].
    pose proof (SearchFacts.search_devices_bound repr (lower query)
                  device_filter category_filter (Loader.cellebrite_data self)
                  0 0 []) as H.
    unfold SearchFacts.within in H. cbn [length] in H.
    specialize (H ltac:(lia)). lia.
  - vm_compute. reflexivity.
Qed.

(** ** The stored discoveries *)

Module StoredFacts.

Import Store Loader.

Lemma selection_subseq {A} (o : option str) (f : str -> A -> bool)
  (l : list A) :
  PyFacts.subseq
    (match given o with
     | Some c => if eqb c (py "all") then l else filter (f c) l
     | None => l
     end) l.
Proof.
  destruct (given o) as [c|]; [|apply PyFacts.subseq_refl].
  destruct (eqb c (py "all"));
    [apply PyFacts.subseq_refl | apply PyFacts.subseq_filter].
Qed.

Lemma get_subseq (self : DataStore) (category person : option str)
  (min_flames : option nat) (found : list StoreScan.discovery) :
  _discoveries self = Some found ->
  PyFacts.subseq (get_discoveries self category person min_flames) found.
Proof.
  intros E. unfold get_discoveries. rewrite E. cbv zeta.
  eapply PyFacts.subseq_trans;
    [|apply (selection_subseq category
               (fun c d => eqb (StoreScan.category d) c))].
  eapply PyFacts.subseq_trans;
    [|apply (selection_subseq person (fun p d => eqb (StoreScan.person d) p))].
  destruct min_flames as [[|n]|];
    [apply PyFacts.subseq_refl | apply PyFacts.subseq_filter
    | apply PyFacts.subseq_refl].
Qed.

Lemma get_at_least (self : DataStore) (category person : option str)
  (n : nat) (d : StoreScan.discovery) :
  In d (get_discoveries self category person (Some n)) ->
  n <= StoreScan.flames d.
Proof.
  unfold get_discoveries. cbv zeta. destruct n as [|n]; [lia|].
  intros H. apply filter_In in H. destruct H as [_ H].
  now apply Nat.leb_le in H.
Qed.

End StoredFacts.

(** X16: [get_discoveries] gives nothing before the first scan; after
    [scan_discoveries] it gives a selection of the scan result in the order
    of the result, so still by descending flames and then ascending
    timestamp, all of it when no filter is given, and with [min_flames]
    only discoveries of at least that many flames. *)
Theorem stored_discoveries_keep_rank (self : Loader.DataStore)
  (category person : option str) (min_flames : option nat) :
  let found := fst (Loader.scan_discoveries self) in
  let scanned := snd (Loader.scan_discoveries self) in
  let out := Loader.get_discoveries scanned category person min_flames in
  Loader.get_discoveries Loader.init category person min_flames = []
  /\ Loader.get_discoveries scanned None None None = found
  /\ PyFacts.subseq out found
  /\ StronglySorted StoreScanFacts.ranked out
  /\ match min_flames with
     | Some n => Forall (fun d => n <= StoreScan.flames d) out
     | None => True
     end.
Proof.
  cbv zeta. split; [|split; [|split; [|split]]].
  - unfold Loader.get_discoveries. cbn [Loader._discoveries Loader.init].
    destruct (Store.given category) as [c|]; [destruct (eqb c _)|];
      (destruct (Store.given person) as [p|]; [destruct (eqb p _)|]);
      destruct min_flames as [[|n]|]; reflexivity.
  - reflexivity.
  - now apply StoredFacts.get_subseq.
  - eapply PyFacts.subseq_sorted;
      [now apply StoredFacts.get_subseq | apply StoreScanFacts.scan_sorted].
  - destruct min_flames as [n|]; [|exact I].
    apply Forall_forall. intros d Hd. eapply StoredFacts.get_at_least, Hd.
Qed.

(** ** Statistics *)

Module StatsFacts.

Import Store Loader.

Definition sum (d : list (str * nat)) : nat := list_sum (map snd d).

Lemma sum_cons (kv : str * nat) (d : list (str * nat)) :
  sum (kv :: d) = snd kv + sum d.
Proof. reflexivity. Qed.

Lemma sum_app (d d' : list (str * nat)) : sum (d ++ d') = sum d + sum d'.
Proof. unfold sum. now rewrite map_app, list_sum_app. Qed.

Lemma add_stat_sum (k : str) (v : nat) (ts : list (str * nat)) :
  sum (add_stat k v ts) = sum ts + v.
Proof.
  unfold add_stat.
  induction ts as [|[k' v'] t IH]; cbn [Py.lookup Py.dict_set].
  - rewrite sum_cons. cbn [snd]. unfold sum. cbn. lia.
  - destruct (eqb k k'); rewrite !sum_cons; cbn [snd]; [lia|].
    rewrite IH. lia.
Qed.

Definition sizes (cats : list (str * list row)) : list (str * nat) :=
  map (fun e => (fst e, length (snd e))) cats.

Lemma count_categories (cats : list (str * list row))
  (dc ts : list (str * nat)) :
  NoDup (map fst dc ++ map fst cats) ->
  fst (fold_left count_category cats (dc, ts)) = dc ++ sizes cats
  /\ sum (snd (fold_left count_category cats (dc, ts))) = sum ts + sum (sizes cats).
Proof.
  revert dc ts. induction cats as [|[c rs] cats IH]; intros dc ts Hnd;
    cbn [fold_left sizes map].
  - cbn [fst snd]. rewrite app_nil_r. unfold sum. cbn. auto with arith.
  - unfold count_category at 2 4. cbn [fst snd].
    assert (Hfresh : ~ In c (map fst dc)).
    { cbn [map fst] in Hnd. pose proof (NoDup_remove_2 _ _ _ Hnd) as Hc.
      intros Hin. apply Hc, in_or_app. now left. }
    rewrite (DictFacts.dict_set_fresh c (length rs) dc Hfresh).
    destruct (IH (dc ++ [(c, length rs)]) (add_stat c (length rs) ts)) as [H1 H2].
    { rewrite map_app. cbn [map fst]. rewrite <- app_assoc. exact Hnd. }
    fold (sizes cats). rewrite H1, H2, add_stat_sum, <- app_assoc.
    split; [reflexivity|].
    change (sum ((c, length rs) :: sizes cats))
      with (length rs + sum (sizes cats)). lia.
Qed.

Definition totals (devs : list device) : nat :=
  list_sum (map total_records devs).

Lemma totals_snoc (devs : list device) (d : device) :
  totals (devs ++ [d]) = totals devs + total_records d.
Proof.
  unfold totals. rewrite map_app, list_sum_app. cbn. lia.
Qed.

(** The state of the two loops: the devices listed so far and the running
    category totals weigh the same. *)
Definition balanced (st : list device * list (str * nat)) : Prop :=
  sum (snd st) = totals (fst st).

Definition valid (self : DataStore) : Prop :=
  Forall (fun e => NoDup (map fst (snd e))) (cellebrite_data self).

Lemma lookup_in {V} (k : str) (d : list (str * V)) (v : V) :
  Py.lookup k d = Some v -> In (k, v) d.
Proof. apply DictFacts.lookup_some_in. Qed.

Lemma cellebrite_device_balanced (self : DataStore)
  (st : list device * list (str * nat)) (entry : str * row) :
  valid self -> balanced st ->
  balanced (cellebrite_device self st entry)
  /\ length (fst (cellebrite_device self st entry)) = S (length (fst st)).
Proof.
  intros Hv Hb. destruct st as [devs ts], entry as [person_id info].
  unfold cellebrite_device. cbv zeta.
  set (cats := match Py.lookup person_id (cellebrite_data self) with
               | Some d => d
               | None => []
               end).
  assert (Hnd : NoDup (map fst cats)).
  { unfold cats. destruct (Py.lookup person_id (cellebrite_data self)) as [d|] eqn:E;
      [|constructor].
    apply lookup_in in E. unfold valid in Hv. rewrite Forall_forall in Hv.
    apply (Hv _ E). }
  destruct (count_categories cats [] ts Hnd) as [H1 H2].
  destruct (fold_left count_category cats ([], ts)) as [dc ts'].
  cbn [fst snd] in *. subst dc. unfold balanced in *. cbn [fst snd] in *.
  rewrite totals_snoc, length_app. cbn [total_records length app].
  split; [|lia]. fold (sum (sizes cats)). lia.
Qed.

Lemma axiom_device_balanced (st : list device * list (str * nat))
  (entry : str * list (str * nat)) :
  balanced st ->
  balanced (axiom_device st entry)
  /\ length (fst (axiom_device st entry)) = S (length (fst st)).
Proof.
  intros Hb. destruct st as [devs ts], entry as [dirname file_index].
  unfold axiom_device. cbv zeta. unfold balanced in *. cbn [fst snd] in *.
  rewrite add_stat_sum, totals_snoc, length_app. cbn [total_records length].
  split; lia.
Qed.

Lemma fold_balanced {X} (f : list device * list (str * nat) -> X ->
                             list device * list (str * nat))
  (l : list X) (st : list device * list (str * nat)) :
  (forall st x, balanced st ->
                balanced (f st x) /\ length (fst (f st x)) = S (length (fst st))) ->
  balanced st ->
  balanced (fold_left f l st)
  /\ length (fst (fold_left f l st)) = length (fst st) + length l.
Proof.
  intros Hf. revert st. induction l as [|x l IH]; intros st Hb;
    cbn [fold_left length].
  - split; [exact Hb | lia].
  - destruct (Hf st x Hb) as [H1 H2]. destruct (IH _ H1) as [H3 H4].
    split; [exact H3 | lia].
Qed.

End StatsFacts.

(** X17: for a store whose category dictionaries have one entry per key,
    [_compute_stats] lists one device for every entry of [DEVICE_MAP] and
    every indexed bulk export, counts them so in [total_devices], and the
    category totals of the statistics add up to the record totals of the
    devices. *)
Theorem stats_add_up (self : Loader.DataStore) :
  Forall (fun e => NoDup (map fst (snd e))) (Loader.cellebrite_data self) ->
  exists st,
    Loader.stats (Loader._compute_stats self) = Some st
    /\ Loader.total_devices st
       = length (Loader.devices (Loader._compute_stats self))
    /\ Loader.total_devices st
       = Loader.cellebrite_devices st + Loader.axiom_devices st
    /\ list_sum (map snd (Loader.stat_categories st))
       = list_sum (map Loader.total_records
                     (Loader.devices (Loader._compute_stats self))).
Proof.
  intros Hv. unfold Loader._compute_stats. cbv zeta.
  destruct (StatsFacts.fold_balanced (Loader.cellebrite_device self)
              StoreScan.DEVICE_MAP ([], [])) as [H1 H2].
  { intros st x. now apply StatsFacts.cellebrite_device_balanced. }
  { reflexivity. }
  destruct (StatsFacts.fold_balanced Loader.axiom_device
              (Loader.axiom_index self)
              (fold_left (Loader.cellebrite_device self) StoreScan.DEVICE_MAP
                 ([], [])))
    as [H3 H4].
  { intros st x. apply StatsFacts.axiom_device_balanced. }
  { exact H1. }
  destruct (fold_left Loader.axiom_device (Loader.axiom_index self) _)
    as [devs ts].
  eexists. cbn [Loader.stats Loader.devices]. split; [reflexivity|].
  cbn [Loader.total_devices Loader.cellebrite_devices Loader.axiom_devices
         Loader.stat_categories fst snd] in *.
  split; [reflexivity|]. split; [|exact H3].
  rewrite H4, H2. reflexivity.
Qed.

Lemma stats_add_up_witness :
  exists st,
    Loader.stats (Loader._compute_stats SearchFacts.two_full_lists) = Some st
    /\ Loader.total_devices st
       = length (Loader.devices (Loader._compute_stats SearchFacts.two_full_lists))
    /\ Loader.total_devices st
       = Loader.cellebrite_devices st + Loader.axiom_devices st
    /\ list_sum (map snd (Loader.stat_categories st))
       = list_sum (map Loader.total_records
                     (Loader.devices
                        (Loader._compute_stats SearchFacts.two_full_lists))).
Proof.
  apply (stats_add_up SearchFacts.two_full_lists).
  constructor; [|constructor]. cbn [snd map fst].
  constructor; [cbn [In]; intuition discriminate|].
  constructor; [intros []|constructor].
Defined.
(** ** Pages *)

Module PageFacts.

Import Store.

Lemma firstn_add {A} (a b : nat) (l : list A) :
  firstn (a + b) l = firstn a l ++ firstn b (skipn a l).
Proof.
  revert l. induction a as [|a IH]; intros l; [reflexivity|].
  destruct l as [|x l]; cbn [Nat.add firstn skipn app].
  - now rewrite firstn_nil.
  - now rewrite IH.
Qed.

(** The slice of a page with a positive number and size. *)
Lemma slice_page {A} (l : list A) (i : nat) (pp : positive) :
  Py.slice l ((Z.of_nat (S i) - 1) * Z.pos pp)
    ((Z.of_nat (S i) - 1) * Z.pos pp + Z.pos pp)
  = firstn (Pos.to_nat pp) (skipn (i * Pos.to_nat pp) l).
Proof.
  unfold Py.slice, Py.clamp. cbv zeta.
  set (n := length l). set (p := Pos.to_nat pp).
  assert (Hp : Z.pos pp = Z.of_nat p) by (unfold p; lia).
  assert (Hi : (Z.of_nat (S i) - 1 = Z.of_nat i)%Z) by lia.
  rewrite Hi, Hp.
  destruct (Z.ltb_spec (Z.of_nat i * Z.of_nat p) 0); [lia|].
  destruct (Z.ltb_spec (Z.of_nat i * Z.of_nat p + Z.of_nat p) 0); [lia|].
  replace (Z.to_nat (Z.min (Z.of_nat i * Z.of_nat p) (Z.of_nat n)))
    with (Nat.min (i * p) n) by lia.
  replace (Z.to_nat (Z.min (Z.of_nat i * Z.of_nat p + Z.of_nat p) (Z.of_nat n)
                     - Z.min (Z.of_nat i * Z.of_nat p) (Z.of_nat n)))
    with (Nat.min (i * p + p) n - Nat.min (i * p) n) by lia.
  destruct (Nat.le_gt_cases n (i * p)) as [Hge|Hlt].
  - rewrite Nat.min_r by lia. rewrite !skipn_all2 by (fold n; lia).
    now rewrite !firstn_nil.
  - rewrite (Nat.min_l (i * p) n) by lia.
    destruct (Nat.le_gt_cases (i * p + p) n) as [Hin|Hout].
    + rewrite Nat.min_l by lia. f_equal. lia.
    + rewrite Nat.min_r by lia.
      rewrite !firstn_all2; [reflexivity | |]; rewrite length_skipn; fold n; lia.
Qed.

Lemma slice_page_zero {A} (l : list A) (per_page : Z) :
  Py.slice l ((0 - 1) * per_page) ((0 - 1) * per_page + per_page) = [].
Proof.
  unfold Py.slice. cbv zeta.
  replace ((0 - 1) * per_page + per_page)%Z with 0%Z by lia.
  assert (H : (0 <= Py.clamp (Z.of_nat (length l)) ((0 - 1) * per_page))%Z).
  { unfold Py.clamp. destruct (Z.ltb_spec ((0 - 1) * per_page) 0); lia. }
  assert (H0 : Py.clamp (Z.of_nat (length l)) 0 = 0%Z).
  { unfold Py.clamp. cbn. lia. }
  rewrite H0. replace (Z.to_nat _) with 0 by lia. reflexivity.
Qed.

Lemma concat_pages {A} (l : list A) (p k : nat) :
  concat (map (fun i => firstn p (skipn (i * p) l)) (seq 0 k))
  = firstn (k * p) l.
Proof.
  induction k as [|k IH]; [reflexivity|].
  rewrite seq_S, map_app, concat_app, IH. cbn [map concat Nat.add].
  rewrite app_nil_r. replace (S k * p) with (k * p + p) by lia.
  now rewrite firstn_add.
Qed.

Section Queries.

Variable repr : row -> str.
Variable dumps : record -> str.
Variable load_axiom_file : str -> str -> list record.

(** Every answer of [get_device_data] is a page of one list, which the page
    number and size do not enter. *)
Lemma paged (self : DataStore) (device_id : str) (category : option str)
  (query date_from date_to : option str) :
  exists all,
    forall page per_page,
      get_device_data repr dumps load_axiom_file self device_id category
        page per_page query date_from date_to
      = paginate all page per_page.
Proof.
  unfold get_device_data.
  destruct (Py.lookup device_id (cellebrite_data self)) as [data|].
  { eexists. intros page per_page. cbv zeta. reflexivity. }
  destruct (Py.lookup device_id (axiom_index self)) as [index|].
  { destruct (given category) as [c|]; eexists; intros; reflexivity. }
  exists []. intros page per_page. unfold paginate, Py.slice. cbv zeta.
  now rewrite skipn_nil, firstn_nil.
Qed.

End Queries.

End PageFacts.

(** X18: the pages of [DataStore.get_device_data] tile one list of
    records, which depends on the device and the filters only: every page
    reports the length of that list as [total], the pages 1 to [k] of a
    positive size [n] put together are its first [k * n] records, and page 0
    is empty. *)
Theorem device_data_pages_tile (repr : Store.row -> str)
  (dumps : Store.record -> str)
  (load_axiom_file : str -> str -> list Store.record)
  (self : Store.DataStore) (device_id : str)
  (category query date_from date_to : option str) :
  let get := fun page per_page =>
    Store.get_device_data repr dumps load_axiom_file self device_id category
      page per_page query date_from date_to in
  exists all,
    (forall page per_page, Store.total (get page per_page) = length all)
    /\ (forall (n : positive) (k : nat),
          concat (map (fun i => Store.records (get (Z.of_nat (S i)) (Z.pos n)))
                    (seq 0 k))
          = firstn (k * Pos.to_nat n) all)
    /\ (forall per_page, Store.records (get 0%Z per_page) = []).
Proof.
  cbv zeta.
  destruct (PageFacts.paged repr dumps load_axiom_file self device_id category
              query date_from date_to) as (all & Hall).
  exists all. split; [|split].
  - intros page per_page. now rewrite Hall.
  - intros n k. rewrite <- PageFacts.concat_pages. f_equal.
    apply map_ext. intros i. rewrite Hall. apply PageFacts.slice_page.
  - intros per_page. rewrite Hall. apply PageFacts.slice_page_zero.
Qed.

(** X19: for a device of the relational store that is not a bulk export,
    [EvidenceDB.get_device_data] with page 0 and a positive page size does
    not return: the negative offset makes the query fail. *)
Theorem db_page_zero_raises (collate_le ilike : str -> str -> bool)
  (dumps : Store.record -> str)
  (axiom_file : str -> str -> option (list Store.record))
  (self : Db.EvidenceDB) (device_id first : str) (rest : list str)
  (dev : Db.device_row) (category query date_from date_to : option str)
  (per_page : Z) :
  Db._resolve_device_ids self device_id = first :: rest ->
  find (fun d => eqb (Db.device_id d) first) (Db.devices self) = Some dev ->
  eqb (Db.source dev) (py "axiom") = false ->
  (0 < per_page)%Z ->
  Db.get_device_data collate_le ilike dumps axiom_file self device_id category
    0 per_page query date_from date_to
  = Db.Raises (py "OFFSET must not be negative").
Proof.
  intros Hids Hdev Hsrc Hpp. unfold Db.get_device_data.
  rewrite Hids, Hdev, Hsrc. cbv zeta. unfold Db.limit_offset.
  destruct (Z.ltb_spec per_page 0); [lia|].
  destruct (Z.ltb_spec ((0 - 1) * per_page) 0); [reflexivity | lia].
Qed.

Lemma db_page_zero_raises_witness :
  Db.get_device_data leb Samples.no_ilike Samples.no_dumps Samples.no_json
    Samples.db (py "joy-quinn") None 0 50 None None None
  = Db.Raises (py "OFFSET must not be negative").
Proof.
  apply (db_page_zero_raises leb Samples.no_ilike Samples.no_dumps
           Samples.no_json Samples.db (py "joy-quinn") (py "joy-quinn") []
           {| Db.device_id := py "joy-quinn"; Db.name := py "Joy Quinn iPhone";
              Db.type := py "iPhone"; Db.owner := py "Joy Quinn";
              Db.source := py "cellebrite" |}).
  - vm_compute. reflexivity.
  - vm_compute. reflexivity.
  - vm_compute. reflexivity.
  - lia.
Defined.

(** ** The index of the bulk exports *)

Module IndexFacts.

Import Store Loader.

Lemma estimate_positive (fsize : Z) : 1 <= estimate fsize.
Proof. unfold estimate. lia. Qed.

Definition estimates (json_files : list (str * Z)) : list (str * nat) :=
  map (fun jf => (fst jf, estimate (snd jf))) json_files.

Lemma index_from (json_files : list (str * Z)) (d : list (str * nat)) :
  NoDup (map fst d ++ map fst json_files) ->
  fold_left (fun file_index jf =>
               Py.dict_set (fst jf) (estimate (snd jf)) file_index)
    json_files d
  = d ++ estimates json_files.
Proof.
  revert d. induction json_files as [|[stem size] l IH]; intros d Hnd;
    cbn [fold_left estimates map fst snd].
  - now rewrite app_nil_r.
  - cbn [map fst] in Hnd. pose proof (NoDup_remove_2 _ _ _ Hnd) as Hc.
    rewrite DictFacts.dict_set_fresh
      by (intros Hin; apply Hc, in_or_app; now left).
    rewrite IH.
    + now rewrite <- app_assoc.
    + rewrite map_app. cbn [map fst]. now rewrite <- app_assoc.
Qed.

Lemma index_files_estimates (json_files : list (str * Z)) :
  NoDup (map fst json_files) -> index_files json_files = estimates json_files.
Proof. intros H. unfold index_files. now rewrite index_from. Qed.

Lemma fold_set_other {V W} (g : W -> V) (l : list (str * W))
  (d : list (str * V)) (k : str) :
  ~ In k (map fst l) ->
  Py.lookup k (fold_left (fun d e => Py.dict_set (fst e) (g (snd e)) d) l d)
  = Py.lookup k d.
Proof.
  revert d. induction l as [|[k' w] l IH]; intros d Hk; cbn [fold_left];
    [reflexivity|].
  cbn [map fst In] in Hk. rewrite IH by tauto. cbn [fst snd].
  apply PyFacts.lookup_dict_set_other. intros ->. tauto.
Qed.

Lemma fold_set_lookup {V W} (g : W -> V) (l : list (str * W))
  (d : list (str * V)) (k : str) (w : W) :
  NoDup (map fst l) -> In (k, w) l ->
  Py.lookup k (fold_left (fun d e => Py.dict_set (fst e) (g (snd e)) d) l d)
  = Some (g w).
Proof.
  revert d. induction l as [|[k' w'] l IH]; intros d Hnd Hin; [destruct Hin|].
  cbn [map fst] in Hnd. inversion Hnd as [|? ? Hk Hl]; subst.
  cbn [fold_left fst snd]. destruct Hin as [H|H].
  - injection H as -> ->. rewrite fold_set_other by exact Hk.
    apply DictFacts.lookup_set_same.
  - now apply IH.
Qed.

Lemma filter_all {A} (f : A -> bool) (l : list A) :
  Forall (fun x => f x = true) l -> filter f l = l.
Proof.
  induction 1 as [|x l Hx Hl IH]; cbn [filter]; [reflexivity|].
  now rewrite Hx, IH.
Qed.

End IndexFacts.

(** X20: a bulk export that [_index_axiom] has indexed is summarised in
    full by [get_device_data]: when the directories and, within the
    directory, the JSON files have distinct names, the summary of the
    directory (no category given) counts one record for every JSON file,
    since the estimate of a file is never below 1. *)
Theorem indexed_export_summarised (repr : Store.row -> str)
  (dumps : Store.record -> str)
  (load_axiom_file : str -> str -> list Store.record)
  (dirs : list (str * list (str * Z))) (name : str)
  (json_files : list (str * Z)) (page per_page : Z)
  (query date_from date_to : option str) :
  NoDup (map fst dirs) -> In (name, json_files) dirs ->
  NoDup (map fst json_files) ->
  Store.total
    (Store.get_device_data repr dumps load_axiom_file
       (Loader.as_store (Loader._index_axiom (Some dirs) Loader.init))
       name None page per_page query date_from date_to)
  = length json_files.
Proof.
  intros Hdirs Hin Hfiles. unfold Store.get_device_data.
  cbn [Loader._index_axiom Loader.as_store Store.cellebrite_data
         Store.axiom_index Loader.cellebrite_data Loader.axiom_index
         Loader.init Py.lookup].
  rewrite (IndexFacts.fold_set_lookup Loader.index_files _ [] name json_files).
  - cbn [Store.given Store.paginate Store.total].
    rewrite length_map, IndexFacts.filter_all.
    + rewrite (Permutation_length (SortFacts.sort_perm _ _)).
      rewrite IndexFacts.index_files_estimates by exact Hfiles.
      apply length_map.
    + apply Forall_forall. intros kv Hkv. apply PyFacts.sort_by_in in Hkv.
      rewrite IndexFacts.index_files_estimates in Hkv by exact Hfiles.
      apply in_map_iff in Hkv. destruct Hkv as (jf & <- & _). cbn [snd].
      apply Nat.ltb_lt. pose proof (IndexFacts.estimate_positive (snd jf)). lia.
  - eapply Permutation_NoDup;
      [apply Permutation_map; symmetry; apply SortFacts.sort_perm | exact Hdirs].
  - eapply Permutation_in; [symmetry; apply SortFacts.sort_perm | exact Hin].
Qed.

Lemma indexed_export_summarised_witness :
  Store.total
    (Store.get_device_data Samples.no_repr Samples.no_dumps Samples.no_files
       (Loader.as_store
          (Loader._index_axiom
             (Some [(py "RMR034376_HPDesktop",
                      [(py "Chat Messages", 120000%Z); (py "Web History", 40%Z)])])
             Loader.init))
       (py "RMR034376_HPDesktop") None 1 100 None None None)
  = 2.
Proof.
  apply (indexed_export_summarised Samples.no_repr Samples.no_dumps
           Samples.no_files
           [(py "RMR034376_HPDesktop",
              [(py "Chat Messages", 120000%Z); (py "Web History", 40%Z)])]
           (py "RMR034376_HPDesktop")
           [(py "Chat Messages", 120000%Z); (py "Web History", 40%Z)]).
  - repeat constructor. intros [].
  - now left.
  - constructor; [cbn [In map fst]; intuition discriminate|].
    constructor; [intros [] | constructor].
Defined.
(** ** The line parsers: what a well-formed line gives back *)

Module ParserFacts.

Import Store Loader.

Definition newline : str := [nl].

(** Text that can stand in a final group: not empty, on one line, without
    white space at either end. *)
Record closing (s : str) : Prop := {
  closing_some : s <> [];
  closing_line : forallb (not_char nl) s = true;
  closing_trim : strip s = s
}.

Lemma dot_plus_line (g : str) :
  g <> [] -> forallb (not_char nl) g = true ->
  dot_plus (g ++ newline) = Some g.
Proof.
  intros Hne Hg. unfold dot_plus, newline.
  rewrite (span_app _ g [nl] Hg) by reflexivity. cbn [fst].
  destruct g; [congruence | reflexivity].
Qed.

Lemma by_line_map {A} (parse_line : str -> option row) (line : A -> str)
  (record : A -> row) (l : list A) :
  Forall (fun x => parse_line (line x) = Some (record x)) l ->
  by_line parse_line (map line l) = map record l.
Proof.
  induction 1 as [|x l Hx Hl IH]; [reflexivity|].
  unfold by_line in *. cbn [map flat_map]. now rewrite Hx, IH.
Qed.

(** *** Contacts *)

Definition contact_line (c : str * str) : str :=
  py "- **" ++ fst c ++ py "** | Source: " ++ snd c ++ newline.

Definition contact_record (c : str * str) : row :=
  [ (py "name", fst c); (py "source", snd c) ].

Definition contact_ok (c : str * str) : Prop :=
  fst c <> [] /\ forallb (not_char "*") (fst c) = true /\ closing (snd c).

Lemma contact_parsed (c : str * str) :
  contact_ok c -> parse_contact_line (contact_line c) = Some (contact_record c).
Proof.
  destruct c as [name source]. intros (Hne & Hstar & [Hs Hl Ht]).
  cbn [fst snd] in *.
  unfold parse_contact_line, match_contact, contact_line, contact_record, bind.
  cbn [fst snd]. rewrite lit_app.
  rewrite (span_app _ name _ Hstar) by reflexivity.
  destruct name as [|c name]; [congruence|].
  rewrite lit_app, (dot_plus_line _ Hs Hl), Ht. reflexivity.
Qed.

(** *** Searches *)

Definition search_line (s : str * str * str) : str :=
  let '(ts, query, source) := s in
  py "- **" ++ ts ++ py "** | " ++ query ++ py " | " ++ source ++ newline.

Definition search_record (s : str * str * str) : row :=
  let '(ts, query, source) := s in
  [ (py "timestamp", ts); (py "query", query); (py "source", source) ].

Definition search_ok (s : str * str * str) : Prop :=
  let '(ts, query, source) := s in
  forallb (not_char "*") ts = true
  /\ query <> [] /\ forallb (not_char nl) query = true
  /\ forallb (not_char "|") query = true
  /\ closing source.

Lemma lit_bar_fails (t rest : str) :
  t <> [] -> forallb (not_char "|") t = true ->
  lit (py " | ") (t ++ py " | " ++ rest) = None.
Proof.
  intros Hne Hbar. destruct t as [|c t]; [congruence|].
  cbn [app py list_ascii_of_string lit]. destruct (Ascii.eqb " " c); [|reflexivity].
  destruct t as [|d t]; [reflexivity|]. cbn [app].
  cbn [forallb] in Hbar. apply andb_true_iff in Hbar. destruct Hbar as [_ Hbar].
  apply andb_true_iff in Hbar. destruct Hbar as [Hd _].
  unfold not_char in Hd. apply negb_true_iff in Hd. now rewrite Hd.
Qed.

Lemma lazy_field_query (query source : str) :
  query <> [] -> forallb (not_char nl) query = true ->
  forallb (not_char "|") query = true ->
  source <> [] -> forallb (not_char nl) source = true ->
  lazy_field (query ++ py " | " ++ source ++ newline) = Some (query, source).
Proof.
  intros Hne Hnl Hbar Hs Hl.
  induction query as [|c t IH]; [congruence|].
  cbn [forallb] in Hnl, Hbar.
  apply andb_true_iff in Hnl. destruct Hnl as [Hc Hnl].
  apply andb_true_iff in Hbar. destruct Hbar as [_ Hbar].
  cbn [app lazy_field]. unfold not_char in Hc. apply negb_true_iff in Hc.
  rewrite Ascii.eqb_sym in Hc. rewrite Hc.
  destruct t as [|d t].
  - cbn [app]. unfold bind. rewrite lit_app, (dot_plus_line _ Hs Hl).
    reflexivity.
  - unfold bind at 1. rewrite lit_bar_fails by (discriminate || exact Hbar).
    rewrite IH by (discriminate || assumption). reflexivity.
Qed.

Lemma search_parsed (s : str * str * str) :
  search_ok s -> parse_search_line (search_line s) = Some (search_record s).
Proof.
  destruct s as [[ts query] source].
  intros (Hts & Hq & Hqn & Hqb & [Hs Hl Ht]).
  unfold parse_search_line, match_search, search_line, search_record, bind.
  rewrite lit_app. rewrite (span_app _ ts _ Hts) by reflexivity.
  rewrite lit_app, (lazy_field_query _ _ Hq Hqn Hqb Hs Hl), Ht. reflexivity.
Qed.

(** *** Calls *)

(** A time stamp as the call and browsing patterns want it. *)
Record starred (y m d t : str) : Prop := {
  starred_y : length y = 4 /\ forallb isdigit y = true;
  starred_m : length m = 2 /\ forallb isdigit m = true;
  starred_d : length d = 2 /\ forallb isdigit d = true;
  starred_t : t <> [] /\ forallb (not_char "*") t = true
}.

Definition stamp_of (y m d t : str) : str :=
  y ++ py "-" ++ m ++ py "-" ++ d ++ py "T" ++ t.

Lemma match_stamp_build (y m d t rest : str) :
  starred y m d t ->
  match_stamp (stamp_of y m d t ++ py "**" ++ rest)
  = Some (stamp_of y m d t, py "**" ++ rest).
Proof.
  intros [[Ly Hy] [Lm Hm] [Ld Hd] [Ht Ht']].
  unfold match_stamp, stamp_of, bind. rewrite <- !app_assoc.
  rewrite <- Ly at 1. rewrite (digits_app _ _ Hy), lit_app.
  rewrite <- Lm at 1. rewrite (digits_app _ _ Hm), lit_app.
  rewrite <- Ld at 1. rewrite (digits_app _ _ Hd), lit_app.
  rewrite (span_app _ t _ Ht') by reflexivity.
  destruct t; [congruence | reflexivity].
Qed.

Definition word (w : str) : Prop := w <> [] /\ forallb isword w = true.

Lemma match_word_build (w rest : str) :
  word w -> match_word (w ++ py " " ++ rest) = Some (w, py " " ++ rest).
Proof.
  intros [Hne Hw]. unfold match_word.
  rewrite (span_app _ w _ Hw) by reflexivity.
  destruct w; [congruence | reflexivity].
Qed.

Definition call_head (ts direction status duration : str) : str :=
  py "- **" ++ ts ++ py "** | " ++ direction ++ py " | " ++ status
  ++ py " | Duration: " ++ duration.

Lemma lstrip_bar (s : str) :
  lstrip_chars (py " |") (py " | " ++ s) = lstrip_chars (py " |") s.
Proof. reflexivity. Qed.

Lemma duration_newline (duration : str) :
  forallb duration_char duration = true ->
  forallb duration_char (duration ++ newline) = true.
Proof.
  intros H. rewrite forallb_app, H. reflexivity.
Qed.

Lemma match_call_head (y m d t direction status duration tail : str) :
  starred y m d t -> word direction -> word status ->
  match_call (call_head (stamp_of y m d t) direction status duration ++ tail)
  = match span duration_char (duration ++ tail) with
    | ([], _) => None
    | (dur, s8) =>
        Some (stamp_of y m d t, direction, status, dur, dot_star s8)
    end.
Proof.
  intros Hst Hd Hs. unfold match_call, call_head, bind.
  rewrite <- !app_assoc. rewrite lit_app.
  change (py "** | " ++ direction ++ ?x) with (py "**" ++ py " | " ++ direction ++ x).
  rewrite (match_stamp_build _ _ _ _ _ Hst).
  change (py "**" ++ py " | " ++ ?x) with (py "** | " ++ x).
  rewrite lit_app.
  change (py " | " ++ status ++ ?x) with (py " " ++ py "| " ++ status ++ x).
  rewrite (match_word_build _ _ Hd).
  change (py " " ++ py "| " ++ ?x) with (py " | " ++ x). rewrite lit_app.
  change (py " | Duration: " ++ ?x) with (py " " ++ py "| Duration: " ++ x).
  rewrite (match_word_build _ _ Hs).
  change (py " " ++ py "| Duration: " ++ ?x) with (py " | Duration: " ++ x).
  rewrite lit_app. reflexivity.
Qed.

End ParserFacts.
(** X21: [parse_contacts] gives back the contacts of a file written in its
    line format: for names that are not empty and have no star, and sources
    that are not empty, lie on one line and have no white space at either
    end, parsing the lines [- **name** | Source: source] of a list of
    contacts yields exactly the records of that list, in order. *)
Theorem contacts_roundtrip (cs : list (str * str)) :
  Forall ParserFacts.contact_ok cs ->
  Loader.parse_contacts (map ParserFacts.contact_line cs)
  = map ParserFacts.contact_record cs.
Proof.
  intros H. apply ParserFacts.by_line_map.
  eapply Forall_impl; [|exact H]. apply ParserFacts.contact_parsed.
Qed.

Lemma contacts_roundtrip_witness :
  Loader.parse_contacts
    (map ParserFacts.contact_line
       [(py "Jane Doe", py "Phone"); (py "J. Smith (work)", py "WhatsApp")])
  = map ParserFacts.contact_record
      [(py "Jane Doe", py "Phone"); (py "J. Smith (work)", py "WhatsApp")].
Proof.
  apply (contacts_roundtrip
           [(py "Jane Doe", py "Phone"); (py "J. Smith (work)", py "WhatsApp")]).
  repeat constructor; try discriminate; vm_compute; reflexivity.
Defined.

(** X22: [parse_searches] gives back the searches of a file written in its
    line format, provided the query has no bar: for a timestamp without
    star, a query that is not empty, lies on one line and contains no bar,
    and a source that is not empty, lies on one line and has no white space
    at either end, the line [- **timestamp** | query | source] is parsed
    into exactly these three fields. *)
Theorem searches_roundtrip (ss : list (str * str * str)) :
  Forall ParserFacts.search_ok ss ->
  Loader.parse_searches (map ParserFacts.search_line ss)
  = map ParserFacts.search_record ss.
Proof.
  intros H. apply ParserFacts.by_line_map.
  eapply Forall_impl; [|exact H]. apply ParserFacts.search_parsed.
Qed.

Lemma searches_roundtrip_witness :
  Loader.parse_searches
    (map ParserFacts.search_line
       [(py "2021-05-23T08:00:00+00:00", py "how to delete messages",
         py "Safari")])
  = map ParserFacts.search_record
      [(py "2021-05-23T08:00:00+00:00", py "how to delete messages",
        py "Safari")].
Proof.
  apply (searches_roundtrip
           [(py "2021-05-23T08:00:00+00:00", py "how to delete messages",
             py "Safari")]).
  repeat constructor; try discriminate; vm_compute; reflexivity.
Defined.

Module CallFacts.

Import Store Loader ParserFacts.

Lemma with_details (y m d t direction status duration details : str) :
  starred y m d t -> word direction -> word status ->
  duration <> [] -> forallb duration_char duration = true ->
  forallb (not_char nl) details = true ->
  strip_chars (py " |") details = details ->
  parse_call_line
    (call_head (stamp_of y m d t) direction status duration
     ++ py " | " ++ details ++ newline)
  = Some [ (py "timestamp", stamp_of y m d t); (py "direction", direction);
           (py "status", status); (py "duration", duration);
           (py "details", details) ].
Proof.
  intros Hst Hd Hs Hne Hdur Hline Htrim. unfold parse_call_line, bind.
  rewrite (match_call_head _ _ _ _ _ _ _ _ Hst Hd Hs).
  rewrite (span_app _ duration _ Hdur) by reflexivity.
  destruct duration as [|c duration]; [congruence|].
  unfold call_record. do 5 f_equal.
  unfold dot_star. rewrite app_assoc.
  rewrite (span_app _ (py " | " ++ details) [nl]) by (exact Hline || reflexivity).
  cbn [fst]. unfold strip_chars. rewrite lstrip_bar.
  fold (strip_chars (py " |") details). now rewrite Htrim.
Qed.

Lemma without_details (y m d t direction status duration : str) :
  starred y m d t -> word direction -> word status ->
  duration <> [] -> forallb duration_char duration = true ->
  parse_call_line
    (call_head (stamp_of y m d t) direction status duration ++ newline)
  = Some [ (py "timestamp", stamp_of y m d t); (py "direction", direction);
           (py "status", status); (py "duration", duration ++ newline);
           (py "details", []) ].
Proof.
  intros Hst Hd Hs Hne Hdur. unfold parse_call_line, bind.
  rewrite (match_call_head _ _ _ _ _ _ _ _ Hst Hd Hs).
  assert (Hspan : span duration_char (duration ++ newline)
                  = (duration ++ newline, [])).
  { rewrite <- (app_nil_r (duration ++ newline)) at 1.
    apply (span_app _ (duration ++ newline) [] (duration_newline _ Hdur) I). }
  rewrite Hspan. destruct duration as [|c duration]; [congruence|]. reflexivity.
Qed.

End CallFacts.

(** X23: a call line in the format of [parse_calls], with a dated
    timestamp, a direction and a status made of word characters and a
    duration without space or bar, is parsed into these fields, and the text
    after the duration and its bar becomes [details].  When the line ends
    right after the duration, the duration that is recorded includes the
    line terminator, and [details] is empty. *)
Theorem calls_roundtrip (y m d t direction status duration details : str) :
  ParserFacts.starred y m d t ->
  ParserFacts.word direction -> ParserFacts.word status ->
  duration <> [] -> forallb Loader.duration_char duration = true ->
  forallb (not_char nl) details = true ->
  Loader.strip_chars (py " |") details = details ->
  let head := ParserFacts.call_head (ParserFacts.stamp_of y m d t) direction
                status duration in
  let fields := fun dur det =>
    [ (py "timestamp", ParserFacts.stamp_of y m d t);
      (py "direction", direction); (py "status", status);
      (py "duration", dur); (py "details", det) ] in
  Loader.parse_calls [head ++ py " | " ++ details ++ [nl]]
  = [fields duration details]
  /\ Loader.parse_calls [head ++ [nl]] = [fields (duration ++ [nl]) []].
Proof.
  intros Hst Hd Hs Hne Hdur Hline Htrim. cbv zeta.
  unfold Loader.parse_calls, Loader.by_line. cbn [flat_map app].
  change [nl] with ParserFacts.newline.
  rewrite (CallFacts.with_details _ _ _ _ _ _ _ _ Hst Hd Hs Hne Hdur Hline Htrim).
  rewrite (CallFacts.without_details _ _ _ _ _ _ _ Hst Hd Hs Hne Hdur).
  split; reflexivity.
Qed.

Lemma calls_roundtrip_witness :
  Loader.parse_calls
    [py "- **2021-05-25T10:00:00+00:00** | Incoming | Answered | Duration: 00:05:10 | +19705550100 | Source: Phone"
     ++ [nl]]
  = [[ (py "timestamp", py "2021-05-25T10:00:00+00:00");
       (py "direction", py "Incoming"); (py "status", py "Answered");
       (py "duration", py "00:05:10");
       (py "details", py "+19705550100 | Source: Phone") ]]
  /\ Loader.parse_calls
       [py "- **2021-05-25T10:00:00+00:00** | Incoming | Answered | Duration: 00:05:10"
        ++ [nl]]
     = [[ (py "timestamp", py "2021-05-25T10:00:00+00:00");
          (py "direction", py "Incoming"); (py "status", py "Answered");
          (py "duration", py "00:05:10" ++ [nl]); (py "details", []) ]].
Proof.
  apply (calls_roundtrip (py "2021") (py "05") (py "25") (py "10:00:00+00:00")
           (py "Incoming") (py "Answered") (py "00:05:10")
           (py "+19705550100 | Source: Phone")).
  - repeat split; try discriminate; vm_compute; reflexivity.
  - split; [discriminate | vm_compute; reflexivity].
  - split; [discriminate | vm_compute; reflexivity].
  - discriminate.
  - vm_compute. reflexivity.
  - vm_compute. reflexivity.
  - vm_compute. reflexivity.
Defined.

(** ** E-mails *)

Module EmailFacts.

Import Store Loader.

Lemma preview_loop_rest (preview : str) (lines : list str) :
  length (snd (preview_loop preview lines)) <= length lines.
Proof.
  revert preview. induction lines as [|line rest IH]; intros preview;
    cbn [preview_loop]; [cbn; lia|].
  destruct (_ || _); [cbn; lia|]. cbv zeta.
  match goal with |- length (snd (preview_loop ?p rest)) <= _ =>
    specialize (IH p) end.
  cbn [length]. lia.
Qed.

Lemma read_addresses_rest (held : option (str * str)) (rest : list str) :
  length (snd (read_addresses held rest)) <= length rest.
Proof.
  unfold read_addresses. destruct rest as [|ft_line rest1]; [cbn; lia|].
  cbv zeta. destruct rest1 as [|src_line rest2]; [cbn; lia|].
  destruct (startswith _ src_line); cbn [snd length]; lia.
Qed.

(** The number of lines is fuel enough: more changes nothing. *)
Lemma fuel_enough (fuel : nat) :
  forall (held : option (str * str)) (lines : list str) (extra : nat),
    length lines <= fuel ->
    emails_loop (fuel + extra) held lines = emails_loop fuel held lines.
Proof.
  induction fuel as [|fuel IH]; intros held lines extra Hlen.
  - destruct lines; [|cbn in Hlen; lia]. destruct extra; reflexivity.
  - cbn [Nat.add emails_loop]. destruct lines as [|line rest]; [reflexivity|].
    cbn [length] in Hlen.
    destruct (is_header line); [|apply IH; lia].
    pose proof (read_addresses_rest held rest) as H1.
    destruct (read_addresses held rest) as [[addresses source] rest2].
    cbn [snd] in H1.
    pose proof (preview_loop_rest [] rest2) as H2.
    destruct (preview_loop [] rest2) as [preview rest3]. cbn [snd] in H2.
    cbv zeta. destruct addresses as [[from_addr to_addr]|]; [|reflexivity].
    rewrite IH by lia. reflexivity.
Qed.

Lemma strip_length (s : str) : length (strip s) <= length s.
Proof.
  unfold strip.
  assert (H : forall t, length (rstrip t) <= length t).
  { induction t as [|c t IH]; cbn [rstrip length]; [lia|].
    destruct (rstrip t); [destruct (isspace c)|]; cbn [length] in *; lia. }
  pose proof (H (lstrip s)). pose proof (lstrip_length s). lia.
Qed.

Definition short_preview (r : row) : Prop :=
  length (get (py "preview") [] r) <= 300.

Lemma previews_short (fuel : nat) :
  forall (held : option (str * str)) (lines : list str) (emails : list row),
    emails_loop fuel held lines = Db.Returns emails ->
    Forall short_preview emails.
Proof.
  induction fuel as [|fuel IH]; intros held lines emails; cbn [emails_loop].
  - intros H. injection H as <-. constructor.
  - destruct lines as [|line rest]; [intros H; injection H as <-; constructor|].
    destruct (is_header line); [|apply IH].
    destruct (read_addresses held rest) as [[addresses source] rest2].
    destruct (preview_loop [] rest2) as [preview rest3]. cbv zeta.
    destruct addresses as [[from_addr to_addr]|]; [|discriminate].
    destruct (emails_loop fuel (Some (from_addr, to_addr)) rest3) as [more|e] eqn:E;
      [|discriminate].
    intros H. injection H as <-. constructor; [|now apply (IH _ _ _ E)].
    unfold short_preview.
    change (get (py "preview") [] _) with (strip (prefix 300 preview)).
    pose proof (strip_length (prefix 300 preview)) as Hs.
    unfold prefix in *. rewrite length_firstn in Hs. lia.
Qed.

Lemma no_header_no_email (fuel : nat) :
  forall (lines : list str),
    Forall (fun l => is_header l = false) lines ->
    emails_loop fuel None lines = Db.Returns [].
Proof.
  induction fuel as [|fuel IH]; intros lines H; [reflexivity|].
  cbn [emails_loop]. destruct H as [|line rest Hl Hr]; [reflexivity|].
  rewrite Hl. now apply IH.
Qed.

Lemma header_at_end (lines : list str) (h : str) :
  Forall (fun l => is_header l = false) lines -> is_header h = true ->
  forall fuel, length lines < fuel ->
    emails_loop fuel None (lines ++ [h]) = Db.Raises (py "UnboundLocalError").
Proof.
  intros Hno Hh. induction Hno as [|line rest Hl Hr IH]; intros fuel Hf.
  - destruct fuel as [|fuel]; [cbn in Hf; lia|].
    cbn [app emails_loop]. rewrite Hh. reflexivity.
  - destruct fuel as [|fuel]; [cbn in Hf; lia|].
    cbn [app emails_loop]. rewrite Hl. apply IH. cbn [length] in Hf. lia.
Qed.

Lemma parser_for_emails (lines : list str) :
  parser_for (py "emails") lines = parse_emails lines.
Proof. reflexivity. Qed.

(** A file with one e-mail. *)
Definition sample : list str :=
  [ py "### 2021-08-23T22:08:17+00:00 " ++ [Discovery.em_dash]
    ++ py " Re: images" ++ [nl];
    py "**From:** a@x.org " ++ [Loader.arrow] ++ py " **To:** b@y.org" ++ [nl];
    py "**Source:** Mail" ++ [nl];
    py "<p>Hello there</p>" ++ [nl];
    py "---" ++ [nl] ].

Definition sample_email : Store.row :=
  [ (py "timestamp", py "2021-08-23T22:08:17+00:00");
    (py "subject", py "Re: images"); (py "from", py "a@x.org");
    (py "to", py "b@y.org"); (py "source", py "Mail");
    (py "preview", py "Hello there") ].

End EmailFacts.

(** X24: [parse_emails] needs no more iterations than the file has lines,
    and every e-mail it returns has a preview of at most 300 characters. *)
Theorem emails_previews_bounded (lines : list str) (emails : list Store.row) :
  Loader.parse_emails lines = Db.Returns emails ->
  (forall extra,
     Loader.emails_loop (length lines + extra) None lines = Db.Returns emails)
  /\ Forall (fun r => length (Store.get (py "preview") [] r) <= 300) emails.
Proof.
  unfold Loader.parse_emails. intros H. split.
  - intros extra. now rewrite EmailFacts.fuel_enough.
  - now apply (EmailFacts.previews_short _ _ _ _ H).
Qed.

Lemma emails_previews_bounded_witness :
  (forall extra,
     Loader.emails_loop (length EmailFacts.sample + extra) None
       EmailFacts.sample = Db.Returns [EmailFacts.sample_email])
  /\ Forall (fun r => length (Store.get (py "preview") [] r) <= 300)
       [EmailFacts.sample_email].
Proof.
  apply (emails_previews_bounded EmailFacts.sample [EmailFacts.sample_email]).
  vm_compute. reflexivity.
Defined.

(** X25: an e-mail file whose last line is a heading of an e-mail, with no
    such heading before it, makes [parse_emails] raise (the two address
    variables are not bound); the loading step of [_load_cellebrite] for
    that file catches it and files an empty list of e-mails for the
    device. *)
Theorem email_heading_at_end_raises (files : str -> option (list str))
  (self : Loader.DataStore) (person_id : str) (lines : list str) (h : str) :
  Forall (fun l => Loader.is_header l = false) lines ->
  Loader.is_header h = true ->
  files (Loader.file_name person_id (py "emails")) = Some (lines ++ [h]) ->
  Loader.parse_emails (lines ++ [h]) = Db.Raises (py "UnboundLocalError")
  /\ exists data,
       Py.lookup person_id
         (Loader.cellebrite_data
            (Loader.load_category files person_id self (py "emails")))
       = Some data
       /\ Py.lookup (py "emails") data = Some [].
Proof.
  intros Hno Hh Hfile.
  assert (Hraise : Loader.parse_emails (lines ++ [h])
                   = Db.Raises (py "UnboundLocalError")).
  { unfold Loader.parse_emails. apply EmailFacts.header_at_end; try assumption.
    rewrite length_app. cbn [length]. lia. }
  split; [exact Hraise|].
  unfold Loader.load_category. rewrite Hfile.
  rewrite EmailFacts.parser_for_emails, Hraise. cbv zeta.
  change (eqb (py "emails") (py "chats")) with false. cbv iota.
  cbn [Loader.cellebrite_data]. eexists.
  split; [apply DictFacts.lookup_set_same | apply DictFacts.lookup_set_same].
Qed.

Lemma email_heading_at_end_raises_witness :
  Loader.parse_emails
    ([py "notes"] ++ [py "### 2021-08-23T22:08:17+00:00 " ++ [Discovery.em_dash]
                      ++ py " Re: images"])
  = Db.Raises (py "UnboundLocalError")
  /\ exists data,
       Py.lookup (py "joy-quinn")
         (Loader.cellebrite_data
            (Loader.load_category
               (fun _ => Some ([py "notes"]
                               ++ [py "### 2021-08-23T22:08:17+00:00 "
                                   ++ [Discovery.em_dash] ++ py " Re: images"]))
               (py "joy-quinn") Loader.init (py "emails")))
       = Some data
       /\ Py.lookup (py "emails") data = Some [].
Proof.
  apply (email_heading_at_end_raises
           (fun _ => Some ([py "notes"]
                           ++ [py "### 2021-08-23T22:08:17+00:00 "
                               ++ [Discovery.em_dash] ++ py " Re: images"]))
           Loader.init (py "joy-quinn") [py "notes"]).
  - repeat constructor.
  - vm_compute. reflexivity.
  - reflexivity.
Defined.
(** ** The two chat parsers *)

Module SiblingFacts.

Import Store.

(** A body that ends in an empty pair of parentheses. *)
Lemma empty_suffix (body : str) (i : nat) :
  rfind "(" body = Some (S i) -> endswith_char ")" body = true ->
  skipn (S (S i)) (removelast body) = [] ->
  body = firstn (S i) body ++ py "()".
Proof.
  intros Hr He Hs.
  apply ChatFacts.rfind_some in Hr. destruct Hr as (a & b & -> & Ha & Hb).
  apply ChatFacts.endswith_char_inv in He. destruct He as (p & Hp).
  assert (Hb' : exists b', b = b' ++ [")"%char]).
  { destruct (@exists_last _ b) as (b' & z & ->).
    - intros ->. apply (f_equal (@rev ascii)) in Hp.
      rewrite !rev_app_distr in Hp. cbn in Hp. discriminate Hp.
    - exists b'. f_equal. f_equal.
      apply (f_equal (@rev ascii)) in Hp. rewrite !rev_app_distr in Hp.
      cbn [rev app] in Hp. rewrite rev_app_distr in Hp. cbn in Hp.
      now injection Hp. }
  destruct Hb' as (b' & ->).
  assert (Hrl : removelast (a ++ "("%char :: b' ++ [")"%char])
                = a ++ "("%char :: b').
  { change (a ++ "("%char :: b' ++ [")"%char])
      with (a ++ ("("%char :: b') ++ [")"%char]).
    rewrite app_assoc. apply removelast_last. }
  rewrite Hrl in Hs.
  assert (Hsk : skipn (S (S i)) (a ++ "("%char :: b') = b').
  { change (a ++ "("%char :: b') with (a ++ ["("%char] ++ b').
    rewrite app_assoc. rewrite skipn_app.
    rewrite skipn_all2 by (rewrite length_app; cbn [length]; lia).
    rewrite length_app. cbn [length app].
    replace (S (S i) - (length a + 1)) with 0 by lia. reflexivity. }
  rewrite Hsk in Hs. subst b'. cbn [app].
  rewrite firstn_app, <- Ha, firstn_all, Nat.sub_diag. cbn [firstn].
  rewrite app_nil_r. reflexivity.
Qed.

Lemma split_sources (g3 : str) :
  snd (DbLoader.split_source_app g3) = snd (split_source g3)
  /\ (snd (split_source g3) <> [] ->
      fst (DbLoader.split_source_app g3) = fst (split_source g3))
  /\ (snd (split_source g3) = [] ->
      fst (DbLoader.split_source_app g3) = fst (split_source g3)
      \/ exists front,
           fst (DbLoader.split_source_app g3) = front ++ py "()"
           /\ fst (split_source g3) = strip front).
Proof.
  unfold DbLoader.split_source_app, split_source. cbv zeta.
  destruct (rfind "(" (strip g3)) as [[|i]|] eqn:Er;
    try (cbn [fst snd]; repeat split; auto; congruence).
  destruct (endswith_char ")" (strip g3)) eqn:Ee;
    try (cbn [fst snd]; repeat split; auto; congruence).
  destruct (skipn (S (S i)) (removelast (strip g3))) as [|c src] eqn:Es;
    cbn [fst snd].
  - repeat split; [congruence|]. intros _. right.
    exists (firstn (S i) (strip g3)). split; [|reflexivity].
    now apply empty_suffix.
  - repeat split; auto; congruence.
Qed.

End SiblingFacts.

(** X26: the chat parser of the relational store, [_parse_chats], and the
    one of the in-memory store, [parse_chats], accept the same lines and
    agree on timestamp, sender and source of every message; they agree on
    the body too unless the line ends in an empty pair of parentheses, which
    [_parse_chats] leaves in the body and [parse_chats] cuts off. *)
Theorem chat_parsers_agree (line : str) :
  match parse_chat_line line, DbLoader._parse_chat_line line with
  | Some m, Some r =>
      exists b,
        r = [ (py "timestamp", timestamp m); (py "sender", sender m);
              (py "body", b); (py "source_app", source m) ]
        /\ (source m <> [] -> b = body m)
        /\ (source m = [] ->
            b = body m \/ exists front, b = front ++ py "()"
                                        /\ body m = strip front)
  | None, None => True
  | _, _ => False
  end.
Proof.
  unfold parse_chat_line, DbLoader._parse_chat_line, bind.
  destruct (match_msg line) as [[[ts snd_] g3]|]; [|exact I].
  destruct (SiblingFacts.split_sources g3) as (H1 & H2 & H3).
  destruct (split_source g3) as [b src].
  destruct (DbLoader.split_source_app g3) as [b' src'].
  cbn [fst snd timestamp sender body source] in *. subst src'.
  exists b'. auto.
Qed.

(** ** Extractions of one device *)

Module RmrFacts.

Import Store DbLoader.

Definition plain (s : str) : bool :=
  forallb (fun c => negb (Ascii.eqb c "_") && negb (Ascii.eqb c nl)) s.

Lemma suffixes_plain : forallb plain SUFFIXES = true.
Proof. vm_compute. reflexivity. Qed.

Lemma match_alt_inv (s a : str) :
  match_alt s = Some a ->
  In a SUFFIXES /\ exists r, s = a ++ r /\ at_end r = true.
Proof.
  unfold match_alt. intros H. apply find_some in H. destruct H as [Hin H].
  split; [exact Hin|]. destruct (lit a s) as [r|] eqn:E; [|discriminate].
  apply lit_inv in E. eauto.
Qed.

Lemma match_alt_underscore (s : str) :
  In "_"%char s -> match_alt s = None.
Proof.
  intros Hin. destruct (match_alt s) as [a|] eqn:E; [|reflexivity].
  apply match_alt_inv in E. destruct E as (Ha & r & -> & Hr).
  pose proof suffixes_plain as Hp. rewrite forallb_forall in Hp.
  specialize (Hp a Ha). unfold plain in Hp. rewrite forallb_forall in Hp.
  apply in_app_or in Hin. destruct Hin as [Hin|Hin].
  - specialize (Hp _ Hin). cbn in Hp. discriminate Hp.
  - destruct r as [|c [|d r]]; [destruct Hin | | discriminate Hr].
    cbn [at_end] in Hr. apply Ascii.eqb_eq in Hr. subst c.
    destruct Hin as [Hc|[]]. discriminate Hc.
Qed.

Lemma match_alt_self (alt : str) :
  In alt SUFFIXES -> match_alt alt = Some alt.
Proof.
  unfold SUFFIXES. cbn [In].
  intros H. repeat (destruct H as [<-|H]; [vm_compute; reflexivity|]).
  destruct H.
Qed.

Lemma no_suffix_inside (front alt : str) :
  front <> [] ->
  match_suffix_at (front ++ py "_" ++ alt) = None.
Proof.
  intros Hne. destruct front as [|c front]; [congruence|].
  assert (H : match_alt ((c :: front) ++ py "_" ++ alt) = None).
  { apply match_alt_underscore. apply in_or_app. right. now left. }
  cbn [app] in *. unfold match_suffix_at.
  destruct (Ascii.eqb_spec c "_"%char) as [->|Hc].
  - rewrite H. rewrite match_alt_underscore; [reflexivity|].
    apply in_or_app. right. now left.
  - destruct c as [[] [] [] [] [] [] [] []]; try exact H. congruence.
Qed.

Lemma search_suffix_found (front alt : str) (i : nat) :
  In alt SUFFIXES ->
  search_suffix i (front ++ py "_" ++ alt) = Some (i + length front, alt).
Proof.
  intros Ha. revert i. induction front as [|c front IH]; intros i.
  - cbn [app py list_ascii_of_string search_suffix match_suffix_at].
    rewrite (match_alt_self _ Ha). f_equal. f_equal. cbn [length]. lia.
  - assert (Hin : match_suffix_at (c :: front ++ py "_" ++ alt) = None).
    { apply (no_suffix_inside (c :: front)). discriminate. }
    change ((c :: front) ++ py "_" ++ alt) with (c :: front ++ py "_" ++ alt).
    cbn [search_suffix]. rewrite Hin, IH. f_equal. f_equal. cbn [length]. lia.
Qed.

(** No suffix stands at the end of [s]. *)
Definition unsuffixed (s : str) : Prop :=
  forall alt front r, In alt SUFFIXES -> at_end r = true ->
                      s <> front ++ alt ++ r.

Lemma search_suffix_none (s : str) (i : nat) :
  unsuffixed s -> search_suffix i s = None.
Proof.
  revert i. induction s as [|c s IH]; intros i Hs.
  - cbn [search_suffix].
    destruct (match_suffix_at []) as [a|] eqn:E; [|reflexivity].
    cbn [match_suffix_at] in E. apply match_alt_inv in E.
    destruct E as (Ha & r & Hr & He). exfalso.
    apply (Hs a [] r Ha He). exact Hr.
  - cbn [search_suffix].
    assert (Hnone : match_suffix_at (c :: s) = None).
    { assert (H1 : match_alt (c :: s) = None).
      { destruct (match_alt (c :: s)) as [a|] eqn:E; [|reflexivity].
        apply match_alt_inv in E. destruct E as (Ha & r & Hr & He).
        exfalso. apply (Hs a [] r Ha He). exact Hr. }
      assert (H2 : match_alt s = None).
      { destruct (match_alt s) as [a|] eqn:E; [|reflexivity].
        apply match_alt_inv in E. destruct E as (Ha & r & Hr & He).
        exfalso. apply (Hs a [c] r Ha He). cbn [app]. now rewrite Hr. }
      unfold match_suffix_at.
      destruct c as [[] [] [] [] [] [] [] []]; try exact H1.
      now rewrite H2. }
    rewrite Hnone. apply IH. intros alt front r Ha He Heq.
    apply (Hs alt (c :: front) r Ha He). cbn [app]. now rewrite Heq.
Qed.

Record base_type (base : str) : Prop := {
  base_some : base <> [];
  base_left : Loader.lstrip_chars (py "_") base = base;
  base_right : Loader.rstrip_chars (py "_") base = base
}.

Lemma lstrip_underscore (s : str) :
  Loader.lstrip_chars (py "_") (py "_" ++ s) = Loader.lstrip_chars (py "_") s.
Proof. reflexivity. Qed.

Lemma lstrip_chars_app (chars s t : str) :
  s <> [] -> Loader.lstrip_chars chars s = s ->
  Loader.lstrip_chars chars (s ++ t) = s ++ t.
Proof.
  destruct s as [|c s]; [congruence|]. intros _.
  cbn [Loader.lstrip_chars app]. destruct (Loader.in_chars chars c); [|auto].
  intros H. exfalso.
  assert (Hl : forall u, length (Loader.lstrip_chars chars u) <= length u).
  { induction u as [|x u IHu]; cbn [Loader.lstrip_chars length]; [lia|].
    destruct (Loader.in_chars chars x); cbn [length]; lia. }
  specialize (Hl s). rewrite H in Hl. cbn [length] in Hl. lia.
Qed.

Lemma head (ds after : str) :
  ds <> [] -> forallb isdigit ds = true ->
  span isdigit (ds ++ py "_" ++ after) = (ds, py "_" ++ after).
Proof. intros _ Hd. now apply span_app. Qed.

End RmrFacts.

(** X27: [_extract_rmr_base] takes the identifier of an extraction apart:
    for a number of at least one digit, a device type that is not empty and
    neither begins nor ends with an underscore, and any of the six
    extraction suffixes, the identifier [RMR<number>_<type>_<suffix>] gives
    the base [RMR<number>], the type and the suffix; the identifier
    [RMR<number>_<type>] without a suffix at its end gives the same base and
    type with an empty suffix, so the extractions of one device are grouped
    under one number. *)
Theorem extractions_share_base (number base suffix : str) :
  number <> [] -> forallb isdigit number = true ->
  RmrFacts.base_type base -> In suffix DbLoader.SUFFIXES ->
  DbLoader._extract_rmr_base
    (py "RMR" ++ number ++ py "_" ++ base ++ py "_" ++ suffix)
  = Some (py "RMR" ++ number, base, suffix)
  /\ (RmrFacts.unsuffixed base ->
      DbLoader._extract_rmr_base (py "RMR" ++ number ++ py "_" ++ base)
      = Some (py "RMR" ++ number, base, [])).
Proof.
  intros Hne Hd [Hb Hl Hr] Hs. unfold DbLoader._extract_rmr_base, bind. split.
  - rewrite lit_app, (RmrFacts.head _ _ Hne Hd).
    destruct number as [|c number]; [congruence|].
    rewrite RmrFacts.lstrip_underscore.
    rewrite (RmrFacts.lstrip_chars_app _ _ _ Hb Hl).
    rewrite (RmrFacts.search_suffix_found _ _ 0 Hs). cbn [Nat.add].
    rewrite firstn_app, firstn_all, Nat.sub_diag. cbn [firstn].
    rewrite app_nil_r, Hr. reflexivity.
  - intros Hu. rewrite lit_app.
    rewrite <- (app_nil_r base) at 1.
    rewrite (RmrFacts.head _ _ Hne Hd).
    destruct number as [|c number]; [congruence|].
    rewrite RmrFacts.lstrip_underscore, app_nil_r, Hl.
    rewrite (RmrFacts.search_suffix_none _ 0 Hu). reflexivity.
Qed.

Lemma extractions_share_base_witness :
  DbLoader._extract_rmr_base
    (py "RMR" ++ py "034376" ++ py "_" ++ py "HPDesktop" ++ py "_"
     ++ py "nonPriv")
  = Some (py "RMR" ++ py "034376", py "HPDesktop", py "nonPriv")
  /\ (RmrFacts.unsuffixed (py "HPDesktop") ->
      DbLoader._extract_rmr_base
        (py "RMR" ++ py "034376" ++ py "_" ++ py "HPDesktop")
      = Some (py "RMR" ++ py "034376", py "HPDesktop", [])).
Proof.
  apply (extractions_share_base (py "034376") (py "HPDesktop") (py "nonPriv")).
  - discriminate.
  - vm_compute. reflexivity.
  - split; [discriminate | vm_compute; reflexivity | vm_compute; reflexivity].
  - vm_compute. auto.
Defined.

(** ** Sorted discoveries *)

Module RankingFacts.

Import Store Discovery Ranking.

(** The order by importance: more flames first; among equals the verified
    first; among those the earlier timestamp first, none at all counting as
    the earliest. *)
Definition importance (a b : discovery) : Prop :=
  flames b < flames a
  \/ (flames a = flames b
      /\ ((verified a = true /\ verified b = false)
          \/ (verified a = verified b
              /\ leb (timestamp_or [] a) (timestamp_or [] b) = true))).

Lemma importance_spec (a b : discovery) :
  by_importance a b = true <-> importance a b.
Proof.
  unfold by_importance, importance.
  rewrite !orb_true_iff, !andb_true_iff, orb_true_iff, !andb_true_iff,
    Nat.ltb_lt, Nat.eqb_eq, negb_true_iff, eqb_true_iff.
  reflexivity.
Qed.

Lemma importance_total (a b : discovery) :
  by_importance a b = true \/ by_importance b a = true.
Proof.
  rewrite !importance_spec. unfold importance.
  destruct (Nat.lt_trichotomy (flames a) (flames b)) as [H|[H|H]]; auto.
  destruct (PyFacts.leb_total (timestamp_or [] a) (timestamp_or [] b)) as [L|L];
    destruct (verified a) eqn:Va, (verified b) eqn:Vb;
    solve [ left; right; split; [exact H|]; auto
          | right; right; split; [symmetry; exact H|]; auto ].
Qed.

Lemma importance_trans (a b c : discovery) :
  by_importance a b = true -> by_importance b c = true ->
  by_importance a c = true.
Proof.
  rewrite !importance_spec. unfold importance.
  intros [H1|[H1 V1]] [H2|[H2 V2]]; try (left; lia).
  right. split; [congruence|].
  destruct V1 as [[A B]|[E1 L1]], V2 as [[B' C]|[E2 L2]]; try congruence.
  - left. split; congruence.
  - left. split; congruence.
  - right. split; [congruence|]. eapply PyFacts.leb_trans; eassumption.
Qed.

Lemma date_desc_total (a b : discovery) :
  by_date_desc a b = true \/ by_date_desc b a = true.
Proof. unfold by_date_desc. apply PyFacts.leb_total. Qed.

Lemma date_desc_trans (a b c : discovery) :
  by_date_desc a b = true -> by_date_desc b c = true ->
  by_date_desc a c = true.
Proof. unfold by_date_desc. intros H1 H2. eapply PyFacts.leb_trans; eassumption. Qed.

Lemma date_asc_total (a b : discovery) :
  by_date_asc a b = true \/ by_date_asc b a = true.
Proof. unfold by_date_asc. apply PyFacts.leb_total. Qed.

Lemma date_asc_trans (a b c : discovery) :
  by_date_asc a b = true -> by_date_asc b c = true -> by_date_asc a c = true.
Proof. unfold by_date_asc. intros H1 H2. eapply PyFacts.leb_trans; eassumption. Qed.

(** What is sorted: the selection of the scan result. *)
Definition selected
  (cellebrite_data : list (str * list (str * list row)))
  (device_map : list (str * row)) (category person : str) : list discovery :=
  get_discoveries cellebrite_data device_map category person (py "scan order").

Lemma get_cases
  (cellebrite_data : list (str * list (str * list row)))
  (device_map : list (str * row)) (category person sort : str) :
  get_discoveries cellebrite_data device_map category person sort
  = let l := selected cellebrite_data device_map category person in
    if eqb sort (py "importance") then Py.sort_by by_importance l
    else if eqb sort (py "date") then Py.sort_by by_date_desc l
    else if eqb sort (py "date_asc") then Py.sort_by by_date_asc l
    else l.
Proof. reflexivity. Qed.

Lemma selected_subseq
  (cellebrite_data : list (str * list (str * list row)))
  (device_map : list (str * row)) (category person : str) :
  PyFacts.subseq (selected cellebrite_data device_map category person)
    (scan_discoveries cellebrite_data device_map).
Proof.
  unfold selected, get_discoveries. cbv zeta.
  change (eqb (py "scan order") (py "importance")) with false.
  change (eqb (py "scan order") (py "date")) with false.
  change (eqb (py "scan order") (py "date_asc")) with false. cbv iota.
  eapply PyFacts.subseq_trans.
  - destruct (eqb person (py "all"));
      [apply PyFacts.subseq_refl | apply PyFacts.subseq_filter].
  - destruct (eqb category (py "all"));
      [apply PyFacts.subseq_refl | apply PyFacts.subseq_filter].
Qed.

Lemma selected_all
  (cellebrite_data : list (str * list (str * list row)))
  (device_map : list (str * row)) :
  selected cellebrite_data device_map (py "all") (py "all")
  = scan_discoveries cellebrite_data device_map.
Proof. reflexivity. Qed.

End RankingFacts.

(** X28: [get_discoveries] of the discovery engine returns a rearrangement
    of the discoveries that pass its two filters, all discoveries of the
    scan when both filters are [all]: in order of importance (more flames
    first, then verified before unverified, then the earlier timestamp) for
    the sort [importance], by descending timestamp for [date], by ascending
    timestamp for [date_asc], a discovery without timestamp counting as
    [9999], and in the order of the scan for any other sort. *)
Theorem engine_discoveries_sorted
  (cellebrite_data : list (str * list (str * list Store.row)))
  (device_map : list (str * Store.row)) (category person sort : str) :
  let get := Ranking.get_discoveries cellebrite_data device_map category person in
  let passed := RankingFacts.selected cellebrite_data device_map category person in
  Permutation (get sort) passed
  /\ PyFacts.subseq passed
       (Discovery.scan_discoveries cellebrite_data device_map)
  /\ RankingFacts.selected cellebrite_data device_map (py "all") (py "all")
     = Discovery.scan_discoveries cellebrite_data device_map
  /\ StronglySorted RankingFacts.importance (get (py "importance"))
  /\ StronglySorted
       (fun a b => leb (Ranking.timestamp_or (py "9999") b)
                     (Ranking.timestamp_or (py "9999") a) = true)
       (get (py "date"))
  /\ StronglySorted
       (fun a b => leb (Ranking.timestamp_or (py "9999") a)
                     (Ranking.timestamp_or (py "9999") b) = true)
       (get (py "date_asc"))
  /\ (sort <> py "importance" -> sort <> py "date" -> sort <> py "date_asc" ->
      get sort = passed).
Proof.
  cbv zeta. split; [|split; [|split; [|split; [|split; [|split]]]]].
  - rewrite RankingFacts.get_cases. cbv zeta.
    destruct (eqb sort (py "importance")); [apply SortFacts.sort_perm|].
    destruct (eqb sort (py "date")); [apply SortFacts.sort_perm|].
    destruct (eqb sort (py "date_asc")); [apply SortFacts.sort_perm|].
    reflexivity.
  - apply RankingFacts.selected_subseq.
  - apply RankingFacts.selected_all.
  - rewrite RankingFacts.get_cases. cbv zeta.
    change (eqb (py "importance") (py "importance")) with true. cbv iota.
    eapply SortFacts.sorted_weaken;
      [intros a b; apply RankingFacts.importance_spec|].
    apply (PyFacts.sort_by_sorted Ranking.by_importance
             RankingFacts.importance_total RankingFacts.importance_trans).
  - rewrite RankingFacts.get_cases. cbv zeta.
    change (eqb (py "date") (py "importance")) with false.
    change (eqb (py "date") (py "date")) with true. cbv iota.
    apply (PyFacts.sort_by_sorted Ranking.by_date_desc
             RankingFacts.date_desc_total RankingFacts.date_desc_trans).
  - rewrite RankingFacts.get_cases. cbv zeta.
    change (eqb (py "date_asc") (py "importance")) with false.
    change (eqb (py "date_asc") (py "date")) with false.
    change (eqb (py "date_asc") (py "date_asc")) with true. cbv iota.
    apply (PyFacts.sort_by_sorted Ranking.by_date_asc
             RankingFacts.date_asc_total RankingFacts.date_asc_trans).
  - intros H1 H2 H3. rewrite RankingFacts.get_cases. cbv zeta.
    apply eqb_neq in H1, H2, H3. now rewrite H1, H2, H3.
Qed.
